(** * claude-export: the session exporters, embedded and verified

    Shallow embedding of [scripts/export-continue.js] (the compact JSON
    handoff) and [scripts/export-chat.js] (the Markdown transcript).

    Conventions of the embedding.
    - A parsed log record is a JavaScript value as [JSON.parse] returns it:
      the type [value] below.  Numbers are the integers ([Z]) plus [NaN].
    - A JavaScript string is a [string] that holds the bytes of its UTF-8
      form, as the files do; a surrogate that stands alone is held as
      the three bytes the scheme gives its code.  JavaScript counts, cuts
      and trims in UTF-16 code units: [Str.length], [Str.substring] and
      [Str.trim] do so on the bytes.  A search compares bytes, and finds
      what JavaScript finds when the text sought neither begins with a
      low surrogate nor ends with a high one.  [String.length] is the
      number of bytes, the size of a file.
    - A function that can leave the schema of the log returns an
      [option]: [None] stands for a run in which an operation meets a
      value of a type the schema does not give it (a property read on
      [null], a string method on a number, an array or an object), where
      JavaScript throws a [TypeError] or goes on with a value that is no
      string.  A result [Some r] is what the script computes.
    - A JavaScript object used as a dictionary is a [gmap] when it is only
      read by key, and an association list in creation order when its
      keys are enumerated.  A key may name a member the dictionary
      inherits from [Object.prototype].  Where the script reads
      [map[id]?.content], the member holds nothing and stands for a
      missing result, and where [formatToolCall] tests the result itself
      it is a result without content ([resultOf]); in [fileChanges] an
      [Edit] writes on the member and adds no entry ([assignOwn]).  Two
      cases are left out, and a function returns [None] there as well:
      the key [__proto__], on which an assignment replaces the
      prototype, and a tool name that [Object.prototype] answers in
      [toolBreakdown], whose count becomes a string.  A theorem whose
      property would fail in such a run has the exclusion among its
      hypotheses.
    - A conversion to a string ([String(v)], a template literal, a
      property key, [join]) is [stringOf]: it throws on an object of the
      log that has a property [toString].
    - What the scripts take from outside (the runtime's [JSON] and
      [Date], the process directory, the [git] commands, the clock) is a
      field of the record [Host]; the sessions directory is a [Dir];
      what the command line alone takes (Node's [path] and [os], the
      files outside the sessions directory) is a [Sys]. *)

From Stdlib Require Import ZArith List String Ascii Bool Lia DecimalString.
From stdpp Require Import base option list gmap strings.

Open Scope string_scope.
Open Scope list_scope.
Open Scope Z_scope.

(* ================================================================== *)
(** * JavaScript strings *)
(* ================================================================== *)

Module Str.

(** A text is stored as the bytes of its UTF-8 form, which is what the
    files hold; a surrogate that stands alone, as a cut through a pair
    leaves it, is stored as the three bytes the same scheme gives its
    code.  [take] and [drop] count bytes: they serve the positions of a
    search and the window of a [Buffer]. *)
Fixpoint take (n : nat) (s : string) : string :=
  match n, s with
  | S n', String c s' => String c (take n' s')
  | _, _ => ""
  end.

Fixpoint drop (n : nat) (s : string) : string :=
  match n, s with
  | S n', String _ s' => drop n' s'
  | _, _ => s
  end.

(** The bytes from offset [a] up to offset [b] of a buffer. *)
Definition slice (s : string) (a b : Z) : string :=
  let len := Z.of_nat (String.length s) in
  let a' := Z.max 0 (Z.min a len) in
  let b' := Z.max 0 (Z.min b len) in
  let lo := Z.min a' b' in
  let hi := Z.max a' b' in
  take (Z.to_nat (hi - lo)) (drop (Z.to_nat lo) s).

(** JavaScript counts and cuts a string in UTF-16 code units.  A byte
    [10xxxxxx] continues a character; any other byte opens one. *)
Definition isCont (c : ascii) : bool :=
  let '(Ascii _ _ _ _ _ _ b6 b7) := c in b7 && negb b6.

(** The code units of the character a byte opens: two for [11110xxx],
    whose character lies beyond the basic plane and is a surrogate pair,
    one for any other opening byte, none for a continuation. *)
Definition units (c : ascii) : nat :=
  let '(Ascii _ _ _ _ b4 b5 b6 b7) := c in
  if negb b7 then 1%nat
  else if negb b6 then 0%nat
  else if b5 && b4 then 2%nat
  else 1%nat.

(** The continuation bytes the opening byte announces. *)
Definition tail (c : ascii) : nat :=
  let '(Ascii _ _ _ _ b4 b5 b6 b7) := c in
  if negb (b7 && b6) then 0%nat
  else if negb b5 then 1%nat
  else if negb b4 then 2%nat
  else 3%nat.

(** [s.length]. *)
Fixpoint length (s : string) : nat :=
  match s with
  | "" => 0%nat
  | String c s' => (units c + length s')%nat
  end.

(** At most [k] continuation bytes at the start of [s], kept and
    dropped. *)
Fixpoint takeCont (k : nat) (s : string) : string :=
  match k, s with
  | S k', String c s' => if isCont c then String c (takeCont k' s') else ""
  | _, _ => ""
  end.

Fixpoint skipCont (k : nat) (s : string) : string :=
  match k, s with
  | S k', String c s' => if isCont c then skipCont k' s' else s
  | _, _ => s
  end.

(** The byte at a position, for the continuation bytes of a character. *)
Definition byteAt (n : nat) (s : string) : ascii :=
  match String.get n s with
  | Some c => c
  | None => "128"%char
  end.

(** The two halves of the pair of a character of four bytes
    [11110ccc 10pppppp 10qqqqqq 10rrrrrr].  With [u] the five bits
    [ccc pp] and [w = u - 1], the high surrogate is
    [110110 wwww pppp qq] and the low one [110111 qqqq rrrrrr]; each is
    stored as [11101101 10xxxxxx 10xxxxxx]. *)
Definition highHalf (c b1 b2 : ascii) : string :=
  let '(Ascii c0 c1 c2 _ _ _ _ _) := c in
  let '(Ascii p0 p1 p2 p3 p4 p5 _ _) := b1 in
  let '(Ascii _ _ _ _ q4 q5 _ _) := b2 in
  let '(Ascii w0 w1 w2 w3 _ _ _ _) :=
    ascii_of_N (N.pred (N_of_ascii (Ascii p4 p5 c0 c1 c2 false false false))) in
  String "237" (String (Ascii w0 w1 w2 w3 false true false true)
                  (String (Ascii q4 q5 p0 p1 p2 p3 false true) "")).

Definition lowHalf (b2 b3 : ascii) : string :=
  let '(Ascii q0 q1 q2 q3 _ _ _ _) := b2 in
  let '(Ascii r0 r1 r2 r3 r4 r5 _ _) := b3 in
  String "237" (String (Ascii q0 q1 q2 q3 true true false true)
                  (String (Ascii r0 r1 r2 r3 r4 r5 false true) "")).

(** [s.substring(0, n)] for a natural [n]: the first [n] code units.
    A cut through a pair keeps its high surrogate. *)
Fixpoint takeUnits (n : nat) (s : string) {struct s} : string :=
  match s, n with
  | String c s', S _ =>
      if isCont c then String c (takeUnits n s')
      else if (units c <=? n)%nat then
        String c (match (n - units c)%nat with
                  | O => takeCont (tail c) s'
                  | m => takeUnits m s'
                  end)
      else highHalf c (byteAt 0 s') (byteAt 1 s')
  | _, _ => ""
  end.

(** [s.substring(n)] for a natural [n]: [s] without its first [n] code
    units.  A cut through a pair keeps its low surrogate. *)
Fixpoint dropUnits (n : nat) (s : string) {struct s} : string :=
  match s, n with
  | String c s', S _ =>
      if isCont c then dropUnits n s'
      else if (units c <=? n)%nat then
        match (n - units c)%nat with
        | O => skipCont (tail c) s'
        | m => dropUnits m s'
        end
      else lowHalf (byteAt 1 s') (byteAt 2 s') +:+ skipCont 3 s'
  | _, _ => s
  end.

(** [s.substring(a, b)]: both ends are clamped to [0, s.length] and
    swapped when out of order. *)
Definition substring (s : string) (a b : Z) : string :=
  let len := Z.of_nat (length s) in
  let a' := Z.max 0 (Z.min a len) in
  let b' := Z.max 0 (Z.min b len) in
  let lo := Z.min a' b' in
  let hi := Z.max a' b' in
  takeUnits (Z.to_nat (hi - lo)) (dropUnits (Z.to_nat lo) s).

(** [s.substring(a)]. *)
Definition substringFrom (s : string) (a : Z) : string :=
  dropUnits (Z.to_nat (Z.max 0 a)) s.

(** [s.startsWith(p)]. *)
Definition startsWith (s p : string) : bool := String.prefix p s.

Fixpoint rev_onto (s acc : string) : string :=
  match s with
  | "" => acc
  | String c s' => rev_onto s' (String c acc)
  end.

Definition rev (s : string) : string := rev_onto s "".

(** [s.endsWith(p)]. *)
Definition endsWith (s p : string) : bool := String.prefix (rev p) (rev s).

(** White space of [String.prototype.trim] and of the regular
    expression class [\s]: the white space and the line terminators of
    ECMAScript.  Six are ASCII (tab, line feed, vertical tab, form feed,
    carriage return, space); the others are U+00A0 (bytes [C2 A0]),
    U+1680 ([E1 9A 80]), U+2000 to U+200A, U+2028, U+2029 and U+202F
    ([E2 80 ..]), U+205F ([E2 81 9F]), U+3000 ([E3 80 80]) and U+FEFF
    ([EF BB BF]). *)
Definition isSpace (c : ascii) : bool :=
  let n := nat_of_ascii c in
  ((9 <=? n)%nat && (n <=? 13)%nat) || (n =? 32)%nat.

Definition isSpace2 (c1 c2 : ascii) : bool :=
  (nat_of_ascii c1 =? 194)%nat && (nat_of_ascii c2 =? 160)%nat.

Definition isSpace3 (c1 c2 c3 : ascii) : bool :=
  let a := nat_of_ascii c1 in
  let b := nat_of_ascii c2 in
  let c := nat_of_ascii c3 in
  ((a =? 225) && (b =? 154) && (c =? 128))%nat
  || ((a =? 226) && (b =? 128)
      && (((128 <=? c) && (c <=? 138)) || (c =? 168) || (c =? 169) || (c =? 175)))%nat
  || ((a =? 226) && (b =? 129) && (c =? 159))%nat
  || ((a =? 227) && (b =? 128) && (c =? 128))%nat
  || ((a =? 239) && (b =? 187) && (c =? 191))%nat.

(** The white space at the start of [s], removed; [two] and [three]
    tell the white space of two and of three bytes. *)
Fixpoint stripSpaces (two : ascii -> ascii -> bool)
    (three : ascii -> ascii -> ascii -> bool) (s : string) : string :=
  match s with
  | String c1 s1 =>
      if isSpace c1 then stripSpaces two three s1
      else match s1 with
           | String c2 s2 =>
               if two c1 c2 then stripSpaces two three s2
               else match s2 with
                    | String c3 s3 =>
                        if three c1 c2 c3 then stripSpaces two three s3 else s
                    | "" => s
                    end
           | "" => s
           end
  | "" => ""
  end.

Definition trimStart (s : string) : string := stripSpaces isSpace2 isSpace3 s.

(** From the end the bytes of a character come in reverse. *)
Definition trimEnd (s : string) : string :=
  rev (stripSpaces (fun c2 c1 => isSpace2 c1 c2)
         (fun c3 c2 c1 => isSpace3 c1 c2 c3) (rev s)).

(** [s.trim()]. *)
Definition trim (s : string) : string := trimEnd (trimStart s).

(** [s.split(c)] for a separator of one character: never empty. *)
Fixpoint split (c : ascii) (s : string) : list string :=
  match s with
  | "" => [""]
  | String d s' =>
      if Ascii.eqb d c then "" :: split c s'
      else match split c s' with
           | l :: ls => String d l :: ls
           | [] => [String d ""]
           end
  end.

Definition newline : ascii := "010"%char.

(** [s.split("\n")]. *)
Definition lines (s : string) : list string := split newline s.

(** [l.join(sep)] on strings. *)
Definition join (sep : string) (l : list string) : string := String.concat sep l.

(** [s.replace(/\\/g, "/")]. *)
Fixpoint backslashesToSlashes (s : string) : string :=
  match s with
  | "" => ""
  | String c s' =>
      String (if Ascii.eqb c "\"%char then "/"%char else c) (backslashesToSlashes s')
  end.

(** [s.replace(/\n/g, " ")]. *)
Fixpoint newlinesToSpaces (s : string) : string :=
  match s with
  | "" => ""
  | String c s' =>
      String (if Ascii.eqb c newline then " "%char else c) (newlinesToSpaces s')
  end.

(** [s.indexOf(p)]: the first position where [p] occurs, counted in
    bytes. *)
Fixpoint indexOf (p s : string) : option nat :=
  if String.prefix p s then Some 0%nat
  else match s with
       | "" => None
       | String _ s' => S <$> indexOf p s'
       end.

(** [s.lastIndexOf(p)]: the last position where [p] occurs, counted in
    bytes. *)
Fixpoint lastIndexOf (p s : string) : option nat :=
  match s with
  | "" => if String.prefix p s then Some 0%nat else None
  | String _ s' =>
      match lastIndexOf p s' with
      | Some i => Some (S i)
      | None => if String.prefix p s then Some 0%nat else None
      end
  end.

(** The index JavaScript gives the position [i]: the code units before
    it. *)
Definition unitsBefore (i : nat) (s : string) : nat := length (take i s).

(** [String(n)] for an integer. *)
Definition ofZ (n : Z) : string := NilZero.string_of_int (Z.to_int n).

Definition nonEmpty (s : string) : bool := negb (String.eqb s "").

(** A map over the characters, for a [replace] of single characters
    with the flag [g]. *)
Fixpoint mapChars (f : ascii -> ascii) (s : string) : string :=
  match s with
  | "" => ""
  | String c s' => String (f c) (mapChars f s')
  end.

Definition lowerChar (c : ascii) : ascii :=
  let n := nat_of_ascii c in
  if (65 <=? n)%nat && (n <=? 90)%nat then ascii_of_nat (n + 32) else c.

(** The bytes of a character below U+0800. *)
Definition encodeShort (code : nat) : string :=
  if (code <? 128)%nat then String (ascii_of_nat code) ""
  else String (ascii_of_nat (192 + code / 64))
         (String (ascii_of_nat (128 + code mod 64)) "").

(** Lower case of a letter from U+00C0 to U+017F: Latin-1 but the
    sign U+00D7, and Latin Extended-A, where U+0130 becomes [i] and the
    dot above, U+0307, and U+0178 becomes U+00FF. *)
Definition lowerCode (code : nat) : list nat :=
  if (192 <=? code)%nat && (code <=? 222)%nat && negb (code =? 215)%nat
  then [(code + 32)%nat]
  else if (code =? 304)%nat then [105%nat; 775%nat]
  else if (code =? 376)%nat then [255%nat]
  else if ((256 <=? code)%nat && (code <=? 303)%nat
           || (306 <=? code)%nat && (code <=? 311)%nat
           || (330 <=? code)%nat && (code <=? 375)%nat) && Nat.even code
  then [(code + 1)%nat]
  else if ((313 <=? code)%nat && (code <=? 328)%nat
           || (377 <=? code)%nat && (code <=? 382)%nat) && Nat.odd code
  then [(code + 1)%nat]
  else [code].

(** A sample of [toLowerCase]: the letters of ASCII, of Latin-1 and of
    Latin Extended-A (bytes [C3], [C4] and [C5] with their
    continuation); any other character is left as it is.  The mapping
    of the runtime is a field of [Sys]. *)
Fixpoint lowerLatin (s : string) : string :=
  match s with
  | "" => ""
  | String c s1 =>
      let n := nat_of_ascii c in
      match s1 with
      | String c1 s2 =>
          if (195 <=? n)%nat && (n <=? 197)%nat && isCont c1
          then String.concat ""
                 (map encodeShort
                    (lowerCode ((n - 192) * 64 + (nat_of_ascii c1 - 128))))
               +:+ lowerLatin s2
          else String (lowerChar c) (lowerLatin s1)
      | "" => String (lowerChar c) ""
      end
  end.

(** The character occurs in the string. *)
Fixpoint contains (c : ascii) (s : string) : bool :=
  match s with
  | "" => false
  | String d s' => Ascii.eqb d c || contains c s'
  end.

End Str.

(* ================================================================== *)
(** * JavaScript values and built-ins *)
(* ================================================================== *)

Module JS.

(** A value as [JSON.parse] builds it, with [undefined] and [NaN],
    which the scripts produce themselves. *)
#[warnings="-register-all"]
Inductive value : Type :=
| VUndef
| VNull
| VBool (b : bool)
| VNum (n : Z)
| VNaN
| VStr (s : string)
| VArr (l : list value)
| VObj (fields : list (string * value)).

(** [!!v]. *)
Definition truthy (v : value) : bool :=
  match v with
  | VUndef | VNull | VNaN => false
  | VBool b => b
  | VNum n => negb (n =? 0)%Z
  | VStr s => Str.nonEmpty s
  | VArr _ | VObj _ => true
  end.

(** [a || b]. *)
Definition or (a b : value) : value := if truthy a then a else b.

(** [v === undefined]. *)
Definition isUndef (v : value) : bool :=
  match v with
  | VUndef => true
  | _ => false
  end.

(** An own property of an object, [undefined] when there is none. *)
Fixpoint lookupField (k : string) (fields : list (string * value)) : value :=
  match fields with
  | [] => VUndef
  | (k', v) :: rest => if String.eqb k' k then v else lookupField k rest
  end.

(** [v?.k]. *)
Definition optProp (v : value) (k : string) : value :=
  match v with
  | VObj fields => lookupField k fields
  | _ => VUndef
  end.

(** [v.k]: throws on [null] and [undefined]. *)
Definition prop (v : value) (k : string) : option value :=
  match v with
  | VUndef | VNull => None
  | _ => Some (optProp v k)
  end.

(** [v === "s"]. *)
Definition isStr (v : value) (s : string) : bool :=
  match v with
  | VStr t => String.eqb t s
  | _ => false
  end.

(** The names an object literal inherits from [Object.prototype]. *)
Definition inherited (k : string) : bool :=
  existsb (String.eqb k)
    ["__proto__"; "constructor"; "hasOwnProperty"; "isPrototypeOf";
     "propertyIsEnumerable"; "toLocaleString"; "toString"; "valueOf";
     "__defineGetter__"; "__defineSetter__"; "__lookupGetter__";
     "__lookupSetter__"].

(** [Array.isArray(v)], with the elements. *)
Definition asArray (v : value) : option (list value) :=
  match v with
  | VArr l => Some l
  | _ => None
  end.

(** The receiver of a string method: anything but a string throws. *)
Definition asString (v : value) : option string :=
  match v with
  | VStr s => Some s
  | _ => None
  end.

(** [String(v)], as in a template literal, a [+] with a string or a
    property key, for a value the conversion accepts. *)
Fixpoint ToString (v : value) : string :=
  match v with
  | VUndef => "undefined"
  | VNull => "null"
  | VBool b => if b then "true" else "false"
  | VNum n => Str.ofZ n
  | VNaN => "NaN"
  | VStr s => s
  | VArr l =>
      Str.join "," (map (fun x => match x with
                                  | VUndef | VNull => ""
                                  | _ => ToString x
                                  end) l)
  | VObj _ => "[object Object]"
  end.

(** [String(v)] calls the method [toString] of an object.  An object
    of a log that holds a property [toString] of its own holds data
    there, no method, and the conversion throws; so it does on an array
    with such an element. *)
Fixpoint stringable (v : value) : bool :=
  match v with
  | VArr l => forallb stringable l
  | VObj fields => negb (existsb (fun kv => String.eqb (fst kv) "toString") fields)
  | _ => true
  end.

(** [String(v)], [None] when the conversion throws. *)
Definition stringOf (v : value) : option string :=
  if stringable v then Some (ToString v) else None.

Definition hexDigit (n : nat) : ascii :=
  ascii_of_nat (if (n <? 10)%nat then 48 + n else 87 + n).

(** One character inside a JSON string literal. *)
Definition quoteChar (c : ascii) : string :=
  let n := nat_of_ascii c in
  if (n =? 34)%nat then String "\"%char (String (ascii_of_nat 34) "")
  else if (n =? 92)%nat then "\\"
  else if (n =? 8)%nat then "\b"
  else if (n =? 9)%nat then "\t"
  else if (n =? 10)%nat then "\n"
  else if (n =? 12)%nat then "\f"
  else if (n =? 13)%nat then "\r"
  else if (n <? 32)%nat then
    "\u00" +:+ String (hexDigit (n / 16)) (String (hexDigit (n mod 16)) "")
  else String c "".

(** A surrogate that stands alone, [11101101 101xxxxx 10xxxxxx], is
    written as its escape [\udxxx]. *)
Definition isSurrogate (c c1 c2 : ascii) : bool :=
  (nat_of_ascii c =? 237)%nat
  && (160 <=? nat_of_ascii c1)%nat && (nat_of_ascii c1 <=? 191)%nat
  && Str.isCont c2.

Definition surrogateEscape (c1 c2 : ascii) : string :=
  let n1 := nat_of_ascii c1 in
  let n2 := nat_of_ascii c2 in
  "\ud" +:+ String (hexDigit ((n1 / 4) mod 16))
             (String (hexDigit ((n1 mod 4) * 4 + (n2 / 16) mod 4))
                (String (hexDigit (n2 mod 16)) "")).

(** A high half [ED 1010wwww 10ppppqq] that a low half
    [ED 1011qqqq 10rrrrrr] follows, as the removal of a tag between
    them leaves the two, is the pair of a character, and written as the
    four bytes of the character, the inverse of [Str.highHalf] and
    [Str.lowHalf]. *)
Definition pairChar (h1 h2 l1 l2 : ascii) : string :=
  let u := (nat_of_ascii h1 mod 16 + 1)%nat in
  let p := (nat_of_ascii h2 mod 64)%nat in
  String (ascii_of_nat (240 + u / 4))
    (String (ascii_of_nat (128 + (u mod 4) * 16 + p / 4))
       (String (ascii_of_nat (128 + (p mod 4) * 16 + nat_of_ascii l1 mod 16))
          (String (ascii_of_nat (128 + nat_of_ascii l2 mod 64)) ""))).

Fixpoint quoteChars (s : string) : string :=
  match s with
  | "" => ""
  | String c s1 =>
      match s1 with
      | String c1 (String c2 s3) =>
          if isSurrogate c c1 c2 then
            match s3 with
            | String d (String d1 (String d2 s6)) =>
                if (nat_of_ascii c1 <? 176)%nat && isSurrogate d d1 d2
                   && (176 <=? nat_of_ascii d1)%nat
                then pairChar c1 c2 d1 d2 +:+ quoteChars s6
                else surrogateEscape c1 c2 +:+ quoteChars s3
            | _ => surrogateEscape c1 c2 +:+ quoteChars s3
            end
          else quoteChar c +:+ quoteChars s1
      | _ => quoteChar c +:+ quoteChars s1
      end
  end.

Definition quote (s : string) : string :=
  String (ascii_of_nat 34) (quoteChars s +:+ String (ascii_of_nat 34) "").

(** [JSON.stringify(v)]: [None] is the result [undefined]. *)
Fixpoint JSON_stringify (v : value) : option string :=
  match v with
  | VUndef => None
  | VNull | VNaN => Some "null"
  | VBool b => Some (if b then "true" else "false")
  | VNum n => Some (Str.ofZ n)
  | VStr s => Some (quote s)
  | VArr l =>
      Some ("[" +:+ Str.join "," (map (fun x => default "null" (JSON_stringify x)) l)
                +:+ "]")
  | VObj fields =>
      Some ("{" +:+ Str.join ","
                      (omap (fun kv => (fun t => quote (fst kv) +:+ ":" +:+ t)
                                         <$> JSON_stringify (snd kv)) fields)
                +:+ "}")
  end.

(** [JSON.parse(JSON.stringify(v))] for a [v] other than [undefined]:
    properties holding [undefined] are gone, [undefined] in an array
    and [NaN] are [null]. *)
Fixpoint JSON_clone (v : value) : value :=
  match v with
  | VNaN => VNull
  | VArr l =>
      VArr (map (fun x => match x with
                          | VUndef => VNull
                          | _ => JSON_clone x
                          end) l)
  | VObj fields =>
      VObj (omap (fun kv => match snd kv with
                            | VUndef => None
                            | _ => Some (fst kv, JSON_clone (snd kv))
                            end) fields)
  | _ => v
  end.

(** [Object.keys]/[Object.entries] order of a dictionary whose
    association list is in creation order: keys that are array
    indices come first, by value, then the others as created. *)
Definition isDigit (c : ascii) : bool :=
  let n := nat_of_ascii c in (48 <=? n)%nat && (n <=? 57)%nat.

Fixpoint digitsValue (s : string) (acc : N) : option N :=
  match s with
  | "" => Some acc
  | String c s' =>
      if isDigit c then digitsValue s' (acc * 10 + N.of_nat (nat_of_ascii c - 48))%N
      else None
  end.

Definition arrayIndex (k : string) : option N :=
  match k with
  | "" => None
  | String c rest =>
      if Ascii.eqb c "0"%char && Str.nonEmpty rest then None
      else match digitsValue k 0%N with
           | Some n => if (n <? 4294967295)%N then Some n else None
           | None => None
           end
  end.

Fixpoint insertIndexed {A} (n : N) (x : A) (l : list (N * A)) : list (N * A) :=
  match l with
  | [] => [(n, x)]
  | (m, y) :: rest =>
      if (n <? m)%N then (n, x) :: l else (m, y) :: insertIndexed n x rest
  end.

Definition ownEntries {A} (o : list (string * A)) : list (string * A) :=
  let indexed :=
    foldr (fun kv acc => match arrayIndex (fst kv) with
                         | Some n => insertIndexed n kv acc
                         | None => acc
                         end) [] o in
  map snd indexed ++
  filter (fun kv => arrayIndex (fst kv) = None) o.

(** A loop [for (const x of l) body] whose body may throw. *)
Fixpoint forEach {A S} (body : S -> A -> option S) (l : list A) (s : S) : option S :=
  match l with
  | [] => Some s
  | x :: rest => s' ← body s x; forEach body rest s'
  end.

(** The digits at the start of a string, as a number; [seen] tells that
    there is one. *)
Fixpoint leadingDigits (s : string) (acc : Z) (seen : bool) : option Z :=
  match s with
  | String c s' =>
      if isDigit c
      then leadingDigits s' (acc * 10 + Z.of_nat (nat_of_ascii c - 48)) true
      else if seen then Some acc else None
  | "" => if seen then Some acc else None
  end.

(** An integer as a number of JavaScript, a double: beyond 2^53 the
    nearest one with 53 significant bits, the even one of two that are
    as near.  From 2^1024 on the number is [Infinity], for which the
    rounded integer stands; the scripts compare it with a count of
    lines. *)
Definition toDouble (n : Z) : Z :=
  let a := Z.abs n in
  if a <? 2 ^ 53 then n
  else
    let e := Z.log2 a - 52 in
    let q := Z.shiftr a e in
    let r := Z.land a (Z.ones e) in
    let half := Z.shiftl 1 (e - 1) in
    let q' := if (half <? r) || ((r =? half) && Z.odd q) then q + 1 else q in
    Z.sgn n * Z.shiftl q' e.

(** [parseInt(s, 10)]: white space, a sign, then the digits up to the
    first character that is none; [None] is [NaN]. *)
Definition parseInt10 (s : string) : option Z :=
  toDouble <$>
    match Str.trimStart s with
    | String "-" r => Z.opp <$> leadingDigits r 0 false
    | String "+" r => leadingDigits r 0 false
    | t => leadingDigits t 0 false
    end.

End JS.

(* ================================================================== *)
(** * A reference [JSON.parse] and [Date] *)
(* ================================================================== *)

(** The scripts are verified for any [JSON.parse] and any [Date] (fields
    of [Host] below).  The functions of this module are the instances
    the concrete runs of this file use.  [Json.parse] reads RFC 8259
    text; a number that is no integer, or that no double holds, has no
    place among the values of this file and is refused like a text that
    is none.  [Json.isoTime] reads the timestamps of the logs,
    [YYYY-MM-DDTHH:MM:SS] with or without a fraction of the second,
    then [Z] or an offset [+HH:MM]; a time without either is a local
    time, which this module does not place. *)
Module Json.

Import JS.

Definition isWs (c : ascii) : bool :=
  let n := nat_of_ascii c in
  (n =? 32)%nat || (n =? 9)%nat || (n =? 10)%nat || (n =? 13)%nat.

Fixpoint skipWs (s : string) : string :=
  match s with
  | String c s' => if isWs c then skipWs s' else s
  | "" => ""
  end.

Definition hexValue (c : ascii) : option N :=
  let n := N_of_ascii c in
  if (48 <=? n)%N && (n <=? 57)%N then Some (n - 48)%N
  else if (97 <=? n)%N && (n <=? 102)%N then Some (n - 87)%N
  else if (65 <=? n)%N && (n <=? 70)%N then Some (n - 55)%N
  else None.

(** The bytes of a code of the basic plane; a surrogate has the three
    bytes the scheme gives its code. *)
Definition utf8 (cp : N) : string :=
  if (cp <? 128)%N then String (ascii_of_N cp) ""
  else if (cp <? 2048)%N then
    String (ascii_of_N (192 + cp / 64))
      (String (ascii_of_N (128 + cp mod 64)) "")
  else
    String (ascii_of_N (224 + cp / 4096))
      (String (ascii_of_N (128 + (cp / 64) mod 64))
         (String (ascii_of_N (128 + cp mod 64)) "")).

(** The character of an escape before the text that follows it: a high
    surrogate and a low one that follows are the pair of one
    character. *)
Definition joinHalves (u t : string) : string :=
  match u, t with
  | String c (String c1 (String c2 "")), String d (String d1 (String d2 rest)) =>
      if isSurrogate c c1 c2 && (nat_of_ascii c1 <? 176)%nat
         && isSurrogate d d1 d2 && (176 <=? nat_of_ascii d1)%nat
      then pairChar c1 c2 d1 d2 +:+ rest
      else u +:+ t
  | _, _ => u +:+ t
  end.

(** The characters of a string literal after its opening quote. *)
Fixpoint parseChars (s : string) : option (string * string) :=
  match s with
  | "" => None
  | String c s' =>
      let n := nat_of_ascii c in
      if (n =? 34)%nat then Some ("", s')
      else if (n <? 32)%nat then None
      else if (n =? 92)%nat then
        match s' with
        | String e s'' =>
            let m := nat_of_ascii e in
            if (m =? 117)%nat then
              match s'' with
              | String a (String b (String c' (String d rest as r1) as r2) as r3) =>
                  ha ← hexValue a; hb ← hexValue b; hc ← hexValue c'; hd ← hexValue d;
                  '(t, after) ← parseChars rest;
                  Some (joinHalves (utf8 (((ha * 16 + hb) * 16 + hc) * 16 + hd)%N) t,
                        after)
              | _ => None
              end
            else
              ch ← (if (m =? 34)%nat then Some 34%nat
                    else if (m =? 92)%nat then Some 92%nat
                    else if (m =? 47)%nat then Some 47%nat
                    else if (m =? 98)%nat then Some 8%nat
                    else if (m =? 102)%nat then Some 12%nat
                    else if (m =? 110)%nat then Some 10%nat
                    else if (m =? 114)%nat then Some 13%nat
                    else if (m =? 116)%nat then Some 9%nat
                    else None);
              '(t, after) ← parseChars s'';
              Some (String (ascii_of_nat ch) t, after)
        | "" => None
        end
      else
        '(t, after) ← parseChars s';
        Some (String c t, after)
  end.

Fixpoint spanDigits (s : string) : string * string :=
  match s with
  | String c s' =>
      if isDigit c then let '(d, r) := spanDigits s' in (String c d, r) else ("", s)
  | "" => ("", "")
  end.

(** The digits of a fraction, after the point, and those of an
    exponent, after [e] and its sign; neither may be empty. *)
Definition parseFraction (s : string) : option (string * string) :=
  match s with
  | String "." r =>
      let '(fs, rest) := spanDigits r in
      if Str.nonEmpty fs then Some (fs, rest) else None
  | _ => Some ("", s)
  end.

Definition parseExponent (s : string) : option (Z * string) :=
  let digits (neg : bool) (r : string) :=
    let '(es, rest) := spanDigits r in
    e ← digitsValue es 0%N;
    if Str.nonEmpty es then Some (if neg then - Z.of_N e else Z.of_N e, rest)
    else None in
  match s with
  | String c r =>
      if Ascii.eqb c "e" || Ascii.eqb c "E" then
        match r with
        | String "-" r' => digits true r'
        | String "+" r' => digits false r'
        | _ => digits false r
        end
      else Some (0, s)
  | "" => Some (0, s)
  end.

(** A number: an optional minus sign, then 0 or a digit from 1 to 9
    with more digits, a fraction and an exponent.  The value is the
    double nearest to what is written. *)
Definition parseNumber (s : string) : option (value * string) :=
  let '(neg, s1) := match s with
                    | String "-" r => (true, r)
                    | _ => (false, s)
                    end in
  let '(ds, rest) := spanDigits s1 in
  match ds with
  | "" => None
  | String d0 more =>
      if Ascii.eqb d0 "0" && Str.nonEmpty more then None
      else
        '(fs, rest) ← parseFraction rest;
        '(e, rest) ← parseExponent rest;
        m ← digitsValue (ds +:+ fs) 0%N;
        let scale := e - Z.of_nat (String.length fs) in
        n ← (if 0 <=? scale then Some (Z.of_N m * 10 ^ scale)
             else if Z.of_N m mod 10 ^ (- scale) =? 0
                  then Some (Z.of_N m / 10 ^ (- scale))
                  else None);
        let d := toDouble n in
        if d <? 2 ^ 1024 then Some (VNum (if neg then - d else d), rest) else None
  end.

(** [o[k] = v] while an object is being built. *)
Fixpoint setField (k : string) (v : value) (o : list (string * value))
  : list (string * value) :=
  match o with
  | [] => [(k, v)]
  | (k', v') :: rest =>
      if String.eqb k' k then (k, v) :: rest else (k', v') :: setField k v rest
  end.

(** The elements of an array after the first, up to the bracket. *)
Fixpoint parseElements (pv : string -> option (value * string)) (n : nat)
    (s : string) (acc : list value) : option (value * string) :=
  match n with
  | O => None
  | S n' =>
      match skipWs s with
      | String "]" rest => Some (VArr acc, rest)
      | String "," rest =>
          '(v, after) ← pv rest;
          parseElements pv n' after (acc ++ [v])
      | _ => None
      end
  end.

Definition parseMember (pv : string -> option (value * string)) (s : string)
  : option (string * value * string) :=
  match skipWs s with
  | String q rest =>
      if (nat_of_ascii q =? 34)%nat then
        '(k, after) ← parseChars rest;
        match skipWs after with
        | String ":" after' =>
            '(v, after'') ← pv after';
            Some (k, v, after'')
        | _ => None
        end
      else None
  | "" => None
  end.

(** The members of an object after the first, up to the brace. *)
Fixpoint parseMembers (pv : string -> option (value * string)) (n : nat)
    (s : string) (acc : list (string * value)) : option (value * string) :=
  match n with
  | O => None
  | S n' =>
      match skipWs s with
      | String "}" rest => Some (VObj (ownEntries acc), rest)
      | String "," rest =>
          '(k, v, after) ← parseMember pv rest;
          parseMembers pv n' after (setField k v acc)
      | _ => None
      end
  end.

(** One value, with what follows it; [fuel] bounds the nesting. *)
Fixpoint parseValue (fuel : nat) (s : string) : option (value * string) :=
  match fuel with
  | O => None
  | S fuel' =>
      let s0 := skipWs s in
      match s0 with
      | String "{" rest =>
          match skipWs rest with
          | String "}" after => Some (VObj [], after)
          | _ =>
              '(k, v, after) ← parseMember (parseValue fuel') rest;
              parseMembers (parseValue fuel') (String.length after + 1) after [(k, v)]
          end
      | String "[" rest =>
          match skipWs rest with
          | String "]" after => Some (VArr [], after)
          | _ =>
              '(v, after) ← parseValue fuel' rest;
              parseElements (parseValue fuel') (String.length after + 1) after [v]
          end
      | String q rest =>
          if (nat_of_ascii q =? 34)%nat then
            '(t, after) ← parseChars rest; Some (VStr t, after)
          else if String.prefix "true" s0 then Some (VBool true, Str.drop 4 s0)
          else if String.prefix "false" s0 then Some (VBool false, Str.drop 5 s0)
          else if String.prefix "null" s0 then Some (VNull, Str.drop 4 s0)
          else parseNumber s0
      | "" => None
      end
  end.

(** [JSON.parse(s)]: [None] when it throws a [SyntaxError]. *)
Definition parse (s : string) : option value :=
  '(v, rest) ← parseValue (String.length s + 1) s;
  match skipWs rest with
  | "" => Some v
  | _ => None
  end.

(** Days from 1970-01-01 to a date of the proleptic Gregorian calendar. *)
Definition daysFromCivil (y m d : Z) : Z :=
  let y' := if (m <=? 2)%Z then y - 1 else y in
  let era := y' / 400 in
  let yoe := y' - era * 400 in
  let doy := (153 * (if (2 <? m)%Z then m - 3 else m + 9) + 2) / 5 + d - 1 in
  let doe := yoe * 365 + yoe / 4 - yoe / 100 + doy in
  era * 146097 + doe - 719468.

Definition daysInMonth (y m : Z) : Z :=
  if (m =? 2)%Z then
    if ((y mod 4 =? 0) && negb (y mod 100 =? 0) || (y mod 400 =? 0))%Z then 29 else 28
  else if ((m =? 4) || (m =? 6) || (m =? 9) || (m =? 11))%Z then 30
  else 31.

(** [n] decimal digits, then the rest. *)
Fixpoint digitsN (n : nat) (s : string) (acc : Z) : option (Z * string) :=
  match n with
  | O => Some (acc, s)
  | S n' =>
      match s with
      | String c s' =>
          if isDigit c
          then digitsN n' s' (acc * 10 + Z.of_nat (nat_of_ascii c - 48))
          else None
      | "" => None
      end
  end.

Definition expect (c : ascii) (s : string) : option string :=
  match s with
  | String d s' => if Ascii.eqb c d then Some s' else None
  | "" => None
  end.

(** The milliseconds of a fraction of a second: its first three
    digits. *)
Definition millis (fs : string) : Z :=
  match digitsValue (Str.take 3 (fs +:+ "00")) 0%N with
  | Some n => Z.of_N n
  | None => 0
  end.

(** The offset from UTC, in minutes: [Z], [+HH:MM] or [-HH:MM]. *)
Definition parseOffset (s : string) : option Z :=
  match s with
  | "Z" => Some 0
  | String c r =>
      if Ascii.eqb c "+" || Ascii.eqb c "-" then
        '(hh, r) ← digitsN 2 r 0; r ← expect ":" r;
        '(mi, r) ← digitsN 2 r 0;
        if Str.nonEmpty r || (23 <? hh) || (59 <? mi) then None
        else Some ((if Ascii.eqb c "-" then -1 else 1) * (hh * 60 + mi))
      else None
  | "" => None
  end.

(** [Date.parse] on [YYYY-MM-DDTHH:MM:SS], an optional fraction and an
    offset; any other text is [NaN] here. *)
Definition isoTime (s : string) : option Z :=
  '(y, s) ← digitsN 4 s 0; s ← expect "-" s;
  '(mo, s) ← digitsN 2 s 0; s ← expect "-" s;
  '(d, s) ← digitsN 2 s 0; s ← expect "T" s;
  '(hh, s) ← digitsN 2 s 0; s ← expect ":" s;
  '(mi, s) ← digitsN 2 s 0; s ← expect ":" s;
  '(ss, s) ← digitsN 2 s 0;
  '(fs, s) ← parseFraction s;
  offset ← parseOffset s;
  if ((1 <=? mo) && (mo <=? 12) && (1 <=? d) && (d <=? daysInMonth y mo)
      && (hh <=? 23) && (mi <=? 59) && (ss <=? 59))%Z
  then Some ((((daysFromCivil y mo d * 24 + hh) * 60 + mi - offset) * 60 + ss) * 1000
             + millis fs)
  else None.

(** [n] written with at least [w] digits. *)
Definition pad (w : nat) (n : Z) : string :=
  let t := Str.ofZ n in
  string_of_list_ascii (repeat "0"%char (w - String.length t)) +:+ t.

(** [new Date(t).toISOString()] for a time value in the years 0 to
    9999. *)
Definition isoString (t : Z) : string :=
  let days := t / 86400000 in
  let ms := t mod 86400000 in
  let z := days + 719468 in
  let era := z / 146097 in
  let doe := z - era * 146097 in
  let yoe := (doe - doe / 1460 + doe / 36524 - doe / 146096) / 365 in
  let doy := doe - (365 * yoe + yoe / 4 - yoe / 100) in
  let mp := (5 * doy + 2) / 153 in
  let d := doy - (153 * mp + 2) / 5 + 1 in
  let m := if (mp <? 10)%Z then mp + 3 else mp - 9 in
  let y := yoe + era * 400 + (if (m <=? 2)%Z then 1 else 0) in
  pad 4 y +:+ "-" +:+ pad 2 m +:+ "-" +:+ pad 2 d +:+ "T"
    +:+ pad 2 (ms / 3600000) +:+ ":" +:+ pad 2 (ms / 60000 mod 60) +:+ ":"
    +:+ pad 2 (ms / 1000 mod 60) +:+ "." +:+ pad 3 (ms mod 1000) +:+ "Z".

End Json.

(* ================================================================== *)
(** * What the scripts take from outside *)
(* ================================================================== *)

Import JS.

(** The runtime and the process, as the scripts see them.
    - [JSON_parse s] is [JSON.parse(s)], [None] when it throws;
    - [Date_parse s] is [Date.parse(s)], [None] for [NaN];
    - [Date_toISOString t] is [new Date(t).toISOString()] for a valid
      time value [t];
    - [PROJECT_ROOT] is [process.cwd()] and [PROJECT_NAME] what
      [detectProjectName] found at load time;
    - [execSync cmd cwd] is the standard output of the command run in
      [cwd], [None] when [child_process.execSync] throws;
    - [now] is the time value of [new Date()]. *)
Record Host : Type := {
  JSON_parse : string -> option value;
  Date_parse : string -> option Z;
  Date_toISOString : Z -> string;
  PROJECT_ROOT : string;
  PROJECT_NAME : string;
  execSync : string -> string -> option string;
  now : Z;
}.

(** The time value of [new Date(v)], [None] for an invalid date; [v] is
    a value [String] accepts. *)
Definition timeValue (h : Host) (v : value) : option Z :=
  match v with
  | VUndef | VNaN => None
  | VNull => Some 0
  | VBool b => Some (if b then 1 else 0)
  | VNum n => if (Z.abs n <=? 8640000000000000)%Z then Some n else None
  | VStr s => Date_parse h s
  | VArr _ | VObj _ => Date_parse h (ToString v)
  end.

(** What the command line of the scripts takes from Node besides: the
    functions of [path], the files [fs] sees outside the sessions
    directory ([None]: the call throws), the home directory, the
    number format of the locale and the case mapping of
    [String.prototype.toLowerCase]. *)
Record Sys : Type := {
  path_join : string -> string -> string;
  path_resolve : string -> string;
  path_basename : string -> string;
  existsSync : string -> bool;
  readdirSync : string -> option (list string);
  readFileSync : string -> option string;
  homedir : string;
  toLocaleString : Z -> string;
  toLowerCase : string -> string;
}.

(* ================================================================== *)
(** * scripts/export-continue.js *)
(* ================================================================== *)

Module ExportContinue.

(** One pass of [text.replace(/<tag>[\s\S]*?<\/tag>/g, "")]: [op] and
    [cl] are the opening and the closing tag; [skip] counts the
    characters of the current match that are still to be dropped. *)
Fixpoint removeEnclosed (op cl : string) (skip : nat) (s : string) : string :=
  match s with
  | "" => ""
  | String c s' =>
      match skip with
      | S k => removeEnclosed op cl k s'
      | O =>
          if String.prefix op s then
            match Str.indexOf cl (Str.drop (String.length op) s) with
            | Some j =>
                removeEnclosed op cl (String.length op + j + String.length cl - 1) s'
            | None => String c (removeEnclosed op cl 0 s')
            end
          else String c (removeEnclosed op cl 0 s')
      end
  end.

Definition removeTag (tag : string) (s : string) : string :=
  removeEnclosed ("<" +:+ tag +:+ ">") ("</" +:+ tag +:+ ">") 0 s.

Definition stripSystemTags (text : string) : string :=
  Str.trim
    (removeTag "command-name"
       (removeTag "command-message"
          (removeTag "user-prompt-submit-hook"
             (removeTag "ide_selection"
                (removeTag "ide_opened_file"
                   (removeTag "system-reminder" text)))))).

(** [truncate(text, max)]:
    [if (!text || text.length <= max) return text || "";]
    [return text.substring(0, max) + "...";] *)
Definition truncate (text : value) (max : Z) : option string :=
  if negb (truthy text) then Some ""
  else
    s ← asString text;
    if (Z.of_nat (Str.length s) <=? max)%Z then Some s
    else Some (Str.substring s 0 max +:+ "...").

Section WithHost.

Context (h : Host).

Definition shortPath (fp : value) : option string :=
  s ← asString (JS.or fp (VStr ""));
  let normalized := Str.backslashesToSlashes s in
  let rootNormalized := Str.backslashesToSlashes (PROJECT_ROOT h) in
  if Str.startsWith normalized rootNormalized then
    Some (Str.substringFrom normalized (Z.of_nat (Str.length rootNormalized) + 1))
  else
    match Str.lastIndexOf (PROJECT_NAME h) normalized with
    | Some projIdx =>
        Some (Str.substringFrom normalized
                (Z.of_nat (Str.unitsBefore projIdx normalized)
                 + Z.of_nat (Str.length (PROJECT_NAME h)) + 1))
    | None => Some normalized
    end.

Record GitContext : Type := {
  branch : string;
  recent_commits : list string;
  uncommitted_files : list string;
}.

(** [s.split("\n").filter(Boolean)]. *)
Definition nonEmptyLines (s : string) : list string :=
  filter (fun l => Str.nonEmpty l = true) (Str.lines s).

Definition getGitContext : GitContext :=
  let run :=
    branch ← execSync h "git rev-parse --abbrev-ref HEAD" (PROJECT_ROOT h);
    log ← execSync h
            ("git log --oneline -5 --format=" +:+ String (ascii_of_nat 34) "%h %s"
               +:+ String (ascii_of_nat 34) "")
            (PROJECT_ROOT h);
    status ← execSync h "git diff --name-only HEAD" (PROJECT_ROOT h);
    files ← mapM (fun f => shortPath (VStr f)) (nonEmptyLines (Str.trim status));
    Some {| branch := Str.trim branch;
            recent_commits := nonEmptyLines (Str.trim log);
            uncommitted_files := files |} in
  default {| branch := "unknown"; recent_commits := []; uncommitted_files := [] |} run.

(** ** The map from a tool call's id to its result *)

(** The map is read as [map[id]?.content] and [map[id]?.is_error]: a
    member inherited from [Object.prototype] has neither, as a missing
    result.  Only [formatToolCall] tests [map[id]] itself ([resultOf]). *)

Record ToolResult : Type := {
  content : option string;
  is_error : value;
}.

(** The body of the inner loop of [buildToolResultMap]. *)
Definition recordToolResult (map : gmap string ToolResult) (block : value)
  : option (gmap string ToolResult) :=
  type ← prop block "type";
  tool_use_id ← prop block "tool_use_id";
  if isStr type "tool_result" && truthy tool_use_id then
    bcontent ← prop block "content";
    bis_error ← prop block "is_error";
    key ← stringOf tool_use_id;
    if String.eqb key "__proto__" then None else
    Some (<[ key :=
               {| content := match bcontent with
                             | VStr s => Some s
                             | _ => JSON_stringify bcontent
                             end;
                  is_error := JS.or bis_error (VBool false) |} ]> map)
  else Some map.

Definition buildToolResultMap (entries : list value) : option (gmap string ToolResult) :=
  forEach
    (fun map entry =>
       type ← prop entry "type";
       if negb (isStr type "user") then Some map
       else
         message ← prop entry "message";
         match asArray (optProp message "content") with
         | None => Some map
         | Some blocks => forEach recordToolResult blocks map
         end)
    entries ∅.


(** ** The first pass of [extractHandoff]: what was asked and done *)

(** [fileChanges[sp]]: [{ action, summary }] after a [Write],
    [{ action, edits }] after an [Edit]. *)
Record Change : Type := {
  action : string;
  summary : option string;
  edits : option (list value);
}.

Record Acc : Type := {
  userMessages : list string;
  fileChanges : list (string * Change);
  filesRead : list string;
  errors : list value;
  actions : list value;
  searches : list value;
  latestTodos : value;
  toolCallCount : Z;
}.

Definition emptyAcc : Acc :=
  {| userMessages := []; fileChanges := []; filesRead := []; errors := [];
     actions := []; searches := []; latestTodos := VNull; toolCallCount := 0 |}.

(** [o[k]] and [o[k] = v] on a dictionary kept in creation order. *)
Fixpoint getKey {A} (k : string) (o : list (string * A)) : option A :=
  match o with
  | [] => None
  | (k', v) :: rest => if String.eqb k' k then Some v else getKey k rest
  end.

Fixpoint setKey {A} (k : string) (v : A) (o : list (string * A)) : list (string * A) :=
  match o with
  | [] => [(k, v)]
  | (k', v') :: rest =>
      if String.eqb k' k then (k, v) :: rest else (k', v') :: setKey k v rest
  end.

(** A read [o[k]] that [Object.prototype] answers: [k] names an
    inherited member and [o] holds no [k] of its own. *)
Definition answersInherited {A} (k : string) (o : list (string * A)) : bool :=
  match getKey k o with
  | Some _ => false
  | None => inherited k
  end.

(** [set.add(x)] on a [Set] kept in insertion order. *)
Definition setAdd (x : string) (s : list string) : list string :=
  if existsb (String.eqb x) s then s else s ++ [x].

(** [content.some((c) => c.type === "tool_result")]. *)
Fixpoint someToolResult (blocks : list value) : option bool :=
  match blocks with
  | [] => Some false
  | c :: rest =>
      type ← prop c "type";
      if isStr type "tool_result" then Some true else someToolResult rest
  end.

(** The user branch of the first loop: the cleaned text blocks. *)
Definition userTexts (blocks : list value) : option (list string) :=
  forEach
    (fun msgs block =>
       type ← prop block "type";
       if isStr type "text" then
         text ← asString (optProp block "text");
         let cleaned := stripSystemTags text in
         if Str.nonEmpty cleaned then
           t ← truncate (VStr cleaned) 500; Some (msgs ++ [t])
         else Some msgs
       else Some msgs)
    blocks [].

(** [result?.is_error || false], as a condition. *)
Definition isErrorOf (result : option ToolResult) : bool :=
  match result with
  | Some r => truthy (is_error r)
  | None => false
  end.

(** [result?.content]. *)
Definition contentOf (result : option ToolResult) : value :=
  match result with
  | Some {| content := Some s |} => VStr s
  | _ => VUndef
  end.

(** The entry pushed on [errors] for a failed call. *)
Definition errorEntry (name input : value) (result : option ToolResult)
  : option (list value) :=
  if isErrorOf result then
    error ← truncate (contentOf result) 300;
    input_summary ←
      (if isStr name "Bash" then truncate (optProp input "command") 200
       else if isStr name "Read" || isStr name "Write" || isStr name "Edit"
            then shortPath (optProp input "file_path")
            else truncate (from_option VStr VUndef (JSON_stringify input)) 200);
    Some [VObj [("tool", name); ("error", VStr error);
                ("input_summary", VStr input_summary)]]
  else Some [].

(** What an [Edit] leaves in [fileChanges].  When [sp] names a member
    of [Object.prototype] ([constructor], [toString], ...) and no
    [Write] has made the key the dictionary's own, [fileChanges[sp]] is
    that member, a function: the script sets [action] and [edits] on
    the function and adds no entry. *)
Definition assignOwn (sp : string) (info : Change) (fc : list (string * Change))
  : list (string * Change) :=
  if answersInherited sp fc then fc else setKey sp info fc.

(** The [Write] / [Edit] / [Read] chain.  The key [__proto__] is left
    out: a [Write] would replace the prototype of [fileChanges], an
    [Edit] would write on [Object.prototype]. *)
Definition fileStep (name input : value)
    (fc : list (string * Change)) (fr : list string)
  : option (list (string * Change) * list string) :=
  if isStr name "Write" && truthy (optProp input "file_path") then
    sp ← shortPath (optProp input "file_path");
    if String.eqb sp "__proto__" then None else
    summary ←
      (if truthy (optProp input "content") then
         c ← asString (optProp input "content");
         Some (Str.ofZ (Z.of_nat (length (Str.lines c))) +:+ " lines written")
       else Some "file created");
    Some (setKey sp {| action := "created"; summary := Some summary; edits := None |} fc,
          fr)
  else if isStr name "Edit" && truthy (optProp input "file_path") then
    sp ← shortPath (optProp input "file_path");
    if String.eqb sp "__proto__" then None else
    let info :=
      match getKey sp fc with
      | None => {| action := "modified"; summary := None; edits := Some [] |}
      | Some old =>
          {| action := "modified"; summary := summary old; edits := edits old |}
      end in
    if negb (isUndef (optProp input "old_string"))
       && negb (isUndef (optProp input "new_string")) then
      removed ← truncate (optProp input "old_string") 200;
      added ← truncate (optProp input "new_string") 200;
      let edit := VObj [("removed", VStr removed); ("added", VStr added);
                        ("replace_all",
                         JS.or (optProp input "replace_all") (VBool false))] in
      Some (assignOwn sp
              {| action := action info; summary := summary info;
                 edits := Some (default [] (edits info) ++ [edit]) |} fc,
            fr)
    else Some (assignOwn sp info fc, fr)
  else if isStr name "Read" && truthy (optProp input "file_path") then
    sp ← shortPath (optProp input "file_path");
    Some (fc, setAdd sp fr)
  else Some (fc, fr).

(** [if (v) o.k = v]. *)
Definition optField (k : string) (v : value) : list (string * value) :=
  if truthy v then [(k, v)] else [].

(** The entry pushed on [actions] for a [Bash] call. *)
Definition bashAction (name input : value) (result : option ToolResult)
  : option (list value) :=
  if isStr name "Bash" && truthy (optProp input "command") then
    command ← asString (optProp input "command");
    let cmd := Str.trim command in
    if (5 <? Z.of_nat (Str.length cmd))%Z && negb (Str.startsWith cmd "echo ") then
      command300 ← truncate (VStr cmd) 300;
      outcome ←
        (if isErrorOf result then Some [("failed", VBool true)]
         else match contentOf result with
              | VStr c =>
                  if Str.nonEmpty c then
                    if (length (Str.lines c) <=? 5)%nat
                    then Some [("output", VStr (Str.trim c))]
                    else t ← truncate (VStr c) 200; Some [("output", VStr t)]
                  else Some []
              | _ => Some []
              end);
      Some [VObj ([("command", VStr command300)]
                    ++ optField "description" (optProp input "description")
                    ++ outcome)]
    else Some []
  else Some [].

(** [result.content.split("\n").filter(Boolean).length] when there is a
    result with content. *)
Definition matchesField (result : option ToolResult) : list (string * value) :=
  match contentOf result with
  | VStr c =>
      if Str.nonEmpty c
      then [("matches", VNum (Z.of_nat (length (nonEmptyLines c))))]
      else []
  | _ => []
  end.

(** The entry pushed on [searches] for a [Grep] or a [Glob] call. *)
Definition searchEntry (name input : value) (result : option ToolResult)
  : option (list value) :=
  if isStr name "Grep" then
    path ← (if truthy (optProp input "path")
            then sp ← shortPath (optProp input "path"); Some [("path", VStr sp)]
            else Some []);
    Some [VObj ([("type", VStr "grep"); ("pattern", optProp input "pattern")]
                  ++ path ++ optField "glob" (optProp input "glob")
                  ++ matchesField result)]
  else if isStr name "Glob" then
    path ← (if truthy (optProp input "path")
            then sp ← shortPath (optProp input "path"); Some [("path", VStr sp)]
            else Some []);
    Some [VObj ([("type", VStr "glob"); ("pattern", optProp input "pattern")]
                  ++ path ++ matchesField result)]
  else Some [].

(** The entry pushed on [actions] for a [Task] call. *)
Definition taskAction (name input : value) (result : option ToolResult)
  : option (list value) :=
  if isStr name "Task" then
    command ← truncate (JS.or (optProp input "command") (optProp input "prompt")) 300;
    res ← (match contentOf result with
           | VStr c =>
               if Str.nonEmpty c
               then t ← truncate (VStr c) 300; Some [("result", VStr t)]
               else Some []
           | _ => Some []
           end);
    Some [VObj ([("command", VStr command);
                 ("agent", JS.or (optProp input "subagent_type") (VStr "unknown"))]
                  ++ optField "description" (optProp input "description")
                  ++ res
                  ++ (if isErrorOf result then [("failed", VBool true)] else []))]
  else Some [].

(** One block of an assistant record. *)
Definition toolUse (toolResultMap : gmap string ToolResult) (acc : Acc) (block : value)
  : option Acc :=
  type ← prop block "type";
  if negb (isStr type "tool_use") then Some acc
  else
    let name := optProp block "name" in
    let input := JS.or (optProp block "input") (VObj []) in
    id ← stringOf (optProp block "id");
    let result := toolResultMap !! id in
    errs ← errorEntry name input result;
    files ← fileStep name input (fileChanges acc) (filesRead acc);
    bash ← bashAction name input result;
    srch ← searchEntry name input result;
    task ← taskAction name input result;
    Some {| userMessages := userMessages acc;
            fileChanges := fst files;
            filesRead := snd files;
            errors := errors acc ++ errs;
            actions := actions acc ++ bash ++ task;
            searches := searches acc ++ srch;
            latestTodos :=
              (if isStr name "TodoWrite" && truthy (optProp input "todos")
               then optProp input "todos" else latestTodos acc);
            toolCallCount := toolCallCount acc + 1 |}.

(** [entry.type === r && entry.message?.role === r]. *)
Definition hasRole (entry : value) (r : string) : option bool :=
  type ← prop entry "type";
  message ← prop entry "message";
  Some (isStr type r && isStr (optProp message "role") r).

(** [entry.message?.content] when it is an array. *)
Definition contentBlocks (entry : value) : option (option (list value)) :=
  message ← prop entry "message";
  Some (asArray (optProp message "content")).

(** One record in the first loop. *)
Definition collect (toolResultMap : gmap string ToolResult) (acc : Acc) (entry : value)
  : option Acc :=
  content ← contentBlocks entry;
  match content with
  | None => Some acc
  | Some blocks =>
      isUser ← hasRole entry "user";
      isAssistant ← hasRole entry "assistant";
      if (isUser : bool) then
        isToolResult ← someToolResult blocks;
        if (isToolResult : bool) then Some acc
        else
          msgs ← userTexts blocks;
          Some {| userMessages := userMessages acc ++ msgs;
                  fileChanges := fileChanges acc; filesRead := filesRead acc;
                  errors := errors acc; actions := actions acc;
                  searches := searches acc; latestTodos := latestTodos acc;
                  toolCallCount := toolCallCount acc |}
      else if (isAssistant : bool) then forEach (toolUse toolResultMap) blocks acc
      else Some acc
  end.

(** ** The conversation digest *)

(** An entry of [digest]; [text] is its [content]. *)
Record DigestEntry : Type := {
  turn : Z;
  role : string;
  text : string;
}.

(** [text += (text ? " " : "") + piece]. *)
Definition appendText (text piece : string) : string :=
  if Str.nonEmpty text then text +:+ " " +:+ piece else piece.

(** The text of a user record: its cleaned text blocks, joined. *)
Definition userDigestText (blocks : list value) : option string :=
  forEach
    (fun text block =>
       type ← prop block "type";
       if isStr type "text" then
         t ← asString (optProp block "text");
         let cleaned := stripSystemTags t in
         if Str.nonEmpty cleaned then Some (appendText text cleaned) else Some text
       else Some text)
    blocks "".

(** [block.text?.trim()]. *)
Definition trimmedText (block : value) : option string :=
  match optProp block "text" with
  | VUndef | VNull => Some ""
  | VStr t => Some (Str.trim t)
  | _ => None
  end.

(** The text of an assistant record: its trimmed text blocks, joined. *)
Definition assistantDigestText (blocks : list value) : option string :=
  forEach
    (fun text block =>
       type ← prop block "type";
       if isStr type "text" then
         t ← trimmedText block;
         if Str.nonEmpty t then Some (appendText text t) else Some text
       else Some text)
    blocks "".

(** [if (text) digest.push({ turn, role, content: truncate(text, 300) })]. *)
Definition pushDigest (digest : list DigestEntry) (n : Z) (r : string) (t : string)
  : option (list DigestEntry) :=
  if Str.nonEmpty t then
    c ← truncate (VStr t) 300;
    Some (digest ++ [{| turn := n; role := r; text := c |}])
  else Some digest.

(** One record in the digest loop; the state is [digest] and [turnNum]. *)
Definition digestStep (st : list DigestEntry * Z) (entry : value)
  : option (list DigestEntry * Z) :=
  let '(digest, turnNum) := st in
  content ← contentBlocks entry;
  match content with
  | None => Some st
  | Some blocks =>
      isUser ← hasRole entry "user";
      isAssistant ← hasRole entry "assistant";
      if (isUser : bool) then
        isToolResult ← someToolResult blocks;
        if (isToolResult : bool) then Some st
        else
          t ← userDigestText blocks;
          digest' ← pushDigest digest (turnNum + 1) "user" t;
          Some (digest', turnNum + 1)
      else if (isAssistant : bool) then
        t ← assistantDigestText blocks;
        digest' ← pushDigest digest turnNum "assistant" t;
        Some (digest', turnNum)
      else Some st
  end.

Definition digestLoop (entries : list value) : option (list DigestEntry * Z) :=
  forEach digestStep entries ([], 0).

Definition digestValue (d : DigestEntry) : value :=
  VObj [("turn", VNum (turn d)); ("role", VStr (role d)); ("content", VStr (text d))].

(** ** Progress, searches and the assembled object *)

(** The values a [for (const t of todos)] goes through. *)
Definition iterate (v : value) : option (list value) :=
  match v with
  | VArr l => Some l
  | VStr s => Some (map (fun c => VStr (String c "")) (list_ascii_of_string s))
  | _ => None
  end.

Record Progress : Type := {
  completed : list value;
  in_progress : list value;
  pending : list value;
}.

Definition progressOf (latestTodos : value) : option Progress :=
  let empty := {| completed := []; in_progress := []; pending := [] |} in
  if truthy latestTodos then
    todos ← iterate latestTodos;
    forEach
      (fun p t =>
         status ← prop t "status";
         let c := optProp t "content" in
         if isStr status "completed" then
           Some {| completed := completed p ++ [c]; in_progress := in_progress p;
                   pending := pending p |}
         else if isStr status "in_progress" then
           Some {| completed := completed p; in_progress := in_progress p ++ [c];
                   pending := pending p |}
         else
           Some {| completed := completed p; in_progress := in_progress p;
                   pending := pending p ++ [c] |})
      todos empty
  else Some empty.

(** The first search of each [(type, pattern)] pair.  A key begins
    with the type of a search and a colon: it names no member of
    [Object.prototype], and [seenPatterns] is a set of keys. *)
Definition searchKey (s : value) : option string :=
  type ← stringOf (optProp s "type");
  pattern ← stringOf (optProp s "pattern");
  Some (type +:+ ":" +:+ pattern).

Definition dedupeStep (st : gset string * list value) (s : value)
  : option (gset string * list value) :=
  let '(seenPatterns, uniqueSearches) := st in
  key ← searchKey s;
  if decide (key ∈ seenPatterns) then Some st
  else Some ({[ key ]} ∪ seenPatterns, uniqueSearches ++ [s]).

Definition dedupe (searches : list value) : option (list value) :=
  st ← forEach dedupeStep searches (∅, []); Some (snd st).

(** [startTs] and [endTs]: the first and the last truthy timestamp. *)
Definition timestamps (entries : list value) : option (value * value) :=
  forEach
    (fun (st : value * value) e =>
       ts ← prop e "timestamp";
       if truthy ts
       then Some (if truthy (fst st) then fst st else ts, ts)
       else Some st)
    entries (VNull, VNull).

(** [Math.round(x / 60000)] for an integer [x]: halves go up. *)
Definition roundMinutes (ms : Z) : Z := (ms + 30000) / 60000.

Definition durationMin (startTs endTs : value) : option value :=
  if truthy startTs && truthy endTs then
    if stringable endTs && stringable startTs then
      Some match timeValue h endTs, timeValue h startTs with
           | Some e, Some s => VNum (roundMinutes (e - s))
           | _, _ => VNaN
           end
    else None
  else Some (VNum 0).

(** [cond ? v : undefined] for a list that is kept when it has elements. *)
Definition unlessEmpty {A} (l : list A) (v : value) : value :=
  if (0 <? Z.of_nat (length l))%Z then v else VUndef.

Definition changeEntry (kv : string * Change) : value :=
  let '(file, info) := kv in
  VObj ([("file", VStr file); ("action", VStr (action info))]
          ++ match summary info with
             | Some s => optField "summary" (VStr s)
             | None => []
             end
          ++ match edits info with
             | Some es => if (0 <? Z.of_nat (length es))%Z then [("edits", VArr es)] else []
             | None => []
             end).

(** The object literal [handoff] of [extractHandoff]. *)
Definition assemble (sessionId : string) (git : GitContext)
    (startTs endTs durationMin : value) (acc : Acc) (digest : list DigestEntry)
    (progress : Progress) (uniqueSearches : list value) : value :=
  VObj [
    ("_format", VStr "claude-code-handoff");
    ("_version", VStr "1.0");
    ("_purpose", VStr "Structured session export for AI agent continuation. Read this to understand what was done, what changed, and what remains.");
    ("_tool", VStr "claude-export (https://github.com/stephenpham68/claude-export)");
    ("session", VObj [
       ("id", VStr sessionId);
       ("project", VStr (PROJECT_NAME h));
       ("branch", VStr (branch git));
       ("started", startTs);
       ("ended", endTs);
       ("duration_minutes", durationMin);
       ("tool_calls", VNum (toolCallCount acc));
       ("error_count", VNum (Z.of_nat (length (errors acc))))]);
    ("task", JS.or (from_option VStr VUndef (head (userMessages acc)))
                   (VStr "(no task detected)"));
    ("progress", VObj [
       ("completed", VArr (completed progress));
       ("in_progress", VArr (in_progress progress));
       ("pending", VArr (pending progress))]);
    ("changes", VArr (map changeEntry (ownEntries (fileChanges acc))));
    ("files_read", VArr (map VStr (filesRead acc)));
    ("errors", unlessEmpty (errors acc) (VArr (errors acc)));
    ("actions", unlessEmpty (actions acc) (VArr (actions acc)));
    ("searches",
     unlessEmpty uniqueSearches
       (VObj [("count", VNum (Z.of_nat (length (searches acc))));
              ("unique_patterns", VArr uniqueSearches)]));
    ("conversation_digest", VArr (map digestValue digest));
    ("git_context", VObj [
       ("branch", VStr (branch git));
       ("recent_commits", VArr (map VStr (recent_commits git)));
       ("uncommitted_changes",
        unlessEmpty (uncommitted_files git)
          (VArr (map VStr (firstn 20 (uncommitted_files git)))))])
  ].

Definition extractHandoff (entries : list value) (sessionId : string) : option value :=
  toolResultMap ← buildToolResultMap entries;
  let git := getGitContext in
  ts ← timestamps entries;
  duration ← durationMin (fst ts) (snd ts);
  acc ← forEach (collect toolResultMap) entries emptyAcc;
  dg ← digestLoop entries;
  progress ← progressOf (latestTodos acc);
  uniqueSearches ← dedupe (searches acc);
  Some (JSON_clone (assemble sessionId git (fst ts) (snd ts) duration acc (fst dg)
                      progress uniqueSearches)).

(** ** Reading a log and finding the active session *)

(** A file of the sessions directory: [stat.mtime.getTime()] and the
    bytes; [stat.size] is their number. *)
Record File : Type := {
  mtime : Z;
  data : string;
}.

(** The sessions directory [CLAUDE_PROJECT_DIR]: what [fs.readdirSync]
    lists, and the file behind a name, [None] when [fs.statSync] or a
    read of it throws. *)
Record Dir : Type := {
  readdirSync : list string;
  file : string -> option File;
}.

(** [.split("\n").filter((l) => l.trim())]. *)
Definition nonBlankLines (s : string) : list string :=
  filter (fun l => Str.nonEmpty (Str.trim l) = true) (Str.lines s).

(** [parseJsonl]: the lines that parse to a truthy value. *)
Definition parseJsonl (text : string) : list value :=
  omap (fun l => match JSON_parse h l with
                 | Some v => if truthy v then Some v else None
                 | None => None
                 end)
       (nonBlankLines text).

(** The body of the [try] in the backward loop: the timestamp the line
    makes the function return, if it does.  A timestamp [new Date]
    throws on is caught with the line. *)
Definition timestampOfLine (l : string) : option value :=
  entry ← JSON_parse h l;
  ts ← prop entry "timestamp";
  if truthy ts && stringable ts then Some ts else None.

(** The loop [for (let i = lines.length - 1; i >= 0; i--)], on the lines
    last first. *)
Fixpoint scanBackwards (reversed : list string) : option value :=
  match reversed with
  | [] => None
  | l :: rest =>
      match timestampOfLine l with
      | Some ts => Some ts
      | None => scanBackwards rest
      end
  end.

(** The bytes [fs.readSync] puts in the buffer. *)
Definition trailingWindow (f : File) : string :=
  let size := Z.of_nat (String.length (data f)) in
  let readSize := Z.min size 16384 in
  Str.slice (data f) (Z.max 0 (size - readSize)) (Z.max 0 (size - readSize) + readSize).

(** [getLastEntryTimestamp]: a number, [None] for [NaN]. *)
Definition getLastEntryTimestamp (d : Dir) (name : string) : option Z :=
  match file d name with
  | None => Some 0
  | Some f =>
      let lines := nonBlankLines (trailingWindow f) in
      match scanBackwards (rev lines) with
      | Some ts => timeValue h ts
      | None => Some (mtime f)
      end
  end.

(** [arr.sort(cmp)]: a stable sort; a comparator result of [NaN] counts
    as zero. *)
Fixpoint insertBy {A} (cmp : A -> A -> option Z) (x : A) (l : list A) : list A :=
  match l with
  | [] => [x]
  | y :: rest =>
      if (default 0 (cmp x y) <=? 0)%Z then x :: l else y :: insertBy cmp x rest
  end.

Definition sortBy {A} (cmp : A -> A -> option Z) (l : list A) : list A :=
  foldr (insertBy cmp) [] l.

(** [s.replace(p, "")]: the first occurrence goes. *)
Definition removeFirst (p s : string) : string :=
  match Str.indexOf p s with
  | Some i => Str.take i s +:+ Str.drop (i + String.length p) s
  | None => s
  end.

(** The session logs of the directory. *)
Definition candidates (d : Dir) : list string :=
  filter (fun f => Str.endsWith f ".jsonl" = true) (readdirSync d).

(** The branch of [main] without a session id: the file name and the
    session id chosen, [None] for "No session files found." *)
Definition activeSession (d : Dir) : option (string * string) :=
  let files :=
    sortBy (fun a b => x ← snd b; y ← snd a; Some (x - y))
      (map (fun f => (f, getLastEntryTimestamp d f)) (candidates d)) in
  match files with
  | [] => None
  | first :: _ => Some (fst first, removeFirst ".jsonl" (fst first))
  end.

End WithHost.

End ExportContinue.

(* ================================================================== *)
(** * scripts/export-chat.js *)
(* ================================================================== *)

Module ExportChat.

(** The helpers the two scripts define with the same text. *)
Definition stripSystemTags := ExportContinue.stripSystemTags.
Definition shortPath := ExportContinue.shortPath.
Definition buildToolResultMap := ExportContinue.buildToolResultMap.
Definition isErrorOf := ExportContinue.isErrorOf.
Definition contentOf := ExportContinue.contentOf.
Definition someToolResult := ExportContinue.someToolResult.
Definition iterate := ExportContinue.iterate.
Definition setAdd := ExportContinue.setAdd.

Definition DEFAULT_MAX_RESULT_LINES : Z := 150.
Definition MAX_WRITE_CONTENT_LINES : Z := 300.
Definition MAX_THINKING_CHARS : Z := 2000.

Record Options : Type := {
  includeThinking : bool;
  includeResults : bool;
  maxResultLines : Z;
}.

(** An element of [parts] as [parts.join] writes it. *)
Definition joinItem (v : value) : option string :=
  match v with
  | VUndef | VNull => Some ""
  | _ => stringOf v
  end.

(** [l.slice(0, n)]: a negative [n] counts from the end. *)
Definition sliceTo {A} (l : list A) (n : Z) : list A :=
  if (n <? 0)%Z then firstn (Z.to_nat (Z.of_nat (length l) + n)) l
  else firstn (Z.to_nat n) l.

Definition truncateLines (text : string) (maxLines : Z) : string :=
  let lines := Str.lines text in
  if (Z.of_nat (length lines) <=? maxLines)%Z then text
  else
    let kept := sliceTo lines maxLines in
    let dropped := Z.of_nat (length lines) - maxLines in
    Str.join (String Str.newline "")
      (kept ++ [String Str.newline "" +:+ "... (" +:+ Str.ofZ dropped
                  +:+ " more lines truncated, total "
                  +:+ Str.ofZ (Z.of_nat (length lines)) +:+ " lines)"]).

Definition truncateChars (text : string) (maxChars : Z) : string :=
  if (Z.of_nat (Str.length text) <=? maxChars)%Z then text
  else Str.substring text 0 maxChars +:+ String Str.newline ""
         +:+ "... (truncated at " +:+ Str.ofZ maxChars +:+ " chars, total "
         +:+ Str.ofZ (Z.of_nat (Str.length text)) +:+ ")".

(** [s.replace("T", " ")]: the first one. *)
Fixpoint firstTToSpace (s : string) : string :=
  match s with
  | "" => ""
  | String c s' => if Ascii.eqb c "T" then String " " s' else String c (firstTToSpace s')
  end.

(** [(filePath || "").split(".").pop() || "text"]. *)
Definition getFileExt (filePath : value) : option string :=
  s ← asString (JS.or filePath (VStr ""));
  let ext := List.last (Str.split "." s) "" in
  Some (if Str.nonEmpty ext then ext else "text").

(** The pretty printer [JSON.stringify(v, null, 2)]; [cur] is the
    indentation of the line the value starts on. *)
Fixpoint JSON_pretty (cur : string) (v : value) : option string :=
  let nl := String Str.newline "" in
  let inner := cur +:+ "  " in
  match v with
  | VUndef => None
  | VNull | VNaN => Some "null"
  | VBool b => Some (if b then "true" else "false")
  | VNum n => Some (Str.ofZ n)
  | VStr s => Some (quote s)
  | VArr l =>
      match l with
      | [] => Some "[]"
      | _ =>
          Some ("[" +:+ nl +:+ inner
                  +:+ Str.join ("," +:+ nl +:+ inner)
                        (map (fun x => default "null" (JSON_pretty inner x)) l)
                  +:+ nl +:+ cur +:+ "]")
      end
  | VObj fields =>
      match omap (fun kv => (fun t => quote (fst kv) +:+ ": " +:+ t)
                              <$> JSON_pretty inner (snd kv)) fields with
      | [] => Some "{}"
      | members =>
          Some ("{" +:+ nl +:+ inner +:+ Str.join ("," +:+ nl +:+ inner) members
                  +:+ nl +:+ cur +:+ "}")
      end
  end.

(** [/^\s+\d+→/m] matches at a line start [s]. *)
Definition lineNumberHere (s : string) : bool :=
  let s1 := Str.trimStart s in
  let '(ds, rest) := Json.spanDigits s1 in
  negb (String.eqb s1 s) && Str.nonEmpty ds && String.prefix "→" rest.

(** [text.match(/^\s+\d+→/m)] finds something.  With the flag [m] a
    line starts after a line feed, a carriage return, U+2028 or U+2029
    (bytes [E2 80 A8] and [E2 80 A9]). *)
Definition isLineSeparator (c1 c2 c3 : ascii) : bool :=
  ((nat_of_ascii c1 =? 226) && (nat_of_ascii c2 =? 128)
   && ((nat_of_ascii c3 =? 168) || (nat_of_ascii c3 =? 169)))%nat.

Fixpoint hasLineNumbers (atLineStart : bool) (s : string) : bool :=
  (atLineStart && lineNumberHere s)
  || match s with
     | "" => false
     | String c s1 =>
         match s1 with
         | String c2 (String c3 s3) =>
             if isLineSeparator c c2 c3 then hasLineNumbers true s3
             else hasLineNumbers (Ascii.eqb c Str.newline || Ascii.eqb c "013") s1
         | _ => hasLineNumbers (Ascii.eqb c Str.newline || Ascii.eqb c "013") s1
         end
     end.

Section WithHost.

Context (h : Host).

Definition formatTimestamp (ts : value) : option string :=
  if negb (truthy ts) then Some ""
  else if negb (stringable ts) then None
  else
    t ← timeValue h ts;
    Some (Str.substring (firstTToSpace (Date_toISOString h t)) 0 19 +:+ " UTC").

Record GitContext : Type := {
  branch : string;
  recentCommits : string;
}.

Definition getGitContext : GitContext :=
  let run :=
    branch ← execSync h "git rev-parse --abbrev-ref HEAD" (PROJECT_ROOT h);
    log ← execSync h
            ("git log --oneline -5 --format=" +:+ String (ascii_of_nat 34) "%h %s"
               +:+ String (ascii_of_nat 34) "")
            (PROJECT_ROOT h);
    Some {| branch := Str.trim branch; recentCommits := Str.trim log |} in
  default {| branch := "unknown"; recentCommits := "" |} run.

(** ** Statistics *)

Record Stats : Type := {
  userTurns : Z;
  assistantMessages : Z;
  toolCalls : Z;
  toolErrors : Z;
  thinkingBlocks : Z;
  toolBreakdown : list (string * Z);
  filesRead : list string;
  filesWritten : list string;
  filesEdited : list string;
  bashCommands : Z;
  searches : Z;
  duration_start : value;
  duration_end : value;
}.

Definition emptyStats : Stats :=
  {| userTurns := 0; assistantMessages := 0; toolCalls := 0; toolErrors := 0;
     thinkingBlocks := 0; toolBreakdown := []; filesRead := []; filesWritten := [];
     filesEdited := []; bashCommands := 0; searches := 0;
     duration_start := VNull; duration_end := VNull |}.

(** [content.some((c) => c.type === "text")]. *)
Fixpoint someText (blocks : list value) : option bool :=
  match blocks with
  | [] => Some false
  | c :: rest =>
      type ← prop c "type";
      if isStr type "text" then Some true else someText rest
  end.

Definition bump (b : bool) (n : Z) : Z := if b then n + 1 else n.

(** One block of an assistant record in [collectStats]. *)
Definition statBlock (toolResultMap : gmap string ExportContinue.ToolResult)
    (st : Stats) (block : value) : option Stats :=
  type ← prop block "type";
  let thinking := bump (isStr type "thinking") (thinkingBlocks st) in
  if isStr type "tool_use" then
    let name := JS.or (optProp block "name") (VStr "Unknown") in
    key ← stringOf name;
    if ExportContinue.answersInherited key (toolBreakdown st) then None else
    id ← stringOf (optProp block "id");
    let result := toolResultMap !! id in
    let input := JS.or (optProp block "input") (VObj []) in
    let file_path := optProp input "file_path" in
    read ← (if isStr name "Read" && truthy file_path
            then sp ← shortPath h file_path; Some (setAdd sp (filesRead st))
            else Some (filesRead st));
    written ← (if isStr name "Write" && truthy file_path
               then sp ← shortPath h file_path; Some (setAdd sp (filesWritten st))
               else Some (filesWritten st));
    edited ← (if isStr name "Edit" && truthy file_path
              then sp ← shortPath h file_path; Some (setAdd sp (filesEdited st))
              else Some (filesEdited st));
    Some {| userTurns := userTurns st; assistantMessages := assistantMessages st;
            toolCalls := toolCalls st + 1;
            toolErrors := bump (isErrorOf result) (toolErrors st);
            thinkingBlocks := thinking;
            toolBreakdown :=
              ExportContinue.setKey key
                (default 0 (ExportContinue.getKey key (toolBreakdown st)) + 1)
                (toolBreakdown st);
            filesRead := read; filesWritten := written; filesEdited := edited;
            bashCommands := bump (isStr name "Bash") (bashCommands st);
            searches := bump (isStr name "Grep" || isStr name "Glob") (searches st);
            duration_start := duration_start st; duration_end := duration_end st |}
  else
    Some {| userTurns := userTurns st; assistantMessages := assistantMessages st;
            toolCalls := toolCalls st; toolErrors := toolErrors st;
            thinkingBlocks := thinking; toolBreakdown := toolBreakdown st;
            filesRead := filesRead st; filesWritten := filesWritten st;
            filesEdited := filesEdited st; bashCommands := bashCommands st;
            searches := searches st;
            duration_start := duration_start st; duration_end := duration_end st |}.

(** One record in [collectStats]. *)
Definition statEntry (toolResultMap : gmap string ExportContinue.ToolResult)
    (st0 : Stats) (entry : value) : option Stats :=
  ts ← prop entry "timestamp";
  type ← prop entry "type";
  message ← prop entry "message";
  let content := asArray (optProp message "content") in
  let st :=
    if truthy ts then
      {| userTurns := userTurns st0; assistantMessages := assistantMessages st0;
         toolCalls := toolCalls st0; toolErrors := toolErrors st0;
         thinkingBlocks := thinkingBlocks st0; toolBreakdown := toolBreakdown st0;
         filesRead := filesRead st0; filesWritten := filesWritten st0;
         filesEdited := filesEdited st0; bashCommands := bashCommands st0;
         searches := searches st0;
         duration_start :=
           (if truthy (duration_start st0) then duration_start st0 else ts);
         duration_end := ts |}
    else st0 in
  if isStr type "user" then
    match content with
    | None => Some st
    | Some blocks =>
        hasToolResult ← someToolResult blocks;
        Some {| userTurns := bump (negb hasToolResult) (userTurns st);
                assistantMessages := assistantMessages st;
                toolCalls := toolCalls st; toolErrors := toolErrors st;
                thinkingBlocks := thinkingBlocks st; toolBreakdown := toolBreakdown st;
                filesRead := filesRead st; filesWritten := filesWritten st;
                filesEdited := filesEdited st; bashCommands := bashCommands st;
                searches := searches st;
                duration_start := duration_start st; duration_end := duration_end st |}
    end
  else if isStr type "assistant" then
    match content with
    | None => Some st
    | Some blocks =>
        hasText ← someText blocks;
        forEach (statBlock toolResultMap) blocks
          {| userTurns := userTurns st;
             assistantMessages := bump hasText (assistantMessages st);
             toolCalls := toolCalls st; toolErrors := toolErrors st;
             thinkingBlocks := thinkingBlocks st; toolBreakdown := toolBreakdown st;
             filesRead := filesRead st; filesWritten := filesWritten st;
             filesEdited := filesEdited st; bashCommands := bashCommands st;
             searches := searches st;
             duration_start := duration_start st; duration_end := duration_end st |}
    end
  else Some st.

Definition collectStats (entries : list value)
    (toolResultMap : gmap string ExportContinue.ToolResult) : option Stats :=
  forEach (statEntry toolResultMap) entries emptyStats.

(** ** One tool call with its result *)

(** [if (v) parts.push(`label${v}suffix`)]. *)
Definition optLine (label : string) (v : value) (suffix : string)
  : option (list string) :=
  if truthy v then t ← stringOf v; Some [label +:+ t +:+ suffix] else Some [].

Definition fence : string := "```".

(** The lines [formatToolCall] writes for the input of the call. *)
Definition formatInput (toolName input : value) : option (list string) :=
  if isStr toolName "Bash" then
    description ← optLine "> " (optProp input "description") "";
    command ← joinItem (JS.or (optProp input "command") (VStr ""));
    Some (description ++ ["**Command:**"; fence +:+ "bash"; command; fence])
  else if isStr toolName "Read" then
    sp ← shortPath h (optProp input "file_path");
    offset ← optLine "**Offset:** line " (optProp input "offset") "";
    limit ← optLine "**Limit:** " (optProp input "limit") " lines";
    Some (["**File:** `" +:+ sp +:+ "`"] ++ offset ++ limit)
  else if isStr toolName "Write" then
    sp ← shortPath h (optProp input "file_path");
    written ←
      (if truthy (optProp input "content") then
         ext ← getFileExt (optProp input "file_path");
         c ← asString (optProp input "content");
         Some ["**Content written:**"; fence +:+ ext;
               truncateLines c MAX_WRITE_CONTENT_LINES; fence]
       else Some []);
    Some (["**File:** `" +:+ sp +:+ "`"] ++ written)
  else if isStr toolName "Edit" then
    sp ← shortPath h (optProp input "file_path");
    old ← (if isUndef (optProp input "old_string") then Some []
           else t ← joinItem (optProp input "old_string");
                Some ["**Old:**"; fence; t; fence]);
    new ← (if isUndef (optProp input "new_string") then Some []
           else t ← joinItem (optProp input "new_string");
                Some ["**New:**"; fence; t; fence]);
    Some (["**File:** `" +:+ sp +:+ "`"]
            ++ (if truthy (optProp input "replace_all")
                then ["**Mode:** replace_all"] else [])
            ++ old ++ new)
  else if isStr toolName "Grep" then
    pattern ← stringOf (JS.or (optProp input "pattern") (VStr ""));
    path ← (if truthy (optProp input "path")
            then sp ← shortPath h (optProp input "path");
                 Some ["**Path:** `" +:+ sp +:+ "`"]
            else Some []);
    glob ← optLine "**Glob:** `" (optProp input "glob") "`";
    mode ← optLine "**Mode:** " (optProp input "output_mode") "";
    Some (["**Pattern:** `" +:+ pattern +:+ "`"] ++ path ++ glob ++ mode)
  else if isStr toolName "Glob" then
    pattern ← stringOf (JS.or (optProp input "pattern") (VStr ""));
    path ← (if truthy (optProp input "path")
            then sp ← shortPath h (optProp input "path");
                 Some ["**Path:** `" +:+ sp +:+ "`"]
            else Some []);
    Some (["**Pattern:** `" +:+ pattern +:+ "`"] ++ path)
  else if isStr toolName "Task" then
    agent ← stringOf (JS.or (optProp input "subagent_type") (VStr "?"));
    description ← optLine "**Description:** " (optProp input "description") "";
    model ← optLine "**Model:** " (optProp input "model") "";
    prompt ← asString (JS.or (optProp input "prompt") (VStr ""));
    Some (["**Agent:** " +:+ agent] ++ description ++ model
            ++ ["**Prompt:**"; fence; truncateChars prompt 3000; fence])
  else if isStr toolName "WebSearch" then
    query ← stringOf (JS.or (optProp input "query") (VStr ""));
    Some ["**Query:** `" +:+ query +:+ "`"]
  else if isStr toolName "WebFetch" then
    url ← stringOf (JS.or (optProp input "url") (VStr ""));
    prompt ← optLine "**Prompt:** " (optProp input "prompt") "";
    Some (["**URL:** " +:+ url] ++ prompt)
  else if isStr toolName "TodoWrite" then
    todos ← iterate (JS.or (optProp input "todos") (VArr []));
    tasks ← mapM (fun t =>
                    status ← prop t "status";
                    let icon := if isStr status "completed" then "[x]"
                                else if isStr status "in_progress" then "[~]"
                                else "[ ]" in
                    c ← stringOf (optProp t "content");
                    Some ("- " +:+ icon +:+ " " +:+ c))
                 todos;
    Some ("**Tasks:**" :: tasks)
  else if isStr toolName "NotebookEdit" then
    sp ← shortPath h (optProp input "notebook_path");
    cell_type ← optLine "**Cell type:** " (optProp input "cell_type") "";
    edit_mode ← optLine "**Edit mode:** " (optProp input "edit_mode") "";
    source ←
      (if truthy (optProp input "new_source") then
         src ← asString (optProp input "new_source");
         Some ["**Source:**"; fence; truncateLines src 100; fence]
       else Some []);
    Some (["**Notebook:** `" +:+ sp +:+ "`"] ++ cell_type ++ edit_mode ++ source)
  else if isStr toolName "AskUserQuestion" then
    qs ← iterate (JS.or (optProp input "questions") (VArr []));
    groups ←
      mapM (fun q =>
              question ← prop q "question";
              heading ← stringOf question;
              options ←
                (if truthy (optProp q "options") then
                   os ← iterate (optProp q "options");
                   mapM (fun o =>
                           label ← prop o "label";
                           l ← stringOf label;
                           d ← stringOf (JS.or (optProp o "description") (VStr ""));
                           Some ("  - " +:+ l +:+ ": " +:+ d))
                        os
                 else Some []);
              Some (("**Q:** " +:+ heading) :: options))
           qs;
    Some (List.concat groups)
  else
    summary ← JSON_pretty "" input;
    Some ["**Input:**"; fence +:+ "json"; truncateChars summary 2000; fence].

(** The lines [formatToolCall] writes for the result of the call. *)
Definition formatResult (opts : Options) (toolName input : value)
    (result : option ExportContinue.ToolResult) : option (list string) :=
  match result with
  | Some r =>
      if includeResults opts then
        if isErrorOf result then
          let c := match ExportContinue.content r with
                   | Some c => if Str.nonEmpty c then c else "(empty)"
                   | None => "(empty)"
                   end in
          Some [""; "**Result: ERROR**"; fence;
                truncateLines c (maxResultLines opts); fence]
        else
          let resultContent := default "" (ExportContinue.content r) in
          if Str.nonEmpty (Str.trim resultContent) then
            ext ← (if isStr toolName "Read" && truthy (optProp input "file_path")
                   then getFileExt (optProp input "file_path") else Some "");
            Some [""; "**Result:**";
                  (if hasLineNumbers true resultContent && Str.nonEmpty ext
                   then fence +:+ ext else fence);
                  truncateLines resultContent (maxResultLines opts); fence]
          else Some [""]
      else Some []
  | None => Some []
  end.

(** [toolResultMap[id]] as [formatToolCall] tests it.  For an id that
    names a member of [Object.prototype] and has no result, it is the
    member: an object, so the test succeeds, without [content] and
    without [is_error]. *)
Definition resultOf (toolResultMap : gmap string ExportContinue.ToolResult)
    (id : string) : option ExportContinue.ToolResult :=
  match toolResultMap !! id with
  | Some r => Some r
  | None =>
      if inherited id
      then Some {| ExportContinue.content := None; ExportContinue.is_error := VUndef |}
      else None
  end.

Definition formatToolCall (block : value)
    (toolResultMap : gmap string ExportContinue.ToolResult) (opts : Options)
  : option string :=
  let toolName := JS.or (optProp block "name") (VStr "Unknown") in
  let input := JS.or (optProp block "input") (VObj []) in
  id ← stringOf (optProp block "id");
  let result := resultOf toolResultMap id in
  name ← stringOf toolName;
  let header := (if isErrorOf result then "### [ERROR] Tool: " else "### Tool: ")
                  +:+ name in
  body ← formatInput toolName input;
  res ← formatResult opts toolName input result;
  Some (Str.join (String Str.newline "") ([header; ""] ++ body ++ res)).

(** ** The transcript *)

(** The blocks of a user record. *)
Definition userParts (blocks : list value) : option (list string) :=
  forEach
    (fun parts block =>
       type ← prop block "type";
       if isStr type "text" then
         t ← asString (optProp block "text");
         let cleaned := stripSystemTags t in
         if Str.nonEmpty cleaned then Some (parts ++ [cleaned; ""]) else Some parts
       else if isStr type "image" then Some (parts ++ ["*[Image attached]*"; ""])
       else Some parts)
    blocks [].

(** [if (!hasContent) { parts.push("### Assistant"); ... }]. *)
Definition assistantHeader (hasContent : bool) (time : string) : list string :=
  if hasContent then []
  else ["### Assistant"] ++ (if Str.nonEmpty time then ["*" +:+ time +:+ "*"] else [])
         ++ [""].

(** One block of an assistant record; the state is [parts] and
    [hasContent]. *)
Definition assistantBlock (toolResultMap : gmap string ExportContinue.ToolResult)
    (opts : Options) (time : string) (st : list string * bool) (block : value)
  : option (list string * bool) :=
  let '(parts, hasContent) := st in
  type ← prop block "type";
  if isStr type "thinking" && includeThinking opts then
    thinking ← asString (JS.or (optProp block "thinking") (VStr ""));
    Some (parts ++ assistantHeader hasContent time
            ++ (if Str.nonEmpty (Str.trim thinking)
                then ["<details>"; "<summary>Thinking / Internal Reasoning</summary>";
                      ""; truncateChars thinking MAX_THINKING_CHARS;
                      ""; "</details>"; ""]
                else []),
          true)
  else if isStr type "text" then
    t ← joinItem (optProp block "text");
    Some (parts ++ assistantHeader hasContent time ++ [t; ""], true)
  else if isStr type "tool_use" then
    call ← formatToolCall block toolResultMap opts;
    Some (parts ++ assistantHeader hasContent time ++ [call; ""], true)
  else Some st.

(** One record in the conversation loop; the state is [parts] and
    [turnCount]. *)
Definition conversationStep (toolResultMap : gmap string ExportContinue.ToolResult)
    (opts : Options) (st : list string * Z) (entry : value)
  : option (list string * Z) :=
  let '(parts, turnCount) := st in
  type ← prop entry "type";
  if negb (isStr type "user") && negb (isStr type "assistant") then Some st
  else
    msg ← prop entry "message";
    if negb (truthy msg) || negb (truthy (optProp msg "content")) then Some st
    else
      match asArray (optProp msg "content") with
      | None => Some st
      | Some content =>
          let role := optProp msg "role" in
          time ← formatTimestamp (optProp entry "timestamp");
          if isStr role "user" then
            isToolResult ← someToolResult content;
            if (isToolResult : bool) then Some st
            else
              body ← userParts content;
              Some (parts
                      ++ ["### User (Turn " +:+ Str.ofZ (turnCount + 1) +:+ ")"]
                      ++ (if Str.nonEmpty time then ["*" +:+ time +:+ "*"] else [])
                      ++ [""] ++ body ++ ["---"; ""],
                    turnCount + 1)
          else if isStr role "assistant" then
            r ← forEach (assistantBlock toolResultMap opts time) content (parts, false);
            let '(parts', hasContent) := (r : list string * bool) in
            Some (parts' ++ (if hasContent then ["---"; ""] else []), turnCount)
          else Some st
      end.

(** Descending by count, as [toolNames.sort] leaves them. *)
Definition sortedToolNames (breakdown : list (string * Z)) : list (string * Z) :=
  ExportContinue.sortBy (fun a b => Some (snd b - snd a)) (ownEntries breakdown).

Definition convertToMarkdown (entries : list value) (sessionId : string)
    (opts : Options) : option string :=
  toolResultMap ← buildToolResultMap entries;
  stats ← collectStats entries toolResultMap;
  let git := getGitContext in
  start ← formatTimestamp (duration_start stats);
  end_ ← formatTimestamp (duration_end stats);
  duration ←
    (if truthy (duration_start stats) && truthy (duration_end stats) then
       e ← timeValue h (duration_end stats);
       s ← timeValue h (duration_start stats);
       Some ["| Duration | ~" +:+ Str.ofZ (ExportContinue.roundMinutes (e - s))
               +:+ " min |"]
     else Some []);
  let header :=
    ["# Claude Code Conversation Export"; "";
     "> **Purpose:** This export is structured for AI agents to read, review progress,";
     "> identify issues, and recommend next steps. Includes full tool inputs/outputs.";
     ""; "## Metadata"; ""; "| Field | Value |"; "|-------|-------|";
     "| Session ID | `" +:+ sessionId +:+ "` |";
     "| Project | " +:+ PROJECT_NAME h +:+ " |";
     "| Branch | `" +:+ branch git +:+ "` |";
     "| Start | " +:+ start +:+ " |";
     "| End | " +:+ end_ +:+ " |"]
      ++ duration ++ [""] in
  let toolNames := sortedToolNames (toolBreakdown stats) in
  let allFilesWritten := foldl (fun s f => setAdd f s) [] (filesWritten stats ++ filesEdited stats) in
  let summary :=
    ["## Session Summary"; "";
     "- **" +:+ Str.ofZ (userTurns stats) +:+ "** user turns, **"
       +:+ Str.ofZ (assistantMessages stats) +:+ "** assistant responses";
     "- **" +:+ Str.ofZ (toolCalls stats) +:+ "** tool calls ("
       +:+ Str.ofZ (toolErrors stats) +:+ " errors)"]
      ++ (if (0 <? thinkingBlocks stats)%Z
          then ["- **" +:+ Str.ofZ (thinkingBlocks stats)
                  +:+ "** thinking/reasoning blocks"]
          else [])
      ++ [""]
      ++ (if (0 <? Z.of_nat (length toolNames))%Z
          then ["**Tool usage breakdown:**"]
                 ++ map (fun kv => "- " +:+ fst kv +:+ ": " +:+ Str.ofZ (snd kv) +:+ "x")
                      toolNames
                 ++ [""]
          else [])
      ++ (if (0 <? Z.of_nat (length (filesRead stats)))%Z
             || (0 <? Z.of_nat (length allFilesWritten))%Z
          then ["**Files touched:**"]
                 ++ (if (0 <? Z.of_nat (length allFilesWritten))%Z
                     then ("- Modified/Created ("
                             +:+ Str.ofZ (Z.of_nat (length allFilesWritten)) +:+ "):")
                            :: map (fun f => "  - `" +:+ f +:+ "`") allFilesWritten
                     else [])
                 ++ (if (0 <? Z.of_nat (length (filesRead stats)))%Z
                     then ("- Read (" +:+ Str.ofZ (Z.of_nat (length (filesRead stats)))
                             +:+ "):")
                            :: map (fun f => "  - `" +:+ f +:+ "`") (filesRead stats)
                     else [])
                 ++ [""]
          else [])
      ++ (if Str.nonEmpty (recentCommits git)
          then ["**Recent commits (context):**"; fence; recentCommits git; fence; ""]
          else [])
      ++ ["---"; ""] in
  conv ← forEach (conversationStep toolResultMap opts) entries
           (header ++ summary ++ ["## Conversation"; ""], 0);
  exported ← formatTimestamp (VStr (Date_toISOString h (now h)));
  Some (Str.join (String Str.newline "")
          (fst conv
             ++ [""; "---";
                 "*Exported at " +:+ exported +:+ "*";
                 "*Export version: 2.0 (AI-optimized with tool results)*";
                 "*Tool: claude-export (https://github.com/stephenpham68/claude-export)*"])).

End WithHost.

(** ** The command line, shared by the two scripts *)

(** [p.replace(/\/$/, "")]. *)
Definition dropTrailingSlash (p : string) : string :=
  if Str.endsWith p "/" then Str.take (String.length p - 1) p else p.

(** [encodeProjectPath]: the name Claude Code gives the sessions
    directory of a project. *)
Definition encodeProjectPath (absPath : string) : string :=
  Str.mapChars (fun c => if Ascii.eqb c ":" || Ascii.eqb c "/" then "-"%char else c)
    (dropTrailingSlash (Str.backslashesToSlashes absPath)).

(** [name.replace(/^@[^/]+\//, "")]: the scope of a package name. *)
Definition stripScope (name : string) : string :=
  match name with
  | String "@" rest =>
      match Str.indexOf "/" rest with
      | Some (S i) => Str.drop (S (S i)) rest
      | _ => name
      end
  | _ => name
  end.

(** [remote.match(/\/([^/]+?)(?:\.git)?$/)], the group: what follows
    the last slash, without a final [.git]; no match when nothing
    follows it. *)
Definition repoOfRemote (remote : string) : option string :=
  match Str.lastIndexOf "/" remote with
  | Some i =>
      let segment := Str.drop (S i) remote in
      if Str.nonEmpty segment then
        Some (if Str.endsWith segment ".git" && (4 <? String.length segment)%nat
              then Str.take (String.length segment - 4) segment
              else segment)
      else None
  | None => None
  end.

(** [opts] of [parseArgs]; [options] is the part [convertToMarkdown]
    reads. *)
Record CliOptions : Type := {
  listFlag : bool;
  sessionArg : option string;
  options : Options;
  outputDir : string;
}.

(** [content.find((c) => c.type === "text" && !c.text?.startsWith("<"))]:
    [None] when the callback throws. *)
Fixpoint findTextBlock (content : list value) : option (option value) :=
  match content with
  | [] => Some None
  | c :: rest =>
      type ← prop c "type";
      if isStr type "text" then
        match optProp c "text" with
        | VUndef | VNull => Some (Some c)
        | VStr t => if Str.startsWith t "<" then findTextBlock rest else Some (Some c)
        | _ => None
        end
      else findTextBlock rest
  end.

(** A session of the listing. *)
Record Session : Type := {
  sessionId : string;
  sessionMtime : Z;
  sessionSize : Z;
  preview : string;
}.

(** What [main] does: it lists, it leaves with [process.exit(1)] after
    an error message, or it writes the export. *)
Inductive Outcome : Type :=
| Listed (console : list string)
| Exited (error : string)
| Exported (console : list string) (madeDir : bool) (outFile content : string).

(** [findClaudeProjectDir]: the directory, or the messages before
    [process.exit(1)]. *)
Inductive Located : Type :=
| Found (dir : string)
| NotFound (errors : list string).

(** [Math.round(n / 1024)] for a size. *)
Definition roundKB (n : Z) : Z := (n + 512) / 1024.

(** [now.toISOString().replace(/[:.]/g, "-").substring(0, 19)]. *)
Definition dateStrOf (iso : string) : string :=
  Str.substring
    (Str.mapChars (fun c => if Ascii.eqb c ":" || Ascii.eqb c "." then "-"%char else c) iso)
    0 19.

Section CommandLine.

Context (h : Host) (sys : Sys).

Definition claudeProjectsRoot : string :=
  path_join sys (path_join sys (homedir sys) ".claude") "projects".

Definition DOWNLOADS_DIR : string := path_join sys (homedir sys) "Downloads".

Definition findClaudeProjectDir (cwd : string) : option Located :=
  if negb (existsSync sys claudeProjectsRoot) then
    Some (NotFound
            ["Claude Code projects directory not found: " +:+ claudeProjectsRoot;
             "Make sure Claude Code has been used in this project at least once."])
  else
    let encoded := encodeProjectPath cwd in
    let exactPath := path_join sys claudeProjectsRoot encoded in
    if existsSync sys exactPath then Some (Found exactPath)
    else
      dirs ← readdirSync sys claudeProjectsRoot;
      let lower := toLowerCase sys encoded in
      let match_ := List.find (fun d => String.eqb (toLowerCase sys d) lower) dirs in
      if Str.nonEmpty (default "" match_)
      then Some (Found (path_join sys claudeProjectsRoot (default "" match_)))
      else
        let parentMatch :=
          hd "" (ExportContinue.sortBy
                   (fun a b => Some (Z.of_nat (Str.length b)
                                     - Z.of_nat (Str.length a)))
                   (filter (fun d => Str.startsWith lower (toLowerCase sys d) = true)
                      dirs)) in
        if Str.nonEmpty parentMatch
        then Some (Found (path_join sys claudeProjectsRoot parentMatch))
        else
          Some (NotFound
                  (["No Claude Code session data found for: " +:+ cwd;
                    "Encoded path tried: " +:+ encoded;
                    "Available projects:"]
                     ++ map (fun d => "  " +:+ d) (firstn 10 dirs))).

(** [detectProjectName]: the name in [package.json], else the
    repository of the remote [origin], else the folder. *)
Definition detectProjectName (projectRoot : string) : string :=
  let fromPackage :=
    text ← readFileSync sys (path_join sys projectRoot "package.json");
    pkg ← JSON_parse h text;
    name ← prop pkg "name";
    if truthy name then n ← asString name; Some (stripScope n) else None in
  let fromRemote :=
    remote ← execSync h "git remote get-url origin" projectRoot;
    repoOfRemote (Str.trim remote) in
  match fromPackage with
  | Some name => name
  | None => default (path_basename sys projectRoot) fromRemote
  end.

(** The loop of [parseArgs] from one argument on; [skip] tells that the
    argument was taken as the value of the flag before it. *)
Fixpoint parseArgsFrom (args : list string) (skip : bool) (opts : CliOptions)
  : CliOptions :=
  match args with
  | [] => opts
  | arg :: rest =>
      let next := hd "" rest in
      if skip then parseArgsFrom rest false opts
      else if String.eqb arg "--list" || String.eqb arg "-l" then
        parseArgsFrom rest false
          {| listFlag := true; sessionArg := sessionArg opts;
             options := options opts; outputDir := outputDir opts |}
      else if String.eqb arg "--no-thinking" then
        parseArgsFrom rest false
          {| listFlag := listFlag opts; sessionArg := sessionArg opts;
             options := {| includeThinking := false;
                           includeResults := includeResults (options opts);
                           maxResultLines := maxResultLines (options opts) |};
             outputDir := outputDir opts |}
      else if String.eqb arg "--no-results" then
        parseArgsFrom rest false
          {| listFlag := listFlag opts; sessionArg := sessionArg opts;
             options := {| includeThinking := includeThinking (options opts);
                           includeResults := false;
                           maxResultLines := maxResultLines (options opts) |};
             outputDir := outputDir opts |}
      else if String.eqb arg "--max-result-lines" && Str.nonEmpty next then
        parseArgsFrom rest true
          {| listFlag := listFlag opts; sessionArg := sessionArg opts;
             options := {| includeThinking := includeThinking (options opts);
                           includeResults := includeResults (options opts);
                           maxResultLines :=
                             match parseInt10 next with
                             | Some n => if (n =? 0)%Z then DEFAULT_MAX_RESULT_LINES else n
                             | None => DEFAULT_MAX_RESULT_LINES
                             end |};
             outputDir := outputDir opts |}
      else if (String.eqb arg "--output" || String.eqb arg "-o") && Str.nonEmpty next then
        parseArgsFrom rest true
          {| listFlag := listFlag opts; sessionArg := sessionArg opts;
             options := options opts; outputDir := path_resolve sys next |}
      else if Str.startsWith arg "-" then parseArgsFrom rest false opts
      else
        parseArgsFrom rest false
          {| listFlag := listFlag opts; sessionArg := Some arg;
             options := options opts; outputDir := outputDir opts |}
  end.

(** [parseArgs] of [export-chat.js]; [argv] is [process.argv.slice(2)]. *)
Definition parseArgs (argv : list string) : CliOptions :=
  parseArgsFrom argv false
    {| listFlag := false; sessionArg := None;
       options := {| includeThinking := true; includeResults := true;
                     maxResultLines := DEFAULT_MAX_RESULT_LINES |};
       outputDir := DOWNLOADS_DIR |}.

(** The body of the [try] in the loop of [listSessions]: the preview
    the line gives, [None] when the loop goes on (no text block, or a
    throw that is caught). *)
Definition previewOfLine (line : string) : option string :=
  obj ← JSON_parse h line;
  type ← prop obj "type";
  if isStr type "user" && isStr (optProp (optProp obj "message") "role") "user" then
    content ← asArray (optProp (optProp obj "message") "content");
    found ← findTextBlock content;
    textBlock ← found;
    text ← asString (optProp textBlock "text");
    Some (Str.newlinesToSpaces (Str.substring text 0 80))
  else None.

(** The loop over the lines: it stops at the first preview. *)
Fixpoint firstPreview (lines : list string) : string :=
  match lines with
  | [] => ""
  | line :: rest =>
      if negb (Str.nonEmpty (Str.trim line)) then firstPreview rest
      else match previewOfLine line with
           | Some p => p
           | None => firstPreview rest
           end
  end.

(** The callback of [map] in [listSessions]. *)
Definition sessionOf (d : ExportContinue.Dir) (f : string) : option Session :=
  st ← ExportContinue.file d f;
  Some {| sessionId := ExportContinue.removeFirst ".jsonl" f;
          sessionMtime := ExportContinue.mtime st;
          sessionSize := Z.of_nat (String.length (ExportContinue.data st));
          preview := firstPreview (Str.lines (ExportContinue.data st)) |}.

(** [files] of [listSessions]: the newest [count] sessions. *)
Definition recentSessions (d : ExportContinue.Dir) (count : Z) : option (list Session) :=
  files ← mapM (sessionOf d) (ExportContinue.candidates d);
  Some (sliceTo (ExportContinue.sortBy
                   (fun a b => Some (sessionMtime b - sessionMtime a)) files)
          count).

(** [listSessions(count)]: what it prints, a [console.log] an element. *)
Definition listSessions (d : ExportContinue.Dir) (CLAUDE_PROJECT_DIR : string)
    (count : Z) : option (list string) :=
  files ← recentSessions d count;
  Some ([String Str.newline "" +:+ "  Project: " +:+ PROJECT_NAME h;
         "  Sessions dir: " +:+ CLAUDE_PROJECT_DIR +:+ String Str.newline ""]
          ++ flat_map
               (fun s =>
                  ["  " +:+ sessionId s;
                   "    "
                     +:+ Str.substring (firstTToSpace (Date_toISOString h (sessionMtime s)))
                           0 19
                     +:+ " UTC | " +:+ Str.ofZ (roundKB (sessionSize s)) +:+ " KB | "
                     +:+ (if Str.nonEmpty (preview s) then preview s else "(no preview)");
                   ""])
               files).

(** The session [main] exports: the file name in the sessions
    directory and the session id; [None] for "No session files
    found." *)
Definition chooseSession (d : ExportContinue.Dir) (arg : option string)
  : option (string * string) :=
  if Str.nonEmpty (default "" arg) then
    let sessionId := default "" arg in
    if negb (Str.endsWith sessionId ".jsonl")
    then Some (sessionId +:+ ".jsonl", sessionId)
    else Some (sessionId, ExportContinue.removeFirst ".jsonl" sessionId)
  else ExportContinue.activeSession h d.

(** [main] of [export-chat.js]; [writtenAt] is the clock when the file
    is named. *)
Definition main (d : ExportContinue.Dir) (CLAUDE_PROJECT_DIR : string)
    (argv : list string) (writtenAt : Z) : option Outcome :=
  let opts := parseArgs argv in
  if listFlag opts then Listed <$> listSessions d CLAUDE_PROJECT_DIR 15
  else
    match chooseSession d (sessionArg opts) with
    | None => Some (Exited "No session files found.")
    | Some (name, sessionId) =>
        let jsonlPath := path_join sys CLAUDE_PROJECT_DIR name in
        if negb (existsSync sys jsonlPath)
        then Some (Exited ("Session file not found: " +:+ jsonlPath))
        else
          f ← ExportContinue.file d name;
          let fileSize := Z.of_nat (String.length (ExportContinue.data f)) in
          let entries := ExportContinue.parseJsonl h (ExportContinue.data f) in
          markdown ← convertToMarkdown h entries sessionId (options opts);
          let dateStr := dateStrOf (Date_toISOString h writtenAt) in
          let shortId := Str.substring sessionId 0 8 in
          let outFile :=
            path_join sys (outputDir opts)
              ("claude-chat_" +:+ dateStr +:+ "_" +:+ shortId +:+ ".md") in
          Some (Exported
                  ["Project: " +:+ PROJECT_NAME h;
                   "Parsing session: " +:+ sessionId;
                   "JSONL size: " +:+ Str.ofZ (roundKB fileSize) +:+ " KB";
                   "Exported to: " +:+ outFile;
                   "Output size: "
                     +:+ Str.ofZ (roundKB (Z.of_nat (Str.length markdown)))
                     +:+ " KB ("
                     +:+ Str.ofZ (Z.of_nat (length (Str.lines markdown)))
                     +:+ " lines)"]
                  (negb (existsSync sys (outputDir opts)))
                  outFile markdown)
    end.

End CommandLine.

End ExportChat.

(* ================================================================== *)
(** * scripts/export-continue.js: the command line *)
(* ================================================================== *)

(** [encodeProjectPath], [findClaudeProjectDir], [detectProjectName]
    and [listSessions] are the same in the two scripts and stand in
    [ExportChat]. *)
Module ExportContinueCli.

(** [opts] of [parseArgs]. *)
Record CliOptions : Type := {
  listFlag : bool;
  sessionArg : option string;
  outputDir : string;
}.

Section CommandLine.

Context (h : Host) (sys : Sys).

Fixpoint parseArgsFrom (args : list string) (skip : bool) (opts : CliOptions)
  : CliOptions :=
  match args with
  | [] => opts
  | arg :: rest =>
      let next := hd "" rest in
      if skip then parseArgsFrom rest false opts
      else if String.eqb arg "--list" || String.eqb arg "-l" then
        parseArgsFrom rest false
          {| listFlag := true; sessionArg := sessionArg opts;
             outputDir := outputDir opts |}
      else if (String.eqb arg "--output" || String.eqb arg "-o") && Str.nonEmpty next then
        parseArgsFrom rest true
          {| listFlag := listFlag opts; sessionArg := sessionArg opts;
             outputDir := path_resolve sys next |}
      else if negb (Str.startsWith arg "-") then
        parseArgsFrom rest false
          {| listFlag := listFlag opts; sessionArg := Some arg;
             outputDir := outputDir opts |}
      else parseArgsFrom rest false opts
  end.

(** [parseArgs] of [export-continue.js]; [argv] is
    [process.argv.slice(2)]. *)
Definition parseArgs (argv : list string) : CliOptions :=
  parseArgsFrom argv false
    {| listFlag := false; sessionArg := None;
       outputDir := ExportChat.DOWNLOADS_DIR sys |}.

(** [Math.round(n / 3.3)] for a length (exact below 10^12). *)
Definition estTokens (n : Z) : Z := (20 * n + 33) / 66.

(** [main] of [export-continue.js]; [writtenAt] is the clock when the
    file is named. *)
Definition main (d : ExportContinue.Dir) (CLAUDE_PROJECT_DIR : string)
    (argv : list string) (writtenAt : Z) : option ExportChat.Outcome :=
  let opts := parseArgs argv in
  if listFlag opts
  then ExportChat.Listed <$> ExportChat.listSessions h d CLAUDE_PROJECT_DIR 15
  else
    match ExportChat.chooseSession h d (sessionArg opts) with
    | None => Some (ExportChat.Exited "No session files found.")
    | Some (name, sessionId) =>
        let jsonlPath := path_join sys CLAUDE_PROJECT_DIR name in
        if negb (existsSync sys jsonlPath)
        then Some (ExportChat.Exited ("Session file not found: " +:+ jsonlPath))
        else
          f ← ExportContinue.file d name;
          let fileSize := Z.of_nat (String.length (ExportContinue.data f)) in
          let entries := ExportContinue.parseJsonl h (ExportContinue.data f) in
          handoff ← ExportContinue.extractHandoff h entries sessionId;
          json ← ExportChat.JSON_pretty "" handoff;
          let dateStr := ExportChat.dateStrOf (Date_toISOString h writtenAt) in
          let shortId := Str.substring sessionId 0 8 in
          let outFile :=
            path_join sys (outputDir opts)
              ("claude-handoff_" +:+ dateStr +:+ "_" +:+ shortId +:+ ".json") in
          Some (ExportChat.Exported
                  ["Project: " +:+ PROJECT_NAME h;
                   "Parsing session: " +:+ sessionId;
                   "JSONL size: " +:+ Str.ofZ (ExportChat.roundKB fileSize) +:+ " KB";
                   "Exported to: " +:+ outFile;
                   "Output size: "
                     +:+ Str.ofZ (ExportChat.roundKB (Z.of_nat (Str.length json)))
                     +:+ " KB (~"
                     +:+ toLocaleString sys (estTokens (Z.of_nat (Str.length json)))
                     +:+ " tokens)"]
                  (negb (existsSync sys (outputDir opts)))
                  outFile json)
    end.

End CommandLine.

End ExportContinueCli.

(* ================================================================== *)
(** * Vocabulary of the statements *)
(* ================================================================== *)

(** The marker [truncateChars] appends. *)
Definition charsMarker (maxChars : Z) (total : nat) : string :=
  String Str.newline "" +:+ "... (truncated at " +:+ Str.ofZ maxChars
    +:+ " chars, total " +:+ Str.ofZ (Z.of_nat total) +:+ ")".

(** [null] or [undefined]: what a property read throws on. *)
Definition nullish (v : value) : bool :=
  match v with
  | VUndef | VNull => true
  | _ => false
  end.

(** The content blocks of a record, none when [message.content] is no
    array. *)
Definition blocksOf (entry : value) : list value :=
  default [] (asArray (optProp (optProp entry "message") "content")).

(** A log without a [null] where a record or a content block stands. *)
Definition noNulls (entries : list value) : Prop :=
  Forall (fun e => nullish e = false
                   /\ Forall (fun b => nullish b = false) (blocksOf e)) entries.

(** What a [tool_result] block with an id puts in the map. *)
Definition outcomeOf (block : value) : option (string * ExportContinue.ToolResult) :=
  if isStr (optProp block "type") "tool_result" && truthy (optProp block "tool_use_id")
  then Some (ToString (optProp block "tool_use_id"),
             {| ExportContinue.content :=
                  match optProp block "content" with
                  | VStr s => Some s
                  | c => JSON_stringify c
                  end;
                ExportContinue.is_error :=
                  JS.or (optProp block "is_error") (VBool false) |})
  else None.

(** The outcomes of a log in file order, each with its correlation id. *)
Definition outcomes (entries : list value)
  : list (string * ExportContinue.ToolResult) :=
  flat_map (fun e => if isStr (optProp e "type") "user"
                     then omap outcomeOf (blocksOf e) else []) entries.

(** [map[id] = outcome]. *)
Definition putOutcome (m : gmap string ExportContinue.ToolResult)
    (kv : string * ExportContinue.ToolResult) : gmap string ExportContinue.ToolResult :=
  <[ fst kv := snd kv ]> m.

(** An id that is a key of a dictionary: [String] accepts it, and it is
    not [__proto__], which an object literal does not store. *)
Definition plainId (v : value) : bool :=
  stringable v && negb (String.eqb (ToString v) "__proto__").

(** A log whose outcome blocks have such ids. *)
Definition plainIds (entries : list value) : Prop :=
  Forall (fun e => Forall (fun b => plainId (optProp b "tool_use_id") = true)
                     (blocksOf e)) entries.

(** [entry.type === r && entry.message?.role === r]. *)
Definition isRole (e : value) (r : string) : bool :=
  isStr (optProp e "type") r && isStr (optProp (optProp e "message") "role") r.

(** Some block of the content is a [tool_result]. *)
Definition hasToolResult (blocks : list value) : bool :=
  existsb (fun c => isStr (optProp c "type") "tool_result") blocks.

(** A genuine user conversational record for the handoff: a user record
    whose content is an array without a [tool_result] block. *)
Definition opensTurn (e : value) : bool :=
  match asArray (optProp (optProp e "message") "content") with
  | Some blocks => isRole e "user" && negb (hasToolResult blocks)
  | None => false
  end.

(** An assistant conversational record: its content is an array. *)
Definition speaks (e : value) : bool :=
  match asArray (optProp (optProp e "message") "content") with
  | Some _ => isRole e "assistant"
  | None => false
  end.

(** The number of genuine user records of a log. *)
Definition countTurns (entries : list value) : Z :=
  Z.of_nat (length (List.filter opensTurn entries)).

(** The digest text of a record in each role. *)
Definition userText (e : value) : string :=
  default "" (ExportContinue.userDigestText (blocksOf e)).

Definition assistantText (e : value) : string :=
  default "" (ExportContinue.assistantDigestText (blocksOf e)).

(** A text block whose text holds more than white space:
    [block.type === "text" && block.text?.trim()]. *)
Definition saysSomething (block : value) : bool :=
  isStr (optProp block "type") "text"
  && match optProp block "text" with
     | VStr t => Str.nonEmpty (Str.trim t)
     | _ => false
     end.

(** The digest entry of a text, none when the text is empty. *)
Definition digestEntries (n : Z) (r t : string) : list ExportContinue.DigestEntry :=
  if Str.nonEmpty t
  then [{| ExportContinue.turn := n; ExportContinue.role := r;
           ExportContinue.text := default "" (ExportContinue.truncate (VStr t) 300) |}]
  else [].

(** What a record adds to the digest when [n] turns are open. *)
Definition segment (n : Z) (e : value) : list ExportContinue.DigestEntry :=
  if opensTurn e then digestEntries (n + 1) "user" (userText e)
  else if speaks e then digestEntries n "assistant" (assistantText e)
  else [].

(** The digest of a log from [n] open turns. *)
Fixpoint digestFrom (n : Z) (entries : list value) : list ExportContinue.DigestEntry :=
  match entries with
  | [] => []
  | e :: rest => segment n e ++ digestFrom (if opensTurn e then n + 1 else n) rest
  end.

Definition isUserEntry (d : ExportContinue.DigestEntry) : bool :=
  String.eqb (ExportContinue.role d) "user".

(** A genuine user record for the transcript. *)
Definition opensTurnChat (e : value) : bool :=
  let msg := optProp e "message" in
  (isStr (optProp e "type") "user" || isStr (optProp e "type") "assistant")
  && truthy msg && truthy (optProp msg "content")
  && match asArray (optProp msg "content") with
     | Some blocks => isStr (optProp msg "role") "user" && negb (hasToolResult blocks)
     | None => false
     end.

Definition countTurnsChat (entries : list value) : Z :=
  Z.of_nat (length (List.filter opensTurnChat entries)).

(** The heading of a user turn in the transcript. *)
Definition turnHeading (n : Z) : string := "### User (Turn " +:+ Str.ofZ n +:+ ")".

(** ** Sample records *)

Definition textBlock (s : string) : value :=
  VObj [("type", VStr "text"); ("text", VStr s)].

Definition imageBlock : value := VObj [("type", VStr "image")].

Definition toolUseBlock (name id : string) (input : list (string * value)) : value :=
  VObj [("type", VStr "tool_use"); ("name", VStr name); ("id", VStr id);
        ("input", VObj input)].

Definition toolResultBlock (id content : string) (is_error : bool) : value :=
  VObj [("type", VStr "tool_result"); ("tool_use_id", VStr id);
        ("content", VStr content); ("is_error", VBool is_error)].

Definition record (role time : string) (blocks : list value) : value :=
  VObj [("type", VStr role); ("timestamp", VStr time);
        ("message", VObj [("role", VStr role); ("content", VArr blocks)])].

(** A host for the concrete runs: the reference [JSON.parse] and [Date],
    a project in [/home/dev/app] on branch [main] with a clean tree. *)
Definition sampleHost : Host :=
  {| JSON_parse := Json.parse;
     Date_parse := Json.isoTime;
     Date_toISOString := Json.isoString;
     PROJECT_ROOT := "/home/dev/app";
     PROJECT_NAME := "app";
     execSync := fun cmd _ =>
       if String.eqb cmd "git rev-parse --abbrev-ref HEAD"
       then Some ("main" +:+ String Str.newline "")
       else if String.prefix "git log" cmd
            then Some ("1a2b3c4 initial commit" +:+ String Str.newline "")
            else if String.eqb cmd "git diff --name-only HEAD" then Some ""
                 else None;
     now := 1767268800000 |}.

Definition sampleOptions : ExportChat.Options :=
  {| ExportChat.includeThinking := true; ExportChat.includeResults := true;
     ExportChat.maxResultLines := ExportChat.DEFAULT_MAX_RESULT_LINES |}.

(** ** Reading the handoff *)

(** The object has an own property [k]. *)
Definition hasField (v : value) (k : string) : bool :=
  match v with
  | VObj fields => existsb (fun kv => String.eqb (fst kv) k) fields
  | _ => false
  end.

(** The elements of an array property, none when the property is absent. *)
Definition arrayField (v : value) (k : string) : list value :=
  default [] (asArray (optProp v k)).

(** The first property [k] of a literal that does not hold [undefined]. *)
Fixpoint firstDefined (k : string) (fields : list (string * value)) : value :=
  match fields with
  | [] => VUndef
  | (k', x) :: rest =>
      if String.eqb k' k && negb (isUndef x) then x else firstDefined k rest
  end.

(** An element of an array through [JSON.parse(JSON.stringify(...))]. *)
Definition cloneElement (x : value) : value :=
  match x with
  | VUndef => VNull
  | _ => JSON_clone x
  end.

(** A small session: a request, a file written, a command run and
    failed, the file edited, then a picture sent and answered. *)
Definition sampleLog : list value :=
  [ record "user" "2026-01-01T10:00:00.000Z"
      [textBlock "<system-reminder>be brief</system-reminder>Fix the login bug"];
    record "assistant" "2026-01-01T10:00:05.000Z"
      [textBlock "Looking at it.";
       toolUseBlock "Write" "toolu_1"
         [("file_path", VStr "/home/dev/app/src/login.js");
          ("content", VStr "line1")];
       toolUseBlock "Bash" "toolu_2" [("command", VStr "npm test -- login")]];
    record "user" "2026-01-01T10:00:09.000Z"
      [toolResultBlock "toolu_1" "ok" false;
       toolResultBlock "toolu_2" "1 failing" true;
       toolResultBlock "toolu_2" "2 failing" true];
    record "assistant" "2026-01-01T10:00:12.000Z"
      [toolUseBlock "Edit" "toolu_3"
         [("file_path", VStr "/home/dev/app/src/login.js");
          ("old_string", VStr "line1"); ("new_string", VStr "line2")]];
    record "user" "2026-01-01T10:01:00.000Z" [imageBlock];
    record "assistant" "2026-01-01T10:01:04.000Z" [textBlock "Done."] ].

(** [s.repeat(n)]. *)
Definition repeated (n : nat) (s : string) : string := String.concat "" (repeat s n).

(** [truncate(t, max)] of a string. *)
Definition truncated (t : string) (max : Z) : string :=
  default "" (ExportContinue.truncate (VStr t) max).

(** What a block of a genuine user record adds to [userMessages]: the
    cleaned text of a text block, cut at 500 characters, unless it
    cleans to nothing. *)
Definition taskText (block : value) : option string :=
  if isStr (optProp block "type") "text" then
    match optProp block "text" with
    | VStr t =>
        let cleaned := ExportContinue.stripSystemTags t in
        if Str.nonEmpty cleaned then Some (truncated cleaned 500) else None
    | _ => None
    end
  else None.

(** [userMessages] at the end of the first loop. *)
Definition taskTexts (entries : list value) : list string :=
  flat_map (fun e => if opensTurn e then omap taskText (blocksOf e) else []) entries.

(** The tool calls of a log: the [tool_use] blocks of its assistant
    records, in file order. *)
Definition toolUses (entries : list value) : list value :=
  flat_map (fun e => if speaks e
                     then List.filter (fun b => isStr (optProp b "type") "tool_use")
                            (blocksOf e)
                     else []) entries.

Definition nameOf (block : value) : value := optProp block "name".

Definition inputOf (block : value) : value := JS.or (optProp block "input") (VObj []).

Definition resultOf (trm : gmap string ExportContinue.ToolResult) (block : value)
  : option ExportContinue.ToolResult :=
  trm !! ToString (optProp block "id").

(** What a tool call adds to [actions]. *)
Definition blockActions (trm : gmap string ExportContinue.ToolResult) (b : value)
  : list value :=
  default [] (ExportContinue.bashAction (nameOf b) (inputOf b) (resultOf trm b))
  ++ default [] (ExportContinue.taskAction (nameOf b) (inputOf b) (resultOf trm b)).

(** A text that is empty or opens with a character. *)
Definition opens (t : string) : bool :=
  match t with
  | String c _ => negb (Str.isCont c)
  | "" => true
  end.

(** The command of a [Bash] call, trimmed; empty when there is none. *)
Definition trimmedCommand (b : value) : string :=
  match optProp (inputOf b) "command" with
  | VStr s => Str.trim s
  | _ => ""
  end.

(** The call is kept in [actions]: more than five characters, no
    leading [echo]. *)
Definition notable (b : value) : bool :=
  (5 <? Z.of_nat (Str.length (trimmedCommand b)))%Z
  && negb (Str.startsWith (trimmedCommand b) "echo ").

(** The file a [Write] ([true]) or an [Edit] ([false]) call changes, by
    its short path. *)
Definition fileOpOf (h : Host) (b : value) : option (string * bool) :=
  let file_path := optProp (inputOf b) "file_path" in
  if isStr (nameOf b) "Write" && truthy file_path then
    sp ← ExportContinue.shortPath h file_path; Some (sp, true)
  else if isStr (nameOf b) "Edit" && truthy file_path then
    sp ← ExportContinue.shortPath h file_path; Some (sp, false)
  else None.

(** No [Write] and no [Edit] of the log names a file whose short path
    is [__proto__].  On that key an assignment replaces the prototype of
    [fileChanges] and a read answers [Object.prototype], which an
    [Edit] then writes on: every object of the script inherits what it
    writes. *)
Definition plainPaths (h : Host) (entries : list value) : bool :=
  forallb (fun b => match fileOpOf h b with
                    | Some (sp, _) => negb (String.eqb sp "__proto__")
                    | None => true
                    end) (toolUses entries).

(** How a tool call moves [fileChanges]: a [Write] or an [Edit] sets
    the entry of its short path, any other call leaves the dictionary
    alone, and so does an [Edit] whose short path [Object.prototype]
    answers. *)
Definition fileStepRel (h : Host) (b : value)
    (fc fc' : list (string * ExportContinue.Change)) : Prop :=
  match fileOpOf h b with
  | Some (sp, w) =>
      if negb w && ExportContinue.answersInherited sp fc then fc' = fc
      else exists c, fc' = ExportContinue.setKey sp c fc
                     /\ ExportContinue.action c = (if w then "created" else "modified")
                     /\ (w = true -> ExportContinue.edits c = None)
  | None => fc' = fc
  end.

Fixpoint fileChain (h : Host) (calls : list value)
    (fc fc' : list (string * ExportContinue.Change)) : Prop :=
  match calls with
  | [] => fc' = fc
  | b :: rest => exists fc1, fileStepRel h b fc fc1 /\ fileChain h rest fc1 fc'
  end.

(** ** The environment of a run *)

(** The commands [getGitContext] runs (the transcript runs the first
    two). *)
Definition gitCommands : list string :=
  ["git rev-parse --abbrev-ref HEAD";
   "git log --oneline -5 --format=" +:+ String (ascii_of_nat 34) "%h %s"
     +:+ String (ascii_of_nat 34) "";
   "git diff --name-only HEAD"].

(** [sampleHost] with another branch checked out. *)
Definition onBranch (name : string) : Host :=
  {| JSON_parse := JSON_parse sampleHost;
     Date_parse := Date_parse sampleHost;
     Date_toISOString := Date_toISOString sampleHost;
     PROJECT_ROOT := PROJECT_ROOT sampleHost;
     PROJECT_NAME := PROJECT_NAME sampleHost;
     execSync := fun cmd cwd =>
       if String.eqb cmd "git rev-parse --abbrev-ref HEAD"
       then Some (name +:+ String Str.newline "")
       else execSync sampleHost cmd cwd;
     now := now sampleHost |}.

(** [sampleHost] at another time. *)
Definition atTime (t : Z) : Host :=
  {| JSON_parse := JSON_parse sampleHost;
     Date_parse := Date_parse sampleHost;
     Date_toISOString := Date_toISOString sampleHost;
     PROJECT_ROOT := PROJECT_ROOT sampleHost;
     PROJECT_NAME := PROJECT_NAME sampleHost;
     execSync := execSync sampleHost;
     now := t |}.

(** A transcript laid out around the three places where it tells of
    the environment: the branch in the header, the recent commits in
    the summary, and the time of the export at the end.  [before],
    [between] and [after] are its other lines. *)
Definition transcriptOf (before between after : list string)
    (git : ExportChat.GitContext) (exported : string) : string :=
  Str.join (String Str.newline "")
    (before
       ++ ["| Branch | `" +:+ ExportChat.branch git +:+ "` |"]
       ++ between
       ++ (if Str.nonEmpty (ExportChat.recentCommits git)
           then ["**Recent commits (context):**"; ExportChat.fence;
                 ExportChat.recentCommits git; ExportChat.fence; ""]
           else [])
       ++ after
       ++ ["*Exported at " +:+ exported +:+ "*";
           "*Export version: 2.0 (AI-optimized with tool results)*";
           "*Tool: claude-export (https://github.com/stephenpham68/claude-export)*"]).

(** ** Session logs *)

(** The last parseable record of a log. *)
Definition lastRecord (h : Host) (text : string) : option value :=
  last (ExportContinue.parseJsonl h text).

(** [tail] is the end of [text], made of whole lines. *)
Definition wholeLinesTail (text tail : string) : Prop :=
  text = tail \/ exists pre, text = pre +:+ String Str.newline tail.

(** Whole lines at the end of the file, of at most 16384 bytes together,
    hold a parseable record: the last record of the log is in the window
    [getLastEntryTimestamp] reads. *)
Definition recordInWindow (h : Host) (f : ExportContinue.File) : Prop :=
  exists tail,
    wholeLinesTail (ExportContinue.data f) tail
    /\ Z.of_nat (String.length tail) <= 16384
    /\ lastRecord h tail <> None.

(** The time a record carries. *)
Definition timeOfRecord (h : Host) (e : value) : option Z :=
  if truthy (optProp e "timestamp") && stringable (optProp e "timestamp")
  then timeValue h (optProp e "timestamp") else None.

(** [n] characters of padding. *)
Definition filler (n : nat) : string := string_of_list_ascii (repeat "x"%char n).

Definition quoted (s : string) : string :=
  String (ascii_of_nat 34) (s +:+ String (ascii_of_nat 34) "").

(** A log line: a record with a timestamp and a note. *)
Definition logLine (time note : string) : string :=
  "{" +:+ quoted "timestamp" +:+ ":" +:+ quoted time +:+ ","
      +:+ quoted "note" +:+ ":" +:+ quoted note +:+ "}".

(** Two session logs.  [older.jsonl] ends on 2025-12-31 and was touched
    on 2026-01-02; [newer.jsonl] ends on 2026-01-01 with a record of more
    than 16384 bytes and has a modification time of 2025-06-01. *)
Definition twoSessions : ExportContinue.Dir :=
  {| ExportContinue.readdirSync := ["older.jsonl"; "newer.jsonl"; "notes.txt"];
     ExportContinue.file := fun name =>
       if String.eqb name "older.jsonl" then
         Some {| ExportContinue.mtime := 1767312000000;
                 ExportContinue.data :=
                   logLine "2025-12-31T23:00:00.000Z" "done"
                     +:+ String Str.newline "" |}
       else if String.eqb name "newer.jsonl" then
         Some {| ExportContinue.mtime := 1748736000000;
                 ExportContinue.data :=
                   logLine "2026-01-01T09:00:00.000Z" "start"
                     +:+ String Str.newline ""
                     +:+ logLine "2026-01-01T10:00:00.000Z" (filler (164 * 100))
                     +:+ String Str.newline "" |}
       else None |}.

(** The same two logs with short records. *)
Definition twoShortSessions : ExportContinue.Dir :=
  {| ExportContinue.readdirSync := ["older.jsonl"; "newer.jsonl"; "notes.txt"];
     ExportContinue.file := fun name =>
       if String.eqb name "older.jsonl" then
         Some {| ExportContinue.mtime := 1767312000000;
                 ExportContinue.data :=
                   logLine "2025-12-31T23:00:00.000Z" "done"
                     +:+ String Str.newline "" |}
       else if String.eqb name "newer.jsonl" then
         Some {| ExportContinue.mtime := 1748736000000;
                 ExportContinue.data :=
                   logLine "2026-01-01T09:00:00.000Z" "start"
                     +:+ String Str.newline ""
                     +:+ logLine "2026-01-01T10:00:00.000Z" "short"
                     +:+ String Str.newline "" |}
       else None |}.

(** ** The shape of a log the handoff is built from *)

(** A field that is left out or holds a string. *)
Definition textual (v : value) : bool :=
  match v with
  | VUndef | VNull | VStr _ => true
  | _ => false
  end.

(** A todo list: left out (or another falsy value), or an array of
    todo objects. *)
Definition todoList (v : value) : bool :=
  match v with
  | VArr l => forallb (fun t => negb (nullish t)) l
  | _ => negb (truthy v)
  end.

(** The input of a tool call: the fields [extractHandoff] takes for
    strings are strings when present, [String] accepts the pattern, and
    the short path of the file is no member of [Object.prototype]. *)
Definition wellFormedInput (h : Host) (input : value) : bool :=
  forallb (fun k => textual (optProp input k))
    ["command"; "file_path"; "content"; "old_string"; "new_string"; "path"; "prompt"]
  && todoList (optProp input "todos")
  && stringable (optProp input "pattern")
  && negb (inherited
             (default "" (ExportContinue.shortPath h (optProp input "file_path")))).

(** A content block: an object; a [text] block holds a string, a
    [tool_use] block an input as above and an id [String] accepts, and
    the id of a [tool_result] block is a key of a dictionary. *)
Definition wellFormedBlock (h : Host) (b : value) : bool :=
  negb (nullish b)
  && (if isStr (optProp b "type") "text"
      then match optProp b "text" with VStr _ => true | _ => false end
      else true)
  && (if isStr (optProp b "type") "tool_use"
      then wellFormedInput h (JS.or (optProp b "input") (VObj []))
      else true)
  && stringable (optProp b "id")
  && plainId (optProp b "tool_use_id").

(** A log whose records are objects with a timestamp [String] accepts
    and well-formed content blocks. *)
Definition wellFormed (h : Host) (entries : list value) : bool :=
  forallb (fun e => negb (nullish e) && stringable (optProp e "timestamp")
                    && forallb (wellFormedBlock h) (blocksOf e))
    entries.

(** The state of the first loop the later steps rely on: the todo list
    kept is a todo list, and every search has a key. *)
Definition collected (acc : ExportContinue.Acc) : Prop :=
  todoList (ExportContinue.latestTodos acc) = true
  /\ Forall (fun s => is_Some (ExportContinue.searchKey s)) (ExportContinue.searches acc).

(** The handoff of [sampleLog] on [sampleHost]. *)
Definition sampleHandoff : value :=
  Eval vm_compute in
    default VNull (ExportContinue.extractHandoff sampleHost sampleLog "0a1b2c3d").

(** ** More of the handoff *)

(** What a tool call adds to [errors] and to [searches]. *)
Definition blockErrors (h : Host) (trm : gmap string ExportContinue.ToolResult)
    (b : value) : list value :=
  default [] (ExportContinue.errorEntry h (nameOf b) (inputOf b) (resultOf trm b)).

Definition blockSearches (h : Host) (trm : gmap string ExportContinue.ToolResult)
    (b : value) : list value :=
  default [] (ExportContinue.searchEntry h (nameOf b) (inputOf b) (resultOf trm b)).

(** The call failed: the outcome filed under its id is marked. *)
Definition failed (trm : gmap string ExportContinue.ToolResult) (b : value) : bool :=
  ExportContinue.isErrorOf (resultOf trm b).

(** The call is a search. *)
Definition isSearch (b : value) : bool :=
  isStr (nameOf b) "Grep" || isStr (nameOf b) "Glob".

(** The file a [Read] call reads, by its short path. *)
Definition readPathOf (h : Host) (b : value) : option string :=
  if isStr (nameOf b) "Read" && truthy (optProp (inputOf b) "file_path")
  then ExportContinue.shortPath h (optProp (inputOf b) "file_path")
  else None.

(** [filesRead] after a call. *)
Definition readStep (h : Host) (fr : list string) (b : value) : list string :=
  match readPathOf h b with
  | Some sp => ExportContinue.setAdd sp fr
  | None => fr
  end.

(** The todo list a [TodoWrite] call brings. *)
Definition todosOf (b : value) : option value :=
  if isStr (nameOf b) "TodoWrite" && truthy (optProp (inputOf b) "todos")
  then Some (optProp (inputOf b) "todos") else None.

(** The contents of the todos of one list of [progress]: [completed],
    [in_progress], or [pending] for any other status. *)
Definition statusIs (list_ : string) (t : value) : bool :=
  if String.eqb list_ "pending"
  then negb (isStr (optProp t "status") "completed")
       && negb (isStr (optProp t "status") "in_progress")
  else isStr (optProp t "status") list_.

Definition todoContents (list_ : string) (todos : list value) : list value :=
  map (fun t => optProp t "content") (List.filter (statusIs list_) todos).

(** The fields of an entry of the digest in the handoff. *)
Definition digestTurn (d : value) : Z :=
  match optProp d "turn" with
  | VNum n => n
  | _ => -1
  end.

Definition digestContent (d : value) : string :=
  match optProp d "content" with
  | VStr s => s
  | _ => ""
  end.

(** ** Session logs and directories *)

(** The time [getLastEntryTimestamp] gives a log is a number. *)
Definition timed (h : Host) (d : ExportContinue.Dir) (name : string) (t : Z) : Prop :=
  ExportContinue.getLastEntryTimestamp h d name = Some t.

(** ** A session of reading and searching *)

Definition todo (content status : string) : value :=
  VObj [("content", VStr content); ("status", VStr status)].

(** A request, then two files read (one of them twice), three searches
    (two of them the same), and two todo lists. *)
Definition sampleWork : list value :=
  [ record "user" "2026-01-01T10:00:00.000Z" [textBlock "Find the session code"];
    record "assistant" "2026-01-01T10:00:05.000Z"
      [toolUseBlock "TodoWrite" "toolu_1"
         [("todos", VArr [todo "read the code" "in_progress"; todo "fix it" "pending"])];
       toolUseBlock "Read" "toolu_2" [("file_path", VStr "/home/dev/app/src/a.js")];
       toolUseBlock "Grep" "toolu_3" [("pattern", VStr "session")];
       toolUseBlock "Read" "toolu_4" [("file_path", VStr "/home/dev/app/src/b.js")]];
    record "user" "2026-01-01T10:00:09.000Z"
      [toolResultBlock "toolu_2" "const a = 1" false;
       toolResultBlock "toolu_3" "src/a.js" false;
       toolResultBlock "toolu_4" "no such file" true];
    record "assistant" "2026-01-01T10:00:12.000Z"
      [toolUseBlock "Grep" "toolu_5" [("pattern", VStr "session")];
       toolUseBlock "Glob" "toolu_6" [("pattern", VStr "session")];
       toolUseBlock "Read" "toolu_7" [("file_path", VStr "/home/dev/app/src/a.js")];
       toolUseBlock "TodoWrite" "toolu_8"
         [("todos", VArr [todo "read the code" "completed"; todo "fix it" "in_progress";
                          todo "test it" "pending"; todo "ship it" "blocked"])]] ].

(** The handoff of [sampleWork] on [sampleHost]. *)
Definition sampleWorkHandoff : value :=
  Eval vm_compute in
    default VNull (ExportContinue.extractHandoff sampleHost sampleWork "4e5f6a7b").

(** Numbers that never go up along the list. *)
Fixpoint descending (l : list Z) : Prop :=
  match l with
  | [] => True
  | x :: rest => Forall (fun y => y <= x) rest /\ descending rest
  end.

(** ** The statistics of the transcript *)

(** The calls [toolBreakdown] counts together, and those it counts
    under one name. *)
Definition sumCounts (o : list (string * Z)) : Z :=
  foldr (fun kv n => snd kv + n) 0 o.

Definition countOf (k : string) (o : list (string * Z)) : Z :=
  default 0 (ExportContinue.getKey k o).

(** The counters of [collectStats] agree with each other. *)
Definition consistent (st : ExportChat.Stats) : Prop :=
  ExportChat.toolCalls st = sumCounts (ExportChat.toolBreakdown st)
  /\ Forall (fun kv => 1 <= snd kv) (ExportChat.toolBreakdown st)
  /\ List.NoDup (map fst (ExportChat.toolBreakdown st))
  /\ 0 <= ExportChat.toolErrors st <= ExportChat.toolCalls st
  /\ 0 <= ExportChat.bashCommands st <= countOf "Bash" (ExportChat.toolBreakdown st)
  /\ 0 <= ExportChat.searches st
     <= countOf "Grep" (ExportChat.toolBreakdown st)
        + countOf "Glob" (ExportChat.toolBreakdown st)
  /\ List.NoDup (ExportChat.filesRead st)
  /\ List.NoDup (ExportChat.filesWritten st)
  /\ List.NoDup (ExportChat.filesEdited st).

(** No tool call of the log is named after a member of
    [Object.prototype] ([constructor], [toString], [__proto__], ...).
    Under such a name [stats.toolBreakdown[name] || 0] is the inherited
    member, and what the script stores is a string, no count. *)
Definition plainNames (entries : list value) : bool :=
  forallb (fun e =>
             forallb (fun b =>
                        negb (isStr (optProp b "type") "tool_use")
                        || negb (inherited
                                   (ToString (JS.or (optProp b "name")
                                                (VStr "Unknown")))))
               (blocksOf e))
    entries.

(** A user record [collectStats] counts as a turn: its type is [user]
    and its content an array without a [tool_result] block. *)
Definition opensTurnStats (e : value) : bool :=
  isStr (optProp e "type") "user"
  && match asArray (optProp (optProp e "message") "content") with
     | Some blocks => negb (hasToolResult blocks)
     | None => false
     end.

(** The record is typed [user] exactly when its message has the role
    [user]. *)
Definition rolesAgree (e : value) : bool :=
  Bool.eqb (isStr (optProp e "type") "user")
    (isStr (optProp (optProp e "message") "role") "user").

(** ** A machine for the command line *)

(** The home of [dev] on a POSIX machine: five projects have sessions,
    those of [/home/dev/app] the two logs of [twoShortSessions],
    the project in [/home/dev/app] has a [package.json] with a scoped
    name, and the one in [/home/dev/tool] has none. *)
Definition sampleSys : Sys :=
  {| path_join := fun a b => a +:+ "/" +:+ b;
     path_resolve := fun p => if Str.startsWith p "/" then p else "/home/dev/app/" +:+ p;
     path_basename := fun p => List.last (Str.split "/" p) "";
     existsSync := fun p =>
       existsb (String.eqb p)
         ["/home/dev/.claude/projects"; "/home/dev/.claude/projects/-home-dev-app";
          "/home/dev/.claude/projects/-home-dev-app/older.jsonl";
          "/home/dev/.claude/projects/-home-dev-app/newer.jsonl";
          "/home/dev/Downloads"];
     readdirSync := fun p =>
       if String.eqb p "/home/dev/.claude/projects"
       then Some ["-home-dev"; "-home-dev-app"; "-home-dev-Tool"; "-srv-www";
                  "-home-dev-Été"]
       else None;
     readFileSync := fun p =>
       if String.eqb p "/home/dev/app/package.json"
       then Some ("{" +:+ quoted "name" +:+ ":" +:+ quoted "@acme/app" +:+ "}")
       else None;
     homedir := "/home/dev";
     toLocaleString := Str.ofZ;
     toLowerCase := Str.lowerLatin |}.

(** U+00A0, the no-break space, and U+FEFF, the byte order mark: white
    space outside ASCII. *)
Definition nbsp : string := String "194" (String "160" "").

Definition bom : string := String "239" (String "187" (String "191" "")).

(** ** The command line *)

(** What the options of [export-chat.js] owe to the arguments: every
    setting that is not the default comes from an argument. *)
Definition fromArgs (sys : Sys) (argv : list string) (opts : ExportChat.CliOptions)
  : Prop :=
  ExportChat.maxResultLines (ExportChat.options opts) <> 0
  /\ (ExportChat.listFlag opts = true -> In "--list" argv \/ In "-l" argv)
  /\ (ExportChat.includeThinking (ExportChat.options opts) = false
      -> In "--no-thinking" argv)
  /\ (ExportChat.includeResults (ExportChat.options opts) = false
      -> In "--no-results" argv)
  /\ (forall s, ExportChat.sessionArg opts = Some s ->
                In s argv /\ Str.startsWith s "-" = false)
  /\ (ExportChat.outputDir opts = ExportChat.DOWNLOADS_DIR sys
      \/ exists d, In d argv /\ d <> ""
                   /\ ExportChat.outputDir opts = path_resolve sys d).

(** The same for [export-continue.js]. *)
Definition fromArgsContinue (sys : Sys) (argv : list string)
    (opts : ExportContinueCli.CliOptions) : Prop :=
  (ExportContinueCli.listFlag opts = true -> In "--list" argv \/ In "-l" argv)
  /\ (forall s, ExportContinueCli.sessionArg opts = Some s ->
                In s argv /\ Str.startsWith s "-" = false)
  /\ (ExportContinueCli.outputDir opts = ExportChat.DOWNLOADS_DIR sys
      \/ exists d, In d argv /\ d <> ""
                   /\ ExportContinueCli.outputDir opts = path_resolve sys d).

(** ** The times of a session *)

(** The timestamps of the records that have one, in file order. *)
Definition stamps (entries : list value) : list value :=
  List.filter truthy (map (fun e => optProp e "timestamp") entries).

(* ================================================================== *)
(** * Verification *)
(* ================================================================== *)

(** ** Strings *)

Lemma length_take (n : nat) (s : string) :
  String.length (Str.take n s) = Nat.min n (String.length s).
Proof.
  revert s; induction n as [|n IH]; intros [|c s]; simpl; auto.
Qed.

Lemma take_all (n : nat) (s : string) :
  (String.length s <= n)%nat -> Str.take n s = s.
Proof.
  revert s; induction n as [|n IH]; intros [|c s]; simpl; intros Hn;
    try reflexivity; try lia.
  f_equal. apply IH. lia.
Qed.

Lemma take_append (n : nat) (s t : string) :
  (n <= String.length s)%nat -> Str.take n (s +:+ t) = Str.take n s.
Proof.
  revert s; induction n as [|n IH]; intros s Hn; [reflexivity|].
  destruct s as [|c s]; simpl in *; [lia|].
  f_equal. apply IH. lia.
Qed.

Lemma take_take (n : nat) (s : string) : Str.take n (Str.take n s) = Str.take n s.
Proof.
  revert s; induction n as [|n IH]; intros [|c s]; simpl; try reflexivity.
  f_equal. apply IH.
Qed.

Lemma length_append (s t : string) :
  String.length (s +:+ t) = (String.length s + String.length t)%nat.
Proof. induction s as [|c s IH]; simpl; auto. Qed.

(** ** Code units *)

Lemma append_cons (c : ascii) (a t : string) : String c a +:+ t = String c (a +:+ t).
Proof. reflexivity. Qed.

Lemma isCont_units (c : ascii) : Str.isCont c = true -> Str.units c = 0%nat.
Proof.
  destruct c as [b0 b1 b2 b3 b4 b5 b6 b7]. simpl.
  destruct b7, b6; simpl; congruence.
Qed.

Lemma units_bound (c : ascii) : (Str.units c <= 2)%nat.
Proof.
  destruct c as [b0 b1 b2 b3 b4 b5 b6 b7]. simpl.
  destruct b7, b6, b5, b4; simpl; lia.
Qed.

Lemma units_length_append (s t : string) :
  Str.length (s +:+ t) = (Str.length s + Str.length t)%nat.
Proof.
  induction s as [|c s IH]; [reflexivity|].
  rewrite append_cons. cbn [Str.length]. rewrite IH. lia.
Qed.

Lemma length_takeCont (k : nat) (s : string) : Str.length (Str.takeCont k s) = 0%nat.
Proof.
  revert s; induction k as [|k IH]; intros [|c s]; simpl; try reflexivity.
  destruct (Str.isCont c) eqn:E; [|reflexivity].
  simpl. rewrite IH, (isCont_units c E). reflexivity.
Qed.

Lemma length_highHalf (c b1 b2 : ascii) : Str.length (Str.highHalf c b1 b2) = 1%nat.
Proof.
  destruct c as [c0 c1 c2 c3 c4 c5 c6 c7], b1 as [p0 p1 p2 p3 p4 p5 p6 p7],
    b2 as [q0 q1 q2 q3 q4 q5 q6 q7].
  unfold Str.highHalf. destruct (ascii_of_N _). reflexivity.
Qed.

(** [s.substring(0, n)] has [n] code units, or all of them. *)
Lemma length_takeUnits (n : nat) (s : string) :
  Str.length (Str.takeUnits n s) = Nat.min n (Str.length s).
Proof.
  revert n; induction s as [|c s IH]; intros [|n]; try reflexivity.
  cbn [Str.takeUnits Str.length].
  destruct (Str.isCont c) eqn:Ec.
  - cbn [Str.length]. rewrite IH, (isCont_units c Ec). reflexivity.
  - destruct (Nat.leb_spec (Str.units c) (S n)) as [Hle|Hgt].
    + cbn [Str.length].
      destruct (S n - Str.units c)%nat as [|m] eqn:Em.
      * rewrite length_takeCont. lia.
      * rewrite IH. lia.
    + rewrite length_highHalf. pose proof (units_bound c). lia.
Qed.

Lemma takeCont_opens (k : nat) (t : string) :
  opens t = true -> Str.takeCont k t = "".
Proof.
  intros Ht. destruct k, t as [|d t]; try reflexivity. simpl in *.
  destruct (Str.isCont d); [discriminate | reflexivity].
Qed.

Lemma takeCont_prefix (k : nat) (s t : string) :
  opens t = true -> Str.takeCont k (Str.takeCont k s +:+ t) = Str.takeCont k s.
Proof.
  intros Ht. revert s; induction k as [|k IH]; intros s.
  - destruct s; reflexivity.
  - destruct s as [|c s]; cbn [Str.takeCont].
    + apply (takeCont_opens (S k)), Ht.
    + destruct (Str.isCont c) eqn:Ec.
      * rewrite append_cons. cbn [Str.takeCont]. rewrite Ec, IH. reflexivity.
      * apply (takeCont_opens (S k)), Ht.
Qed.

Lemma takeUnits_highHalf (c b1 b2 : ascii) (t : string) :
  opens t = true ->
  Str.takeUnits 1 (Str.highHalf c b1 b2 +:+ t) = Str.highHalf c b1 b2.
Proof.
  intros Ht.
  destruct c as [c0 c1 c2 c3 c4 c5 c6 c7], b1 as [p0 p1 p2 p3 p4 p5 p6 p7],
    b2 as [q0 q1 q2 q3 q4 q5 q6 q7].
  unfold Str.highHalf. destruct (ascii_of_N _) as [w0 w1 w2 w3 w4 w5 w6 w7].
  rewrite !append_cons. reflexivity.
Qed.

Lemma takeUnits_0 (s : string) : Str.takeUnits 0 s = "".
Proof. destruct s; reflexivity. Qed.

(** Cutting the cut again, with anything after it, changes nothing. *)
Lemma takeUnits_prefix (n : nat) (s t : string) :
  (n <= Str.length s)%nat -> opens t = true ->
  Str.takeUnits n (Str.takeUnits n s +:+ t) = Str.takeUnits n s.
Proof.
  intros Hn Ht. revert n Hn; induction s as [|c s IH]; intros [|n] Hn;
    try (rewrite !takeUnits_0; reflexivity).
  - simpl in Hn. lia.
  - cbn [Str.length] in Hn. cbn [Str.takeUnits].
    destruct (Str.isCont c) eqn:Ec.
    + rewrite append_cons. cbn [Str.takeUnits]. rewrite Ec. f_equal. apply IH.
      rewrite (isCont_units c Ec) in Hn. exact Hn.
    + destruct (Nat.leb_spec (Str.units c) (S n)) as [Hle|Hgt].
      * rewrite append_cons. cbn [Str.takeUnits]. rewrite Ec.
        destruct (Nat.leb_spec (Str.units c) (S n)); [|lia].
        f_equal. destruct (S n - Str.units c)%nat as [|m] eqn:Em.
        -- apply takeCont_prefix, Ht.
        -- apply IH. lia.
      * pose proof (units_bound c).
        replace n with 0%nat by lia. apply takeUnits_highHalf, Ht.
Qed.

Lemma dropUnits_0 (s : string) : Str.dropUnits 0 s = s.
Proof. destruct s; reflexivity. Qed.

(** [s.substring(0, m)] is a cut at [m] or at the length of [s]. *)
Lemma substring_start (s : string) (m : Z) :
  Str.substring s 0 m
  = Str.takeUnits (Z.to_nat (Z.min m (Z.of_nat (Str.length s)))) s.
Proof.
  unfold Str.substring.
  set (len := Z.of_nat (Str.length s)) in *.
  assert (Hlen : 0 <= len) by (unfold len; lia).
  replace (Z.max 0 (Z.min 0 len)) with 0 by lia.
  replace (Z.min 0 (Z.max 0 (Z.min m len))) with 0 by lia.
  replace (Z.max 0 (Z.max 0 (Z.min m len)) - 0) with (Z.max 0 (Z.min m len)) by lia.
  simpl Z.to_nat. rewrite dropUnits_0. f_equal. lia.
Qed.

Lemma substring_0 (s : string) (m : Z) :
  m <= Z.of_nat (Str.length s) ->
  Str.substring s 0 m = Str.takeUnits (Z.to_nat m) s.
Proof. intros Hm. rewrite substring_start. f_equal. lia. Qed.

(** The code units of a cut from the start. *)
Lemma length_substring_0 (s : string) (m : Z) :
  Str.length (Str.substring s 0 m)
  = Z.to_nat (Z.max 0 (Z.min m (Z.of_nat (Str.length s)))).
Proof.
  unfold Str.substring.
  set (len := Z.of_nat (Str.length s)) in *.
  assert (Hlen : 0 <= len) by (unfold len; lia).
  replace (Z.max 0 (Z.min 0 len)) with 0 by lia.
  replace (Z.min 0 (Z.max 0 (Z.min m len))) with 0 by lia.
  simpl Z.to_nat. rewrite dropUnits_0, length_takeUnits. unfold len in *. lia.
Qed.

(** Past the code units of [a] and at least one more. *)
Lemma dropUnits_past (a b : string) (n : nat) :
  Str.dropUnits (Str.length a + S n) (a +:+ b) = Str.dropUnits (S n) b.
Proof.
  induction a as [|c a IH]; [reflexivity|].
  rewrite append_cons. cbn [Str.length].
  destruct (Str.units c + Str.length a + S n)%nat as [|k] eqn:Ek; [lia|].
  cbn [Str.dropUnits]. rewrite <- Ek. clear k Ek.
  destruct (Str.isCont c) eqn:Ec.
  - rewrite (isCont_units c Ec). exact IH.
  - destruct (Nat.leb_spec (Str.units c) (Str.units c + Str.length a + S n)); [|lia].
    replace (Str.units c + Str.length a + S n - Str.units c)%nat
      with (Str.length a + S n)%nat by lia.
    destruct (Str.length a + S n)%nat as [|k] eqn:Ek; [lia|]. exact IH.
Qed.

(** ** Loops *)

Lemma forEach_app {A S} (body : S -> A -> option S) (l1 l2 : list A) (s : S) :
  forEach body (l1 ++ l2) s = s' ← forEach body l1 s; forEach body l2 s'.
Proof.
  revert s; induction l1 as [|x l1 IH]; intros s; simpl; [reflexivity|].
  destruct (body s x); simpl; auto.
Qed.

(** A loop whose body never throws on the elements it meets is a fold. *)
Lemma forEach_total {A S} (body : S -> A -> option S) (f : S -> A -> S) (l : list A) :
  (forall s x, In x l -> body s x = Some (f s x)) ->
  forall s, forEach body l s = Some (foldl f s l).
Proof.
  induction l as [|x l IH]; intros Hb s; simpl; [reflexivity|].
  rewrite Hb by (left; reflexivity). simpl. apply IH.
  intros; apply Hb; right; assumption.
Qed.

Lemma prop_defined (v : value) (k : string) :
  nullish v = false -> prop v k = Some (optProp v k).
Proof. destruct v; simpl; intros; congruence. Qed.


(** ** C1: the active session *)

Lemma split_nonempty (c : ascii) (s : string) : Str.split c s <> [].
Proof.
  destruct s as [|d s]; simpl; [discriminate|].
  destruct (Ascii.eqb d c); [discriminate|].
  destruct (Str.split c s); discriminate.
Qed.

Lemma split_append (c : ascii) (a b : string) :
  Str.split c (a +:+ String c b) = Str.split c a ++ Str.split c b.
Proof.
  induction a as [|d a IH]; simpl.
  - rewrite Ascii.eqb_refl. reflexivity.
  - destruct (Ascii.eqb d c); [rewrite IH; reflexivity|].
    rewrite IH. destruct (Str.split c a) as [|l ls] eqn:E; [|reflexivity].
    exfalso. apply (split_nonempty c a E).
Qed.

Lemma nonBlankLines_append (a b : string) :
  ExportContinue.nonBlankLines (a +:+ String Str.newline b)
  = ExportContinue.nonBlankLines a ++ ExportContinue.nonBlankLines b.
Proof.
  unfold ExportContinue.nonBlankLines, Str.lines.
  rewrite split_append. apply filter_app.
Qed.

Lemma parseJsonl_append (h : Host) (a b : string) :
  ExportContinue.parseJsonl h (a +:+ String Str.newline b)
  = ExportContinue.parseJsonl h a ++ ExportContinue.parseJsonl h b.
Proof.
  unfold ExportContinue.parseJsonl. rewrite nonBlankLines_append. apply omap_app.
Qed.

(** The last record of a log is the last record of its last lines, when
    they hold one. *)
Lemma lastRecord_tail (h : Host) (text tail : string) :
  wholeLinesTail text tail -> lastRecord h tail <> None ->
  lastRecord h text = lastRecord h tail.
Proof.
  intros [->|[pre ->]] Htail; [reflexivity|].
  unfold lastRecord in *. rewrite parseJsonl_append.
  destruct (ExportContinue.parseJsonl h tail) as [|e es] eqn:E using rev_ind.
  - contradiction.
  - rewrite app_assoc, !last_snoc. reflexivity.
Qed.

Lemma scanBackwards_app (h : Host) (l1 l2 : list string) :
  ExportContinue.scanBackwards h (l1 ++ l2)
  = match ExportContinue.scanBackwards h l1 with
    | Some ts => Some ts
    | None => ExportContinue.scanBackwards h l2
    end.
Proof.
  induction l1 as [|l l1 IH]; simpl; [reflexivity|].
  destruct (ExportContinue.timestampOfLine h l); [reflexivity|exact IH].
Qed.

(** A line that gives no record gives no timestamp either. *)
Lemma timestampOfLine_no_record (h : Host) (l : string) :
  match JSON_parse h l with
  | Some v => truthy v = false
  | None => True
  end ->
  ExportContinue.timestampOfLine h l = None.
Proof.
  unfold ExportContinue.timestampOfLine.
  destruct (JSON_parse h l) as [v|]; simpl; [|reflexivity].
  destruct v; simpl; try discriminate; reflexivity.
Qed.

Lemma timestampOfLine_record (h : Host) (l : string) (e : value) :
  JSON_parse h l = Some e -> truthy e = true ->
  truthy (optProp e "timestamp") && stringable (optProp e "timestamp") = true ->
  ExportContinue.timestampOfLine h l = Some (optProp e "timestamp").
Proof.
  unfold ExportContinue.timestampOfLine. intros -> He Hts. simpl.
  rewrite prop_defined by (destruct e; simpl in *; congruence).
  simpl. rewrite Hts. reflexivity.
Qed.

(** The backward scan stops at the last record when it has a
    timestamp. *)
Lemma scanBackwards_last (h : Host) (ls : list string) (e : value) :
  last (omap (fun l => match JSON_parse h l with
                       | Some v => if truthy v then Some v else None
                       | None => None
                       end) ls) = Some e ->
  truthy (optProp e "timestamp") && stringable (optProp e "timestamp") = true ->
  ExportContinue.scanBackwards h (rev ls) = Some (optProp e "timestamp").
Proof.
  intros Hlast Hts. induction ls as [|l ls IH] using rev_ind; [discriminate|].
  rewrite rev_unit. simpl. rewrite omap_app in Hlast. simpl in Hlast.
  destruct (JSON_parse h l) as [v|] eqn:Ev.
  - destruct (truthy v) eqn:Etv.
    + simpl in Hlast. rewrite last_snoc in Hlast. injection Hlast as ->.
      rewrite (timestampOfLine_record h l e Ev Etv Hts). reflexivity.
    + simpl in Hlast. rewrite app_nil_r in Hlast.
      rewrite timestampOfLine_no_record by (rewrite Ev; exact Etv).
      apply IH, Hlast.
  - simpl in Hlast. rewrite app_nil_r in Hlast.
    rewrite timestampOfLine_no_record by (rewrite Ev; exact I).
    apply IH, Hlast.
Qed.

Lemma length_drop (n : nat) (s : string) :
  String.length (Str.drop n s) = (String.length s - n)%nat.
Proof.
  revert s; induction n as [|n IH]; intros [|c s]; simpl; auto.
Qed.

Lemma drop_append (n : nat) (a b : string) :
  (n <= String.length a)%nat -> Str.drop n (a +:+ b) = Str.drop n a +:+ b.
Proof.
  revert a; induction n as [|n IH]; intros a Hn.
  - destruct a; destruct b; reflexivity.
  - destruct a as [|c a]; simpl in *; [lia|]. apply IH. lia.
Qed.

Lemma drop_past (a b : string) :
  Str.drop (String.length a) (a +:+ b) = b.
Proof.
  induction a as [|c a IH]; simpl; [destruct b; reflexivity|exact IH].
Qed.

(** What [fs.readSync] reads: the file without its first
    [size - readSize] bytes. *)
Lemma trailingWindow_drop (f : ExportContinue.File) :
  let size := Z.of_nat (String.length (ExportContinue.data f)) in
  ExportContinue.trailingWindow f
  = Str.drop (Z.to_nat (size - Z.min size 16384)) (ExportContinue.data f).
Proof.
  unfold ExportContinue.trailingWindow, Str.slice.
  set (s := ExportContinue.data f). set (size := Z.of_nat (String.length s)).
  assert (Hsize : 0 <= size) by (unfold size; lia).
  cbv zeta.
  replace (Z.max 0 (Z.min (Z.max 0 (size - Z.min size 16384)) size))
    with (size - Z.min size 16384) by lia.
  replace (Z.max 0 (Z.min (Z.max 0 (size - Z.min size 16384) + Z.min size 16384) size))
    with size by lia.
  replace (Z.min (size - Z.min size 16384) size) with (size - Z.min size 16384) by lia.
  replace (Z.max (size - Z.min size 16384) size) with size by lia.
  apply take_all. rewrite length_drop. fold s. unfold size. lia.
Qed.

Lemma trailingWindow_length (f : ExportContinue.File) :
  Z.of_nat (String.length (ExportContinue.trailingWindow f)) <= 16384.
Proof. rewrite trailingWindow_drop, length_drop. lia. Qed.

Lemma append_newline (pre tail : string) :
  pre +:+ String Str.newline tail = (pre +:+ String Str.newline "") +:+ tail.
Proof.
  induction pre as [|c pre IH]; [reflexivity|].
  change (String c (pre +:+ String Str.newline tail)
          = String c ((pre +:+ String Str.newline "") +:+ tail)).
  rewrite IH. reflexivity.
Qed.

(** Whole lines at the end of the file that fit in 16384 bytes are whole
    lines at the end of the window. *)
Lemma window_tail (f : ExportContinue.File) (tail : string) :
  wholeLinesTail (ExportContinue.data f) tail ->
  Z.of_nat (String.length tail) <= 16384 ->
  wholeLinesTail (ExportContinue.trailingWindow f) tail.
Proof.
  intros Htail Hlen. rewrite trailingWindow_drop.
  destruct Htail as [->|[pre ->]].
  - left. replace (Z.to_nat _) with 0%nat by lia.
    destruct tail; reflexivity.
  - set (n := Z.to_nat _).
    assert (Hn : (n <= String.length pre
                  \/ n = String.length (pre +:+ String Str.newline ""))%nat).
    { unfold n. rewrite !length_append. simpl String.length. lia. }
    destruct Hn as [Hle | ->].
    + right. exists (Str.drop n pre). apply drop_append, Hle.
    + left. rewrite (append_newline pre tail). apply drop_past.
Qed.

(** The timestamp of a log whose last record is in the window and
    carries one. *)
Lemma getLastEntryTimestamp_of_record (h : Host) (d : ExportContinue.Dir)
    (name : string) (f : ExportContinue.File) (e : value) :
  ExportContinue.file d name = Some f ->
  lastRecord h (ExportContinue.data f) = Some e ->
  recordInWindow h f ->
  truthy (optProp e "timestamp") && stringable (optProp e "timestamp") = true ->
  ExportContinue.getLastEntryTimestamp h d name = timeValue h (optProp e "timestamp").
Proof.
  intros Hf Hlast (tail & Htail & Hlen & Hsome) Hts.
  rewrite (lastRecord_tail h _ tail Htail Hsome) in Hlast.
  assert (Hscan : ExportContinue.scanBackwards h
                    (rev (ExportContinue.nonBlankLines tail))
                  = Some (optProp e "timestamp"))
    by (apply scanBackwards_last; assumption).
  unfold ExportContinue.getLastEntryTimestamp. rewrite Hf.
  destruct (window_tail f tail Htail Hlen) as [->|[w0 ->]].
  - rewrite Hscan. reflexivity.
  - rewrite nonBlankLines_append, rev_app_distr, scanBackwards_app, Hscan.
    reflexivity.
Qed.

(** C1 (as stated): [newer.jsonl] ends with a record of 2026-01-01 and
    [older.jsonl] with one of 2025-12-31, and [older.jsonl] is chosen: the
    last record of [newer.jsonl] is longer than the 16384 bytes read, so
    the file counts with its modification time, which is the older one. *)
Lemma C1_long_last_record :
  let data name :=
    ExportContinue.data
      (default {| ExportContinue.mtime := 0; ExportContinue.data := "" |}
         (ExportContinue.file twoSessions name)) in
  (timeOfRecord sampleHost <$> lastRecord sampleHost (data "older.jsonl"))
    = Some (Json.isoTime "2025-12-31T23:00:00.000Z")
  /\ (timeOfRecord sampleHost <$> lastRecord sampleHost (data "newer.jsonl"))
     = Some (Json.isoTime "2026-01-01T10:00:00.000Z")
  /\ Json.isoTime "2025-12-31T23:00:00.000Z" = Some 1767222000000
  /\ Json.isoTime "2026-01-01T10:00:00.000Z" = Some 1767261600000
  /\ ExportContinue.candidates twoSessions = ["older.jsonl"; "newer.jsonl"]
  /\ ExportContinue.activeSession sampleHost twoSessions = Some ("older.jsonl", "older").
Proof. vm_compute. repeat split; reflexivity. Qed.

(** C1 (amended): of two session logs whose last parseable records lie
    in the trailing 16384 bytes and carry timestamps, [main] chooses the
    one with the later timestamp, whatever the modification times.  The
    timestamp of a log comes from at most 16384 trailing bytes, scanned
    backwards for a line that parses and has one, and is the
    modification time when there is none. *)
Theorem C1_active_session (h : Host) (d : ExportContinue.Dir) (A B : string)
    (fa fb : ExportContinue.File) (ea eb : value) (T1 T2 : Z) :
  (ExportContinue.candidates d = [A; B] \/ ExportContinue.candidates d = [B; A]) ->
  ExportContinue.file d A = Some fa ->
  ExportContinue.file d B = Some fb ->
  lastRecord h (ExportContinue.data fa) = Some ea ->
  lastRecord h (ExportContinue.data fb) = Some eb ->
  recordInWindow h fa ->
  recordInWindow h fb ->
  timeOfRecord h ea = Some T1 ->
  timeOfRecord h eb = Some T2 ->
  T1 < T2 ->
  ExportContinue.activeSession h d = Some (B, ExportContinue.removeFirst ".jsonl" B)
  /\ forall name f,
       ExportContinue.file d name = Some f ->
       Z.of_nat (String.length (ExportContinue.trailingWindow f)) <= 16384
       /\ ExportContinue.getLastEntryTimestamp h d name
          = match ExportContinue.scanBackwards h
                    (rev (ExportContinue.nonBlankLines (ExportContinue.trailingWindow f)))
            with
            | Some ts => timeValue h ts
            | None => Some (ExportContinue.mtime f)
            end.
Proof.
  intros Hcand Hfa Hfb Hea Heb Hwa Hwb HT1 HT2 Hlt.
  unfold timeOfRecord in HT1, HT2.
  destruct (truthy (optProp ea "timestamp") && stringable (optProp ea "timestamp"))
    eqn:Hta; [|discriminate].
  destruct (truthy (optProp eb "timestamp") && stringable (optProp eb "timestamp"))
    eqn:Htb; [|discriminate].
  pose proof (getLastEntryTimestamp_of_record h d A fa ea Hfa Hea Hwa Hta) as HA.
  pose proof (getLastEntryTimestamp_of_record h d B fb eb Hfb Heb Hwb Htb) as HB.
  rewrite HT1 in HA. rewrite HT2 in HB. split.
  - unfold ExportContinue.activeSession.
    destruct Hcand as [-> | ->]; simpl; rewrite HA, HB; simpl.
    + destruct (Z.leb_spec (T2 - T1) 0); [lia|reflexivity].
    + destruct (Z.leb_spec (T1 - T2) 0); [reflexivity|lia].
  - intros name f Hf. split; [apply trailingWindow_length|].
    unfold ExportContinue.getLastEntryTimestamp. rewrite Hf. reflexivity.
Qed.

(** A run of C1: the two logs with short records; the one touched last
    is the one that ended first. *)
Lemma C1_active_session_witness :
  ExportContinue.activeSession sampleHost twoShortSessions
  = Some ("newer.jsonl", "newer").
Proof.
  refine (proj1 (C1_active_session sampleHost twoShortSessions
                   "older.jsonl" "newer.jsonl" _ _ _ _
                   1767222000000 1767261600000
                   (or_introl eq_refl) eq_refl eq_refl _ _ _ _ _ _ _)).
  - vm_compute. reflexivity.
  - vm_compute. reflexivity.
  - eexists. split; [left; reflexivity|]. split; vm_compute; discriminate.
  - eexists. split; [left; reflexivity|]. split; vm_compute; discriminate.
  - vm_compute. reflexivity.
  - vm_compute. reflexivity.
  - reflexivity.
Defined.

(** ** C2 and C10: turns *)

Lemma someToolResult_spec (blocks : list value) (b : bool) :
  ExportContinue.someToolResult blocks = Some b -> b = hasToolResult blocks.
Proof.
  revert b; induction blocks as [|c blocks IH]; intros b; simpl.
  - congruence.
  - destruct c; simpl; try discriminate;
      try (intros H; apply IH; exact H).
    destruct (isStr (lookupField "type" fields) "tool_result"); simpl.
    + congruence.
    + apply IH.
Qed.

Lemma prop_Some (v : value) (k : string) (x : value) :
  prop v k = Some x -> x = optProp v k.
Proof. destruct v; simpl; congruence. Qed.

Lemma hasRole_spec (e : value) (r : string) (b : bool) :
  ExportContinue.hasRole e r = Some b -> b = isRole e r.
Proof.
  unfold ExportContinue.hasRole, isRole.
  destruct (prop e "type") as [ty|] eqn:Ety; simpl; [|discriminate].
  destruct (prop e "message") as [msg|] eqn:Emsg; simpl; [|discriminate].
  apply prop_Some in Ety, Emsg. subst. congruence.
Qed.

Lemma contentBlocks_spec (e : value) (c : option (list value)) :
  ExportContinue.contentBlocks e = Some c ->
  c = asArray (optProp (optProp e "message") "content").
Proof.
  unfold ExportContinue.contentBlocks.
  destruct (prop e "message") as [msg|] eqn:Emsg; simpl; [|discriminate].
  apply prop_Some in Emsg. subst. congruence.
Qed.

Lemma isRole_exclusive (e : value) :
  isRole e "user" = true -> isRole e "assistant" = false.
Proof.
  unfold isRole. destruct (optProp e "type") as [| | | | |s| |]; simpl; try discriminate.
  intros H. apply andb_true_iff in H as [H _]. apply String.eqb_eq in H. subst.
  reflexivity.
Qed.

Lemma pushDigest_spec (d d' : list ExportContinue.DigestEntry) (n : Z) (r t : string) :
  ExportContinue.pushDigest d n r t = Some d' -> d' = d ++ digestEntries n r t.
Proof.
  unfold ExportContinue.pushDigest, digestEntries.
  destruct (Str.nonEmpty t).
  - destruct (ExportContinue.truncate (VStr t) 300); simpl; [|discriminate].
    congruence.
  - rewrite app_nil_r. congruence.
Qed.

(** One record of the digest loop, when it does not throw. *)
Lemma digestStep_spec (d : list ExportContinue.DigestEntry) (n : Z) (e : value)
    (st : list ExportContinue.DigestEntry * Z) :
  ExportContinue.digestStep (d, n) e = Some st ->
  st = (d ++ segment n e, if opensTurn e then n + 1 else n).
Proof.
  unfold ExportContinue.digestStep, segment, opensTurn, speaks, userText,
    assistantText, blocksOf.
  destruct (ExportContinue.contentBlocks e) as [c|] eqn:Ec; simpl; [|discriminate].
  apply contentBlocks_spec in Ec. rewrite <- Ec. clear Ec.
  destruct c as [blocks|]; simpl; [|rewrite app_nil_r; congruence].
  destruct (ExportContinue.hasRole e "user") as [u|] eqn:Eu; simpl; [|discriminate].
  destruct (ExportContinue.hasRole e "assistant") as [a|] eqn:Ea; simpl; [|discriminate].
  apply hasRole_spec in Eu, Ea. subst u a.
  destruct (isRole e "user") eqn:Eu; simpl.
  - destruct (ExportContinue.someToolResult blocks) as [b|] eqn:Eb; simpl; [|discriminate].
    apply someToolResult_spec in Eb. subst b.
    destruct (hasToolResult blocks); simpl.
    + rewrite (isRole_exclusive e Eu), app_nil_r. congruence.
    + destruct (ExportContinue.userDigestText blocks) as [t|]; simpl; [|discriminate].
      destruct (ExportContinue.pushDigest d (n + 1) "user" t) as [d'|] eqn:Ed; simpl;
        [|discriminate].
      apply pushDigest_spec in Ed. subst. congruence.
  - destruct (isRole e "assistant"); simpl.
    + destruct (ExportContinue.assistantDigestText blocks) as [t|]; simpl; [|discriminate].
      destruct (ExportContinue.pushDigest d n "assistant" t) as [d'|] eqn:Ed; simpl;
        [|discriminate].
      apply pushDigest_spec in Ed. subst. congruence.
    + rewrite app_nil_r. congruence.
Qed.

Lemma countTurns_cons (e : value) (entries : list value) :
  countTurns (e :: entries) = (if opensTurn e then 1 else 0) + countTurns entries.
Proof. unfold countTurns. simpl. destruct (opensTurn e); simpl length; lia. Qed.

Lemma countTurns_app (l1 l2 : list value) :
  countTurns (l1 ++ l2) = countTurns l1 + countTurns l2.
Proof.
  unfold countTurns. rewrite List.filter_app, length_app. lia.
Qed.

Lemma digestLoop_from (entries : list value) :
  forall d n st,
    forEach ExportContinue.digestStep entries (d, n) = Some st ->
    st = (d ++ digestFrom n entries, n + countTurns entries).
Proof.
  induction entries as [|e entries IH]; intros d n st; cbn [forEach digestFrom].
  - rewrite app_nil_r. unfold countTurns. simpl. rewrite Z.add_0_r. congruence.
  - destruct (ExportContinue.digestStep (d, n) e) as [st1|] eqn:E1; simpl; [|discriminate].
    apply digestStep_spec in E1. subst st1. intros H. apply IH in H. subst st.
    rewrite countTurns_cons, <- app_assoc. f_equal.
    destruct (opensTurn e); lia.
Qed.

Lemma digestFrom_app (l1 l2 : list value) (n : Z) :
  digestFrom n (l1 ++ l2) = digestFrom n l1 ++ digestFrom (n + countTurns l1) l2.
Proof.
  revert n; induction l1 as [|e l1 IH]; intros n; simpl.
  - unfold countTurns. simpl. rewrite Z.add_0_r. reflexivity.
  - rewrite IH, countTurns_cons, <- app_assoc. do 3 f_equal.
    destruct (opensTurn e); lia.
Qed.

Lemma digestFrom_users (entries : list value) (n : Z) :
  length (List.filter isUserEntry (digestFrom n entries))
  = length (List.filter (fun e => opensTurn e && Str.nonEmpty (userText e)) entries).
Proof.
  revert n; induction entries as [|e entries IH]; intros n; simpl; [reflexivity|].
  rewrite List.filter_app, length_app, IH. unfold segment, digestEntries.
  destruct (opensTurn e); simpl.
  - destruct (Str.nonEmpty (userText e)); reflexivity.
  - destruct (speaks e); [|reflexivity].
    destruct (Str.nonEmpty (assistantText e)); reflexivity.
Qed.

Lemma assistantBlock_extends (h : Host)
    (trm : gmap string ExportContinue.ToolResult) (opts : ExportChat.Options)
    (time : string) (p : list string) (hc : bool) (b : value)
    (st : list string * bool) :
  ExportChat.assistantBlock h trm opts time (p, hc) b = Some st ->
  exists rest, fst st = p ++ rest.
Proof.
  unfold ExportChat.assistantBlock.
  destruct (prop b "type") as [ty|]; simpl; [|discriminate].
  destruct (isStr ty "thinking" && ExportChat.includeThinking opts).
  - destruct (asString _); simpl; [|discriminate].
    intros [= <-]. simpl. eauto.
  - destruct (isStr ty "text").
    + destruct (ExportChat.joinItem _); simpl; [|discriminate].
      intros [= <-]. simpl. eauto.
    + destruct (isStr ty "tool_use").
      * destruct (ExportChat.formatToolCall h b trm opts); simpl; [|discriminate].
        intros [= <-]. simpl. eauto.
      * intros [= <-]. exists []. simpl. rewrite app_nil_r. reflexivity.
Qed.

Lemma assistantBlocks_extend (h : Host)
    (trm : gmap string ExportContinue.ToolResult) (opts : ExportChat.Options)
    (time : string) (bs : list value) :
  forall p hc st,
    forEach (ExportChat.assistantBlock h trm opts time) bs (p, hc) = Some st ->
    exists rest, fst st = p ++ rest.
Proof.
  induction bs as [|b bs IH]; intros p hc st; cbn [forEach].
  - intros [= <-]. exists []. simpl. rewrite app_nil_r. reflexivity.
  - destruct (ExportChat.assistantBlock h trm opts time (p, hc) b) as [[p1 hc1]|] eqn:E;
      simpl; [|discriminate].
    apply assistantBlock_extends in E as [r1 E]. simpl in E. subst p1.
    intros H. apply IH in H as [r2 H]. exists (r1 ++ r2). rewrite H, app_assoc.
    reflexivity.
Qed.

(** One record of the conversation loop, when it does not throw: the
    lines so far stay, the counter moves with a genuine user record,
    whose lines start with the heading of its turn. *)
Lemma conversationStep_spec (h : Host)
    (trm : gmap string ExportContinue.ToolResult) (opts : ExportChat.Options)
    (p : list string) (k : Z) (e : value) (st : list string * Z) :
  ExportChat.conversationStep h trm opts (p, k) e = Some st ->
  snd st = (if opensTurnChat e then k + 1 else k)
  /\ exists rest, fst st = p ++ rest
                  /\ (opensTurnChat e = true ->
                      exists rest', rest = turnHeading (k + 1) :: rest').
Proof.
  unfold ExportChat.conversationStep, ExportChat.someToolResult, opensTurnChat.
  destruct (prop e "type") as [ty|] eqn:Ety; simpl; [|discriminate].
  apply prop_Some in Ety. subst ty.
  assert (Hnil : forall q : list string * Z, q = (p, k) ->
            snd q = k /\ exists rest, fst q = p ++ rest /\ (false = true -> exists rest', rest = turnHeading (k + 1) :: rest')).
  { intros q ->. split; [reflexivity|]. exists []. rewrite app_nil_r.
    split; [reflexivity|discriminate]. }
  destruct (isStr (optProp e "type") "user" || isStr (optProp e "type") "assistant")
    eqn:Etype.
  2:{ apply orb_false_elim in Etype as [-> ->]. simpl. intros [= <-]. auto. }
  replace (negb (isStr (optProp e "type") "user")
           && negb (isStr (optProp e "type") "assistant")) with false
    by (rewrite <- negb_orb, Etype; reflexivity).
  destruct (prop e "message") as [msg|] eqn:Emsg; simpl; [|discriminate].
  apply prop_Some in Emsg. subst msg.
  destruct (truthy (optProp e "message")); simpl; [|intros [= <-]; auto].
  destruct (truthy (optProp (optProp e "message") "content")); simpl;
    [|intros [= <-]; auto].
  destruct (asArray (optProp (optProp e "message") "content")) as [blocks|];
    [|intros [= <-]; auto].
  destruct (ExportChat.formatTimestamp h (optProp e "timestamp")) as [time|]; simpl;
    [|discriminate].
  destruct (isStr (optProp (optProp e "message") "role") "user"); simpl.
  - destruct (ExportContinue.someToolResult blocks) as [b|] eqn:Eb; simpl; [|discriminate].
    apply someToolResult_spec in Eb. subst b.
    destruct (hasToolResult blocks); simpl; [intros [= <-]; auto|].
    destruct (ExportChat.userParts blocks); simpl; [|discriminate].
    intros [= <-]. simpl. split; [reflexivity|].
    eexists. split; [reflexivity|].
    intros _. simpl. eexists. reflexivity.
  - destruct (isStr (optProp (optProp e "message") "role") "assistant");
      [|intros [= <-]; auto].
    destruct (forEach _ blocks (p, false)) as [[p1 hc1]|] eqn:E; simpl; [|discriminate].
    apply assistantBlocks_extend in E as [r E]. simpl in E. subst p1.
    intros [= <-]. simpl. split; [reflexivity|].
    eexists. split; [rewrite <- app_assoc; reflexivity|discriminate].
Qed.

Lemma countTurnsChat_cons (e : value) (entries : list value) :
  countTurnsChat (e :: entries)
  = (if opensTurnChat e then 1 else 0) + countTurnsChat entries.
Proof. unfold countTurnsChat. simpl. destruct (opensTurnChat e); simpl length; lia. Qed.

Lemma conversation_from (h : Host)
    (trm : gmap string ExportContinue.ToolResult) (opts : ExportChat.Options)
    (entries : list value) :
  forall p k st,
    forEach (ExportChat.conversationStep h trm opts) entries (p, k) = Some st ->
    snd st = k + countTurnsChat entries
    /\ (exists rest, fst st = p ++ rest)
    /\ forall pre e post,
         entries = pre ++ e :: post -> opensTurnChat e = true ->
         exists before after,
           fst st = before ++ turnHeading (k + countTurnsChat pre + 1) :: after.
Proof.
  induction entries as [|e entries IH]; intros p k st; cbn [forEach].
  - intros [= <-]. simpl. unfold countTurnsChat. simpl. split; [lia|]. split.
    + exists []. rewrite app_nil_r. reflexivity.
    + intros [|? ?] ? ? ?; discriminate.
  - destruct (ExportChat.conversationStep h trm opts (p, k) e) as [[p1 k1]|] eqn:E1;
      simpl; [|discriminate].
    apply conversationStep_spec in E1 as (Hk & r1 & Hp & Hhead). simpl in Hk, Hp.
    subst p1 k1. intros H. apply IH in H as (Hk' & [r2 Hp'] & Hrec).
    rewrite countTurnsChat_cons. split; [destruct (opensTurnChat e); lia|]. split.
    + exists (r1 ++ r2). rewrite Hp', app_assoc. reflexivity.
    + intros [|e0 pre] e' post Heq Hopen; simpl in Heq; injection Heq as -> ->.
      * destruct (Hhead Hopen) as [r' ->]. rewrite Hp'.
        exists p, (r' ++ r2). unfold countTurnsChat. simpl.
        rewrite Z.add_0_r, <- app_assoc. reflexivity.
      * destruct (Hrec pre e' post eq_refl Hopen) as (b & a & Hst).
        exists b, a. rewrite Hst, countTurnsChat_cons. do 3 f_equal.
        destruct (opensTurnChat e0); lia.
Qed.

(** C2 (as stated, for the handoff): a user record that holds an image
    and no text is a genuine user record and opens turn 1, and the digest
    has no entry for it. *)
Lemma C2_textless_user_record :
  let log := [record "user" "2026-01-01T10:00:00.000Z" [imageBlock]] in
  countTurns log = 1
  /\ ExportContinue.digestLoop log = Some ([], 1).
Proof. vm_compute. split; reflexivity. Qed.

(** C2 (amended).  In the handoff the turn counter ends at the number of
    genuine user records (user records whose content is an array without
    a [tool_result] block); the digest has one user entry for each of
    them whose cleaned text is not empty, and each record adds to the
    digest its [segment]: a user entry numbered with the turn the record
    opens, an assistant entry numbered with the turn opened last.  In
    the transcript the turn counter ends at the number of genuine user
    records, and each of them gets the heading of its turn. *)
Theorem C2_turn_segments (h : Host) (trm : gmap string ExportContinue.ToolResult)
    (opts : ExportChat.Options) (entries : list value) :
  (forall dg k,
     ExportContinue.digestLoop entries = Some (dg, k) ->
     k = countTurns entries
     /\ length (List.filter isUserEntry dg)
        = length (List.filter (fun e => opensTurn e && Str.nonEmpty (userText e)) entries)
     /\ forall pre e post,
          entries = pre ++ e :: post ->
          exists d1 d2, dg = d1 ++ segment (countTurns pre) e ++ d2)
  /\ (forall parts0 parts kc,
        forEach (ExportChat.conversationStep h trm opts) entries (parts0, 0)
          = Some (parts, kc) ->
        kc = countTurnsChat entries
        /\ forall pre e post,
             entries = pre ++ e :: post -> opensTurnChat e = true ->
             exists before after,
               parts = before ++ turnHeading (countTurnsChat pre + 1) :: after).
Proof.
  split.
  - intros dg k H. apply digestLoop_from in H. injection H as -> ->.
    split; [lia|]. split; [apply digestFrom_users|].
    intros pre e post ->. rewrite digestFrom_app. simpl.
    eexists _, _. rewrite Z.add_0_l. reflexivity.
  - intros parts0 parts kc H. apply conversation_from in H as (Hk & _ & Hrec).
    simpl in Hk, Hrec. split; [lia|].
    intros pre e post Heq Hopen. destruct (Hrec pre e post Heq Hopen) as (b & a & Hst).
    exists b, a. rewrite Hst. rewrite Z.add_0_l. reflexivity.
Qed.

(** A run of C2: [sampleLog] has two genuine user records, one of them
    without text. *)
Lemma C2_turn_segments_witness :
  2 = countTurns sampleLog /\ 2 = countTurnsChat sampleLog.
Proof.
  split.
  - refine (proj1 (proj1 (C2_turn_segments sampleHost ∅ sampleOptions sampleLog)
                     _ 2 _)).
    vm_compute. reflexivity.
  - refine (proj1 (proj2 (C2_turn_segments sampleHost ∅ sampleOptions sampleLog)
                     [] _ 2 _)).
    vm_compute. reflexivity.
Defined.
(** ** C3: several outcomes for one id *)

Lemma stringOf_Some (v : value) (k : string) :
  stringOf v = Some k -> k = ToString v.
Proof. unfold stringOf. destruct (stringable v); congruence. Qed.

Lemma recordToolResult_defined (m : gmap string ExportContinue.ToolResult) (b : value) :
  nullish b = false ->
  plainId (optProp b "tool_use_id") = true ->
  ExportContinue.recordToolResult m b =
    Some (match outcomeOf b with
          | Some kv => putOutcome m kv
          | None => m
          end).
Proof.
  intros Hb Hid. unfold ExportContinue.recordToolResult, outcomeOf.
  rewrite !prop_defined by assumption. simpl.
  destruct (isStr _ _ && truthy _); simpl; [|reflexivity].
  unfold plainId in Hid. apply andb_prop in Hid as [Hs Hp].
  unfold stringOf. rewrite Hs. simpl.
  destruct (String.eqb (ToString (optProp b "tool_use_id")) "__proto__");
    [discriminate|].
  unfold putOutcome; simpl. destruct (optProp b "content"); reflexivity.
Qed.

Lemma foldl_omap {A B S} (f : S -> B -> S) (g : A -> option B) (l : list A) (s : S) :
  foldl (fun s x => match g x with Some y => f s y | None => s end) s l
  = foldl f s (omap g l).
Proof.
  revert s; induction l as [|x l IH]; intros s; simpl; [reflexivity|].
  destruct (g x); simpl; apply IH.
Qed.

Lemma buildToolResultMap_from (entries : list value) :
  noNulls entries -> plainIds entries ->
  forall m, forEach
    (fun map entry =>
       type ← prop entry "type";
       if negb (isStr type "user") then Some map
       else
         message ← prop entry "message";
         match asArray (optProp message "content") with
         | None => Some map
         | Some blocks => forEach ExportContinue.recordToolResult blocks map
         end) entries m
  = Some (foldl putOutcome m (outcomes entries)).
Proof.
  unfold plainIds.
  induction 1 as [|e entries [He Hbs] _ IH]; intros Hid m; simpl; [reflexivity|].
  apply Forall_cons in Hid as [Hid1 Hid2].
  rewrite !prop_defined by assumption. simpl.
  unfold outcomes in *. simpl. rewrite foldl_app.
  destruct (isStr (optProp e "type") "user"); simpl; [|apply IH, Hid2].
  unfold blocksOf in *.
  destruct (asArray (optProp (optProp e "message") "content")) as [bs|]; simpl;
    [|apply IH, Hid2].
  rewrite (forEach_total _ (fun m b => match outcomeOf b with
                                       | Some kv => putOutcome m kv
                                       | None => m
                                       end)).
  - simpl. rewrite foldl_omap. apply IH, Hid2.
  - intros s x Hx. apply list_elem_of_In in Hx. rewrite Forall_forall in Hbs, Hid1.
    apply recordToolResult_defined; auto.
Qed.

Lemma foldl_putOutcome_other (l : list (string * ExportContinue.ToolResult))
    (m : gmap string ExportContinue.ToolResult) (id : string) :
  id ∉ map fst l -> foldl putOutcome m l !! id = m !! id.
Proof.
  revert m; induction l as [|[k r] l IH]; intros m Hid; simpl; [reflexivity|].
  rewrite IH by (intros ?; apply Hid; simpl; right; assumption).
  unfold putOutcome; simpl. apply lookup_insert_ne.
  intros ->. apply Hid. simpl. left.
Qed.

(** C3 (as stated): this log has two outcomes with one correlation id
    and a [null] between them among the content blocks of the record;
    reading [block.type] on the [null] throws, and no map is built. *)
Lemma C3_null_block :
  ExportContinue.buildToolResultMap
    [VObj [("type", VStr "user");
           ("message",
            VObj [("role", VStr "user");
                  ("content", VArr [toolResultBlock "toolu_1" "running" false;
                                    VNull;
                                    toolResultBlock "toolu_1" "done" false])])]]
  = None.
Proof. reflexivity. Qed.

(** C3 (amended): in a log whose records and content blocks are objects
    (none is [null]) and whose outcome ids are keys of a dictionary
    (values [String] accepts, other than [__proto__]),
    [buildToolResultMap] returns a map, without an error, and the map
    holds for a correlation id that has outcomes, however many, the one
    that comes last in file order. *)
Theorem C3_last_outcome_wins (entries : list value) (id : string)
    (r : ExportContinue.ToolResult)
    (before after : list (string * ExportContinue.ToolResult)) :
  noNulls entries -> plainIds entries ->
  outcomes entries = before ++ (id, r) :: after ->
  id ∉ map fst after ->
  exists m, ExportContinue.buildToolResultMap entries = Some m /\ m !! id = Some r.
Proof.
  intros Hwf Hids Hout Hlast. eexists. split.
  - unfold ExportContinue.buildToolResultMap.
    apply buildToolResultMap_from; assumption.
  - rewrite Hout, foldl_app. simpl.
    rewrite foldl_putOutcome_other by assumption.
    unfold putOutcome; simpl. apply lookup_insert_eq.
Qed.

(** A run of C3: [sampleLog] has two outcomes for [toolu_2]. *)
Lemma C3_last_outcome_wins_witness :
  exists m,
    ExportContinue.buildToolResultMap sampleLog = Some m
    /\ m !! "toolu_2"
       = Some {| ExportContinue.content := Some "2 failing";
                 ExportContinue.is_error := VBool true |}.
Proof.
  apply (C3_last_outcome_wins sampleLog "toolu_2" _
           [("toolu_1", {| ExportContinue.content := Some "ok";
                           ExportContinue.is_error := VBool false |});
            ("toolu_2", {| ExportContinue.content := Some "1 failing";
                           ExportContinue.is_error := VBool true |})]
           []).
  - unfold noNulls, sampleLog.
    repeat first [apply Forall_nil | apply Forall_cons | split | reflexivity].
  - unfold plainIds, sampleLog.
    repeat first [apply Forall_nil | apply Forall_cons | split | reflexivity].
  - vm_compute. reflexivity.
  - apply not_elem_of_nil.
Defined.
(** ** C4: truncation twice *)

Lemma truncateChars_long (s : string) (m : Z) :
  m < Z.of_nat (Str.length s) ->
  ExportChat.truncateChars s m
  = Str.takeUnits (Z.to_nat m) s +:+ charsMarker m (Str.length s).
Proof.
  intros Hm. unfold ExportChat.truncateChars, charsMarker.
  destruct (Z.leb_spec (Z.of_nat (Str.length s)) m); [lia|].
  rewrite substring_0 by lia. reflexivity.
Qed.

Lemma truncate_string (s : string) (m : Z) :
  ExportContinue.truncate (VStr s) m =
    Some (if negb (Str.nonEmpty s) || (Z.of_nat (Str.length s) <=? m) then s
          else Str.takeUnits (Z.to_nat m) s +:+ "...").
Proof.
  unfold ExportContinue.truncate. destruct s as [|c s]; [reflexivity|].
  cbn [truthy Str.nonEmpty String.eqb negb asString mbind option_bind orb].
  destruct (Z.leb_spec (Z.of_nat (Str.length (String c s))) m); [reflexivity|].
  rewrite substring_0 by lia. reflexivity.
Qed.

(** C4 (as stated, for the transcript's [truncateChars]): a second
    truncation at the same budget changes the text, because the marker
    reports the length of what it was given. *)
Lemma C4_truncateChars_not_idempotent :
  let once := ExportChat.truncateChars "abcdefghij" 4 in
  once = "abcd" +:+ charsMarker 4 10
  /\ ExportChat.truncateChars once 4 = "abcd" +:+ charsMarker 4 41
  /\ ExportChat.truncateChars once 4 <> once.
Proof. vm_compute. repeat split; try reflexivity. discriminate. Qed.

(** C4 (amended): [truncate] of the handoff is idempotent for every
    string and every budget.  [truncateChars] of the transcript is
    idempotent on a string within the budget; on a longer string the
    second truncation keeps the same leading characters and reports, as
    total, the length of the first result. *)
Theorem C4_truncation_twice (s : string) (m : Z) :
  (exists r, ExportContinue.truncate (VStr s) m = Some r
             /\ ExportContinue.truncate (VStr r) m = Some r)
  /\ ExportChat.truncateChars (ExportChat.truncateChars s m) m =
       (if Z.of_nat (Str.length s) <=? m then ExportChat.truncateChars s m
        else Str.substring s 0 m
               +:+ charsMarker m (Str.length (ExportChat.truncateChars s m))).
Proof.
  split.
  - rewrite truncate_string.
    destruct (negb (Str.nonEmpty s) || (Z.of_nat (Str.length s) <=? m)) eqn:E.
    + exists s. split; [reflexivity|]. rewrite truncate_string, E. reflexivity.
    + apply orb_false_elim in E as [_ E]. apply Z.leb_gt in E.
      eexists. split; [reflexivity|]. rewrite truncate_string.
      rewrite units_length_append, length_takeUnits.
      change (Str.length "...") with 3%nat.
      replace (Z.of_nat (Nat.min (Z.to_nat m) (Str.length s) + 3) <=? m) with false
        by (symmetry; apply Z.leb_gt; lia).
      rewrite orb_false_r.
      replace (negb (Str.nonEmpty (Str.takeUnits (Z.to_nat m) s +:+ "..."))) with false
        by (destruct (Str.takeUnits (Z.to_nat m) s); reflexivity).
      rewrite takeUnits_prefix by (try reflexivity; lia). reflexivity.
  - destruct (Z.leb_spec (Z.of_nat (Str.length s)) m) as [Hle|Hgt].
    + unfold ExportChat.truncateChars at 2 3.
      destruct (Z.leb_spec (Z.of_nat (Str.length s)) m); [|lia].
      unfold ExportChat.truncateChars.
      destruct (Z.leb_spec (Z.of_nat (Str.length s)) m); [reflexivity|lia].
    + rewrite (truncateChars_long s m Hgt).
      rewrite truncateChars_long.
      * rewrite takeUnits_prefix by (try reflexivity; lia).
        rewrite substring_0 by lia. reflexivity.
      * rewrite units_length_append, length_takeUnits. unfold charsMarker.
        rewrite units_length_append. change (Str.length (String Str.newline "")) with 1%nat.
        lia.
Qed.

(** ** The assembled handoff *)

Lemma extractHandoff_inv (h : Host) (entries : list value) (sessionId : string)
    (v : value) :
  ExportContinue.extractHandoff h entries sessionId = Some v ->
  exists trm startTs endTs acc dg k pr dur us,
    ExportContinue.buildToolResultMap entries = Some trm
    /\ ExportContinue.timestamps entries = Some (startTs, endTs)
    /\ forEach (ExportContinue.collect h trm) entries ExportContinue.emptyAcc = Some acc
    /\ ExportContinue.digestLoop entries = Some (dg, k)
    /\ ExportContinue.progressOf (ExportContinue.latestTodos acc) = Some pr
    /\ ExportContinue.durationMin h startTs endTs = Some dur
    /\ ExportContinue.dedupe (ExportContinue.searches acc) = Some us
    /\ v = JSON_clone (ExportContinue.assemble h sessionId
                         (ExportContinue.getGitContext h) startTs endTs dur acc dg pr
                         us).
Proof.
  unfold ExportContinue.extractHandoff.
  destruct (ExportContinue.buildToolResultMap entries) as [trm|] eqn:E1; simpl;
    [|discriminate].
  destruct (ExportContinue.timestamps entries) as [[s e]|] eqn:E2; simpl;
    [|discriminate].
  destruct (ExportContinue.durationMin h s e) as [dur|] eqn:E6; simpl;
    [|discriminate].
  destruct (forEach _ entries ExportContinue.emptyAcc) as [acc|] eqn:E3; simpl;
    [|discriminate].
  destruct (ExportContinue.digestLoop entries) as [[dg k]|] eqn:E4; simpl;
    [|discriminate].
  destruct (ExportContinue.progressOf _) as [pr|] eqn:E5; simpl; [|discriminate].
  destruct (ExportContinue.dedupe _) as [us|] eqn:E7; simpl; [|discriminate].
  intros [= <-]. exists trm, s, e, acc, dg, k, pr, dur, us. auto 10.
Qed.

Lemma JSON_clone_object (fields : list (string * value)) :
  JSON_clone (VObj fields)
  = VObj (omap (fun kv => match snd kv with
                          | VUndef => None
                          | _ => Some (fst kv, JSON_clone (snd kv))
                          end) fields).
Proof. reflexivity. Qed.

Lemma JSON_clone_array (l : list value) :
  JSON_clone (VArr l) = VArr (map cloneElement l).
Proof. reflexivity. Qed.

(** A property of a cloned literal: the clone of the first property of
    that name that holds something. *)
Lemma optProp_clone (fields : list (string * value)) (k : string) :
  optProp (JSON_clone (VObj fields)) k = JSON_clone (firstDefined k fields).
Proof.
  rewrite JSON_clone_object. simpl.
  induction fields as [|[k' x] fields IH]; [reflexivity|].
  cbn [omap list_omap firstDefined fst snd].
  destruct x; cbn [isUndef negb andb lookupField];
    try (rewrite andb_true_r; destruct (String.eqb k' k); [reflexivity|exact IH]).
  rewrite andb_false_r. exact IH.
Qed.

Lemma hasField_clone (fields : list (string * value)) (k : string) :
  hasField (JSON_clone (VObj fields)) k
  = existsb (fun kv => String.eqb (fst kv) k && negb (isUndef (snd kv))) fields.
Proof.
  rewrite JSON_clone_object. simpl.
  induction fields as [|[k' x] fields IH]; [reflexivity|].
  cbn [omap list_omap existsb fst snd].
  destruct x; cbn [isUndef negb existsb fst];
    try (rewrite andb_true_r, IH; reflexivity).
  rewrite andb_false_r, IH. reflexivity.
Qed.

Lemma unlessEmpty_spec {A} (l : list A) (v : value) :
  ExportContinue.unlessEmpty l v = match l with [] => VUndef | _ => v end.
Proof. unfold ExportContinue.unlessEmpty. destruct l; reflexivity. Qed.

(** ** C5: optional fields *)

Lemma dedupeStep_keeps (seen : gset string) (u : list value) (s : value)
    (st : gset string * list value) :
  ExportContinue.dedupeStep (seen, u) s = Some st ->
  exists key, ExportContinue.searchKey s = Some key
              /\ st = if decide (key ∈ seen) then (seen, u)
                      else ({[ key ]} ∪ seen, u ++ [s]).
Proof.
  unfold ExportContinue.dedupeStep.
  destruct (ExportContinue.searchKey s) as [key|]; simpl; [|discriminate].
  intros H. exists key. split; [reflexivity|].
  destruct (decide (key ∈ seen)); congruence.
Qed.

Lemma dedupe_keeps (l : list value) :
  forall seen u st,
    forEach ExportContinue.dedupeStep l (seen, u) = Some st ->
    exists rest, snd st = u ++ rest.
Proof.
  induction l as [|s l IH]; intros seen u st; cbn [forEach].
  - intros [= <-]. exists []. rewrite app_nil_r. reflexivity.
  - destruct (ExportContinue.dedupeStep (seen, u) s) as [st1|] eqn:E; simpl;
      [|discriminate].
    apply dedupeStep_keeps in E as (key & _ & ->).
    destruct (decide (key ∈ seen)).
    + apply IH.
    + intros H. apply IH in H as [rest Hr].
      exists (s :: rest). rewrite Hr, <- app_assoc. reflexivity.
Qed.

(** The first search is always kept. *)
Lemma dedupe_cons (s : value) (l us : list value) :
  ExportContinue.dedupe (s :: l) = Some us -> exists rest, us = s :: rest.
Proof.
  unfold ExportContinue.dedupe. cbn [forEach].
  destruct (ExportContinue.dedupeStep (∅, []) s) as [st1|] eqn:E; simpl;
    [|discriminate].
  apply dedupeStep_keeps in E as (key & _ & ->).
  destruct (decide (key ∈ (∅ : gset string))) as [Hin|_]; [exfalso; set_solver|].
  destruct (forEach ExportContinue.dedupeStep l ({[key]} ∪ ∅, [] ++ [s]))
    as [st|] eqn:E; simpl; [|discriminate].
  intros [= <-]. apply dedupe_keeps in E as [rest ->]. exists rest. reflexivity.
Qed.

(** C5: in the handoff each of the optional fields [errors], [actions],
    [searches] and [git_context.uncommitted_changes] is present exactly
    when its collection has an element, and then holds a collection with
    an element: a field with an empty collection is not emitted. *)
Theorem C5_optional_fields (h : Host) (entries : list value) (sessionId : string)
    (v : value) :
  ExportContinue.extractHandoff h entries sessionId = Some v ->
  exists trm acc,
    ExportContinue.buildToolResultMap entries = Some trm
    /\ forEach (ExportContinue.collect h trm) entries ExportContinue.emptyAcc = Some acc
    /\ (hasField v "errors" = true <-> ExportContinue.errors acc <> [])
    /\ (hasField v "errors" = true -> exists x l, optProp v "errors" = VArr (x :: l))
    /\ (hasField v "actions" = true <-> ExportContinue.actions acc <> [])
    /\ (hasField v "actions" = true -> exists x l, optProp v "actions" = VArr (x :: l))
    /\ (hasField v "searches" = true <-> ExportContinue.searches acc <> [])
    /\ (hasField v "searches" = true ->
        exists x l,
          optProp (optProp v "searches") "unique_patterns" = VArr (x :: l)
          /\ optProp (optProp v "searches") "count"
             = VNum (Z.of_nat (length (ExportContinue.searches acc)))
          /\ 0 < Z.of_nat (length (ExportContinue.searches acc)))
    /\ (hasField (optProp v "git_context") "uncommitted_changes" = true
        <-> ExportContinue.uncommitted_files (ExportContinue.getGitContext h) <> [])
    /\ (hasField (optProp v "git_context") "uncommitted_changes" = true ->
        exists x l,
          optProp (optProp v "git_context") "uncommitted_changes" = VArr (x :: l)).
Proof.
  intros H. apply extractHandoff_inv in H
    as (trm & startTs & endTs & acc & dg & k & pr & dur & us
        & Htrm & _ & Hacc & _ & _ & _ & Hus & ->).
  exists trm, acc. split; [exact Htrm|]. split; [exact Hacc|].
  unfold ExportContinue.assemble.
  rewrite !hasField_clone, !optProp_clone.
  cbn [existsb firstDefined fst snd String.eqb Ascii.eqb Bool.eqb andb orb isUndef negb].
  rewrite !unlessEmpty_spec.
  assert (Hsearch : match ExportContinue.searches acc with
                    | [] => us = []
                    | s :: l => exists rest, us = s :: rest
                    end).
  { destruct (ExportContinue.searches acc) as [|s l];
      [cbv in Hus; congruence | apply (dedupe_cons s l), Hus]. }
  clear Hus.
  destruct (ExportContinue.errors acc) as [|e0 es];
    destruct (ExportContinue.actions acc) as [|a0 acts];
    destruct (ExportContinue.uncommitted_files (ExportContinue.getGitContext h))
      as [|u0 ufs];
    destruct (ExportContinue.searches acc) as [|s0 ss];
    [rewrite Hsearch | destruct Hsearch as [rest ->]
    |rewrite Hsearch | destruct Hsearch as [rest ->]
    |rewrite Hsearch | destruct Hsearch as [rest ->]
    |rewrite Hsearch | destruct Hsearch as [rest ->]
    |rewrite Hsearch | destruct Hsearch as [rest ->]
    |rewrite Hsearch | destruct Hsearch as [rest ->]
    |rewrite Hsearch | destruct Hsearch as [rest ->]
    |rewrite Hsearch | destruct Hsearch as [rest ->]];
    simpl;
    repeat match goal with
           | |- _ /\ _ => split
           | |- _ <-> _ => split
           end;
    try congruence; try discriminate; intros _;
    try (eexists _, _; reflexivity);
    try (eexists _, _; split; [reflexivity|]; split; [reflexivity|lia]).
Qed.

Lemma sampleHandoff_run :
  ExportContinue.extractHandoff sampleHost sampleLog "0a1b2c3d" = Some sampleHandoff.
Proof. vm_compute. reflexivity. Qed.

(** A run of C5: [sampleLog] has a failed call and no search. *)
Lemma C5_optional_fields_witness :
  (exists x l, optProp sampleHandoff "errors" = VArr (x :: l))
  /\ hasField sampleHandoff "searches" = false.
Proof.
  destruct (C5_optional_fields sampleHost sampleLog "0a1b2c3d" sampleHandoff
              sampleHandoff_run)
    as (trm & acc & _ & _ & _ & Herrors & _).
  split.
  - apply Herrors. vm_compute. reflexivity.
  - vm_compute. reflexivity.
Defined.

(** ** The first loop, block by block *)

(** A block of an assistant record, when it does not throw. *)
Lemma toolUse_inv (h : Host) (trm : gmap string ExportContinue.ToolResult)
    (acc acc' : ExportContinue.Acc) (b : value) :
  ExportContinue.toolUse h trm acc b = Some acc' ->
  (isStr (optProp b "type") "tool_use" = false /\ acc' = acc)
  \/ (isStr (optProp b "type") "tool_use" = true
      /\ exists errs files bash srch task,
           ExportContinue.errorEntry h (nameOf b) (inputOf b) (resultOf trm b) = Some errs
           /\ ExportContinue.fileStep h (nameOf b) (inputOf b)
                (ExportContinue.fileChanges acc) (ExportContinue.filesRead acc)
              = Some files
           /\ ExportContinue.bashAction (nameOf b) (inputOf b) (resultOf trm b) = Some bash
           /\ ExportContinue.searchEntry h (nameOf b) (inputOf b) (resultOf trm b)
              = Some srch
           /\ ExportContinue.taskAction (nameOf b) (inputOf b) (resultOf trm b) = Some task
           /\ ExportContinue.userMessages acc' = ExportContinue.userMessages acc
           /\ ExportContinue.fileChanges acc' = fst files
           /\ ExportContinue.actions acc' = ExportContinue.actions acc ++ bash ++ task
           /\ ExportContinue.toolCallCount acc' = ExportContinue.toolCallCount acc + 1).
Proof.
  unfold ExportContinue.toolUse, nameOf, inputOf, resultOf.
  destruct (prop b "type") as [ty|] eqn:Ety; simpl; [|discriminate].
  apply prop_Some in Ety. subst ty.
  destruct (isStr (optProp b "type") "tool_use"); simpl;
    [|intros [= <-]; left; auto].
  destruct (stringOf (optProp b "id")) as [id|] eqn:Eid; simpl; [|discriminate].
  apply stringOf_Some in Eid. subst id.
  destruct (ExportContinue.errorEntry _ _ _ _) as [errs|]; simpl; [|discriminate].
  destruct (ExportContinue.fileStep _ _ _ _ _) as [files|]; simpl; [|discriminate].
  destruct (ExportContinue.bashAction _ _ _) as [bash|]; simpl; [|discriminate].
  destruct (ExportContinue.searchEntry _ _ _ _) as [srch|]; simpl; [|discriminate].
  destruct (ExportContinue.taskAction _ _ _) as [task|]; simpl; [|discriminate].
  intros [= <-]. right. split; [reflexivity|].
  exists errs, files, bash, srch, task. simpl. auto 10.
Qed.

Lemma userTexts_from (blocks : list value) :
  forall msgs out,
    forEach
      (fun msgs block =>
         type ← prop block "type";
         if isStr type "text" then
           text ← asString (optProp block "text");
           let cleaned := ExportContinue.stripSystemTags text in
           if Str.nonEmpty cleaned then
             t ← ExportContinue.truncate (VStr cleaned) 500; Some (msgs ++ [t])
           else Some msgs
         else Some msgs)
      blocks msgs = Some out ->
    out = msgs ++ omap taskText blocks.
Proof.
  induction blocks as [|b blocks IH]; intros msgs out; cbn [forEach omap list_omap].
  - rewrite app_nil_r. congruence.
  - unfold taskText at 1.
    destruct (prop b "type") as [ty|] eqn:Ety; simpl; [|discriminate].
    apply prop_Some in Ety. subst ty.
    destruct (isStr (optProp b "type") "text"); simpl; [|apply IH].
    destruct (optProp b "text"); simpl; try discriminate.
    unfold truncated.
    destruct (Str.nonEmpty (ExportContinue.stripSystemTags s)); simpl; [|apply IH].
    destruct (ExportContinue.truncate _ 500) as [t|]; simpl; [|discriminate].
    intros H. apply IH in H. rewrite H, <- app_assoc. reflexivity.
Qed.

Lemma speaks_not_user (e : value) : speaks e = true -> opensTurn e = false.
Proof.
  unfold speaks, opensTurn.
  destruct (asArray _); [|reflexivity].
  intros H. destruct (isRole e "user") eqn:Eu; [|reflexivity].
  apply isRole_exclusive in Eu. congruence.
Qed.

(** The loop over the blocks of an assistant record leaves [userMessages]
    alone. *)
Lemma toolUses_userMessages (h : Host) (trm : gmap string ExportContinue.ToolResult)
    (blocks : list value) :
  forall acc acc',
    forEach (ExportContinue.toolUse h trm) blocks acc = Some acc' ->
    ExportContinue.userMessages acc' = ExportContinue.userMessages acc.
Proof.
  induction blocks as [|b blocks IH]; intros acc acc'; cbn [forEach].
  - congruence.
  - destruct (ExportContinue.toolUse h trm acc b) as [acc1|] eqn:E; simpl; [|discriminate].
    intros H. apply IH in H. rewrite H.
    apply toolUse_inv in E as [[_ ->]|(_ & ? & ? & ? & ? & ? & _ & _ & _ & _ & _ & Hu & _)];
      [reflexivity|exact Hu].
Qed.

(** One record of the first loop, when it does not throw. *)
Lemma collect_inv (h : Host) (trm : gmap string ExportContinue.ToolResult)
    (acc acc' : ExportContinue.Acc) (e : value) :
  ExportContinue.collect h trm acc e = Some acc' ->
  if opensTurn e then
    ExportContinue.userMessages acc'
      = ExportContinue.userMessages acc ++ omap taskText (blocksOf e)
    /\ ExportContinue.fileChanges acc' = ExportContinue.fileChanges acc
    /\ ExportContinue.actions acc' = ExportContinue.actions acc
    /\ ExportContinue.toolCallCount acc' = ExportContinue.toolCallCount acc
  else if speaks e then
    forEach (ExportContinue.toolUse h trm) (blocksOf e) acc = Some acc'
  else acc' = acc.
Proof.
  unfold ExportContinue.collect, opensTurn, speaks, blocksOf.
  destruct (ExportContinue.contentBlocks e) as [c|] eqn:Ec; simpl; [|discriminate].
  apply contentBlocks_spec in Ec. rewrite <- Ec. clear Ec.
  destruct c as [blocks|]; simpl; [|congruence].
  destruct (ExportContinue.hasRole e "user") as [u|] eqn:Eu; simpl; [|discriminate].
  destruct (ExportContinue.hasRole e "assistant") as [a|] eqn:Ea; simpl; [|discriminate].
  apply hasRole_spec in Eu, Ea. subst u a.
  destruct (isRole e "user") eqn:Eu; simpl.
  - destruct (ExportContinue.someToolResult blocks) as [b|] eqn:Eb; simpl; [|discriminate].
    apply someToolResult_spec in Eb. subst b.
    destruct (hasToolResult blocks); simpl.
    + rewrite (isRole_exclusive e Eu). congruence.
    + destruct (ExportContinue.userTexts blocks) as [msgs|] eqn:Em; simpl; [|discriminate].
      apply userTexts_from in Em. simpl in Em. subst msgs.
      intros [= <-]. simpl. auto.
  - destruct (isRole e "assistant"); [auto|congruence].
Qed.

Lemma collect_userMessages (h : Host) (trm : gmap string ExportContinue.ToolResult)
    (entries : list value) :
  forall acc acc',
    forEach (ExportContinue.collect h trm) entries acc = Some acc' ->
    ExportContinue.userMessages acc' = ExportContinue.userMessages acc ++ taskTexts entries.
Proof.
  induction entries as [|e entries IH]; intros acc acc'; cbn [forEach].
  - intros [= <-]. unfold taskTexts. simpl. rewrite app_nil_r. reflexivity.
  - destruct (ExportContinue.collect h trm acc e) as [acc1|] eqn:E; simpl; [|discriminate].
    intros H. apply IH in H. rewrite H. unfold taskTexts. simpl.
    fold (taskTexts entries). apply collect_inv in E.
    destruct (opensTurn e).
    + destruct E as (-> & _). rewrite <- app_assoc. reflexivity.
    + destruct (speaks e).
      * apply toolUses_userMessages in E. rewrite E. reflexivity.
      * subst acc1. reflexivity.
Qed.

Lemma truncated_nonEmpty (t : string) (m : Z) :
  Str.nonEmpty t = true -> Str.nonEmpty (truncated t m) = true.
Proof.
  unfold truncated. rewrite truncate_string.
  destruct t as [|c t]; [discriminate|]. intros _.
  cbn [Str.nonEmpty String.eqb negb orb default].
  destruct (_ <=? m); [reflexivity|].
  destruct (Str.takeUnits (Z.to_nat m) (String c t)); reflexivity.
Qed.

Lemma taskText_nonEmpty (b : value) (t : string) :
  taskText b = Some t -> Str.nonEmpty t = true.
Proof.
  unfold taskText. destruct (isStr _ _); [|discriminate].
  destruct (optProp b "text"); try discriminate.
  destruct (Str.nonEmpty (ExportContinue.stripSystemTags s)) eqn:E; [|discriminate].
  intros [= <-]. apply truncated_nonEmpty, E.
Qed.

Lemma taskTexts_nonEmpty (entries : list value) (t : string) :
  In t (taskTexts entries) -> Str.nonEmpty t = true.
Proof.
  unfold taskTexts. rewrite in_flat_map. intros (e & _ & Ht).
  destruct (opensTurn e); [|destruct Ht].
  apply list_elem_of_In, list_elem_of_omap in Ht as (b & _ & Hb).
  eapply taskText_nonEmpty, Hb.
Qed.

(** ** C6: the task *)

(** C6 (as stated): the first genuine user record of this log has the
    text below, and the task is the text without its system reminder. *)
Lemma C6_task_not_verbatim :
  let said := "<system-reminder>be brief</system-reminder>Fix the login bug" in
  let log := [record "user" "2026-01-01T10:00:00.000Z" [textBlock said]] in
  exists v,
    ExportContinue.extractHandoff sampleHost log "0a1b2c3d" = Some v
    /\ optProp v "task" = VStr "Fix the login bug"
    /\ optProp v "task" <> VStr said.
Proof.
  eexists. split; [vm_compute; reflexivity|]. split; [reflexivity|discriminate].
Qed.

(** C6 (amended): the task is the first text block of a genuine user
    record that does not clean to nothing, after [stripSystemTags] and
    cut to 500 characters with [...] appended when it was longer; it is
    ["(no task detected)"] when there is none.  It is the text of the block
    character for character when cleaning changes nothing and the text
    has at most 500 characters. *)
Theorem C6_task (h : Host) (entries : list value) (sessionId : string) (v : value) :
  ExportContinue.extractHandoff h entries sessionId = Some v ->
  optProp v "task" = VStr (List.hd "(no task detected)" (taskTexts entries))
  /\ forall pre e post before b after t,
       entries = pre ++ e :: post ->
       taskTexts pre = [] ->
       opensTurn e = true ->
       blocksOf e = before ++ b :: after ->
       omap taskText before = [] ->
       isStr (optProp b "type") "text" = true ->
       optProp b "text" = VStr t ->
       Str.nonEmpty (ExportContinue.stripSystemTags t) = true ->
       optProp v "task" = VStr (truncated (ExportContinue.stripSystemTags t) 500)
       /\ (ExportContinue.stripSystemTags t = t ->
           Z.of_nat (Str.length t) <= 500 ->
           optProp v "task" = VStr t).
Proof.
  intros H. apply extractHandoff_inv in H
    as (trm & startTs & endTs & acc & dg & k & pr & dur & us
        & _ & _ & Hacc & _ & _ & _ & _ & ->).
  apply collect_userMessages in Hacc. simpl in Hacc.
  assert (Htask : optProp (JSON_clone (ExportContinue.assemble h sessionId
                    (ExportContinue.getGitContext h) startTs endTs dur acc dg pr us))
                    "task"
                  = VStr (List.hd "(no task detected)" (taskTexts entries))).
  { unfold ExportContinue.assemble. rewrite optProp_clone.
    cbn [firstDefined fst snd String.eqb Ascii.eqb Bool.eqb andb].
    rewrite Hacc.
    destruct (taskTexts entries) as [|m ms] eqn:Et; [reflexivity|].
    assert (Hm : Str.nonEmpty m = true)
      by (apply (taskTexts_nonEmpty entries); rewrite Et; left; reflexivity).
    simpl. unfold JS.or. simpl. rewrite Hm. simpl. reflexivity. }
  split; [exact Htask|].
  intros pre e post before b after t -> Hpre He Hblocks Hbefore Hty Htext Hclean.
  assert (Hfirst : List.hd "(no task detected)" (taskTexts (pre ++ e :: post))
                   = truncated (ExportContinue.stripSystemTags t) 500).
  { unfold taskTexts in *. rewrite flat_map_app, Hpre. simpl. rewrite He, Hblocks.
    rewrite omap_app, Hbefore. simpl. unfold taskText at 1.
    rewrite Hty, Htext, Hclean. reflexivity. }
  rewrite Htask, Hfirst. split; [reflexivity|].
  intros Hsame Hlen. rewrite Hsame. unfold truncated. rewrite truncate_string.
  destruct (Z.leb_spec (Z.of_nat (Str.length t)) 500); [|lia].
  rewrite orb_true_r. reflexivity.
Qed.

(** Runs of C6: the task of [sampleLog], and a task of 300 accented
    letters, 600 bytes, which comes back as it was said. *)
Lemma C6_task_witness :
  optProp sampleHandoff "task" = VStr "Fix the login bug"
  /\ exists v,
       ExportContinue.extractHandoff sampleHost
         [record "user" "2026-01-01T10:00:00.000Z" [textBlock (repeated 300 "é")]]
         "0a1b2c3d" = Some v
       /\ optProp v "task" = VStr (repeated 300 "é").
Proof.
  split.
  - rewrite (proj1 (C6_task sampleHost sampleLog "0a1b2c3d" sampleHandoff
                      sampleHandoff_run)).
    vm_compute. reflexivity.
  - destruct (ExportContinue.extractHandoff sampleHost
                [record "user" "2026-01-01T10:00:00.000Z" [textBlock (repeated 300 "é")]]
                "0a1b2c3d") as [v|] eqn:E; [|vm_compute in E; discriminate].
    exists v. split; [reflexivity|].
    apply (proj2 (C6_task sampleHost _ "0a1b2c3d" v E)
             [] (record "user" "2026-01-01T10:00:00.000Z" [textBlock (repeated 300 "é")])
             [] [] (textBlock (repeated 300 "é")) [] (repeated 300 "é")
             eq_refl eq_refl eq_refl eq_refl eq_refl eq_refl eq_refl);
      vm_compute; congruence.
Defined.

(** ** C7: where the environment shows in the output *)

(** A block of an assistant record adds lines to the transcript and
    reads none of those before. *)
Lemma assistantBlock_frame (h : Host)
    (trm : gmap string ExportContinue.ToolResult) (opts : ExportChat.Options)
    (time : string) (p : list string) (hc : bool) (b : value)
    (st : list string * bool) :
  ExportChat.assistantBlock h trm opts time (p, hc) b = Some st ->
  exists rest,
    fst st = p ++ rest
    /\ forall p', ExportChat.assistantBlock h trm opts time (p', hc) b
                  = Some (p' ++ rest, snd st).
Proof.
  unfold ExportChat.assistantBlock.
  destruct (prop b "type") as [ty|]; simpl; [|discriminate].
  destruct (isStr ty "thinking" && ExportChat.includeThinking opts).
  - destruct (asString _); simpl; [|discriminate].
    intros [= <-]. simpl. eauto.
  - destruct (isStr ty "text").
    + destruct (ExportChat.joinItem _); simpl; [|discriminate].
      intros [= <-]. simpl. eauto.
    + destruct (isStr ty "tool_use").
      * destruct (ExportChat.formatToolCall h b trm opts); simpl; [|discriminate].
        intros [= <-]. simpl. eauto.
      * intros [= <-]. exists []. simpl. split; [rewrite app_nil_r; reflexivity|].
        intros p'. rewrite app_nil_r. reflexivity.
Qed.

Lemma assistantBlocks_frame (h : Host)
    (trm : gmap string ExportContinue.ToolResult) (opts : ExportChat.Options)
    (time : string) (bs : list value) :
  forall p hc st,
    forEach (ExportChat.assistantBlock h trm opts time) bs (p, hc) = Some st ->
    exists rest,
      fst st = p ++ rest
      /\ forall p', forEach (ExportChat.assistantBlock h trm opts time) bs (p', hc)
                    = Some (p' ++ rest, snd st).
Proof.
  induction bs as [|b bs IH]; intros p hc st; cbn [forEach].
  - intros [= <-]. exists []. simpl. split; [rewrite app_nil_r; reflexivity|].
    intros p'. rewrite app_nil_r. reflexivity.
  - destruct (ExportChat.assistantBlock h trm opts time (p, hc) b) as [[p1 hc1]|] eqn:E;
      simpl; [|discriminate].
    apply assistantBlock_frame in E as (r1 & E & Hany). simpl in E, Hany. subst p1.
    intros H. apply IH in H as (r2 & H & Hrest). exists (r1 ++ r2).
    split; [rewrite H, app_assoc; reflexivity|].
    intros p'. rewrite Hany. simpl. rewrite Hrest, app_assoc. reflexivity.
Qed.

(** So does a record of the conversation loop. *)
Lemma conversationStep_frame (h : Host)
    (trm : gmap string ExportContinue.ToolResult) (opts : ExportChat.Options)
    (p : list string) (k : Z) (e : value) (st : list string * Z) :
  ExportChat.conversationStep h trm opts (p, k) e = Some st ->
  exists rest,
    fst st = p ++ rest
    /\ forall p', ExportChat.conversationStep h trm opts (p', k) e
                  = Some (p' ++ rest, snd st).
Proof.
  unfold ExportChat.conversationStep, ExportChat.someToolResult.
  assert (Hnil : forall q : list string * Z, Some (p, k) = Some q ->
            exists rest, fst q = p ++ rest
                         /\ forall p', Some (p', k) = Some (p' ++ rest, snd q)).
  { intros q [= <-]. exists []. simpl. split; [rewrite app_nil_r; reflexivity|].
    intros p'. rewrite app_nil_r. reflexivity. }
  destruct (prop e "type") as [ty|]; simpl; [|discriminate].
  destruct (negb (isStr ty "user") && negb (isStr ty "assistant")); [apply Hnil|].
  destruct (prop e "message") as [msg|]; simpl; [|discriminate].
  destruct (negb (truthy msg) || negb (truthy (optProp msg "content"))); [apply Hnil|].
  destruct (asArray (optProp msg "content")) as [blocks|]; [|apply Hnil].
  destruct (ExportChat.formatTimestamp h (optProp e "timestamp")) as [time|]; simpl;
    [|discriminate].
  destruct (isStr (optProp msg "role") "user"); simpl.
  - destruct (ExportContinue.someToolResult blocks) as [b|]; simpl; [|discriminate].
    destruct b; [apply Hnil|].
    destruct (ExportChat.userParts blocks); simpl; [|discriminate].
    intros [= <-]. simpl. eauto.
  - destruct (isStr (optProp msg "role") "assistant"); [|apply Hnil].
    destruct (forEach _ blocks (p, false)) as [[p1 hc1]|] eqn:E; simpl; [|discriminate].
    apply assistantBlocks_frame in E as (r & E & Hany). simpl in E, Hany. subst p1.
    intros [= <-]. simpl. eexists. split; [rewrite <- app_assoc; reflexivity|].
    intros p'. rewrite Hany. simpl. rewrite <- app_assoc. reflexivity.
Qed.

Lemma conversation_frame (h : Host)
    (trm : gmap string ExportContinue.ToolResult) (opts : ExportChat.Options)
    (entries : list value) :
  forall p k st,
    forEach (ExportChat.conversationStep h trm opts) entries (p, k) = Some st ->
    exists rest,
      fst st = p ++ rest
      /\ forall p', forEach (ExportChat.conversationStep h trm opts) entries (p', k)
                    = Some (p' ++ rest, snd st).
Proof.
  induction entries as [|e entries IH]; intros p k st; cbn [forEach].
  - intros [= <-]. exists []. simpl. split; [rewrite app_nil_r; reflexivity|].
    intros p'. rewrite app_nil_r. reflexivity.
  - destruct (ExportChat.conversationStep h trm opts (p, k) e) as [[p1 k1]|] eqn:E;
      simpl; [|discriminate].
    apply conversationStep_frame in E as (r1 & E & Hany). simpl in E, Hany. subst p1.
    intros H. apply IH in H as (r2 & H & Hrest). exists (r1 ++ r2).
    split; [rewrite H, app_assoc; reflexivity|].
    intros p'. rewrite Hany. simpl. rewrite Hrest, app_assoc. reflexivity.
Qed.

(** What the formatters compute with, besides [git] and the clock:
    the runtime's [Date] and the root and the name of the project. *)
Lemma formatters_agree (h1 h2 : Host) :
  Date_parse h1 = Date_parse h2 ->
  Date_toISOString h1 = Date_toISOString h2 ->
  PROJECT_ROOT h1 = PROJECT_ROOT h2 ->
  PROJECT_NAME h1 = PROJECT_NAME h2 ->
  ExportContinue.collect h1 = ExportContinue.collect h2
  /\ ExportContinue.durationMin h1 = ExportContinue.durationMin h2
  /\ ExportChat.collectStats h1 = ExportChat.collectStats h2
  /\ ExportChat.formatTimestamp h1 = ExportChat.formatTimestamp h2
  /\ timeValue h1 = timeValue h2
  /\ ExportChat.conversationStep h1 = ExportChat.conversationStep h2.
Proof.
  destruct h1, h2. simpl. intros -> -> -> ->. repeat split; reflexivity.
Qed.

(** C7 (as stated): the same records and session id give another handoff
    on another branch, and another transcript a minute later. *)
Lemma C7_output_follows_environment :
  exists v1 v2 m1 m2,
    ExportContinue.extractHandoff (onBranch "main") sampleLog "0a1b2c3d" = Some v1
    /\ ExportContinue.extractHandoff (onBranch "release") sampleLog "0a1b2c3d" = Some v2
    /\ optProp (optProp v1 "session") "branch" = VStr "main"
    /\ optProp (optProp v2 "session") "branch" = VStr "release"
    /\ ExportChat.convertToMarkdown (atTime 1767268800000) sampleLog "0a1b2c3d"
         sampleOptions = Some m1
    /\ ExportChat.convertToMarkdown (atTime 1767268860000) sampleLog "0a1b2c3d"
         sampleOptions = Some m2
    /\ String.eqb m1 m2 = false.
Proof.
  eexists _, _, _, _.
  repeat (split; [vm_compute; reflexivity|]). vm_compute. reflexivity.
Qed.

(** C7 (amended): the formatters read the environment, and what they
    read shows in fixed places.  Two runs on the same records, session
    id and options, with the same [Date], project root and project name,
    whatever [git] prints and whatever the clock shows: when one
    returns a handoff so does the other, the two agree in every field
    but [session.branch] and [git_context], and [session.branch] is the
    branch [git] printed; two transcripts agree in every line but the
    branch of the header, the recent commits of the summary and the time
    of the export.  So the outputs are the same when [git] prints the
    same and, for the transcript, the clock shows the same time. *)
Theorem C7_environment_confined (h1 h2 : Host) (entries : list value)
    (sessionId : string) (opts : ExportChat.Options) :
  Date_parse h1 = Date_parse h2 ->
  Date_toISOString h1 = Date_toISOString h2 ->
  PROJECT_ROOT h1 = PROJECT_ROOT h2 ->
  PROJECT_NAME h1 = PROJECT_NAME h2 ->
  (forall v1,
     ExportContinue.extractHandoff h1 entries sessionId = Some v1 ->
     exists v2,
       ExportContinue.extractHandoff h2 entries sessionId = Some v2
       /\ (forall k, k <> "session" -> k <> "git_context" ->
                     optProp v1 k = optProp v2 k)
       /\ (forall k, k <> "branch" ->
                     optProp (optProp v1 "session") k = optProp (optProp v2 "session") k)
       /\ optProp (optProp v1 "session") "branch"
          = VStr (ExportContinue.branch (ExportContinue.getGitContext h1))
       /\ optProp (optProp v2 "session") "branch"
          = VStr (ExportContinue.branch (ExportContinue.getGitContext h2))
       /\ (ExportContinue.getGitContext h1 = ExportContinue.getGitContext h2 ->
           v1 = v2))
  /\ (forall m1 m2,
        ExportChat.convertToMarkdown h1 entries sessionId opts = Some m1 ->
        ExportChat.convertToMarkdown h2 entries sessionId opts = Some m2 ->
        exists before between after e1 e2,
          ExportChat.formatTimestamp h1 (VStr (Date_toISOString h1 (now h1))) = Some e1
          /\ ExportChat.formatTimestamp h2 (VStr (Date_toISOString h2 (now h2))) = Some e2
          /\ m1 = transcriptOf before between after (ExportChat.getGitContext h1) e1
          /\ m2 = transcriptOf before between after (ExportChat.getGitContext h2) e2).
Proof.
  intros Hparse Hiso Hroot Hname.
  destruct (formatters_agree h1 h2 Hparse Hiso Hroot Hname)
    as (Hcollect & Hdur & Hstats & Hfmt & Htime & Hstep).
  split.
  - intros v1 H1. apply extractHandoff_inv in H1
      as (trm & startTs & endTs & acc & dg & k & pr & dur & us
          & Htrm & Hts & Hacc & Hdg & Hpr & Hd & Hus & ->).
    exists (JSON_clone (ExportContinue.assemble h2 sessionId
                          (ExportContinue.getGitContext h2) startTs endTs dur acc dg pr
                          us)).
    split.
    { unfold ExportContinue.extractHandoff.
      rewrite Htrm. cbn [mbind option_bind]. rewrite Hts. cbn [mbind option_bind fst snd].
      rewrite <- Hdur, Hd. cbn [mbind option_bind]. rewrite <- Hcollect, Hacc.
      cbn [mbind option_bind]. rewrite Hdg. cbn [mbind option_bind fst].
      rewrite Hpr. cbn [mbind option_bind]. rewrite Hus. reflexivity. }
    assert (Hsession : forall h,
              optProp (JSON_clone (ExportContinue.assemble h sessionId
                         (ExportContinue.getGitContext h) startTs endTs dur acc dg pr
                         us)) "session"
              = JSON_clone
                  (VObj [("id", VStr sessionId);
                         ("project", VStr (PROJECT_NAME h));
                         ("branch",
                          VStr (ExportContinue.branch (ExportContinue.getGitContext h)));
                         ("started", startTs); ("ended", endTs);
                         ("duration_minutes", dur);
                         ("tool_calls", VNum (ExportContinue.toolCallCount acc));
                         ("error_count",
                          VNum (Z.of_nat (length (ExportContinue.errors acc))))])).
    { intros h. unfold ExportContinue.assemble. rewrite optProp_clone. reflexivity. }
    split; [|split; [|split; [|split]]].
    + intros k0 Hs Hg. apply String.eqb_neq in Hs, Hg.
      rewrite String.eqb_sym in Hs. rewrite String.eqb_sym in Hg.
      unfold ExportContinue.assemble. rewrite !optProp_clone.
      cbn [firstDefined fst snd]. rewrite Hs, Hg. reflexivity.
    + intros k0 Hb. apply String.eqb_neq in Hb. rewrite String.eqb_sym in Hb.
      rewrite !Hsession, !optProp_clone. cbn [firstDefined fst snd].
      rewrite Hb, Hname. reflexivity.
    + rewrite Hsession, optProp_clone. reflexivity.
    + rewrite Hsession, optProp_clone. reflexivity.
    + intros Hgit. unfold ExportContinue.assemble. rewrite Hgit, Hname. reflexivity.
  - intros m1 m2. unfold ExportChat.convertToMarkdown.
    rewrite <- Hstats, <- Hfmt, <- Htime, <- Hstep, <- Hname.
    destruct (ExportChat.buildToolResultMap entries) as [trm|];
      cbn [mbind option_bind]; [|discriminate].
    destruct (ExportChat.collectStats h1 entries trm) as [stats|];
      cbn [mbind option_bind]; [|discriminate].
    destruct (ExportChat.formatTimestamp h1 (ExportChat.duration_start stats))
      as [start|]; cbn [mbind option_bind]; [|discriminate].
    destruct (ExportChat.formatTimestamp h1 (ExportChat.duration_end stats))
      as [end_|]; cbn [mbind option_bind]; [|discriminate].
    destruct (if truthy (ExportChat.duration_start stats)
                 && truthy (ExportChat.duration_end stats) then _ else _)
      as [duration|]; cbn [mbind option_bind]; [|discriminate].
    cbv zeta.
    set (summary := ["## Session Summary"; _; _; _]).
    set (thinking := if 0 <? ExportChat.thinkingBlocks stats then _ else []).
    set (tools := if 0 <? Z.of_nat (length (ExportChat.sortedToolNames _))
                  then _ else []).
    set (files := if (0 <? Z.of_nat (length (ExportChat.filesRead stats))) || _
                  then _ else []).
    intros H1 H2.
    match type of H1 with
    | forEach ?f ?l (?i, 0) ≫= _ = _ =>
        destruct (forEach f l (i, 0)) as [[p1 k1]|] eqn:E1; [|discriminate H1]
    end.
    apply conversation_frame in E1 as (rest & Hp1 & Hany). cbn [fst snd] in Hp1, Hany.
    subst p1.
    match type of H2 with
    | forEach ?f ?l (?i, 0) ≫= _ = _ => rewrite (Hany i) in H2
    end.
    cbn [mbind option_bind fst snd] in H1, H2.
    destruct (ExportChat.formatTimestamp h1 (VStr (Date_toISOString h1 (now h1))))
      as [e1|]; [|discriminate H1].
    destruct (ExportChat.formatTimestamp h1 (VStr (Date_toISOString h2 (now h2))))
      as [e2|]; [|discriminate H2].
    cbn [mbind option_bind] in H1, H2.
    apply (inj Some) in H1. apply (inj Some) in H2. subst m1 m2.
    exists ["# Claude Code Conversation Export"; "";
            "> **Purpose:** This export is structured for AI agents to read, review progress,";
            "> identify issues, and recommend next steps. Includes full tool inputs/outputs.";
            ""; "## Metadata"; ""; "| Field | Value |"; "|-------|-------|";
            "| Session ID | `" +:+ sessionId +:+ "` |";
            "| Project | " +:+ PROJECT_NAME h1 +:+ " |"],
      (["| Start | " +:+ start +:+ " |"; "| End | " +:+ end_ +:+ " |"]
         ++ duration ++ [""] ++ summary ++ thinking ++ [""] ++ tools ++ files),
      (["---"; ""; "## Conversation"; ""] ++ rest ++ [""; "---"]),
      e1, e2.
    split; [reflexivity|]. split; [reflexivity|]. unfold transcriptOf.
    split; f_equal; rewrite <- !app_assoc; reflexivity.
Qed.

(** A run of C7: on another branch the handoff keeps its task. *)
Lemma C7_environment_confined_witness :
  exists v1 v2,
    ExportContinue.extractHandoff (onBranch "main") sampleLog "0a1b2c3d" = Some v1
    /\ ExportContinue.extractHandoff (onBranch "release") sampleLog "0a1b2c3d" = Some v2
    /\ optProp v1 "task" = optProp v2 "task"
    /\ optProp v1 "changes" = optProp v2 "changes".
Proof.
  destruct (ExportContinue.extractHandoff (onBranch "main") sampleLog "0a1b2c3d")
    as [v1|] eqn:E1; [|vm_compute in E1; discriminate].
  destruct (proj1 (C7_environment_confined (onBranch "main") (onBranch "release")
                     sampleLog "0a1b2c3d" sampleOptions
                     eq_refl eq_refl eq_refl eq_refl) v1 E1)
    as (v2 & E2 & Hfields & _).
  exists v1, v2. split; [reflexivity|]. split; [exact E2|].
  split; apply Hfields; discriminate.
Defined.

(** ** C8: which Bash calls are listed *)

Lemma toolUse_actions (h : Host) (trm : gmap string ExportContinue.ToolResult)
    (blocks : list value) :
  forall acc acc',
    forEach (ExportContinue.toolUse h trm) blocks acc = Some acc' ->
    let calls := List.filter (fun b => isStr (optProp b "type") "tool_use") blocks in
    ExportContinue.actions acc'
      = ExportContinue.actions acc ++ flat_map (blockActions trm) calls
    /\ ExportContinue.toolCallCount acc'
       = ExportContinue.toolCallCount acc + Z.of_nat (length calls).
Proof.
  induction blocks as [|b blocks IH]; intros acc acc'; cbn [forEach].
  - intros [= <-]. simpl. rewrite app_nil_r. split; [reflexivity|lia].
  - destruct (ExportContinue.toolUse h trm acc b) as [acc1|] eqn:E; simpl; [|discriminate].
    intros H. apply IH in H as [Ha Hc]. rewrite Ha, Hc.
    apply toolUse_inv in E
      as [[-> ->]|(-> & errs & files & bash & srch & task
                     & _ & _ & Hb & _ & Ht & _ & _ & Hact & Hcount)].
    + split; reflexivity.
    + simpl. rewrite Hact, Hcount. unfold blockActions at 2. rewrite Hb, Ht. simpl.
      rewrite <- !app_assoc. split; [reflexivity|lia].
Qed.

Lemma collect_actions (h : Host) (trm : gmap string ExportContinue.ToolResult)
    (entries : list value) :
  forall acc acc',
    forEach (ExportContinue.collect h trm) entries acc = Some acc' ->
    ExportContinue.actions acc'
      = ExportContinue.actions acc ++ flat_map (blockActions trm) (toolUses entries)
    /\ ExportContinue.toolCallCount acc'
       = ExportContinue.toolCallCount acc + Z.of_nat (length (toolUses entries)).
Proof.
  induction entries as [|e entries IH]; intros acc acc'; cbn [forEach].
  - intros [= <-]. simpl. rewrite app_nil_r. split; [reflexivity|lia].
  - destruct (ExportContinue.collect h trm acc e) as [acc1|] eqn:E; simpl; [|discriminate].
    intros H. apply IH in H as [Ha Hc]. rewrite Ha, Hc.
    unfold toolUses. simpl. fold (toolUses entries). apply collect_inv in E.
    destruct (opensTurn e) eqn:Eo.
    + destruct E as (_ & _ & -> & ->).
      destruct (speaks e) eqn:Es; [apply speaks_not_user in Es; congruence|].
      split; reflexivity.
    + destruct (speaks e).
      * apply toolUse_actions in E as [-> ->].
        rewrite flat_map_app, length_app, <- !app_assoc. split; [reflexivity|lia].
      * subst acc1. split; reflexivity.
Qed.

Lemma isStr_eq (v : value) (s : string) : isStr v s = true -> v = VStr s.
Proof.
  destruct v; simpl; try discriminate. intros H. apply String.eqb_eq in H.
  congruence.
Qed.

Lemma truncate_total (t : string) (m : Z) :
  ExportContinue.truncate (VStr t) m = Some (truncated t m).
Proof. unfold truncated. rewrite truncate_string. reflexivity. Qed.

(** What a call named [Bash] adds to [actions]: one entry with its
    trimmed command when the command is notable, nothing otherwise. *)
Lemma bash_block_actions (trm : gmap string ExportContinue.ToolResult) (b : value) :
  isStr (nameOf b) "Bash" = true ->
  if notable b
  then exists rest,
      blockActions trm b
      = [VObj (("command", VStr (truncated (trimmedCommand b) 300)) :: rest)]
  else blockActions trm b = [].
Proof.
  intros Hname. unfold blockActions, notable, trimmedCommand.
  unfold ExportContinue.taskAction, ExportContinue.bashAction.
  rewrite (isStr_eq _ _ Hname). simpl.
  destruct (optProp (inputOf b) "command") as [| |bb|n| |c|l|f]; try reflexivity.
  - destruct bb; reflexivity.
  - unfold truthy. destruct (negb (n =? 0)); reflexivity.
  - simpl. destruct (Str.nonEmpty c) eqn:Ec.
    + simpl.
      destruct ((5 <? Z.of_nat (Str.length (Str.trim c)))
                && negb (Str.startsWith (Str.trim c) "echo ")); [|reflexivity].
      rewrite truncate_total. simpl.
      destruct (ExportContinue.isErrorOf (resultOf trm b)); simpl; [eauto|].
      destruct (ExportContinue.contentOf (resultOf trm b)); simpl; eauto.
      destruct (Str.nonEmpty s); simpl; eauto.
      destruct (length (Str.lines s) <=? 5)%nat; simpl; eauto.
      rewrite truncate_total. simpl. eauto.
    + destruct c; [reflexivity|discriminate].
Qed.

Lemma actions_of_handoff (h : Host) (entries : list value) (sessionId : string)
    (v : value) :
  ExportContinue.extractHandoff h entries sessionId = Some v ->
  exists trm,
    ExportContinue.buildToolResultMap entries = Some trm
    /\ arrayField v "actions"
       = map cloneElement (flat_map (blockActions trm) (toolUses entries))
    /\ optProp (optProp v "session") "tool_calls"
       = VNum (Z.of_nat (length (toolUses entries))).
Proof.
  intros H. apply extractHandoff_inv in H
    as (trm & startTs & endTs & acc & dg & k & pr & dur & us
        & Htrm & _ & Hacc & _ & _ & _ & _ & ->).
  exists trm. split; [exact Htrm|].
  apply collect_actions in Hacc as [Ha Hc]. simpl in Ha, Hc.
  unfold arrayField, ExportContinue.assemble. rewrite !optProp_clone.
  cbn [firstDefined fst snd String.eqb Ascii.eqb Bool.eqb andb isUndef negb].
  rewrite unlessEmpty_spec, Ha, Hc. split.
  - destruct (flat_map (blockActions trm) (toolUses entries)); reflexivity.
  - rewrite optProp_clone. reflexivity.
Qed.

(** C8: the [actions] of the handoff are what the tool calls add, call
    by call in file order; a call named [Bash] adds an entry exactly when
    its trimmed command has more than five characters and does not start
    with [echo ], and every call, listed or not, counts in
    [tool_calls]. *)
Theorem C8_bash_actions (h : Host) (entries : list value) (sessionId : string)
    (v : value) :
  ExportContinue.extractHandoff h entries sessionId = Some v ->
  exists trm,
    ExportContinue.buildToolResultMap entries = Some trm
    /\ arrayField v "actions"
       = map cloneElement (flat_map (blockActions trm) (toolUses entries))
    /\ optProp (optProp v "session") "tool_calls"
       = VNum (Z.of_nat (length (toolUses entries)))
    /\ forall b,
         In b (toolUses entries) ->
         isStr (nameOf b) "Bash" = true ->
         if notable b
         then exists rest,
             blockActions trm b
             = [VObj (("command", VStr (truncated (trimmedCommand b) 300)) :: rest)]
         else blockActions trm b = [].
Proof.
  intros H. destruct (actions_of_handoff _ _ _ _ H) as (trm & Htrm & Ha & Hc).
  exists trm. repeat split; try assumption.
  intros b _ Hname. apply bash_block_actions, Hname.
Qed.

(** Runs of C8: the one Bash call of [sampleLog] is listed; a command
    of five letters between no-break spaces is counted and not
    listed. *)
Lemma C8_bash_actions_witness :
  (exists trm,
     ExportContinue.buildToolResultMap sampleLog = Some trm
     /\ arrayField sampleHandoff "actions"
        = map cloneElement (flat_map (blockActions trm) (toolUses sampleLog))
     /\ optProp (optProp sampleHandoff "session") "tool_calls" = VNum 3)
  /\ exists v,
       ExportContinue.extractHandoff sampleHost
         [record "assistant" "2026-01-01T10:00:05.000Z"
            [toolUseBlock "Bash" "toolu_1"
               [("command", VStr (nbsp +:+ "héllo" +:+ nbsp))]]]
         "0a1b2c3d" = Some v
       /\ arrayField v "actions" = []
       /\ optProp (optProp v "session") "tool_calls" = VNum 1.
Proof.
  split.
  - destruct (C8_bash_actions sampleHost sampleLog "0a1b2c3d" sampleHandoff
                sampleHandoff_run)
      as (trm & Htrm & Hactions & Hcalls & _).
    exists trm. split; [exact Htrm|]. split; [exact Hactions|exact Hcalls].
  - destruct (ExportContinue.extractHandoff sampleHost
                [record "assistant" "2026-01-01T10:00:05.000Z"
                   [toolUseBlock "Bash" "toolu_1"
                      [("command", VStr (nbsp +:+ "héllo" +:+ nbsp))]]]
                "0a1b2c3d") as [v|] eqn:E; [|vm_compute in E; discriminate].
    destruct (C8_bash_actions sampleHost _ "0a1b2c3d" v E)
      as (trm & _ & Hactions & Hcalls & _).
    exists v. split; [reflexivity|]. split; [rewrite Hactions | exact Hcalls].
    reflexivity.
Defined.

(** ** C9: a file written and edited *)

Lemma getKey_setKey_eq {A} (k : string) (v : A) (o : list (string * A)) :
  ExportContinue.getKey k (ExportContinue.setKey k v o) = Some v.
Proof.
  induction o as [|[k' v'] o IH]; simpl.
  - rewrite String.eqb_refl. reflexivity.
  - destruct (String.eqb k' k) eqn:E; simpl.
    + rewrite String.eqb_refl. reflexivity.
    + rewrite E. exact IH.
Qed.

Lemma getKey_setKey_ne {A} (k k' : string) (v : A) (o : list (string * A)) :
  k <> k' ->
  ExportContinue.getKey k' (ExportContinue.setKey k v o) = ExportContinue.getKey k' o.
Proof.
  intros Hne. induction o as [|[k0 v0] o IH]; simpl.
  - destruct (String.eqb k k') eqn:E; [apply String.eqb_eq in E; contradiction|].
    reflexivity.
  - destruct (String.eqb k0 k) eqn:E; simpl.
    + apply String.eqb_eq in E. subst k0.
      destruct (String.eqb k k') eqn:E'; [apply String.eqb_eq in E'; contradiction|].
      reflexivity.
    + rewrite IH. reflexivity.
Qed.

Lemma setKey_keys {A} (k : string) (v : A) (o : list (string * A)) (k' : string) :
  In k' (map fst (ExportContinue.setKey k v o)) -> k' = k \/ In k' (map fst o).
Proof.
  induction o as [|[k0 v0] o IH]; simpl.
  - intros [<-|[]]. left. reflexivity.
  - destruct (String.eqb k0 k) eqn:E; simpl.
    + apply String.eqb_eq in E. subst k0. intros [<-|H]; auto.
    + intros [<-|H]; auto. destruct (IH H); auto.
Qed.

Lemma setKey_NoDup {A} (k : string) (v : A) (o : list (string * A)) :
  List.NoDup (map fst o) -> List.NoDup (map fst (ExportContinue.setKey k v o)).
Proof.
  induction o as [|[k0 v0] o IH]; simpl; intros Hnd.
  - constructor; [intros []|constructor].
  - inversion Hnd as [|? ? Hnotin Hnd']; subst.
    destruct (String.eqb k0 k) eqn:E; simpl.
    + apply String.eqb_eq in E. subst k0. constructor; assumption.
    + constructor; [|apply IH; assumption].
      intros Hin. apply setKey_keys in Hin as [->|Hin]; [|contradiction].
      rewrite String.eqb_refl in E. discriminate.
Qed.

Lemma getKey_In {A} (k : string) (v : A) (o : list (string * A)) :
  ExportContinue.getKey k o = Some v -> In (k, v) o.
Proof.
  induction o as [|[k0 v0] o IH]; simpl; [discriminate|].
  destruct (String.eqb k0 k) eqn:E.
  - apply String.eqb_eq in E. subst k0. intros [= ->]. left. reflexivity.
  - intros H. right. apply IH, H.
Qed.

Lemma In_getKey {A} (k : string) (v : A) (o : list (string * A)) :
  List.NoDup (map fst o) -> In (k, v) o -> ExportContinue.getKey k o = Some v.
Proof.
  induction o as [|[k0 v0] o IH]; simpl; intros Hnd; [intros []|].
  inversion Hnd as [|? ? Hnotin Hnd']; subst.
  intros [[= -> ->]|Hin].
  - rewrite String.eqb_refl. reflexivity.
  - destruct (String.eqb k0 k) eqn:E; [|apply IH; assumption].
    apply String.eqb_eq in E. subst k0. exfalso. apply Hnotin.
    apply (in_map fst) in Hin. exact Hin.
Qed.

(** The [Write] / [Edit] / [Read] chain of one call. *)
Lemma fileStep_rel (h : Host) (b : value)
    (fc : list (string * ExportContinue.Change)) (fr : list string)
    (files : list (string * ExportContinue.Change) * list string) :
  ExportContinue.fileStep h (nameOf b) (inputOf b) fc fr = Some files ->
  fileStepRel h b fc (fst files).
Proof.
  unfold ExportContinue.fileStep, fileStepRel, fileOpOf.
  set (name := nameOf b). set (input := inputOf b).
  destruct (isStr name "Write" && truthy (optProp input "file_path")) eqn:Ew.
  - destruct (ExportContinue.shortPath h (optProp input "file_path")) as [sp|]; simpl;
      [|discriminate].
    destruct (String.eqb sp "__proto__"); [discriminate|].
    destruct (if truthy (optProp input "content") then _ else _) as [s|]; simpl;
      [|discriminate].
    intros [= <-]. simpl. eexists. split; [reflexivity|]. split; reflexivity.
  - destruct (isStr name "Edit" && truthy (optProp input "file_path")) eqn:Ee.
    + destruct (ExportContinue.shortPath h (optProp input "file_path")) as [sp|]; simpl;
        [|discriminate].
      destruct (String.eqb sp "__proto__"); [discriminate|].
      assert (Haction : ExportContinue.action
                (match ExportContinue.getKey sp fc with
                 | Some old => {| ExportContinue.action := "modified";
                                  ExportContinue.summary := ExportContinue.summary old;
                                  ExportContinue.edits := ExportContinue.edits old |}
                 | None => {| ExportContinue.action := "modified";
                              ExportContinue.summary := None;
                              ExportContinue.edits := Some [] |}
                 end) = "modified")
        by (destruct (ExportContinue.getKey sp fc); reflexivity).
      unfold ExportContinue.assignOwn.
      destruct (negb (isUndef (optProp input "old_string"))
                && negb (isUndef (optProp input "new_string"))).
      * destruct (ExportContinue.truncate (optProp input "old_string") 200); simpl;
          [|discriminate].
        destruct (ExportContinue.truncate (optProp input "new_string") 200); simpl;
          [|discriminate].
        intros [= <-]. simpl.
        destruct (ExportContinue.answersInherited sp fc); [reflexivity|].
        eexists. split; [reflexivity|]. split; [exact Haction|discriminate].
      * intros [= <-]. simpl.
        destruct (ExportContinue.answersInherited sp fc); [reflexivity|].
        eexists. split; [reflexivity|]. split; [exact Haction|discriminate].
    + destruct (isStr name "Read" && truthy (optProp input "file_path")).
      * destruct (ExportContinue.shortPath h (optProp input "file_path")); simpl;
          [|discriminate].
        intros [= <-]. reflexivity.
      * intros [= <-]. reflexivity.
Qed.

Lemma fileChain_app (h : Host) (l1 l2 : list value)
    (fc fc' : list (string * ExportContinue.Change)) :
  fileChain h (l1 ++ l2) fc fc'
  <-> exists fc1, fileChain h l1 fc fc1 /\ fileChain h l2 fc1 fc'.
Proof.
  revert fc; induction l1 as [|b l1 IH]; intros fc; simpl.
  - split; [intros H; exists fc; auto|intros (fc1 & -> & H); exact H].
  - split.
    + intros (fc1 & Hs & Hc). apply IH in Hc as (fc2 & H1 & H2). eauto.
    + intros (fc2 & (fc1 & Hs & H1) & H2). exists fc1. split; [exact Hs|].
      apply IH. eauto.
Qed.

Lemma toolUse_fileChain (h : Host) (trm : gmap string ExportContinue.ToolResult)
    (blocks : list value) :
  forall acc acc',
    forEach (ExportContinue.toolUse h trm) blocks acc = Some acc' ->
    fileChain h (List.filter (fun b => isStr (optProp b "type") "tool_use") blocks)
      (ExportContinue.fileChanges acc) (ExportContinue.fileChanges acc').
Proof.
  induction blocks as [|b blocks IH]; intros acc acc'; cbn [forEach].
  - intros [= <-]. reflexivity.
  - destruct (ExportContinue.toolUse h trm acc b) as [acc1|] eqn:E; simpl; [|discriminate].
    intros H. apply IH in H.
    apply toolUse_inv in E
      as [[-> ->]|(-> & errs & files & bash & srch & task
                     & _ & Hf & _ & _ & _ & _ & Hfc & _ & _)].
    + exact H.
    + simpl. exists (ExportContinue.fileChanges acc1). split; [|exact H].
      rewrite Hfc. eapply fileStep_rel, Hf.
Qed.

Lemma collect_fileChain (h : Host) (trm : gmap string ExportContinue.ToolResult)
    (entries : list value) :
  forall acc acc',
    forEach (ExportContinue.collect h trm) entries acc = Some acc' ->
    fileChain h (toolUses entries)
      (ExportContinue.fileChanges acc) (ExportContinue.fileChanges acc').
Proof.
  induction entries as [|e entries IH]; intros acc acc'; cbn [forEach].
  - intros [= <-]. reflexivity.
  - destruct (ExportContinue.collect h trm acc e) as [acc1|] eqn:E; simpl; [|discriminate].
    intros H. apply IH in H.
    unfold toolUses. simpl. fold (toolUses entries). apply collect_inv in E.
    destruct (opensTurn e) eqn:Eo.
    + destruct E as (_ & Hfc & _).
      destruct (speaks e) eqn:Es; [apply speaks_not_user in Es; congruence|].
      simpl. rewrite <- Hfc. exact H.
    + destruct (speaks e).
      * apply fileChain_app. eexists. split; [|exact H].
        eapply toolUse_fileChain, E.
      * subst acc1. exact H.
Qed.

Lemma fileChain_NoDup (h : Host) (calls : list value) :
  forall fc fc',
    fileChain h calls fc fc' -> List.NoDup (map fst fc) -> List.NoDup (map fst fc').
Proof.
  induction calls as [|b calls IH]; simpl; intros fc fc'.
  - intros ->. auto.
  - intros (fc1 & Hs & Hc) Hnd. apply (IH _ _ Hc). unfold fileStepRel in Hs.
    destruct (fileOpOf h b) as [[sp w]|].
    + destruct (negb w && ExportContinue.answersInherited sp fc); [subst fc1; exact Hnd|].
      destruct Hs as (c & -> & _). apply setKey_NoDup, Hnd.
    + subst fc1. exact Hnd.
Qed.

(** Calls that do not touch [sp] leave its entry alone. *)
Lemma fileChain_untouched (h : Host) (sp : string) (calls : list value) :
  (forall b' w', In b' calls -> fileOpOf h b' <> Some (sp, w')) ->
  forall fc fc',
    fileChain h calls fc fc' ->
    ExportContinue.getKey sp fc' = ExportContinue.getKey sp fc.
Proof.
  induction calls as [|b calls IH]; simpl; intros Hother fc fc'.
  - intros ->. reflexivity.
  - intros (fc1 & Hs & Hc).
    rewrite (IH (fun b' w' Hin => Hother b' w' (or_intror Hin)) _ _ Hc).
    unfold fileStepRel in Hs.
    destruct (fileOpOf h b) as [[sp' w]|] eqn:Eop; [|subst fc1; reflexivity].
    destruct (negb w && ExportContinue.answersInherited sp' fc); [subst fc1; reflexivity|].
    destruct Hs as (c & -> & _). apply getKey_setKey_ne.
    intros ->. apply (Hother b w (or_introl eq_refl)). exact Eop.
Qed.

Lemma In_insertIndexed {A} (n : N) (x : A) (l : list (N * A)) (y : N * A) :
  In y (insertIndexed n x l) <-> y = (n, x) \/ In y l.
Proof.
  induction l as [|[m z] l IH]; simpl.
  - intuition.
  - destruct (n <? m)%N; simpl; [intuition|]. rewrite IH. intuition.
Qed.

(** [Object.entries] lists every entry of the dictionary, and nothing
    else. *)
Lemma In_ownEntries {A} (o : list (string * A)) (x : string * A) :
  In x (ownEntries o) <-> In x o.
Proof.
  unfold ownEntries. rewrite in_app_iff.
  assert (Hidx : forall y : N * (string * A),
             In y (foldr (fun kv acc => match arrayIndex (fst kv) with
                                        | Some n => insertIndexed n kv acc
                                        | None => acc
                                        end) [] o)
             <-> In (snd y) o /\ arrayIndex (fst (snd y)) = Some (fst y)).
  { induction o as [|kv o IH]; intros y; simpl; [intuition|].
    destruct (arrayIndex (fst kv)) as [n|] eqn:E.
    - rewrite In_insertIndexed, IH. split.
      + intros [->|[H1 H2]]; simpl; auto.
      + intros [[Heq|H1] H2]; [left|right; auto].
        destruct y as [m z]; simpl in *. subst z. congruence.
    - rewrite IH. split; [intuition|].
      intros [[Heq|H1] H2]; [rewrite <- Heq in H2; congruence|auto]. }
  rewrite in_map_iff. split.
  - intros [(y & <- & Hy)|Hf].
    + apply Hidx in Hy. tauto.
    + apply list_elem_of_In, list_elem_of_filter in Hf as [_ Hf].
      apply list_elem_of_In, Hf.
  - intros Hin. destruct (arrayIndex (fst x)) as [n|] eqn:E.
    + left. exists (n, x). split; [reflexivity|]. apply Hidx. auto.
    + right. apply list_elem_of_In, list_elem_of_filter. split; [exact E|].
      apply list_elem_of_In, Hin.
Qed.

Lemma changes_of_handoff (h : Host) (entries : list value) (sessionId : string)
    (v : value) :
  ExportContinue.extractHandoff h entries sessionId = Some v ->
  exists fc,
    fileChain h (toolUses entries) [] fc
    /\ arrayField v "changes"
       = map (fun kv => JSON_clone (ExportContinue.changeEntry kv)) (ownEntries fc).
Proof.
  intros H. apply extractHandoff_inv in H
    as (trm & startTs & endTs & acc & dg & k & pr & dur & us
        & _ & _ & Hacc & _ & _ & _ & _ & ->).
  exists (ExportContinue.fileChanges acc). split.
  - apply collect_fileChain in Hacc. exact Hacc.
  - unfold arrayField, ExportContinue.assemble. rewrite optProp_clone.
    cbn [firstDefined fst snd String.eqb Ascii.eqb Bool.eqb andb isUndef negb].
    rewrite JSON_clone_array. simpl. rewrite map_map. apply map_ext.
    intros [file info]. reflexivity.
Qed.

Lemma changeEntry_fields (file : string) (info : ExportContinue.Change) :
  let entry := JSON_clone (ExportContinue.changeEntry (file, info)) in
  optProp entry "file" = VStr file
  /\ optProp entry "action" = VStr (ExportContinue.action info)
  /\ (ExportContinue.edits info = None -> hasField entry "edits" = false).
Proof.
  unfold ExportContinue.changeEntry. cbv zeta.
  rewrite !optProp_clone, hasField_clone. simpl. repeat split.
  intros ->. rewrite app_nil_r.
  destruct (ExportContinue.summary info) as [s|]; [|reflexivity].
  unfold ExportContinue.optField. destruct (truthy (VStr s)); reflexivity.
Qed.

(** C9 (as stated): here a [Write] of [src/login.js] is followed by an
    [Edit] of it, and the change entry says [created], because another
    [Write] follows the [Edit]. *)
Lemma C9_write_edit_write :
  let path := [("file_path", VStr "/home/dev/app/src/login.js")] in
  let log :=
    [record "assistant" "2026-01-01T10:00:05.000Z"
       [toolUseBlock "Write" "toolu_1" (path ++ [("content", VStr "v1")]);
        toolUseBlock "Edit" "toolu_2"
          (path ++ [("old_string", VStr "v1"); ("new_string", VStr "v2")]);
        toolUseBlock "Write" "toolu_3" (path ++ [("content", VStr "v3")])]] in
  exists v,
    ExportContinue.extractHandoff sampleHost log "0a1b2c3d" = Some v
    /\ arrayField v "changes"
       = [VObj [("file", VStr "src/login.js"); ("action", VStr "created");
                ("summary", VStr "1 lines written")]].
Proof. eexists. split; vm_compute; reflexivity. Qed.

(** C9 (amended): the last [Write] or [Edit] call for a short path
    decides its change entry.  When it is an [Edit] the entry says
    [modified], whatever came before; when it is a [Write] the entry
    says [created] and has no [edits].  There is one entry for the
    path.  The path is no name that [Object.prototype] answers
    ([constructor], [toString] and the like: after an [Edit] alone
    [fileChanges[sp]] is the inherited member and the script adds no
    entry), and no path of the log is [__proto__]. *)
Theorem C9_last_file_call_decides (h : Host) (entries : list value)
    (sessionId : string) (v : value) (before after : list value) (b : value)
    (sp : string) (w : bool) :
  plainPaths h entries = true ->
  inherited sp = false ->
  ExportContinue.extractHandoff h entries sessionId = Some v ->
  toolUses entries = before ++ b :: after ->
  fileOpOf h b = Some (sp, w) ->
  (forall b' w', In b' after -> fileOpOf h b' <> Some (sp, w')) ->
  exists entry,
    In entry (arrayField v "changes")
    /\ optProp entry "file" = VStr sp
    /\ optProp entry "action" = VStr (if w then "created" else "modified")
    /\ (w = true -> hasField entry "edits" = false)
    /\ forall entry',
         In entry' (arrayField v "changes") ->
         optProp entry' "file" = VStr sp -> entry' = entry.
Proof.
  intros _ Hsp H Hcalls Hop Hlast.
  destruct (changes_of_handoff _ _ _ _ H) as (fc & Hchain & Hchanges).
  assert (Hnd : List.NoDup (map fst fc))
    by (apply (fileChain_NoDup _ _ _ _ Hchain); constructor).
  rewrite Hcalls in Hchain. apply fileChain_app in Hchain as (fc0 & _ & Hchain).
  destruct Hchain as (fc1 & Hstep & Hrest).
  unfold fileStepRel in Hstep. rewrite Hop in Hstep.
  replace (ExportContinue.answersInherited sp fc0) with false in Hstep
    by (unfold ExportContinue.answersInherited;
        destruct (ExportContinue.getKey sp fc0); [reflexivity | symmetry; exact Hsp]).
  rewrite andb_false_r in Hstep.
  destruct Hstep as (c & -> & Haction & Hedits).
  pose proof (fileChain_untouched h sp after
                (fun b' w' Hin => Hlast b' w' Hin) _ _ Hrest) as Hkey.
  rewrite getKey_setKey_eq in Hkey.
  destruct (changeEntry_fields sp c) as (Hfile & Hact & Hed).
  exists (JSON_clone (ExportContinue.changeEntry (sp, c))).
  rewrite Hchanges. split; [|split; [exact Hfile|split; [|split]]].
  - apply in_map_iff. exists (sp, c). split; [reflexivity|].
    apply (proj2 (In_ownEntries _ _)), getKey_In, Hkey.
  - rewrite Hact, Haction. reflexivity.
  - intros Hw. apply Hed, Hedits, Hw.
  - intros entry' Hin Hfile'. apply in_map_iff in Hin as ([k' c'] & <- & Hin).
    destruct (changeEntry_fields k' c') as (Hf' & _). rewrite Hf' in Hfile'.
    injection Hfile' as ->. apply (proj1 (In_ownEntries _ _)) in Hin.
    apply (In_getKey _ _ _ Hnd) in Hin. congruence.
Qed.

(** A run of C9: in [sampleLog] the file is written, then edited. *)
Lemma C9_last_file_call_decides_witness :
  exists entry,
    In entry (arrayField sampleHandoff "changes")
    /\ optProp entry "file" = VStr "src/login.js"
    /\ optProp entry "action" = VStr "modified".
Proof.
  destruct (C9_last_file_call_decides sampleHost sampleLog "0a1b2c3d" sampleHandoff
              [toolUseBlock "Write" "toolu_1"
                 [("file_path", VStr "/home/dev/app/src/login.js");
                  ("content", VStr "line1")];
               toolUseBlock "Bash" "toolu_2" [("command", VStr "npm test -- login")]]
              []
              (toolUseBlock "Edit" "toolu_3"
                 [("file_path", VStr "/home/dev/app/src/login.js");
                  ("old_string", VStr "line1"); ("new_string", VStr "line2")])
              "src/login.js" false
              eq_refl eq_refl sampleHandoff_run eq_refl eq_refl
              (fun b' w' (Hin : In b' []) => match Hin with end))
    as (entry & Hin & Hfile & Haction & _).
  exists entry. split; [exact Hin|]. split; [exact Hfile|exact Haction].
Defined.

(** ** C10: an assistant record before the first turn *)

Lemma digest_of_handoff (h : Host) (entries : list value) (sessionId : string)
    (v : value) :
  ExportContinue.extractHandoff h entries sessionId = Some v ->
  arrayField v "conversation_digest"
  = map ExportContinue.digestValue (digestFrom 0 entries).
Proof.
  intros H. apply extractHandoff_inv in H
    as (trm & startTs & endTs & acc & dg & k & pr & dur & us
        & _ & _ & _ & Hdg & _ & _ & _ & ->).
  apply digestLoop_from in Hdg. injection Hdg as -> _.
  unfold arrayField, ExportContinue.assemble. rewrite optProp_clone.
  cbn [firstDefined fst snd String.eqb Ascii.eqb Bool.eqb andb isUndef negb].
  rewrite JSON_clone_array. simpl. rewrite map_map. apply map_ext.
  intros d. reflexivity.
Qed.

Lemma nonEmpty_appendText (text piece : string) :
  Str.nonEmpty piece = true ->
  Str.nonEmpty (ExportContinue.appendText text piece) = true.
Proof.
  unfold ExportContinue.appendText. destruct text; [auto | reflexivity].
Qed.

(** The text of an assistant record is empty exactly when none of its
    text blocks holds more than white space. *)
Lemma assistantTexts_from (blocks : list value) :
  forall acc text,
    forEach
      (fun text block =>
         type ← prop block "type";
         if isStr type "text" then
           t ← ExportContinue.trimmedText block;
           if Str.nonEmpty t then Some (ExportContinue.appendText text t) else Some text
         else Some text)
      blocks acc = Some text ->
    Str.nonEmpty text = Str.nonEmpty acc || existsb saysSomething blocks.
Proof.
  induction blocks as [|b blocks IH]; intros acc text; cbn [forEach existsb].
  - intros [= <-]. rewrite orb_false_r. reflexivity.
  - unfold saysSomething at 1, ExportContinue.trimmedText.
    destruct (prop b "type") as [ty|] eqn:Ety; simpl; [|discriminate].
    apply prop_Some in Ety. subst ty.
    destruct (isStr (optProp b "type") "text"); simpl; [|apply IH].
    destruct (optProp b "text") as [| | | | |t| |]; simpl; try discriminate;
      try apply IH.
    destruct (Str.nonEmpty (Str.trim t)) eqn:Et; simpl; [|apply IH].
    intros H. apply IH in H. rewrite H, (nonEmpty_appendText acc _ Et), orb_true_r.
    reflexivity.
Qed.

(** The digest loop reads the text of every assistant record. *)
Lemma digestStep_reads (st st' : list ExportContinue.DigestEntry * Z) (a : value) :
  ExportContinue.digestStep st a = Some st' ->
  speaks a = true ->
  ExportContinue.assistantDigestText (blocksOf a) = Some (assistantText a).
Proof.
  destruct st as [d n]. unfold ExportContinue.digestStep, speaks, assistantText, blocksOf.
  destruct (ExportContinue.contentBlocks a) as [c|] eqn:Ec; simpl; [|discriminate].
  apply contentBlocks_spec in Ec. rewrite <- Ec. clear Ec.
  destruct c as [blocks|]; simpl; [|discriminate].
  destruct (ExportContinue.hasRole a "user") as [u|] eqn:Eu; simpl; [|discriminate].
  destruct (ExportContinue.hasRole a "assistant") as [r|] eqn:Ea; simpl; [|discriminate].
  apply hasRole_spec in Eu, Ea. subst u r.
  intros H Hrole. rewrite Hrole in H.
  destruct (isRole a "user") eqn:Eu;
    [apply isRole_exclusive in Eu; congruence|].
  simpl in H.
  destruct (ExportContinue.assistantDigestText blocks) as [t|]; [reflexivity|discriminate].
Qed.

(** C10 (as stated): the assistant record of this log stands before the
    first user record and its text is not empty, a space and a no-break
    space, yet the digest has no entry for it: [block.text?.trim()] is
    empty. *)
Lemma C10_blank_text :
  exists v,
    ExportContinue.extractHandoff sampleHost
      [record "assistant" "2026-01-01T09:59:00.000Z" [textBlock (" " +:+ nbsp)];
       record "user" "2026-01-01T10:00:00.000Z" [textBlock "Go on"]]
      "0a1b2c3d" = Some v
    /\ arrayField v "conversation_digest"
       = [VObj [("turn", VNum 1); ("role", VStr "user"); ("content", VStr "Go on")]].
Proof. eexists. split; vm_compute; reflexivity. Qed.

(** C10 (amended): an assistant record that stands before every genuine
    user record has an entry in the digest of the handoff exactly when
    one of its text blocks holds more than white space; the entry has
    the role [assistant], the turn 0 and, as content, the trimmed texts
    of the record joined and cut at 300 characters.  Without such a
    block the digest is that of the log without the record. *)
Theorem C10_assistant_before_first_turn (h : Host) (entries : list value)
    (sessionId : string) (v : value) (pre post : list value) (a : value) :
  ExportContinue.extractHandoff h entries sessionId = Some v ->
  entries = pre ++ a :: post ->
  countTurns pre = 0 ->
  speaks a = true ->
  if existsb saysSomething (blocksOf a)
  then Str.nonEmpty (assistantText a) = true
       /\ In (VObj [("turn", VNum 0); ("role", VStr "assistant");
                    ("content", VStr (truncated (assistantText a) 300))])
             (arrayField v "conversation_digest")
  else arrayField v "conversation_digest"
       = map ExportContinue.digestValue (digestFrom 0 (pre ++ post)).
Proof.
  intros H -> Hpre Ha.
  assert (Htext : Str.nonEmpty (assistantText a) = existsb saysSomething (blocksOf a)).
  { apply extractHandoff_inv in H
      as (trm & startTs & endTs & acc & dg & k & pr & dur & us
          & _ & _ & _ & Hdg & _).
    unfold ExportContinue.digestLoop in Hdg. rewrite forEach_app in Hdg.
    destruct (forEach ExportContinue.digestStep pre ([], 0)) as [st1|]; simpl in Hdg;
      [|discriminate].
    destruct (ExportContinue.digestStep st1 a) as [st2|] eqn:Estep; simpl in Hdg;
      [|discriminate].
    apply (digestStep_reads _ _ _ Estep) in Ha.
    apply assistantTexts_from in Ha. exact Ha. }
  rewrite (digest_of_handoff _ _ _ _ H), !digestFrom_app, Hpre. cbn [digestFrom].
  unfold segment. rewrite (speaks_not_user a Ha), Ha.
  unfold digestEntries. rewrite Htext.
  destruct (existsb saysSomething (blocksOf a)).
  - split; [reflexivity|].
    rewrite map_app, map_app. apply in_or_app. right. apply in_or_app. left.
    left. reflexivity.
  - reflexivity.
Qed.

(** A run of C10: the log starts with an assistant record. *)
Lemma C10_assistant_before_first_turn_witness :
  exists v,
    ExportContinue.extractHandoff sampleHost
      [record "assistant" "2026-01-01T09:59:00.000Z" [textBlock "Resuming."];
       record "user" "2026-01-01T10:00:00.000Z" [textBlock "Go on"]]
      "0a1b2c3d" = Some v
    /\ In (VObj [("turn", VNum 0); ("role", VStr "assistant");
                 ("content", VStr "Resuming.")])
          (arrayField v "conversation_digest").
Proof.
  eexists. split; [vm_compute; reflexivity|].
  apply (C10_assistant_before_first_turn sampleHost
           [record "assistant" "2026-01-01T09:59:00.000Z" [textBlock "Resuming."];
            record "user" "2026-01-01T10:00:00.000Z" [textBlock "Go on"]]
           "0a1b2c3d" _ []
           [record "user" "2026-01-01T10:00:00.000Z" [textBlock "Go on"]]
           (record "assistant" "2026-01-01T09:59:00.000Z" [textBlock "Resuming."]));
    vm_compute; reflexivity.
Defined.

(** ** [extractHandoff] returns on every well-formed log *)

(** A loop whose body returns on every state of an invariant, and keeps
    it, returns. *)
Lemma forEach_invariant {A S} (P : S -> Prop) (body : S -> A -> option S)
    (l : list A) :
  (forall s x, In x l -> P s -> exists s', body s x = Some s' /\ P s') ->
  forall s, P s -> exists s', forEach body l s = Some s' /\ P s'.
Proof.
  induction l as [|x l IH]; intros Hb s Hs; simpl.
  - exists s; split; [reflexivity | assumption].
  - destruct (Hb s x (or_introl eq_refl) Hs) as (s1 & -> & Hs1). simpl.
    apply IH; [|assumption].
    intros s2 y Hy; apply Hb; right; assumption.
Qed.

Lemma forEach_returns {A S} (body : S -> A -> option S) (l : list A) :
  (forall s x, In x l -> is_Some (body s x)) ->
  forall s, is_Some (forEach body l s).
Proof.
  intros Hb s.
  destruct (forEach_invariant (fun _ => True) body l) with (s := s)
    as (r & -> & _); [| exact I | eauto].
  intros s1 x Hx _. destruct (Hb s1 x Hx) as (s2 & ->). eauto.
Qed.

Lemma truncate_textual (v : value) (m : Z) :
  textual v = true -> is_Some (ExportContinue.truncate v m).
Proof.
  destruct v; simpl; try discriminate; intros _;
    unfold ExportContinue.truncate; simpl; eauto.
  destruct (Str.nonEmpty s); simpl; eauto.
  destruct (_ <=? _); eauto.
Qed.

Lemma shortPath_textual (h : Host) (v : value) :
  textual v = true -> is_Some (ExportContinue.shortPath h v).
Proof.
  intros Hv. unfold ExportContinue.shortPath.
  assert (Hs : exists s, asString (JS.or v (VStr "")) = Some s).
  { destruct v; simpl in *; try discriminate; unfold JS.or; simpl; eauto.
    destruct (Str.nonEmpty s); simpl; eauto. }
  destruct Hs as (s & ->). simpl.
  destruct (Str.startsWith _ _); eauto.
  destruct (Str.lastIndexOf _ _); eauto.
Qed.

Lemma contentOf_textual (result : option ExportContinue.ToolResult) :
  textual (ExportContinue.contentOf result) = true.
Proof. destruct result as [[[c|] e]|]; reflexivity. Qed.

Lemma textual_truthy (v : value) :
  textual v = true -> truthy v = true -> exists s, v = VStr s.
Proof. destruct v; simpl; try discriminate; eauto. Qed.

Section Returns.

Context (h : Host).

Variables (name input : value) (result : option ExportContinue.ToolResult).

Hypothesis Hinput : wellFormedInput h input = true.

Lemma wellFormedInput_field (k : string) :
  In k ["command"; "file_path"; "content"; "old_string"; "new_string"; "path"; "prompt"] ->
  textual (optProp input k) = true.
Proof.
  intros Hk. unfold wellFormedInput in Hinput. rewrite !andb_true_iff in Hinput.
  destruct Hinput as [[[Hf _] _] _].
  rewrite forallb_forall in Hf. apply Hf, Hk.
Qed.

Lemma wellFormedInput_pattern : stringable (optProp input "pattern") = true.
Proof.
  unfold wellFormedInput in Hinput. rewrite !andb_true_iff in Hinput.
  destruct Hinput as [[_ Hp] _]. exact Hp.
Qed.

Lemma wellFormedInput_todos : todoList (optProp input "todos") = true.
Proof.
  unfold wellFormedInput in Hinput. rewrite !andb_true_iff in Hinput.
  destruct Hinput as [[[_ Ht] _] _]. exact Ht.
Qed.

Lemma wellFormedInput_path (sp : string) :
  ExportContinue.shortPath h (optProp input "file_path") = Some sp ->
  inherited sp = false.
Proof.
  intros Hsp. unfold wellFormedInput in Hinput.
  apply andb_prop in Hinput as [_ Hp]. rewrite Hsp in Hp. simpl in Hp.
  destruct (inherited sp); [discriminate | reflexivity].
Qed.

Lemma errorEntry_returns : is_Some (ExportContinue.errorEntry h name input result).
Proof.
  unfold ExportContinue.errorEntry.
  destruct (ExportContinue.isErrorOf result); [|eauto].
  destruct (truncate_textual (ExportContinue.contentOf result) 300
              (contentOf_textual result)) as (e & ->). simpl.
  assert (Hs : is_Some
    (if isStr name "Bash" then ExportContinue.truncate (optProp input "command") 200
     else if isStr name "Read" || isStr name "Write" || isStr name "Edit"
          then ExportContinue.shortPath h (optProp input "file_path")
          else ExportContinue.truncate
                 (from_option VStr VUndef (JSON_stringify input)) 200)).
  { destruct (isStr name "Bash").
    - apply truncate_textual, wellFormedInput_field. simpl; tauto.
    - destruct (_ || _).
      + apply shortPath_textual, wellFormedInput_field. simpl; tauto.
      + apply truncate_textual. destruct (JSON_stringify input); reflexivity. }
  destruct Hs as (s & ->). simpl. eauto.
Qed.

Lemma fileStep_returns (fc : list (string * ExportContinue.Change)) (fr : list string) :
  is_Some (ExportContinue.fileStep h name input fc fr).
Proof.
  unfold ExportContinue.fileStep.
  destruct (shortPath_textual h (optProp input "file_path")) as (sp & Hsp).
  { apply wellFormedInput_field. simpl; tauto. }
  rewrite Hsp. simpl.
  pose proof (wellFormedInput_path sp Hsp) as Hown.
  assert (Hproto : String.eqb sp "__proto__" = false).
  { destruct (String.eqb_spec sp "__proto__") as [->|]; [discriminate | reflexivity]. }
  rewrite Hproto.
  destruct (isStr name "Write" && truthy (optProp input "file_path")).
  { destruct (truthy (optProp input "content")) eqn:Hc; simpl; [|eauto].
    destruct (textual_truthy (optProp input "content")) as (c & ->);
      [apply wellFormedInput_field; simpl; tauto | assumption |].
    simpl. eauto. }
  destruct (isStr name "Edit" && truthy (optProp input "file_path")).
  { destruct (negb _ && negb _); [|eauto].
    destruct (truncate_textual (optProp input "old_string") 200) as (r & ->);
      [apply wellFormedInput_field; simpl; tauto |].
    destruct (truncate_textual (optProp input "new_string") 200) as (a & ->);
      [apply wellFormedInput_field; simpl; tauto |].
    simpl. eauto. }
  destruct (isStr name "Read" && truthy (optProp input "file_path")); eauto.
Qed.

Lemma bashAction_returns : is_Some (ExportContinue.bashAction name input result).
Proof.
  unfold ExportContinue.bashAction.
  destruct (isStr name "Bash"); simpl; [|eauto].
  destruct (truthy (optProp input "command")) eqn:Hc; [|eauto].
  destruct (textual_truthy (optProp input "command")) as (c & ->);
    [apply wellFormedInput_field; simpl; tauto | assumption |].
  simpl. destruct (_ && _); [|eauto].
  rewrite truncate_total. simpl.
  destruct (ExportContinue.isErrorOf result); simpl; [eauto|].
  destruct (ExportContinue.contentOf result); simpl; eauto.
  destruct (Str.nonEmpty s); simpl; eauto.
  destruct (_ <=? _)%nat; simpl; eauto.
  rewrite truncate_total. simpl. eauto.
Qed.

(** The searches of a call have a key. *)
Lemma searchEntry_returns :
  exists srch,
    ExportContinue.searchEntry h name input result = Some srch
    /\ Forall (fun s => is_Some (ExportContinue.searchKey s)) srch.
Proof.
  unfold ExportContinue.searchEntry.
  destruct (shortPath_textual h (optProp input "path")) as (sp & Hsp).
  { apply wellFormedInput_field. simpl; tauto. }
  rewrite Hsp. simpl.
  assert (Hkey : forall t rest,
             is_Some (ExportContinue.searchKey
                        (VObj (("type", VStr t)
                                 :: ("pattern", optProp input "pattern") :: rest)))).
  { intros t rest. unfold ExportContinue.searchKey, stringOf. simpl.
    rewrite wellFormedInput_pattern. simpl. eauto. }
  destruct (isStr name "Grep").
  { destruct (truthy (optProp input "path")); simpl;
      (eexists; split; [reflexivity|]); repeat constructor; apply Hkey. }
  destruct (isStr name "Glob"); [|eexists; split; [reflexivity|constructor]].
  destruct (truthy (optProp input "path")); simpl;
    (eexists; split; [reflexivity|]); repeat constructor; apply Hkey.
Qed.

Lemma taskAction_returns : is_Some (ExportContinue.taskAction name input result).
Proof.
  unfold ExportContinue.taskAction.
  destruct (isStr name "Task"); [|eauto].
  destruct (truncate_textual
              (JS.or (optProp input "command") (optProp input "prompt")) 300)
    as (c & ->).
  { unfold JS.or. destruct (truthy _); apply wellFormedInput_field; simpl; tauto. }
  simpl.
  destruct (ExportContinue.contentOf result); simpl; eauto.
  destruct (Str.nonEmpty s); simpl; eauto.
  rewrite truncate_total. simpl. eauto.
Qed.

End Returns.

Lemma wellFormedBlock_spec (h : Host) (b : value) :
  wellFormedBlock h b = true ->
  nullish b = false
  /\ (isStr (optProp b "type") "text" = true -> exists s, optProp b "text" = VStr s)
  /\ (isStr (optProp b "type") "tool_use" = true ->
      wellFormedInput h (JS.or (optProp b "input") (VObj [])) = true)
  /\ stringable (optProp b "id") = true
  /\ plainId (optProp b "tool_use_id") = true.
Proof.
  unfold wellFormedBlock. rewrite !andb_true_iff.
  intros [[[[Hn Ht] Hu] Hi] Hp]. repeat split; try assumption.
  - destruct (nullish b); [discriminate | reflexivity].
  - intros E. rewrite E in Ht. destruct (optProp b "text"); try discriminate. eauto.
  - intros E. rewrite E in Hu. exact Hu.
Qed.

Lemma wellFormedBlock_defined (h : Host) (b : value) :
  wellFormedBlock h b = true -> nullish b = false.
Proof. intros H. apply (wellFormedBlock_spec h b H). Qed.

Lemma wellFormedBlock_text (h : Host) (b : value) :
  wellFormedBlock h b = true -> isStr (optProp b "type") "text" = true ->
  exists s, optProp b "text" = VStr s.
Proof. intros H. apply (wellFormedBlock_spec h b H). Qed.

Lemma wellFormedBlock_input (h : Host) (b : value) :
  wellFormedBlock h b = true -> isStr (optProp b "type") "tool_use" = true ->
  wellFormedInput h (JS.or (optProp b "input") (VObj [])) = true.
Proof. intros H. apply (wellFormedBlock_spec h b H). Qed.

(** A tool call of a well-formed block is recorded. *)
Lemma toolUse_returns (h : Host) (trm : gmap string ExportContinue.ToolResult)
    (acc : ExportContinue.Acc) (b : value) :
  wellFormedBlock h b = true -> collected acc ->
  exists acc', ExportContinue.toolUse h trm acc b = Some acc' /\ collected acc'.
Proof.
  intros Hb [Htodos Hsearches]. unfold ExportContinue.toolUse.
  destruct (wellFormedBlock_spec h b Hb) as (Hn & _ & Hin & Hid & _).
  rewrite (prop_defined b "type") by assumption. simpl.
  destruct (isStr (optProp b "type") "tool_use") eqn:Ht; simpl;
    [|eexists; split; [reflexivity | split; assumption]].
  specialize (Hin eq_refl). unfold stringOf. rewrite Hid. simpl.
  set (name := optProp b "name"). set (input := JS.or (optProp b "input") (VObj [])).
  fold input in Hin.
  set (result := trm !! ToString (optProp b "id")).
  destruct (errorEntry_returns h name input result Hin) as (e & ->).
  destruct (fileStep_returns h name input Hin
              (ExportContinue.fileChanges acc) (ExportContinue.filesRead acc))
    as (f & ->).
  destruct (bashAction_returns h name input result Hin) as (ba & ->).
  destruct (searchEntry_returns h name input result Hin) as (se & -> & Hse).
  destruct (taskAction_returns h name input result Hin) as (ta & ->).
  simpl. eexists; split; [reflexivity|]. split; simpl.
  - destruct (isStr name "TodoWrite" && truthy (optProp input "todos")); [|assumption].
    apply (wellFormedInput_todos h input Hin).
  - apply Forall_app. split; assumption.
Qed.

Lemma someToolResult_returns (blocks : list value) :
  Forall (fun b => nullish b = false) blocks ->
  is_Some (ExportContinue.someToolResult blocks).
Proof.
  induction 1 as [|b blocks Hb _ IH]; simpl; [eauto|].
  rewrite prop_defined by assumption. simpl.
  destruct (isStr _ _); eauto.
Qed.

Lemma userTexts_returns (h : Host) (blocks : list value) :
  forallb (wellFormedBlock h) blocks = true ->
  is_Some (ExportContinue.userTexts blocks).
Proof.
  intros Hbs. unfold ExportContinue.userTexts.
  apply forEach_returns. intros msgs b Hin. rewrite forallb_forall in Hbs. specialize (Hbs b Hin).
  rewrite prop_defined by (apply wellFormedBlock_defined with h, Hbs). simpl.
  destruct (isStr _ "text") eqn:Ht; [|eauto].
  destruct (wellFormedBlock_text h b Hbs Ht) as (s & ->). simpl.
  destruct (Str.nonEmpty _); [|eauto].
  rewrite truncate_total. simpl. eauto.
Qed.

Lemma userDigestText_returns (h : Host) (blocks : list value) :
  forallb (wellFormedBlock h) blocks = true ->
  is_Some (ExportContinue.userDigestText blocks).
Proof.
  intros Hbs. unfold ExportContinue.userDigestText.
  apply forEach_returns. intros text b Hin. rewrite forallb_forall in Hbs. specialize (Hbs b Hin).
  rewrite prop_defined by (apply wellFormedBlock_defined with h, Hbs). simpl.
  destruct (isStr _ "text") eqn:Ht; [|eauto].
  destruct (wellFormedBlock_text h b Hbs Ht) as (s & ->). simpl.
  destruct (Str.nonEmpty _); eauto.
Qed.

Lemma assistantDigestText_returns (h : Host) (blocks : list value) :
  forallb (wellFormedBlock h) blocks = true ->
  is_Some (ExportContinue.assistantDigestText blocks).
Proof.
  intros Hbs. unfold ExportContinue.assistantDigestText.
  apply forEach_returns. intros text b Hin. rewrite forallb_forall in Hbs. specialize (Hbs b Hin).
  rewrite prop_defined by (apply wellFormedBlock_defined with h, Hbs). simpl.
  destruct (isStr _ "text") eqn:Ht; [|eauto].
  unfold ExportContinue.trimmedText.
  destruct (wellFormedBlock_text h b Hbs Ht) as (s & ->). simpl.
  destruct (Str.nonEmpty _); eauto.
Qed.

Lemma pushDigest_returns (d : list ExportContinue.DigestEntry) (n : Z) (r t : string) :
  is_Some (ExportContinue.pushDigest d n r t).
Proof.
  unfold ExportContinue.pushDigest. destruct (Str.nonEmpty t); [|eauto].
  rewrite truncate_total. simpl. eauto.
Qed.

Lemma blocks_defined (h : Host) (blocks : list value) :
  forallb (wellFormedBlock h) blocks = true ->
  Forall (fun b => nullish b = false) blocks.
Proof.
  rewrite forallb_forall, Forall_forall. intros H b Hb.
  apply wellFormedBlock_defined with h, H, list_elem_of_In, Hb.
Qed.

Lemma collect_returns (h : Host) (trm : gmap string ExportContinue.ToolResult)
    (acc : ExportContinue.Acc) (e : value) :
  nullish e = false -> forallb (wellFormedBlock h) (blocksOf e) = true ->
  collected acc ->
  exists acc', ExportContinue.collect h trm acc e = Some acc' /\ collected acc'.
Proof.
  intros He Hbs Hacc.
  unfold ExportContinue.collect, ExportContinue.contentBlocks, ExportContinue.hasRole.
  rewrite !prop_defined by assumption. simpl.
  unfold blocksOf in Hbs.
  destruct (asArray (optProp (optProp e "message") "content")) as [blocks|];
    simpl in *; [|eauto].
  destruct (isStr (optProp e "type") "user"
            && isStr (optProp (optProp e "message") "role") "user").
  { destruct (someToolResult_returns blocks (blocks_defined h blocks Hbs)) as ([] & ->);
      simpl; [eauto|].
    destruct (userTexts_returns h blocks Hbs) as (msgs & ->). simpl. eauto. }
  destruct (isStr (optProp e "type") "assistant"
            && isStr (optProp (optProp e "message") "role") "assistant"); [|eauto].
  apply (forEach_invariant collected); [|assumption].
  intros a b Hb Ha. apply toolUse_returns; [|assumption].
  rewrite forallb_forall in Hbs. apply Hbs, Hb.
Qed.

Lemma digestStep_returns (h : Host) (st : list ExportContinue.DigestEntry * Z)
    (e : value) :
  nullish e = false -> forallb (wellFormedBlock h) (blocksOf e) = true ->
  is_Some (ExportContinue.digestStep st e).
Proof.
  intros He Hbs. destruct st as [d n].
  unfold ExportContinue.digestStep, ExportContinue.contentBlocks,
    ExportContinue.hasRole.
  rewrite !prop_defined by assumption. simpl.
  unfold blocksOf in Hbs.
  destruct (asArray (optProp (optProp e "message") "content")) as [blocks|];
    simpl in *; [|eauto].
  destruct (isStr (optProp e "type") "user"
            && isStr (optProp (optProp e "message") "role") "user").
  { destruct (someToolResult_returns blocks (blocks_defined h blocks Hbs)) as ([] & ->);
      simpl; [eauto|].
    destruct (userDigestText_returns h blocks Hbs) as (t & ->). simpl.
    destruct (pushDigest_returns d (n + 1) "user" t) as (d' & ->). simpl. eauto. }
  destruct (isStr (optProp e "type") "assistant"
            && isStr (optProp (optProp e "message") "role") "assistant"); [|eauto].
  destruct (assistantDigestText_returns h blocks Hbs) as (t & ->). simpl.
  destruct (pushDigest_returns d n "assistant" t) as (d' & ->). simpl. eauto.
Qed.

Lemma progressOf_returns (todos : value) :
  todoList todos = true -> is_Some (ExportContinue.progressOf todos).
Proof.
  intros Ht. unfold ExportContinue.progressOf.
  destruct (truthy todos) eqn:Htr; [|eauto].
  destruct todos; simpl in Ht, Htr; try congruence;
    try (rewrite Htr in Ht; discriminate).
  simpl.
  apply forEach_returns. intros p t Hin. rewrite forallb_forall in Ht. specialize (Ht t Hin).
  rewrite prop_defined by (destruct (nullish t); [discriminate | reflexivity]).
  simpl. destruct (isStr _ "completed"); [eauto|].
  destruct (isStr _ "in_progress"); eauto.
Qed.

Lemma wellFormed_record (h : Host) (entries : list value) (e : value) :
  wellFormed h entries = true -> In e entries ->
  nullish e = false /\ stringable (optProp e "timestamp") = true
  /\ forallb (wellFormedBlock h) (blocksOf e) = true.
Proof.
  unfold wellFormed. rewrite forallb_forall. intros H He. specialize (H e He).
  rewrite !andb_true_iff in H. destruct H as [[Hn Ht] Hbs].
  repeat split; try assumption. destruct (nullish e); [discriminate | reflexivity].
Qed.

Lemma wellFormed_noNulls (h : Host) (entries : list value) :
  wellFormed h entries = true -> noNulls entries.
Proof.
  intros H. unfold noNulls. rewrite Forall_forall. intros e He.
  destruct (wellFormed_record h entries e H (proj1 (list_elem_of_In _ _) He))
    as (Hn & _ & Hbs).
  split; [assumption | apply blocks_defined with h, Hbs].
Qed.

Lemma wellFormed_plainIds (h : Host) (entries : list value) :
  wellFormed h entries = true -> plainIds entries.
Proof.
  intros H. unfold plainIds. rewrite Forall_forall. intros e He.
  destruct (wellFormed_record h entries e H (proj1 (list_elem_of_In _ _) He))
    as (_ & _ & Hbs).
  rewrite Forall_forall. intros b Hb. rewrite forallb_forall in Hbs.
  apply (wellFormedBlock_spec h b (Hbs b (proj1 (list_elem_of_In _ _) Hb))).
Qed.

(** The first and the last timestamp of a well-formed log are values
    [String] accepts. *)
Lemma timestamps_returns (h : Host) (entries : list value) :
  wellFormed h entries = true ->
  exists ts, ExportContinue.timestamps entries = Some ts
             /\ stringable (fst ts) = true /\ stringable (snd ts) = true.
Proof.
  intros Hwf. unfold ExportContinue.timestamps.
  apply (forEach_invariant
           (fun st : value * value =>
              stringable (fst st) = true /\ stringable (snd st) = true));
    [|split; reflexivity].
  intros st e Hin [H1 H2].
  destruct (wellFormed_record h entries e Hwf Hin) as (Hn & Ht & _).
  rewrite prop_defined by assumption. simpl.
  destruct (truthy (optProp e "timestamp")).
  - eexists; split; [reflexivity|]. simpl.
    destruct (truthy (fst st)); split; assumption.
  - eexists; split; [reflexivity|]. split; assumption.
Qed.

Lemma dedupe_returns (searches : list value) :
  Forall (fun s => is_Some (ExportContinue.searchKey s)) searches ->
  is_Some (ExportContinue.dedupe searches).
Proof.
  intros Hs. unfold ExportContinue.dedupe.
  destruct (forEach_returns ExportContinue.dedupeStep searches)
    with (s := ((∅ : gset string), @nil value)) as (st & ->); [|simpl; eauto].
  intros [seen u] s Hin. rewrite Forall_forall in Hs.
  destruct (Hs s (proj2 (list_elem_of_In _ _) Hin)) as (key & Hkey).
  unfold ExportContinue.dedupeStep. rewrite Hkey. simpl.
  destruct (decide (key ∈ seen)); eauto.
Qed.

(** The digest loop returns on a well-formed log. *)
Lemma digestLoop_returns (h : Host) (entries : list value) :
  wellFormed h entries = true -> is_Some (ExportContinue.digestLoop entries).
Proof.
  intros Hwf. unfold ExportContinue.digestLoop. apply forEach_returns.
  intros st e Hin. destruct (wellFormed_record h entries e Hwf Hin) as (? & _ & ?).
  apply digestStep_returns with h; assumption.
Qed.

Lemma durationMin_returns (h : Host) (startTs endTs : value) :
  stringable startTs = true -> stringable endTs = true ->
  is_Some (ExportContinue.durationMin h startTs endTs).
Proof.
  intros Hs He. unfold ExportContinue.durationMin. rewrite Hs, He. simpl.
  destruct (truthy startTs && truthy endTs); eauto.
Qed.

Lemma extractHandoff_defined (h : Host) (entries : list value) (sessionId : string) :
  wellFormed h entries = true ->
  is_Some (ExportContinue.extractHandoff h entries sessionId).
Proof.
  intros Hwf. pose proof (wellFormed_noNulls h entries Hwf) as Hn.
  unfold ExportContinue.extractHandoff, ExportContinue.buildToolResultMap.
  rewrite (buildToolResultMap_from entries Hn (wellFormed_plainIds h entries Hwf)).
  simpl.
  destruct (timestamps_returns h entries Hwf) as (ts & -> & Hs & He). simpl.
  destruct (durationMin_returns h (fst ts) (snd ts) Hs He) as (dur & ->). simpl.
  destruct (forEach_invariant collected
              (ExportContinue.collect h (foldl putOutcome ∅ (outcomes entries)))
              entries) with (s := ExportContinue.emptyAcc)
    as (acc & -> & Htodos & Hsearches); [| split; [reflexivity | constructor] |].
  { intros a e Hin Ha. destruct (wellFormed_record h entries e Hwf Hin) as (? & _ & ?).
    apply collect_returns; assumption. }
  simpl. destruct (digestLoop_returns h entries Hwf) as (dg & ->).
  simpl. destruct (progressOf_returns _ Htodos) as (p & ->). simpl.
  destruct (dedupe_returns _ Hsearches) as (us & ->). simpl. eauto.
Qed.

(** X1: on a well-formed log (its records are objects with a
    timestamp [String] accepts; its content blocks are objects, the
    text of a text block a string, the fields of a tool input that
    the handoff reads strings when present, its todos an array of
    objects, and the ids keys of a dictionary) [extractHandoff]
    returns a handoff, whatever the host answers. *)
Theorem extractHandoff_returns (h : Host) (entries : list value) (sessionId : string) :
  wellFormed h entries = true ->
  exists fields,
    ExportContinue.extractHandoff h entries sessionId = Some (VObj fields).
Proof.
  intros Hwf.
  destruct (extractHandoff_defined h entries sessionId Hwf) as [v Hv].
  pose proof Hv as Hinv. apply extractHandoff_inv in Hinv
    as (trm & startTs & endTs & acc & dg & k & pr & dur & us & _ & _ & _ & _ & _ & _ & _
        & Heq).
  rewrite Hv, Heq. eexists. reflexivity.
Qed.

(** A run of X1: the sample log is well-formed. *)
Lemma extractHandoff_returns_sample :
  exists fields,
    ExportContinue.extractHandoff sampleHost sampleLog "0a1b2c3d" = Some (VObj fields).
Proof. apply extractHandoff_returns. vm_compute. reflexivity. Defined.

(* ================================================================== *)
(** * Further properties *)
(* ================================================================== *)

(** ** Strings *)

Lemma prefix_append (p s : string) : String.prefix p (p +:+ s) = true.
Proof.
  induction p as [|c p IH]; simpl; [destruct s; reflexivity|].
  destruct (ascii_dec c c); [exact IH | contradiction].
Qed.

Lemma append_assoc (a b c : string) : (a +:+ b) +:+ c = a +:+ (b +:+ c).
Proof.
  induction a as [|d a IH]; [reflexivity|].
  change (String d ((a +:+ b) +:+ c) = String d (a +:+ (b +:+ c))).
  rewrite IH. reflexivity.
Qed.

Lemma prefix_head (a b : ascii) (p s : string) :
  a <> b -> String.prefix (String a p) (String b s) = false.
Proof. intros H. simpl. destruct (ascii_dec a b); [contradiction | reflexivity]. Qed.

Lemma contains_append (c : ascii) (a b : string) :
  Str.contains c (a +:+ b) = Str.contains c a || Str.contains c b.
Proof.
  induction a as [|d a IH]; simpl; [reflexivity|].
  rewrite IH, orb_assoc. reflexivity.
Qed.

Lemma contains_drop (c : ascii) (n : nat) (s : string) :
  Str.contains c s = false -> Str.contains c (Str.drop n s) = false.
Proof.
  revert s; induction n as [|n IH]; intros [|d s]; simpl; auto.
  intros H. apply orb_false_elim in H as [_ H]. apply IH, H.
Qed.

Lemma contains_take (c : ascii) (n : nat) (s : string) :
  Str.contains c s = false -> Str.contains c (Str.take n s) = false.
Proof.
  revert s; induction n as [|n IH]; intros [|d s]; simpl; auto.
  intros H. apply orb_false_elim in H as [H1 H2]. rewrite H1. apply IH, H2.
Qed.

Lemma eqb_ascii_neq (a b : ascii) : Ascii.eqb a b = false -> a <> b.
Proof. intros H ->. rewrite Ascii.eqb_refl in H. discriminate. Qed.

Lemma length_mapChars (f : ascii -> ascii) (s : string) :
  String.length (Str.mapChars f s) = String.length s.
Proof. induction s as [|c s IH]; simpl; auto. Qed.

Lemma mapChars_append (f : ascii -> ascii) (a b : string) :
  Str.mapChars f (a +:+ b) = Str.mapChars f a +:+ Str.mapChars f b.
Proof. induction a as [|c a IH]; simpl; [reflexivity|]. rewrite IH. reflexivity. Qed.

(** A line without the separator is one piece. *)
Lemma split_plain (c : ascii) (s : string) :
  Str.contains c s = false -> Str.split c s = [s].
Proof.
  induction s as [|d s IH]; simpl; [reflexivity|].
  intros H. apply orb_false_elim in H as [H1 H2].
  rewrite H1, (IH H2). reflexivity.
Qed.

(** The pieces of a split do not hold the separator. *)
Lemma split_pieces (c : ascii) (s : string) :
  Forall (fun l => Str.contains c l = false) (Str.split c s).
Proof.
  induction s as [|d s IH]; simpl; [repeat constructor|].
  destruct (Ascii.eqb d c) eqn:E; [constructor; [reflexivity | exact IH]|].
  destruct (Str.split c s) as [|l ls]; [repeat constructor; simpl; rewrite E; reflexivity|].
  inversion IH as [|? ? Hl Hls]; subst. constructor; [|exact Hls].
  simpl. rewrite E, Hl. reflexivity.
Qed.

(** [split] undoes [join] on pieces without the separator. *)
Lemma split_join (c : ascii) (l : list string) :
  l <> [] -> Forall (fun x => Str.contains c x = false) l ->
  Str.split c (Str.join (String c "") l) = l.
Proof.
  induction l as [|a l IH]; [congruence|]. intros _ Hl.
  inversion Hl as [|? ? Ha Hl']; subst.
  destruct l as [|b l]; [simpl; apply split_plain, Ha|].
  change (Str.join (String c "") (a :: b :: l))
    with (a +:+ String c (Str.join (String c "") (b :: l))).
  rewrite split_append, (split_plain c a Ha), IH by (assumption || discriminate).
  reflexivity.
Qed.

(** [join] undoes [split]. *)
Lemma join_split (c : ascii) (s : string) :
  Str.join (String c "") (Str.split c s) = s.
Proof.
  induction s as [|d s IH]; simpl; [reflexivity|].
  destruct (Ascii.eqb d c) eqn:E.
  - apply Ascii.eqb_eq in E. subst d.
    destruct (Str.split c s) as [|l ls] eqn:Es; [destruct (split_nonempty c s Es)|].
    change (Str.join (String c "") ("" :: l :: ls))
      with ("" +:+ String c (Str.join (String c "") (l :: ls))).
    rewrite IH. reflexivity.
  - destruct (Str.split c s) as [|l ls] eqn:Es; [destruct (split_nonempty c s Es)|].
    destruct ls as [|l' ls]; simpl in *; rewrite <- IH; reflexivity.
Qed.

(** The first occurrence of a text whose first character is not in
    what comes before it. *)
Lemma indexOf_after (c : ascii) (cl x t : string) :
  Str.contains c x = false ->
  Str.indexOf (String c cl) (x +:+ String c cl +:+ t) = Some (String.length x).
Proof.
  induction x as [|d x IH]; intros H.
  - change ("" +:+ String c cl +:+ t) with (String c cl +:+ t).
    destruct (String c cl +:+ t) eqn:E; [discriminate|].
    cbn [Str.indexOf]. rewrite <- E, prefix_append. reflexivity.
  - simpl in H. apply orb_false_elim in H as [Hc Hx].
    change (String d x +:+ String c cl +:+ t)
      with (String d (x +:+ String c cl +:+ t)).
    cbn [Str.indexOf].
    rewrite (prefix_head c d) by (intros <-; rewrite Ascii.eqb_refl in Hc; discriminate).
    rewrite (IH Hx). reflexivity.
Qed.

Lemma prefix_split (p s : string) :
  String.prefix p s = true -> exists t, s = p +:+ t.
Proof.
  revert s; induction p as [|c p IH]; intros s H; [exists s; reflexivity|].
  destruct s as [|d s]; [discriminate|]. simpl in H.
  destruct (ascii_dec c d) as [->|]; [|discriminate].
  destruct (IH s H) as [t ->]. exists t. reflexivity.
Qed.

Lemma prefix_length (p s : string) :
  String.prefix p s = true -> (String.length p <= String.length s)%nat.
Proof.
  intros H. apply prefix_split in H as [t ->]. rewrite length_append. lia.
Qed.

Lemma prefix_refl (s : string) : String.prefix s s = true.
Proof.
  induction s as [|c s IH]; [reflexivity|]. simpl.
  destruct (ascii_dec c c); [exact IH | contradiction].
Qed.

Lemma append_empty (s : string) : s +:+ "" = s.
Proof.
  induction s as [|c s IH]; [reflexivity|].
  change (String c (s +:+ "") = String c s). rewrite IH. reflexivity.
Qed.

(** ** [rev] and [endsWith] *)

Lemma rev_onto_append (a b acc : string) :
  Str.rev_onto (a +:+ b) acc = Str.rev_onto b (Str.rev_onto a acc).
Proof.
  revert acc; induction a as [|c a IH]; intros acc; [reflexivity|].
  change (Str.rev_onto (a +:+ b) (String c acc)
          = Str.rev_onto b (Str.rev_onto a (String c acc))).
  apply IH.
Qed.

Lemma rev_onto_spec (s acc : string) : Str.rev_onto s acc = Str.rev s +:+ acc.
Proof.
  unfold Str.rev. revert acc; induction s as [|c s IH]; intros acc; [reflexivity|].
  cbn [Str.rev_onto]. rewrite (IH (String c acc)), (IH (String c "")).
  rewrite append_assoc. reflexivity.
Qed.

Lemma rev_append (a b : string) : Str.rev (a +:+ b) = Str.rev b +:+ Str.rev a.
Proof.
  unfold Str.rev at 1. rewrite rev_onto_append. apply rev_onto_spec.
Qed.

Lemma contains_rev (c : ascii) (s : string) :
  Str.contains c (Str.rev s) = Str.contains c s.
Proof.
  unfold Str.rev.
  assert (H : forall acc, Str.contains c (Str.rev_onto s acc)
                          = Str.contains c s || Str.contains c acc).
  { induction s as [|d s IH]; intros acc; [reflexivity|].
    cbn [Str.rev_onto Str.contains]. rewrite IH. cbn [Str.contains].
    destruct (Ascii.eqb d c), (Str.contains c s), (Str.contains c acc); reflexivity. }
  rewrite H. apply orb_false_r.
Qed.

Lemma endsWith_append (s p : string) : Str.endsWith (s +:+ p) p = true.
Proof. unfold Str.endsWith. rewrite rev_append. apply prefix_append. Qed.

(** A string that ends with [p] holds the characters of [p]. *)
Lemma endsWith_contains (c : ascii) (s p : string) :
  Str.contains c p = true -> Str.endsWith s p = true -> Str.contains c s = true.
Proof.
  unfold Str.endsWith. intros Hp H. apply prefix_split in H as [t Ht].
  rewrite <- (contains_rev c s), Ht, contains_append, contains_rev, Hp. reflexivity.
Qed.

Lemma mapChars_id (f : ascii -> ascii) (s : string) :
  (forall c, Str.contains c s = true -> f c = c) -> Str.mapChars f s = s.
Proof.
  induction s as [|d s IH]; intros H; [reflexivity|]. simpl.
  rewrite (H d) by (simpl; rewrite Ascii.eqb_refl; reflexivity).
  rewrite IH; [reflexivity|].
  intros c Hc. apply H. simpl. rewrite Hc. apply orb_true_r.
Qed.

(** A character that the map never writes is not in its result. *)
Lemma contains_mapChars (f : ascii -> ascii) (c : ascii) (s : string) :
  (forall d, Str.contains d s = true -> f d <> c) ->
  Str.contains c (Str.mapChars f s) = false.
Proof.
  induction s as [|d s IH]; intros H; [reflexivity|]. simpl.
  rewrite IH by (intros e He; apply H; simpl; rewrite He; apply orb_true_r).
  rewrite orb_false_r. apply Ascii.eqb_neq, H. simpl. rewrite Ascii.eqb_refl. reflexivity.
Qed.

(** ** The helpers: [truncate], [stripSystemTags], [shortPath] *)

(** X2: [truncate] counts as JavaScript does, in UTF-16 code units.
    With a budget [m] that is not negative it returns a text of at most
    [m] code units itself, and of a longer text the first [m] code units
    followed by the ellipsis [...]: [m + 3] code units in all, of which
    the first [m] are those of the text. *)
Theorem truncate_keeps_prefix (s : string) (m : Z) :
  0 <= m ->
  exists r,
    ExportContinue.truncate (VStr s) m = Some r
    /\ (Z.of_nat (Str.length s) <= m -> r = s)
    /\ (m < Z.of_nat (Str.length s) ->
        r = Str.substring s 0 m +:+ "..."
        /\ Z.of_nat (Str.length (Str.substring s 0 m)) = m
        /\ Z.of_nat (Str.length r) = m + 3
        /\ Str.substring r 0 m = Str.substring s 0 m).
Proof.
  intros Hm. rewrite truncate_string.
  destruct (Z.leb_spec (Z.of_nat (Str.length s)) m) as [Hle|Hgt].
  - rewrite orb_true_r. exists s.
    split; [reflexivity|]. split; [reflexivity | lia].
  - assert (Hne : Str.nonEmpty s = true) by (destruct s; [simpl in Hgt; lia | reflexivity]).
    rewrite Hne. cbn [negb orb]. eexists. split; [reflexivity|]. split; [lia|].
    intros _. rewrite (substring_0 s m) by lia.
    assert (Hlen : Z.of_nat (Str.length (Str.takeUnits (Z.to_nat m) s)) = m)
      by (rewrite length_takeUnits; lia).
    split; [reflexivity|]. split; [exact Hlen|]. split.
    + rewrite units_length_append. change (Str.length "...") with 3%nat. lia.
    + rewrite substring_0
        by (rewrite units_length_append; change (Str.length "...") with 3%nat; lia).
      apply takeUnits_prefix; [lia | reflexivity].
Qed.

(** A run of X2 on a text of eleven characters in thirteen bytes. *)
Lemma truncate_keeps_prefix_witness :
  exists r,
    ExportContinue.truncate (VStr "héllo wörld") 5 = Some r
    /\ r = "héllo..."
    /\ Z.of_nat (Str.length r) = 8.
Proof.
  destruct (truncate_keeps_prefix "héllo wörld" 5 ltac:(lia)) as (r & Hr & _ & Hl).
  destruct Hl as (Hcut & _ & Hlen & _); [vm_compute; reflexivity|].
  exists r. split; [exact Hr|]. split; [rewrite Hcut; vm_compute; reflexivity | exact Hlen].
Defined.

(** A pass of [stripSystemTags] leaves a text without [<] alone. *)
Lemma removeEnclosed_plain (op cl s : string) :
  Str.contains "<" s = false ->
  ExportContinue.removeEnclosed (String "<" op) cl 0 s = s.
Proof.
  induction s as [|c s IH]; [reflexivity|]. intros H.
  simpl in H. apply orb_false_elim in H as [Hc Hs].
  cbn [ExportContinue.removeEnclosed].
  rewrite (prefix_head "<" c) by (intros <-; discriminate).
  rewrite (IH Hs). reflexivity.
Qed.

Lemma removeTag_plain (tag s : string) :
  Str.contains "<" s = false -> ExportContinue.removeTag tag s = s.
Proof. intros H. unfold ExportContinue.removeTag. apply removeEnclosed_plain, H. Qed.

(** Characters still to drop are dropped whatever they are. *)
Lemma removeEnclosed_skip (op cl : string) (n : nat) (s : string) :
  ExportContinue.removeEnclosed op cl n s
  = ExportContinue.removeEnclosed op cl 0 (Str.drop n s).
Proof.
  revert s; induction n as [|n IH]; intros s; [destruct s; reflexivity|].
  destruct s as [|c s]; [reflexivity|]. cbn [ExportContinue.removeEnclosed Str.drop].
  apply IH.
Qed.

(** An enclosed piece that opens the text is removed with its body. *)
Lemma removeEnclosed_first (op cl x t : string) :
  Str.contains "<" x = false ->
  Str.contains "<" t = false ->
  ExportContinue.removeEnclosed (String "<" op) (String "<" cl) 0
    (String "<" op +:+ x +:+ String "<" cl +:+ t) = t.
Proof.
  intros Hx Ht.
  assert (Hunfold : forall c s',
    String.prefix (String "<" op) (String c s') = true ->
    ExportContinue.removeEnclosed (String "<" op) (String "<" cl) 0 (String c s')
    = match Str.indexOf (String "<" cl)
              (Str.drop (String.length (String "<" op)) (String c s')) with
      | Some j =>
          ExportContinue.removeEnclosed (String "<" op) (String "<" cl)
            (String.length (String "<" op) + j + String.length (String "<" cl) - 1) s'
      | None => String c (ExportContinue.removeEnclosed (String "<" op) (String "<" cl) 0 s')
      end).
  { intros c s' Hp. cbn [ExportContinue.removeEnclosed]. rewrite Hp. reflexivity. }
  assert (Hshape : String "<" op +:+ x +:+ String "<" cl +:+ t
                   = String "<" (op +:+ x +:+ String "<" cl +:+ t)) by reflexivity.
  rewrite Hshape at 1. rewrite Hunfold by (rewrite <- Hshape; apply prefix_append).
  rewrite <- Hshape, drop_past, (indexOf_after "<" cl x t Hx).
  rewrite removeEnclosed_skip.
  replace (Str.drop (String.length (String "<" op) + String.length x
                     + String.length (String "<" cl) - 1)
             (op +:+ x +:+ String "<" cl +:+ t))
    with t; [apply removeEnclosed_plain, Ht|].
  replace (String.length (String "<" op) + String.length x
           + String.length (String "<" cl) - 1)%nat
    with (String.length (op +:+ x +:+ String "<" cl))%nat
    by (rewrite !length_append; cbn [String.length]; lia).
  rewrite <- (append_assoc x (String "<" cl) t).
  rewrite <- (append_assoc op (x +:+ String "<" cl) t).
  symmetry. apply drop_past.
Qed.

(** X3: [stripSystemTags] only trims a text that holds no [<], and it
    removes a system reminder that opens the text, with its body, when
    neither the body nor the rest of the text holds a [<]. *)
Theorem stripSystemTags_plain_text (x t : string) :
  Str.contains "<" t = false ->
  ExportContinue.stripSystemTags t = Str.trim t
  /\ (Str.contains "<" x = false ->
      ExportContinue.stripSystemTags
        ("<system-reminder>" +:+ x +:+ "</system-reminder>" +:+ t)
      = Str.trim t).
Proof.
  intros Ht. unfold ExportContinue.stripSystemTags. split.
  - rewrite !(fun tag => removeTag_plain tag t Ht). reflexivity.
  - intros Hx.
    rewrite (removeEnclosed_first "system-reminder>" "/system-reminder>" x t Hx Ht
             : ExportContinue.removeTag "system-reminder" _ = t).
    rewrite !(fun tag => removeTag_plain tag t Ht). reflexivity.
Qed.

Lemma stripSystemTags_plain_text_witness :
  ExportContinue.stripSystemTags (nbsp +:+ " Fix the login bug " +:+ bom)
  = "Fix the login bug"
  /\ ExportContinue.stripSystemTags
       ("<system-reminder>" +:+ "be brief" +:+ "</system-reminder>"
          +:+ nbsp +:+ " Fix the login bug " +:+ bom)
     = "Fix the login bug".
Proof.
  destruct (stripSystemTags_plain_text "be brief"
              (nbsp +:+ " Fix the login bug " +:+ bom) eq_refl)
    as [H1 H2].
  split; [exact H1 | exact (H2 eq_refl)].
Defined.

Lemma backslashesToSlashes_append (a b : string) :
  Str.backslashesToSlashes (a +:+ b)
  = Str.backslashesToSlashes a +:+ Str.backslashesToSlashes b.
Proof.
  induction a as [|c a IH]; [reflexivity|].
  change (Str.backslashesToSlashes (String c (a +:+ b))
          = String (if Ascii.eqb c "\" then "/"%char else c)
              (Str.backslashesToSlashes a +:+ Str.backslashesToSlashes b)).
  cbn [Str.backslashesToSlashes]. rewrite IH. reflexivity.
Qed.

Lemma length_backslashesToSlashes (s : string) :
  Str.length (Str.backslashesToSlashes s) = Str.length s.
Proof.
  induction s as [|c s IH]; [reflexivity|].
  cbn [Str.backslashesToSlashes Str.length]. rewrite IH. f_equal.
  destruct (Ascii.eqb_spec c "\") as [->|_]; reflexivity.
Qed.

Lemma backslashesToSlashes_none (s : string) :
  Str.contains "\" (Str.backslashesToSlashes s) = false.
Proof.
  induction s as [|c s IH]; [reflexivity|]. cbn [Str.backslashesToSlashes Str.contains].
  rewrite IH, orb_false_r. destruct (Ascii.eqb c "\") eqn:E; [reflexivity | exact E].
Qed.

Lemma contains_skipCont (c : ascii) (k : nat) (s : string) :
  Str.contains c s = false -> Str.contains c (Str.skipCont k s) = false.
Proof.
  revert s; induction k as [|k IH]; intros [|d s] H; try exact H.
  cbn [Str.skipCont]. destruct (Str.isCont d); [|exact H].
  apply IH. simpl in H. apply orb_false_elim in H as [_ H]. exact H.
Qed.

Lemma contains_lowHalf (b2 b3 : ascii) : Str.contains "\" (Str.lowHalf b2 b3) = false.
Proof.
  destruct b2 as [q0 q1 q2 q3 q4 q5 q6 q7], b3 as [r0 r1 r2 r3 r4 r5 r6 r7].
  unfold Str.lowHalf. cbn [Str.contains].
  destruct q0, q1, q2, q3; destruct r0, r1, r2, r3, r4, r5; reflexivity.
Qed.

(** A backslash is one byte: a cut leaves none behind that was not
    there. *)
Lemma contains_dropUnits (n : nat) (s : string) :
  Str.contains "\" s = false -> Str.contains "\" (Str.dropUnits n s) = false.
Proof.
  revert n; induction s as [|d s IH]; intros [|n] H; try exact H.
  assert (Hs : Str.contains "\" s = false)
    by (simpl in H; apply orb_false_elim in H as [_ H]; exact H).
  cbn [Str.dropUnits]. destruct (Str.isCont d); [apply IH, Hs|].
  destruct (Str.units d <=? S n)%nat.
  - destruct (S n - Str.units d)%nat; [apply contains_skipCont, Hs | apply IH, Hs].
  - rewrite contains_append, contains_lowHalf. apply contains_skipCont, Hs.
Qed.

Lemma shortPath_no_backslash (h : Host) (fp : value) (r : string) :
  ExportContinue.shortPath h fp = Some r -> Str.contains "\" r = false.
Proof.
  unfold ExportContinue.shortPath.
  destruct (asString (JS.or fp (VStr ""))) as [s|]; simpl; [|discriminate].
  pose proof (backslashesToSlashes_none s) as Hs.
  destruct (Str.startsWith _ _).
  - intros [= <-]. apply contains_dropUnits, Hs.
  - destruct (Str.lastIndexOf _ _); intros [= <-]; [apply contains_dropUnits, Hs | exact Hs].
Qed.

(** X4: [shortPath] never returns a path with a backslash, and a path
    under the project root comes back relative to the root, with
    slashes for its backslashes. *)
Theorem shortPath_under_root (h : Host) (rel : string) :
  (forall fp r, ExportContinue.shortPath h fp = Some r -> Str.contains "\" r = false)
  /\ ExportContinue.shortPath h (VStr (PROJECT_ROOT h +:+ "/" +:+ rel))
     = Some (Str.backslashesToSlashes rel).
Proof.
  split; [apply shortPath_no_backslash|].
  unfold ExportContinue.shortPath.
  assert (Hor : JS.or (VStr (PROJECT_ROOT h +:+ "/" +:+ rel)) (VStr "")
                = VStr (PROJECT_ROOT h +:+ "/" +:+ rel))
    by (destruct (PROJECT_ROOT h); reflexivity).
  rewrite Hor. cbn [asString mbind option_bind].
  rewrite backslashesToSlashes_append.
  unfold Str.startsWith. rewrite prefix_append.
  f_equal. unfold Str.substringFrom.
  rewrite length_backslashesToSlashes.
  replace (Z.to_nat (Z.max 0 (Z.of_nat (Str.length (PROJECT_ROOT h)) + 1)))
    with (Str.length (Str.backslashesToSlashes (PROJECT_ROOT h)) + 1)%nat
    by (rewrite length_backslashesToSlashes; lia).
  rewrite backslashesToSlashes_append.
  change (Str.backslashesToSlashes "/") with "/".
  apply (dropUnits_past _ ("/" +:+ Str.backslashesToSlashes rel) 0).
Qed.

Lemma last_In {A : Type} (l : list A) (d : A) : l <> [] -> In (List.last l d) l.
Proof.
  induction l as [|a [|b l] IH]; intros H; [contradiction | left; reflexivity |].
  right. apply IH. discriminate.
Qed.

(** X5: for a path that is a string, [getFileExt] returns a string
    that is not empty and holds no dot; it is the whole path when the
    path holds no dot and is not empty, and [text] when the path is
    empty. *)
Theorem getFileExt_no_dot (p : string) :
  exists ext,
    ExportChat.getFileExt (VStr p) = Some ext
    /\ Str.nonEmpty ext = true
    /\ Str.contains "." ext = false
    /\ (Str.contains "." p = false -> ext = if Str.nonEmpty p then p else "text").
Proof.
  unfold ExportChat.getFileExt.
  assert (Hor : asString (JS.or (VStr p) (VStr "")) = Some p)
    by (destruct p; reflexivity).
  rewrite Hor. cbn [mbind option_bind].
  eexists. split; [reflexivity|].
  pose proof (split_pieces "." p) as Hpieces.
  assert (Hlast : Str.contains "." (List.last (Str.split "." p) "") = false).
  { destruct (Str.split "." p) as [|l ls] eqn:E; [reflexivity|].
    rewrite Forall_forall in Hpieces. apply Hpieces.
    apply list_elem_of_In, last_In. discriminate. }
  destruct (Str.nonEmpty (List.last (Str.split "." p) "")) eqn:Ene.
  - split; [exact Ene|]. split; [exact Hlast|].
    intros Hp. rewrite (split_plain "." p Hp) in *. simpl in *. rewrite Ene. reflexivity.
  - split; [reflexivity|]. split; [reflexivity|].
    intros Hp. rewrite (split_plain "." p Hp) in *. simpl in *. rewrite Ene. reflexivity.
Qed.

(** ** [truncateLines] *)

Lemma ofZ_one_line (n : Z) : Str.contains Str.newline (Str.ofZ n) = false.
Proof.
  unfold Str.ofZ.
  assert (Hs : forall d, Str.contains Str.newline (NilEmpty.string_of_uint d) = false).
  { induction d; simpl; auto. }
  assert (Hu : forall d, Str.contains Str.newline (NilZero.string_of_uint d) = false).
  { intros d. unfold NilZero.string_of_uint. destruct d; try apply Hs. reflexivity. }
  destruct (Z.to_int n); simpl; apply Hu.
Qed.

Lemma join_app_one (sep : string) (l : list string) (x : string) :
  l <> [] -> Str.join sep (l ++ [x]) = Str.join sep l +:+ sep +:+ x.
Proof.
  induction l as [|a l IH]; [congruence|]. intros _.
  destruct l as [|b l]; [reflexivity|].
  change (Str.join sep ((a :: b :: l) ++ [x]))
    with (a +:+ sep +:+ Str.join sep ((b :: l) ++ [x])).
  rewrite IH by discriminate.
  change (Str.join sep (a :: b :: l)) with (a +:+ sep +:+ Str.join sep (b :: l)).
  rewrite !append_assoc. reflexivity.
Qed.

(** A marker that starts with a newline joins as an empty line and the
    marker. *)
Lemma join_marker (l : list string) (m : string) :
  Str.join (String Str.newline "") (l ++ [String Str.newline "" +:+ m])
  = Str.join (String Str.newline "") (l ++ [""; m]).
Proof.
  destruct l as [|a l]; [reflexivity|].
  replace ((a :: l) ++ [""; m]) with (((a :: l) ++ [""]) ++ [m])
    by (rewrite <- app_assoc; reflexivity).
  rewrite !join_app_one by (try discriminate; destruct l; discriminate).
  rewrite !append_assoc. reflexivity.
Qed.

Lemma Forall_firstn {A} (P : A -> Prop) (n : nat) (l : list A) :
  Forall P l -> Forall P (firstn n l).
Proof.
  revert l; induction n as [|n IH]; intros [|a l] H; simpl; try constructor;
    inversion H; subst; auto.
Qed.

(** X6: [truncateLines] returns a text of at most [maxLines] lines as
    it is.  Of a longer text, with [maxLines] not negative, it returns
    the first [maxLines] lines, then an empty line and one line that
    tells how many lines were dropped and how many there were: the
    result has [maxLines + 2] lines. *)
Theorem truncateLines_lines (text : string) (maxLines : Z) :
  0 <= maxLines ->
  (Z.of_nat (length (Str.lines text)) <= maxLines ->
   ExportChat.truncateLines text maxLines = text)
  /\ (maxLines < Z.of_nat (length (Str.lines text)) ->
      Str.lines (ExportChat.truncateLines text maxLines)
      = firstn (Z.to_nat maxLines) (Str.lines text)
          ++ [""; "... (" +:+ Str.ofZ (Z.of_nat (length (Str.lines text)) - maxLines)
                    +:+ " more lines truncated, total "
                    +:+ Str.ofZ (Z.of_nat (length (Str.lines text))) +:+ " lines)"]
      /\ Z.of_nat (length (Str.lines (ExportChat.truncateLines text maxLines)))
         = maxLines + 2).
Proof.
  intros Hm. unfold ExportChat.truncateLines. split.
  - intros Hle. destruct (Z.leb_spec (Z.of_nat (length (Str.lines text))) maxLines);
      [reflexivity | lia].
  - intros Hgt. destruct (Z.leb_spec (Z.of_nat (length (Str.lines text))) maxLines);
      [lia|].
    unfold ExportChat.sliceTo. destruct (Z.ltb_spec maxLines 0); [lia|].
    set (n := Z.of_nat (length (Str.lines text))) in *.
    set (marker := "... (" +:+ Str.ofZ (n - maxLines)
                     +:+ " more lines truncated, total " +:+ Str.ofZ n +:+ " lines)").
    change (String Str.newline "" +:+ "... (" +:+ Str.ofZ (n - maxLines)
              +:+ " more lines truncated, total " +:+ Str.ofZ n +:+ " lines)")
      with (String Str.newline "" +:+ marker).
    rewrite join_marker.
    assert (Hlines : Str.lines
                       (Str.join (String Str.newline "")
                          (firstn (Z.to_nat maxLines) (Str.lines text) ++ [""; marker]))
                     = firstn (Z.to_nat maxLines) (Str.lines text) ++ [""; marker]).
    { apply split_join; [destruct (firstn _ _); discriminate|].
      apply Forall_app. split.
      - apply Forall_firstn, split_pieces.
      - repeat constructor. unfold marker.
        rewrite !contains_append, !ofZ_one_line. reflexivity. }
    rewrite Hlines. split; [reflexivity|].
    rewrite length_app, List.length_firstn. simpl length. unfold n in *. lia.
Qed.

Lemma truncateLines_lines_witness :
  Str.lines (ExportChat.truncateLines
               ("a" +:+ String Str.newline "b" +:+ String Str.newline "c") 1)
  = ["a"; ""; "... (2 more lines truncated, total 3 lines)"].
Proof.
  exact (proj1 (proj2 (truncateLines_lines
                         ("a" +:+ String Str.newline "b" +:+ String Str.newline "c") 1
                         ltac:(lia))
                 ltac:(vm_compute; reflexivity))).
Defined.

(** ** The first loop of [extractHandoff], field by field *)

Lemma fileStep_read (h : Host) (b : value)
    (fc : list (string * ExportContinue.Change)) (fr : list string)
    (files : list (string * ExportContinue.Change) * list string) :
  ExportContinue.fileStep h (nameOf b) (inputOf b) fc fr = Some files ->
  snd files = readStep h fr b.
Proof.
  unfold ExportContinue.fileStep, readStep, readPathOf.
  set (name := nameOf b). set (input := inputOf b).
  destruct (isStr name "Write") eqn:Ew.
  { apply isStr_eq in Ew. rewrite Ew. simpl.
    destruct (truthy (optProp input "file_path")); simpl.
    - destruct (ExportContinue.shortPath h _) as [sp|]; simpl; [|discriminate].
      destruct (String.eqb sp "__proto__"); [discriminate|].
      destruct (if truthy (optProp input "content") then _ else _); simpl;
        [|discriminate].
      intros [= <-]. reflexivity.
    - intros [= <-]. reflexivity. }
  destruct (isStr name "Edit") eqn:Ee.
  { apply isStr_eq in Ee. rewrite Ee. simpl.
    destruct (truthy (optProp input "file_path")); simpl.
    - destruct (ExportContinue.shortPath h _) as [sp|]; simpl; [|discriminate].
      destruct (String.eqb sp "__proto__"); [discriminate|].
      destruct (negb _ && negb _).
      + destruct (ExportContinue.truncate (optProp input "old_string") 200); simpl;
          [|discriminate].
        destruct (ExportContinue.truncate (optProp input "new_string") 200); simpl;
          [|discriminate].
        intros [= <-]. reflexivity.
      + intros [= <-]. reflexivity.
    - intros [= <-]. reflexivity. }
  simpl. destruct (isStr name "Read" && truthy (optProp input "file_path")).
  - destruct (ExportContinue.shortPath h _) as [sp|]; simpl; [|discriminate].
    intros [= <-]. reflexivity.
  - intros [= <-]. reflexivity.
Qed.

(** What a block of an assistant record does to the lists the handoff
    reports besides [actions] and [changes]. *)
Lemma toolUse_rest (h : Host) (trm : gmap string ExportContinue.ToolResult)
    (acc acc' : ExportContinue.Acc) (b : value) :
  ExportContinue.toolUse h trm acc b = Some acc' ->
  if isStr (optProp b "type") "tool_use" then
    ExportContinue.errors acc' = ExportContinue.errors acc ++ blockErrors h trm b
    /\ ExportContinue.searches acc' = ExportContinue.searches acc ++ blockSearches h trm b
    /\ ExportContinue.filesRead acc' = readStep h (ExportContinue.filesRead acc) b
    /\ ExportContinue.latestTodos acc'
       = default (ExportContinue.latestTodos acc) (todosOf b)
    /\ ExportContinue.toolCallCount acc' = ExportContinue.toolCallCount acc + 1
  else acc' = acc.
Proof.
  unfold ExportContinue.toolUse, blockErrors, blockSearches, todosOf.
  destruct (prop b "type") as [ty|] eqn:Ety; simpl; [|discriminate].
  apply prop_Some in Ety. subst ty.
  destruct (isStr (optProp b "type") "tool_use"); simpl; [|congruence].
  destruct (stringOf (optProp b "id")) as [id|] eqn:Eid; simpl; [|discriminate].
  apply stringOf_Some in Eid. subst id.
  fold (nameOf b) (inputOf b) (resultOf trm b).
  destruct (ExportContinue.errorEntry _ _ _ _) as [errs|]; simpl; [|discriminate].
  destruct (ExportContinue.fileStep _ _ _ _ _) as [files|] eqn:Ef; simpl; [|discriminate].
  destruct (ExportContinue.bashAction _ _ _) as [bash|]; simpl; [|discriminate].
  destruct (ExportContinue.searchEntry _ _ _ _) as [srch|]; simpl; [|discriminate].
  destruct (ExportContinue.taskAction _ _ _) as [task|]; simpl; [|discriminate].
  intros [= <-]. simpl. apply fileStep_read in Ef. rewrite Ef.
  destruct (isStr (nameOf b) "TodoWrite" && truthy (optProp (inputOf b) "todos"));
    auto 10.
Qed.

Lemma toolUses_rest (h : Host) (trm : gmap string ExportContinue.ToolResult)
    (blocks : list value) :
  forall acc acc',
    forEach (ExportContinue.toolUse h trm) blocks acc = Some acc' ->
    let calls := List.filter (fun b => isStr (optProp b "type") "tool_use") blocks in
    ExportContinue.errors acc'
      = ExportContinue.errors acc ++ flat_map (blockErrors h trm) calls
    /\ ExportContinue.searches acc'
       = ExportContinue.searches acc ++ flat_map (blockSearches h trm) calls
    /\ ExportContinue.filesRead acc' = foldl (readStep h) (ExportContinue.filesRead acc) calls
    /\ ExportContinue.latestTodos acc'
       = foldl (fun t b => default t (todosOf b)) (ExportContinue.latestTodos acc) calls
    /\ ExportContinue.toolCallCount acc'
       = ExportContinue.toolCallCount acc + Z.of_nat (length calls).
Proof.
  induction blocks as [|b blocks IH]; intros acc acc'; cbn [forEach].
  - intros [= <-]. simpl. rewrite !app_nil_r, Z.add_0_r. auto 10.
  - destruct (ExportContinue.toolUse h trm acc b) as [acc1|] eqn:E; simpl; [|discriminate].
    intros H. apply IH in H as (He & Hs & Hf & Ht & Hc). rewrite He, Hs, Hf, Ht, Hc.
    apply toolUse_rest in E.
    destruct (isStr (optProp b "type") "tool_use"); [|subst acc1; auto 10].
    destruct E as (-> & -> & -> & -> & ->). cbn [flat_map foldl length].
    rewrite <- !app_assoc.
    repeat (split; [reflexivity|]). lia.
Qed.

(** A genuine user record leaves these lists alone. *)
Lemma collect_rest (h : Host) (trm : gmap string ExportContinue.ToolResult)
    (acc acc' : ExportContinue.Acc) (e : value) :
  ExportContinue.collect h trm acc e = Some acc' ->
  if speaks e then forEach (ExportContinue.toolUse h trm) (blocksOf e) acc = Some acc'
  else
    ExportContinue.errors acc' = ExportContinue.errors acc
    /\ ExportContinue.searches acc' = ExportContinue.searches acc
    /\ ExportContinue.filesRead acc' = ExportContinue.filesRead acc
    /\ ExportContinue.latestTodos acc' = ExportContinue.latestTodos acc
    /\ ExportContinue.toolCallCount acc' = ExportContinue.toolCallCount acc.
Proof.
  unfold ExportContinue.collect, speaks, blocksOf.
  destruct (ExportContinue.contentBlocks e) as [c|] eqn:Ec; simpl; [|discriminate].
  apply contentBlocks_spec in Ec. rewrite <- Ec. clear Ec.
  destruct c as [blocks|]; simpl; [|intros [= <-]; auto 10].
  destruct (ExportContinue.hasRole e "user") as [u|] eqn:Eu; simpl; [|discriminate].
  destruct (ExportContinue.hasRole e "assistant") as [a|] eqn:Ea; simpl; [|discriminate].
  apply hasRole_spec in Eu, Ea. subst u a.
  destruct (isRole e "user") eqn:Eu; simpl.
  - rewrite (isRole_exclusive e Eu).
    destruct (ExportContinue.someToolResult blocks) as [[]|]; simpl; [| |discriminate].
    + intros [= <-]. auto 10.
    + destruct (ExportContinue.userTexts blocks); simpl; [|discriminate].
      intros [= <-]. simpl. auto 10.
  - destruct (isRole e "assistant"); [auto|]. intros [= <-]. auto 10.
Qed.

Lemma collects_rest (h : Host) (trm : gmap string ExportContinue.ToolResult)
    (entries : list value) :
  forall acc acc',
    forEach (ExportContinue.collect h trm) entries acc = Some acc' ->
    ExportContinue.errors acc'
      = ExportContinue.errors acc ++ flat_map (blockErrors h trm) (toolUses entries)
    /\ ExportContinue.searches acc'
       = ExportContinue.searches acc ++ flat_map (blockSearches h trm) (toolUses entries)
    /\ ExportContinue.filesRead acc'
       = foldl (readStep h) (ExportContinue.filesRead acc) (toolUses entries)
    /\ ExportContinue.latestTodos acc'
       = foldl (fun t b => default t (todosOf b)) (ExportContinue.latestTodos acc)
           (toolUses entries)
    /\ ExportContinue.toolCallCount acc'
       = ExportContinue.toolCallCount acc + Z.of_nat (length (toolUses entries)).
Proof.
  induction entries as [|e entries IH]; intros acc acc'; cbn [forEach].
  - intros [= <-]. simpl. rewrite !app_nil_r, Z.add_0_r. auto 10.
  - destruct (ExportContinue.collect h trm acc e) as [acc1|] eqn:E; simpl; [|discriminate].
    intros H. apply IH in H as (He & Hs & Hf & Ht & Hc). rewrite He, Hs, Hf, Ht, Hc.
    unfold toolUses. cbn [flat_map]. fold (toolUses entries). apply collect_rest in E.
    destruct (speaks e).
    + apply toolUses_rest in E as (-> & -> & -> & -> & ->).
      rewrite !flat_map_app, !foldl_app, <- !app_assoc, length_app.
      repeat (split; [reflexivity|]). lia.
    + destruct E as (-> & -> & -> & -> & ->). cbn [app]. auto 10.
Qed.

(** In a run that returns, the entries of a call in [errors] and in
    [searches] are defined. *)
Lemma toolUses_defined (h : Host) (trm : gmap string ExportContinue.ToolResult)
    (blocks : list value) :
  forall acc acc',
    forEach (ExportContinue.toolUse h trm) blocks acc = Some acc' ->
    Forall (fun b => is_Some (ExportContinue.errorEntry h (nameOf b) (inputOf b)
                                (resultOf trm b))
                     /\ is_Some (ExportContinue.searchEntry h (nameOf b) (inputOf b)
                                   (resultOf trm b)))
      (List.filter (fun b => isStr (optProp b "type") "tool_use") blocks).
Proof.
  induction blocks as [|b blocks IH]; intros acc acc'; cbn [forEach].
  - intros _. constructor.
  - destruct (ExportContinue.toolUse h trm acc b) as [acc1|] eqn:E; simpl; [|discriminate].
    intros H. apply IH in H.
    apply toolUse_inv in E as [[-> _]|(-> & errs & ? & ? & srch & ? & He & _ & _ & Hs & _)];
      [exact H|].
    constructor; [rewrite He, Hs; eauto | exact H].
Qed.

Lemma collects_defined (h : Host) (trm : gmap string ExportContinue.ToolResult)
    (entries : list value) :
  forall acc acc',
    forEach (ExportContinue.collect h trm) entries acc = Some acc' ->
    Forall (fun b => is_Some (ExportContinue.errorEntry h (nameOf b) (inputOf b)
                                (resultOf trm b))
                     /\ is_Some (ExportContinue.searchEntry h (nameOf b) (inputOf b)
                                   (resultOf trm b)))
      (toolUses entries).
Proof.
  induction entries as [|e entries IH]; intros acc acc'; cbn [forEach].
  - intros _. constructor.
  - destruct (ExportContinue.collect h trm acc e) as [acc1|] eqn:E; simpl; [|discriminate].
    intros H. apply IH in H.
    unfold toolUses. simpl. fold (toolUses entries). apply collect_rest in E.
    destruct (speaks e); [|exact H].
    apply Forall_app. split; [|exact H]. eapply toolUses_defined, E.
Qed.

(** A call that failed has one entry in [errors], another call none. *)
Lemma blockErrors_length (h : Host) (trm : gmap string ExportContinue.ToolResult)
    (b : value) :
  is_Some (ExportContinue.errorEntry h (nameOf b) (inputOf b) (resultOf trm b)) ->
  length (blockErrors h trm b) = if failed trm b then 1%nat else 0%nat.
Proof.
  unfold blockErrors, failed, ExportContinue.errorEntry. intros [errs He].
  destruct (ExportContinue.isErrorOf (resultOf trm b)); [|reflexivity].
  destruct (ExportContinue.truncate _ 300) as [e|]; simpl in *; [|discriminate].
  destruct (if isStr (nameOf b) "Bash" then _ else _) as [s|]; simpl in *;
    [reflexivity | discriminate].
Qed.

(** A search has one entry in [searches], another call none. *)
Lemma blockSearches_length (h : Host) (trm : gmap string ExportContinue.ToolResult)
    (b : value) :
  is_Some (ExportContinue.searchEntry h (nameOf b) (inputOf b) (resultOf trm b)) ->
  length (blockSearches h trm b) = if isSearch b then 1%nat else 0%nat.
Proof.
  unfold blockSearches, isSearch, ExportContinue.searchEntry. intros [srch Hs].
  destruct (isStr (nameOf b) "Grep").
  - destruct (if truthy _ then _ else _) as [p|]; simpl in *; [reflexivity | discriminate].
  - destruct (isStr (nameOf b) "Glob"); [|reflexivity].
    destruct (if truthy _ then _ else _) as [p|]; simpl in *; [reflexivity | discriminate].
Qed.

Lemma flat_map_length_filter {A B} (f : A -> list B) (p : A -> bool) (l : list A) :
  Forall (fun x => length (f x) = if p x then 1%nat else 0%nat) l ->
  length (flat_map f l) = length (List.filter p l).
Proof.
  induction 1 as [|x l Hx _ IH]; simpl; [reflexivity|].
  rewrite length_app, Hx, IH. destruct (p x); reflexivity.
Qed.

(** The lists of the handoff that the first loop fills, read from the
    tool calls of the log. *)
Lemma handoff_rest (h : Host) (entries : list value) (sessionId : string)
    (v : value) :
  ExportContinue.extractHandoff h entries sessionId = Some v ->
  exists trm us pr,
    ExportContinue.buildToolResultMap entries = Some trm
    /\ Forall (fun b => is_Some (ExportContinue.errorEntry h (nameOf b) (inputOf b)
                                   (resultOf trm b))
                        /\ is_Some (ExportContinue.searchEntry h (nameOf b) (inputOf b)
                                      (resultOf trm b)))
         (toolUses entries)
    /\ arrayField v "errors"
       = map cloneElement (flat_map (blockErrors h trm) (toolUses entries))
    /\ optProp (optProp v "session") "error_count"
       = VNum (Z.of_nat (length (flat_map (blockErrors h trm) (toolUses entries))))
    /\ optProp (optProp v "session") "tool_calls"
       = VNum (Z.of_nat (length (toolUses entries)))
    /\ arrayField v "files_read" = map VStr (foldl (readStep h) [] (toolUses entries))
    /\ ExportContinue.dedupe (flat_map (blockSearches h trm) (toolUses entries)) = Some us
    /\ optProp v "searches"
       = match us with
         | [] => VUndef
         | _ => VObj [("count",
                       VNum (Z.of_nat (length (flat_map (blockSearches h trm)
                                                 (toolUses entries)))));
                      ("unique_patterns", VArr (map cloneElement us))]
         end
    /\ ExportContinue.progressOf
         (foldl (fun t b => default t (todosOf b)) VNull (toolUses entries)) = Some pr
    /\ optProp v "progress"
       = VObj [("completed", VArr (map cloneElement (ExportContinue.completed pr)));
               ("in_progress", VArr (map cloneElement (ExportContinue.in_progress pr)));
               ("pending", VArr (map cloneElement (ExportContinue.pending pr)))].
Proof.
  intros H. apply extractHandoff_inv in H
    as (trm & startTs & endTs & acc & dg & k & pr & dur & us
        & Htrm & _ & Hacc & _ & Hpr & _ & Hus & ->).
  exists trm, us, pr. split; [exact Htrm|].
  split; [eapply collects_defined, Hacc|].
  apply collects_rest in Hacc as (He & Hs & Hf & Ht & Hc).
  simpl in He, Hs, Hf, Ht. change (ExportContinue.toolCallCount ExportContinue.emptyAcc) with 0 in Hc.
  rewrite Z.add_0_l in Hc.
  rewrite <- He, <- Hs, <- Hf, <- Ht, <- Hc.
  unfold arrayField, ExportContinue.assemble. rewrite !optProp_clone.
  cbn [firstDefined fst snd String.eqb Ascii.eqb Bool.eqb andb isUndef negb].
  rewrite !unlessEmpty_spec.
  split; [destruct (ExportContinue.errors acc); reflexivity|].
  split; [rewrite optProp_clone; reflexivity|].
  split; [rewrite optProp_clone; reflexivity|].
  split; [rewrite JSON_clone_array; simpl; rewrite map_map; apply map_ext;
          intros x; reflexivity|].
  split; [exact Hus|].
  split; [destruct us; reflexivity|].
  split; [exact Hpr|]. reflexivity.
Qed.

(** ** The counts, the files read, the searches and the progress *)

(** X7: in the handoff [session.tool_calls] is the number of tool calls
    of the log, and [session.error_count] and the length of [errors]
    are the number of those calls whose outcome is marked as an
    error. *)
Theorem handoff_counts (h : Host) (entries : list value) (sessionId : string)
    (v : value) :
  ExportContinue.extractHandoff h entries sessionId = Some v ->
  exists trm,
    ExportContinue.buildToolResultMap entries = Some trm
    /\ optProp (optProp v "session") "tool_calls"
       = VNum (Z.of_nat (length (toolUses entries)))
    /\ optProp (optProp v "session") "error_count"
       = VNum (Z.of_nat (length (List.filter (failed trm) (toolUses entries))))
    /\ length (arrayField v "errors")
       = length (List.filter (failed trm) (toolUses entries)).
Proof.
  intros H. apply handoff_rest in H
    as (trm & us & pr & Htrm & Hdef & Herr & Hcount & Hcalls & _).
  exists trm. split; [exact Htrm|]. split; [exact Hcalls|].
  assert (Hlen : length (flat_map (blockErrors h trm) (toolUses entries))
                 = length (List.filter (failed trm) (toolUses entries))).
  { apply flat_map_length_filter.
    eapply Forall_impl; [exact Hdef|]. intros b [Hb _]. apply blockErrors_length, Hb. }
  split; [rewrite Hcount, Hlen; reflexivity|].
  rewrite Herr, length_map. exact Hlen.
Qed.

(** A run of X7: [sampleLog] has three tool calls, one of them failed. *)
Lemma handoff_counts_witness :
  optProp (optProp sampleHandoff "session") "tool_calls" = VNum 3
  /\ optProp (optProp sampleHandoff "session") "error_count" = VNum 1
  /\ length (arrayField sampleHandoff "errors") = 1%nat.
Proof.
  destruct (handoff_counts sampleHost sampleLog "0a1b2c3d" sampleHandoff
              sampleHandoff_run)
    as (trm & Htrm & Hcalls & Hcount & Herr).
  assert (Hm : ExportContinue.buildToolResultMap sampleLog
               = Some (foldl putOutcome ∅ (outcomes sampleLog))).
  { apply buildToolResultMap_from.
    - unfold noNulls, sampleLog.
      repeat first [apply Forall_nil | apply Forall_cons | split | reflexivity].
    - unfold plainIds, sampleLog.
      repeat first [apply Forall_nil | apply Forall_cons | split | reflexivity]. }
  rewrite Hm in Htrm. injection Htrm as <-.
  split; [exact Hcalls|]. split; [exact Hcount | exact Herr].
Defined.

Lemma In_setAdd (x y : string) (s : list string) :
  In y (ExportContinue.setAdd x s) <-> y = x \/ In y s.
Proof.
  unfold ExportContinue.setAdd. destruct (existsb (String.eqb x) s) eqn:E.
  - apply existsb_exists in E as (z & Hz & Heq). apply String.eqb_eq in Heq. subst z.
    split; [auto | intros [->|?]; assumption].
  - rewrite in_app_iff. simpl. split; intros [?|?]; auto.
    destruct H as [<-|[]]; auto.
Qed.

Lemma NoDup_setAdd (x : string) (s : list string) :
  List.NoDup s -> List.NoDup (ExportContinue.setAdd x s).
Proof.
  intros Hs. unfold ExportContinue.setAdd.
  destruct (existsb (String.eqb x) s) eqn:E; [exact Hs|].
  apply NoDup_ListNoDup, NoDup_app. split; [apply NoDup_ListNoDup, Hs|]. split.
  - intros y Hy Hx. apply list_elem_of_In in Hy, Hx. destruct Hx as [<-|[]].
    assert (existsb (String.eqb x) s = true); [|congruence].
    apply existsb_exists. exists x. split; [exact Hy | apply String.eqb_refl].
  - apply NoDup_singleton.
Qed.

Lemma readSteps (h : Host) (calls : list value) :
  forall fr,
    List.NoDup fr ->
    List.NoDup (foldl (readStep h) fr calls)
    /\ forall sp, In sp (foldl (readStep h) fr calls)
                  <-> In sp fr \/ exists b, In b calls /\ readPathOf h b = Some sp.
Proof.
  induction calls as [|b calls IH]; intros fr Hfr; simpl.
  - split; [exact Hfr|]. intros sp. split; [auto | intros [?|(b & [] & _)]; assumption].
  - assert (Hnd : List.NoDup (readStep h fr b)).
    { unfold readStep. destruct (readPathOf h b); [apply NoDup_setAdd|]; exact Hfr. }
    destruct (IH _ Hnd) as [H1 H2]. split; [exact H1|].
    intros sp. rewrite H2. unfold readStep.
    destruct (readPathOf h b) as [sp'|] eqn:E.
    + rewrite In_setAdd. split.
      * intros [[->|?]|(b' & Hb' & Hr)]; eauto.
      * intros [?|(b' & [<-|Hb'] & Hr)]; eauto.
        left. left. congruence.
    + split.
      * intros [?|(b' & Hb' & Hr)]; eauto.
      * intros [?|(b' & [<-|Hb'] & Hr)]; eauto. congruence.
Qed.

(** X8: [files_read] of the handoff holds the short paths of the files
    the [Read] calls of the log name, each of them once. *)
Theorem handoff_files_read (h : Host) (entries : list value) (sessionId : string)
    (v : value) :
  ExportContinue.extractHandoff h entries sessionId = Some v ->
  exists paths,
    arrayField v "files_read" = map VStr paths
    /\ List.NoDup paths
    /\ forall sp, In sp paths
                  <-> exists b, In b (toolUses entries) /\ readPathOf h b = Some sp.
Proof.
  intros H. apply handoff_rest in H
    as (trm & us & pr & _ & _ & _ & _ & _ & Hfr & _).
  exists (foldl (readStep h) [] (toolUses entries)). split; [exact Hfr|].
  destruct (readSteps h (toolUses entries) [] (List.NoDup_nil _)) as [H1 H2].
  split; [exact H1|]. intros sp. rewrite H2.
  split; [intros [[]|?]; assumption | auto].
Qed.

Lemma sampleWork_run :
  ExportContinue.extractHandoff sampleHost sampleWork "4e5f6a7b" = Some sampleWorkHandoff.
Proof. vm_compute. reflexivity. Qed.

(** A run of X8: [sampleWork] reads [src/a.js] twice and [src/b.js]. *)
Lemma handoff_files_read_witness :
  exists paths,
    arrayField sampleWorkHandoff "files_read" = map VStr paths
    /\ List.NoDup paths /\ In "src/a.js" paths /\ In "src/b.js" paths.
Proof.
  destruct (handoff_files_read sampleHost sampleWork "4e5f6a7b" sampleWorkHandoff
              sampleWork_run)
    as (paths & Hfr & Hnd & Hin).
  exists paths. split; [exact Hfr|]. split; [exact Hnd|]. split; apply Hin.
  - exists (toolUseBlock "Read" "toolu_2" [("file_path", VStr "/home/dev/app/src/a.js")]).
    split; [vm_compute; auto | reflexivity].
  - exists (toolUseBlock "Read" "toolu_4" [("file_path", VStr "/home/dev/app/src/b.js")]).
    split; [vm_compute; auto 10 | reflexivity].
Defined.

(** ** The searches kept and the progress *)

(** The loop that keeps the first search of each key: [seenPatterns]
    holds the keys of the searches kept. *)
Lemma dedupe_loop (l : list value) :
  forall seen u st,
    (forall k, k ∈ seen <-> exists x, In x u /\ ExportContinue.searchKey x = Some k) ->
    NoDup (map ExportContinue.searchKey u) ->
    forEach ExportContinue.dedupeStep l (seen, u) = Some st ->
    NoDup (map ExportContinue.searchKey (snd st))
    /\ (exists rest, snd st = u ++ rest /\ sublist rest l)
    /\ forall s, In s l ->
         exists x, In x (snd st) /\ ExportContinue.searchKey x = ExportContinue.searchKey s.
Proof.
  induction l as [|s l IH]; intros seen u st Hseen Hnd; cbn [forEach].
  - intros [= <-]. split; [exact Hnd|]. split; [|intros s []].
    exists []. rewrite app_nil_r. split; [reflexivity | constructor].
  - destruct (ExportContinue.dedupeStep (seen, u) s) as [st1|] eqn:E; simpl;
      [|discriminate].
    apply dedupeStep_keeps in E as (key & Hkey & ->).
    destruct (decide (key ∈ seen)) as [Hin|Hnin].
    + intros H. destruct (IH _ _ _ Hseen Hnd H) as (H1 & (rest & Hrest & Hsub) & H3).
      split; [exact H1|]. split.
      * exists rest. split; [exact Hrest | apply sublist_cons, Hsub].
      * intros s' [<-|Hs']; [|apply H3, Hs'].
        apply Hseen in Hin as (x & Hx & Hxk). exists x. split; [|congruence].
        rewrite Hrest. apply in_or_app. left. exact Hx.
    + intros H.
      assert (Hseen' : forall k, k ∈ ({[key]} ∪ seen : gset string)
                <-> exists x, In x (u ++ [s]) /\ ExportContinue.searchKey x = Some k).
      { intros k. rewrite elem_of_union, elem_of_singleton, Hseen. split.
        - intros [->|(x & Hx & Hk)].
          + exists s. split; [apply in_or_app; right; left; reflexivity | exact Hkey].
          + exists x. split; [apply in_or_app; left; exact Hx | exact Hk].
        - intros (x & Hx & Hk). apply in_app_or in Hx as [Hx|[<-|[]]].
          + right. exists x. auto.
          + left. congruence. }
      assert (Hnd' : NoDup (map ExportContinue.searchKey (u ++ [s]))).
      { rewrite map_app. apply NoDup_app. split; [exact Hnd|]. split.
        - intros k Hk Hk'. simpl in Hk'. apply list_elem_of_In in Hk, Hk'.
          destruct Hk' as [<-|[]]. apply in_map_iff in Hk as (x & Hxk & Hx).
          apply Hnin, Hseen. exists x. split; [exact Hx | congruence].
        - apply NoDup_singleton. }
      destruct (IH _ _ _ Hseen' Hnd' H) as (H1 & (rest & Hrest & Hsub) & H3).
      split; [exact H1|]. split.
      * exists (s :: rest). rewrite Hrest, <- app_assoc. split; [reflexivity|].
        apply sublist_skip, Hsub.
      * intros s' [<-|Hs']; [|apply H3, Hs'].
        exists s. split; [|reflexivity].
        rewrite Hrest. apply in_or_app. left. apply in_or_app. right. left. reflexivity.
Qed.

Lemma dedupe_spec (l us : list value) :
  ExportContinue.dedupe l = Some us ->
  sublist us l
  /\ List.NoDup (map ExportContinue.searchKey us)
  /\ forall s, In s l ->
       exists u, In u us /\ ExportContinue.searchKey u = ExportContinue.searchKey s.
Proof.
  unfold ExportContinue.dedupe.
  destruct (forEach ExportContinue.dedupeStep l (∅, [])) as [st|] eqn:E; simpl;
    [|discriminate].
  intros [= <-]. apply dedupe_loop in E as (H1 & (rest & Hrest & Hsub) & H3).
  - split; [rewrite Hrest; exact Hsub|]. split; [apply NoDup_ListNoDup, H1 | exact H3].
  - intros k. split; [intros Hk; exfalso; set_solver | intros (x & [] & _)].
  - constructor.
Qed.

(** X9: [searches.count] of the handoff is the number of [Grep] and
    [Glob] calls of the log, and [searches.unique_patterns] keeps, in
    order, one search for each key (the type, a colon and the
    pattern): no two of its searches have the same key, and every
    search of the log has the key of one of them. *)
Theorem handoff_searches (h : Host) (entries : list value) (sessionId : string)
    (v : value) :
  ExportContinue.extractHandoff h entries sessionId = Some v ->
  exists trm us,
    ExportContinue.buildToolResultMap entries = Some trm
    /\ let all := flat_map (blockSearches h trm) (toolUses entries) in
       length all = length (List.filter isSearch (toolUses entries))
       /\ (all <> [] ->
           optProp (optProp v "searches") "count" = VNum (Z.of_nat (length all))
           /\ arrayField (optProp v "searches") "unique_patterns"
              = map cloneElement us)
       /\ sublist us all
       /\ List.NoDup (map ExportContinue.searchKey us)
       /\ forall s, In s all ->
            exists u, In u us
                      /\ ExportContinue.searchKey u = ExportContinue.searchKey s.
Proof.
  intros H. apply handoff_rest in H
    as (trm & us & pr & Htrm & Hdef & _ & _ & _ & _ & Hus & Hsearches & _).
  exists trm, us. split; [exact Htrm|]. cbn zeta.
  split.
  { apply flat_map_length_filter.
    eapply Forall_impl; [exact Hdef|]. intros b [_ Hb]. apply blockSearches_length, Hb. }
  split.
  { intros Hne. rewrite Hsearches.
    destruct (flat_map (blockSearches h trm) (toolUses entries)) as [|s l] eqn:Eall;
      [contradiction|].
    apply dedupe_cons in Hus as [rest ->]. split; reflexivity. }
  apply dedupe_spec, Hus.
Qed.

(** A run of X9: [sampleWork] searches three times, twice with [Grep]
    for the same pattern. *)
Lemma handoff_searches_witness :
  optProp (optProp sampleWorkHandoff "searches") "count" = VNum 3
  /\ length (arrayField (optProp sampleWorkHandoff "searches") "unique_patterns")
     = 2%nat.
Proof.
  destruct (handoff_searches sampleHost sampleWork "4e5f6a7b" sampleWorkHandoff
              sampleWork_run)
    as (trm & us & Htrm & Hlen & Hfields & _).
  assert (Hm : ExportContinue.buildToolResultMap sampleWork
               = Some (foldl putOutcome ∅ (outcomes sampleWork))).
  { apply buildToolResultMap_from.
    - unfold noNulls, sampleWork.
      repeat first [apply Forall_nil | apply Forall_cons | split | reflexivity].
    - unfold plainIds, sampleWork.
      repeat first [apply Forall_nil | apply Forall_cons | split | reflexivity]. }
  rewrite Hm in Htrm. injection Htrm as <-.
  destruct Hfields as [Hcount Hunique]; [vm_compute; discriminate|].
  split; [exact Hcount|]. vm_compute. reflexivity.
Defined.

Lemma foldl_default_last {A B} (f : B -> option A) (l : list B) :
  forall t, foldl (fun t b => default t (f b)) t l = default t (last (omap f l)).
Proof.
  induction l as [|b l IH]; intros t; [reflexivity|]. cbn [foldl]. rewrite IH.
  change (omap f (b :: l))
    with (match f b with Some y => y :: omap f l | None => omap f l end).
  destruct (f b) as [x|]; [|reflexivity].
  rewrite last_cons. destruct (last (omap f l)); reflexivity.
Qed.

Lemma progress_loop (todos : list value) :
  forall p p',
    forEach
      (fun p t =>
         status ← prop t "status";
         let c := optProp t "content" in
         if isStr status "completed" then
           Some {| ExportContinue.completed := ExportContinue.completed p ++ [c];
                   ExportContinue.in_progress := ExportContinue.in_progress p;
                   ExportContinue.pending := ExportContinue.pending p |}
         else if isStr status "in_progress" then
           Some {| ExportContinue.completed := ExportContinue.completed p;
                   ExportContinue.in_progress := ExportContinue.in_progress p ++ [c];
                   ExportContinue.pending := ExportContinue.pending p |}
         else
           Some {| ExportContinue.completed := ExportContinue.completed p;
                   ExportContinue.in_progress := ExportContinue.in_progress p;
                   ExportContinue.pending := ExportContinue.pending p ++ [c] |})
      todos p = Some p' ->
    ExportContinue.completed p'
      = ExportContinue.completed p ++ todoContents "completed" todos
    /\ ExportContinue.in_progress p'
       = ExportContinue.in_progress p ++ todoContents "in_progress" todos
    /\ ExportContinue.pending p'
       = ExportContinue.pending p ++ todoContents "pending" todos.
Proof.
  induction todos as [|t todos IH]; intros p p'; cbn [forEach].
  - intros [= <-]. unfold todoContents. simpl. rewrite !app_nil_r. auto.
  - destruct (prop t "status") as [st|] eqn:Est; simpl; [|discriminate].
    apply prop_Some in Est. subst st.
    unfold todoContents, statusIs. cbn [String.eqb Ascii.eqb Bool.eqb andb List.filter].
    destruct (isStr (optProp t "status") "completed") eqn:Ec.
    + assert (isStr (optProp t "status") "in_progress" = false) as ->.
      { apply isStr_eq in Ec. rewrite Ec. reflexivity. }
      intros H. apply IH in H as (-> & -> & ->). simpl.
      rewrite <- !app_assoc. auto.
    + destruct (isStr (optProp t "status") "in_progress") eqn:Ei.
      * intros H. apply IH in H as (-> & -> & ->). simpl.
        rewrite <- !app_assoc. auto.
      * intros H. apply IH in H as (-> & -> & ->). simpl.
        rewrite <- !app_assoc. auto.
Qed.

(** X10: [progress] of the handoff is read from the todo list of the
    last [TodoWrite] call that has one: each of [completed],
    [in_progress] and [pending] holds, in order, the contents of the
    todos with that status, a todo with any other status counting as
    pending.  Without such a call the three lists are empty. *)
Theorem handoff_progress (h : Host) (entries : list value) (sessionId : string)
    (v : value) (list_ : string) :
  ExportContinue.extractHandoff h entries sessionId = Some v ->
  In list_ ["completed"; "in_progress"; "pending"] ->
  match last (omap todosOf (toolUses entries)) with
  | Some (VArr todos) =>
      arrayField (optProp v "progress") list_
      = map cloneElement (todoContents list_ todos)
  | Some _ => True
  | None => arrayField (optProp v "progress") list_ = []
  end.
Proof.
  intros H Hlist. apply handoff_rest in H
    as (trm & us & pr & _ & _ & _ & _ & _ & _ & _ & _ & Hpr & Hprogress).
  rewrite foldl_default_last in Hpr. rewrite Hprogress.
  destruct (last (omap todosOf (toolUses entries))) as [[| | | | | |todos|]|];
    try exact I; simpl in Hpr.
  - unfold ExportContinue.progressOf in Hpr. simpl in Hpr.
    apply progress_loop in Hpr as (Hc & Hi & Hp). simpl in Hc, Hi, Hp.
    destruct Hlist as [<-|[<-|[<-|[]]]]; unfold arrayField; simpl;
      congruence.
  - injection Hpr as <-.
    destruct Hlist as [<-|[<-|[<-|[]]]]; reflexivity.
Qed.

(** A run of X10: the last todo list of [sampleWork] has a todo of
    each status and one that is [blocked]. *)
Lemma handoff_progress_witness :
  arrayField (optProp sampleWorkHandoff "progress") "pending"
  = [VStr "test it"; VStr "ship it"].
Proof.
  exact (handoff_progress sampleHost sampleWork "4e5f6a7b" sampleWorkHandoff "pending"
           sampleWork_run ltac:(simpl; auto)).
Defined.

(** ** The conversation digest *)

Lemma truncated_length (t : string) (m : Z) :
  0 <= m -> Z.of_nat (Str.length (truncated t m)) <= m + 3.
Proof.
  intros Hm. unfold truncated. rewrite truncate_string. cbn [default from_option id].
  destruct (negb (Str.nonEmpty t) || (Z.of_nat (Str.length t) <=? m)) eqn:E.
  - apply orb_true_iff in E as [E|E]; [|apply Z.leb_le in E; lia].
    destruct t; [simpl; lia | discriminate].
  - rewrite units_length_append, length_takeUnits.
    change (Str.length "...") with 3%nat. lia.
Qed.

(** The entries a record adds to the digest. *)
Lemma segment_entries (n : Z) (e : value) (d : ExportContinue.DigestEntry) :
  In d (segment n e) ->
  ExportContinue.turn d = (if opensTurn e then n + 1 else n)
  /\ ExportContinue.role d = (if opensTurn e then "user" else "assistant")
  /\ Str.nonEmpty (ExportContinue.text d) = true
  /\ Z.of_nat (Str.length (ExportContinue.text d)) <= 303.
Proof.
  unfold segment, digestEntries.
  destruct (opensTurn e).
  - destruct (Str.nonEmpty (userText e)) eqn:E; [|intros []].
    intros [<-|[]]. cbn. split; [reflexivity|]. split; [reflexivity|].
    split; [apply truncated_nonEmpty, E | apply (truncated_length _ 300); lia].
  - destruct (speaks e); [|intros []].
    destruct (Str.nonEmpty (assistantText e)) eqn:E; [|intros []].
    intros [<-|[]]. cbn. split; [reflexivity|]. split; [reflexivity|].
    split; [apply truncated_nonEmpty, E | apply (truncated_length _ 300); lia].
Qed.

Lemma digestFrom_entries (entries : list value) :
  forall n d,
    In d (digestFrom n entries) ->
    n <= ExportContinue.turn d <= n + countTurns entries
    /\ (ExportContinue.role d = "user" /\ n + 1 <= ExportContinue.turn d
        \/ ExportContinue.role d = "assistant")
    /\ Str.nonEmpty (ExportContinue.text d) = true
    /\ Z.of_nat (Str.length (ExportContinue.text d)) <= 303.
Proof.
  induction entries as [|e entries IH]; intros n d; cbn [digestFrom]; [intros []|].
  rewrite countTurns_cons. pose proof (countTurns_cons e []) as H0.
  assert (Hpos : 0 <= countTurns entries) by (unfold countTurns; lia).
  intros Hd. apply in_app_or in Hd as [Hd|Hd].
  - apply segment_entries in Hd as (Ht & Hr & Hne & Hlen).
    rewrite Ht, Hr. destruct (opensTurn e); (split; [lia|]); (split; [|auto]).
    + left. split; [reflexivity | lia].
    + right. reflexivity.
  - apply IH in Hd as (Ht & Hr & Hne & Hlen).
    destruct (opensTurn e); (split; [lia|]); (split; [|auto]).
    + destruct Hr as [[Hr Hr']|Hr]; [left; split; [exact Hr | lia] | right; exact Hr].
    + exact Hr.
Qed.

(** Along the digest the turn numbers never go down. *)
Lemma digestFrom_sorted (entries : list value) :
  forall n pre d1 rest,
    digestFrom n entries = pre ++ d1 :: rest ->
    Forall (fun d2 => ExportContinue.turn d1 <= ExportContinue.turn d2) rest.
Proof.
  induction entries as [|e entries IH]; intros n pre d1 rest; cbn [digestFrom].
  - destruct pre; discriminate.
  - assert (Hseg : segment n e = []
                   \/ exists d, segment n e = [d]
                        /\ ExportContinue.turn d = if opensTurn e then n + 1 else n).
    { destruct (segment n e) as [|d [|d' l]] eqn:E; [left; reflexivity | |].
      - right. exists d. split; [reflexivity|].
        apply (segment_entries n e d). rewrite E. left. reflexivity.
      - exfalso. revert E. unfold segment, digestEntries.
        repeat match goal with |- context [if ?b then _ else _] => destruct b end;
          discriminate. }
    destruct Hseg as [->|(d & -> & Hd)]; [apply IH|].
    destruct pre as [|p pre]; cbn [app].
    + intros [= <- <-]. apply Forall_forall. intros d2 Hd2.
      apply list_elem_of_In, digestFrom_entries in Hd2 as ((Hlo & _) & _).
      rewrite Hd. destruct (opensTurn e); lia.
    + intros [= _ H]. eapply IH, H.
Qed.

(** X11: every entry of [conversation_digest] has the role [user] or
    [assistant], a content that is not empty and has at most 303
    characters (UTF-16 code units, as [length] counts them), and a turn
    number between 0 and the number of genuine user records, at least 1
    for a user entry; along the digest the turn numbers never go
    down. *)
Theorem handoff_digest (h : Host) (entries : list value) (sessionId : string)
    (v : value) :
  ExportContinue.extractHandoff h entries sessionId = Some v ->
  exists dg,
    arrayField v "conversation_digest" = map ExportContinue.digestValue dg
    /\ Forall (fun d =>
                 (ExportContinue.role d = "user" /\ 1 <= ExportContinue.turn d
                  \/ ExportContinue.role d = "assistant")
                 /\ 0 <= ExportContinue.turn d <= countTurns entries
                 /\ Str.nonEmpty (ExportContinue.text d) = true
                 /\ Z.of_nat (Str.length (ExportContinue.text d)) <= 303) dg
    /\ forall pre d1 mid d2 post,
         dg = pre ++ d1 :: mid ++ d2 :: post ->
         ExportContinue.turn d1 <= ExportContinue.turn d2.
Proof.
  intros H. exists (digestFrom 0 entries).
  split; [eapply digest_of_handoff, H|]. split.
  - apply Forall_forall. intros d Hd.
    apply list_elem_of_In, digestFrom_entries in Hd as (Ht & Hr & Hne & Hlen).
    split; [|auto]. destruct Hr as [[Hr Hr']|Hr]; auto.
  - intros pre d1 mid d2 post Hdg.
    apply digestFrom_sorted in Hdg. rewrite Forall_forall in Hdg.
    apply Hdg, list_elem_of_In, in_or_app. right. left. reflexivity.
Qed.

(** A run of X11 on [sampleLog]. *)
Lemma handoff_digest_witness :
  exists dg,
    arrayField sampleHandoff "conversation_digest" = map ExportContinue.digestValue dg
    /\ Forall (fun d => 0 <= ExportContinue.turn d <= 2) dg.
Proof.
  destruct (handoff_digest sampleHost sampleLog "0a1b2c3d" sampleHandoff
              sampleHandoff_run)
    as (dg & Hdg & Hall & _).
  exists dg. split; [exact Hdg|].
  eapply Forall_impl; [exact Hall|]. intros d (_ & Ht & _). exact Ht.
Defined.

(** ** The keys of the result map *)

Lemma foldl_putOutcome_keys (l : list (string * ExportContinue.ToolResult)) :
  forall (m : gmap string ExportContinue.ToolResult) (id : string),
    is_Some (foldl putOutcome m l !! id) <-> is_Some (m !! id) \/ In id (map fst l).
Proof.
  induction l as [|[k r] l IH]; intros m id; simpl.
  - split; [auto | intros [?|[]]; assumption].
  - rewrite IH. unfold putOutcome. simpl.
    destruct (decide (k = id)) as [->|Hne].
    + rewrite lookup_insert_eq. split; [auto | intros _; left; eauto].
    + rewrite lookup_insert_ne by exact Hne. split.
      * intros [?|?]; auto.
      * intros [?|[?|?]]; auto. contradiction.
Qed.

(** X12: the map [buildToolResultMap] returns has a result for an id
    exactly when a [tool_result] block of a user record carries that
    id: a call that was never answered has no result.  The records and
    the content blocks of the log are objects, and the ids of its
    outcomes are keys of a dictionary. *)
Theorem buildToolResultMap_keys (entries : list value) :
  noNulls entries -> plainIds entries ->
  exists m,
    ExportContinue.buildToolResultMap entries = Some m
    /\ forall id, is_Some (m !! id) <-> In id (map fst (outcomes entries)).
Proof.
  intros Hwf Hids. eexists. split.
  - unfold ExportContinue.buildToolResultMap. apply buildToolResultMap_from; assumption.
  - intros id. rewrite foldl_putOutcome_keys, lookup_empty.
    split; [intros [[x Hx]|?]; [discriminate | assumption] | auto].
Qed.

(** A run of X12: the [Edit] call of [sampleLog] is not answered. *)
Lemma buildToolResultMap_keys_witness :
  exists m,
    ExportContinue.buildToolResultMap sampleLog = Some m
    /\ is_Some (m !! "toolu_2") /\ m !! "toolu_3" = None.
Proof.
  destruct (buildToolResultMap_keys sampleLog) as (m & Hm & Hkeys).
  - unfold noNulls, sampleLog.
    repeat first [apply Forall_nil | apply Forall_cons | split | reflexivity].
  - unfold plainIds, sampleLog.
    repeat first [apply Forall_nil | apply Forall_cons | split | reflexivity].
  - exists m. split; [exact Hm|]. split.
    + apply Hkeys. vm_compute. auto.
    + apply eq_None_not_Some. intros H. apply Hkeys in H. vm_compute in H.
      destruct H as [H|[H|[H|[]]]]; discriminate.
Defined.

(** ** Sorting, and the session that is active *)

Lemma insertBy_perm {A} (cmp : A -> A -> option Z) (x : A) (l : list A) :
  ExportContinue.insertBy cmp x l ≡ₚ x :: l.
Proof.
  induction l as [|y l IH]; simpl; [reflexivity|].
  destruct (default 0 (cmp x y) <=? 0); [reflexivity|].
  rewrite IH. apply Permutation_swap.
Qed.

Lemma sortBy_perm {A} (cmp : A -> A -> option Z) (l : list A) :
  ExportContinue.sortBy cmp l ≡ₚ l.
Proof.
  unfold ExportContinue.sortBy. induction l as [|x l IH]; simpl; [reflexivity|].
  rewrite insertBy_perm, IH. reflexivity.
Qed.

Lemma In_sortBy {A} (cmp : A -> A -> option Z) (l : list A) (x : A) :
  In x (ExportContinue.sortBy cmp l) <-> In x l.
Proof.
  rewrite <- !list_elem_of_In. split; intros H.
  - rewrite <- (sortBy_perm cmp l). exact H.
  - rewrite (sortBy_perm cmp l). exact H.
Qed.

(** With a comparator that subtracts keys, [b - a], the sort puts first
    the first of the elements with the greatest key. *)
Lemma sortBy_first {A} (cmp : A -> A -> option Z) (key : A -> Z) (l : list A) :
  (forall a b, In a l -> In b l -> default 0 (cmp a b) = key b - key a) ->
  match ExportContinue.sortBy cmp l with
  | [] => l = []
  | m :: _ =>
      exists pre post,
        l = pre ++ m :: post
        /\ (forall x, In x pre -> key x < key m)
        /\ (forall x, In x post -> key x <= key m)
  end.
Proof.
  unfold ExportContinue.sortBy. induction l as [|a l IH]; intros Hcmp; [reflexivity|].
  cbn [foldr].
  assert (Hl : forall a b, In a l -> In b l -> default 0 (cmp a b) = key b - key a)
    by (intros; apply Hcmp; right; assumption).
  specialize (IH Hl).
  destruct (foldr (ExportContinue.insertBy cmp) [] l) as [|m rest] eqn:E.
  - subst l. simpl. exists [], []. split; [reflexivity|]. split; intros x [].
  - destruct IH as (pre & post & Hpre & Hlt & Hle). cbn [ExportContinue.insertBy].
    assert (Hm : In m l) by (rewrite Hpre; apply in_or_app; right; left; reflexivity).
    rewrite (Hcmp a m) by (simpl; auto).
    destruct (Z.leb_spec (key m - key a) 0) as [Hk|Hk].
    + exists [], l. split; [reflexivity|]. split; [intros x []|].
      intros x Hx. rewrite Hpre in Hx. apply in_app_or in Hx as [Hx|[<-|Hx]].
      * specialize (Hlt x Hx). lia.
      * lia.
      * specialize (Hle x Hx). lia.
    + exists (a :: pre), post. split; [rewrite Hpre; reflexivity|].
      split; [|exact Hle]. intros x [<-|Hx]; [lia | apply Hlt, Hx].
Qed.

Lemma insertBy_descending {A} (cmp : A -> A -> option Z) (key : A -> Z)
    (x : A) (l : list A) :
  (forall b, In b l -> default 0 (cmp x b) = key b - key x) ->
  descending (map key l) ->
  descending (map key (ExportContinue.insertBy cmp x l)).
Proof.
  induction l as [|y l IH]; intros Hcmp Hd; simpl.
  - split; [constructor | exact I].
  - rewrite (Hcmp y) by (left; reflexivity).
    destruct Hd as [Hy Hd].
    destruct (Z.leb_spec (key y - key x) 0) as [Hk|Hk]; cbn [map descending].
    + split; [|split; assumption].
      constructor; [lia|]. eapply Forall_impl; [exact Hy|]. intros z Hz. simpl in Hz. lia.
    + split; [|apply IH; [intros b Hb; apply Hcmp; right; exact Hb | exact Hd]].
      apply Forall_forall. intros z Hz.
      apply list_elem_of_In, in_map_iff in Hz as (w & <- & Hw).
      assert (Hw' : w ∈ x :: l)
        by (rewrite <- (insertBy_perm cmp x l); apply list_elem_of_In, Hw).
      apply list_elem_of_In in Hw' as [<-|Hw']; [lia|].
      rewrite Forall_forall in Hy. apply Hy, list_elem_of_In, in_map, Hw'.
Qed.

Lemma sortBy_descending {A} (cmp : A -> A -> option Z) (key : A -> Z) (l : list A) :
  (forall a b, default 0 (cmp a b) = key b - key a) ->
  descending (map key (ExportContinue.sortBy cmp l)).
Proof.
  intros Hcmp. unfold ExportContinue.sortBy.
  induction l as [|x l IH]; simpl; [exact I|].
  apply insertBy_descending; [intros b _; apply Hcmp | exact IH].
Qed.

(** X13: among session logs that all have a time, [main] without a
    session id picks the one with the latest time, the first in the
    order of the directory when several have it, and gives it the id
    that is its file name without [.jsonl]; it finds no session exactly
    when the directory holds no [.jsonl] file. *)
Theorem activeSession_latest (h : Host) (d : ExportContinue.Dir) :
  (forall f, In f (ExportContinue.candidates d) ->
             is_Some (ExportContinue.getLastEntryTimestamp h d f)) ->
  match ExportContinue.activeSession h d with
  | None => ExportContinue.candidates d = []
  | Some (name, id) =>
      id = ExportContinue.removeFirst ".jsonl" name
      /\ exists pre post t,
           ExportContinue.candidates d = pre ++ name :: post
           /\ timed h d name t
           /\ (forall f t', In f pre -> timed h d f t' -> t' < t)
           /\ (forall f t', In f post -> timed h d f t' -> t' <= t)
  end.
Proof.
  intros Htimed. unfold ExportContinue.activeSession.
  set (pair := fun f => (f, ExportContinue.getLastEntryTimestamp h d f)).
  set (cmp := fun a b : string * option Z => x ← snd b; y ← snd a; Some (x - y)).
  pose proof (sortBy_first cmp (fun p => default 0 (snd p))
                (map pair (ExportContinue.candidates d))) as Hsort.
  destruct (ExportContinue.sortBy cmp (map pair (ExportContinue.candidates d)))
    as [|[name t] rest].
  - apply map_eq_nil with (f := pair). apply Hsort.
    intros a b Ha Hb. apply in_map_iff in Ha as (fa & <- & Ha), Hb as (fb & <- & Hb).
    destruct (Htimed fa Ha) as [ta Hta], (Htimed fb Hb) as [tb Htb].
    unfold cmp, pair. simpl. rewrite Hta, Htb. reflexivity.
  - simpl. split; [reflexivity|].
    destruct Hsort as (pre & post & Hl & Hlt & Hle).
    { intros a b Ha Hb. apply in_map_iff in Ha as (fa & <- & Ha), Hb as (fb & <- & Hb).
      destruct (Htimed fa Ha) as [ta Hta], (Htimed fb Hb) as [tb Htb].
      unfold cmp, pair. simpl. rewrite Hta, Htb. reflexivity. }
    apply map_eq_app in Hl as (pre' & rest' & Hc & Hpre & Hrest).
    apply map_eq_cons in Hrest as (name' & post' & -> & Hname & Hpost).
    injection Hname as -> Ht.
    destruct (Htimed name) as [t0 Ht0].
    { rewrite Hc. apply in_or_app. right. left. reflexivity. }
    exists pre', post', t0. split; [exact Hc|]. split; [exact Ht0|].
    unfold timed. split.
    + intros f t' Hf Hft. specialize (Hlt (pair f)). simpl in Hlt.
      rewrite <- Ht, Ht0, Hft in Hlt. apply Hlt.
      rewrite <- Hpre. apply in_map, Hf.
    + intros f t' Hf Hft. specialize (Hle (pair f)). simpl in Hle.
      rewrite <- Ht, Ht0, Hft in Hle. apply Hle.
      rewrite <- Hpost. apply in_map, Hf.
Qed.

(** A run of X13 on [twoShortSessions]. *)
Lemma activeSession_latest_witness :
  exists pre post t,
    ExportContinue.candidates twoShortSessions = pre ++ "newer.jsonl" :: post
    /\ timed sampleHost twoShortSessions "newer.jsonl" t
    /\ (forall f t', In f pre -> timed sampleHost twoShortSessions f t' -> t' < t)
    /\ (forall f t', In f post -> timed sampleHost twoShortSessions f t' -> t' <= t).
Proof.
  assert (E : ExportContinue.activeSession sampleHost twoShortSessions
              = Some ("newer.jsonl", "newer")) by (vm_compute; reflexivity).
  pose proof (activeSession_latest sampleHost twoShortSessions) as H.
  rewrite E in H. apply H.
  intros f Hf. vm_compute in Hf. destruct Hf as [<-|[<-|[]]]; vm_compute; eauto.
Defined.

(** ** Reading a log *)

(** X14: [parseJsonl] reads a log line by line: the records of two
    texts joined by a newline are the records of the first, then those
    of the second; a line that [JSON.parse] rejects gives no record
    and no error; and no record is [null] or another falsy value. *)
Theorem parseJsonl_lines (h : Host) (a b : string) :
  ExportContinue.parseJsonl h (a +:+ String Str.newline b)
  = ExportContinue.parseJsonl h a ++ ExportContinue.parseJsonl h b
  /\ (Str.contains Str.newline a = false -> JSON_parse h a = None ->
      ExportContinue.parseJsonl h a = [])
  /\ Forall (fun e => truthy e = true /\ nullish e = false)
       (ExportContinue.parseJsonl h a).
Proof.
  split; [apply parseJsonl_append|]. split.
  - intros Hline Hbad. unfold ExportContinue.parseJsonl, ExportContinue.nonBlankLines,
      Str.lines.
    rewrite (split_plain _ _ Hline). cbn [filter list_filter].
    destruct (decide _); simpl; [rewrite Hbad|]; reflexivity.
  - unfold ExportContinue.parseJsonl. apply Forall_forall. intros e He.
    apply list_elem_of_omap in He as (l & _ & Hl).
    destruct (JSON_parse h l) as [v|]; [|discriminate].
    destruct (truthy v) eqn:Ev; [|discriminate].
    injection Hl as <-. split; [exact Ev|]. destruct v; try reflexivity; discriminate.
Qed.

(** ** The statistics of the transcript *)

Lemma forEach_keeps {A S} (P : S -> Prop) (body : S -> A -> option S) (l : list A) :
  (forall s x s1, P s -> body s x = Some s1 -> P s1) ->
  forall s s', P s -> forEach body l s = Some s' -> P s'.
Proof.
  intros Hb. induction l as [|x l IH]; intros s s' Hs; cbn [forEach].
  - intros [= <-]. exact Hs.
  - destruct (body s x) as [s1|] eqn:E; simpl; [|discriminate].
    apply IH. eapply Hb; eassumption.
Qed.

Lemma sumCounts_setKey (k : string) (v : Z) (o : list (string * Z)) :
  sumCounts (ExportContinue.setKey k v o) = sumCounts o - countOf k o + v.
Proof.
  unfold countOf. induction o as [|[k' v'] o IH]; simpl; [lia|].
  destruct (String.eqb k' k); simpl; [lia|]. rewrite IH. lia.
Qed.

Lemma Forall_setKey {A} (P : string * A -> Prop) (k : string) (v : A)
    (o : list (string * A)) :
  Forall P o -> P (k, v) -> Forall P (ExportContinue.setKey k v o).
Proof.
  intros Ho Hkv. induction Ho as [|[k' v'] o Hx Ho IH]; simpl.
  - constructor; [exact Hkv | constructor].
  - destruct (String.eqb k' k); constructor; assumption.
Qed.

Lemma countOf_setKey (k k' : string) (v : Z) (o : list (string * Z)) :
  countOf k' (ExportContinue.setKey k v o)
  = if String.eqb k k' then v else countOf k' o.
Proof.
  unfold countOf. destruct (String.eqb k k') eqn:E.
  - apply String.eqb_eq in E. subst k'. rewrite getKey_setKey_eq. reflexivity.
  - rewrite getKey_setKey_ne; [reflexivity|].
    intros ->. rewrite String.eqb_refl in E. discriminate.
Qed.

Lemma countOf_nonneg (k : string) (o : list (string * Z)) :
  Forall (fun kv => 1 <= snd kv) o -> 0 <= countOf k o.
Proof.
  intros Ho. unfold countOf.
  destruct (ExportContinue.getKey k o) as [v|] eqn:E; simpl; [|lia].
  apply getKey_In in E. rewrite Forall_forall in Ho.
  apply list_elem_of_In, Ho in E. simpl in E. lia.
Qed.

(** The key of a tool named by a string is that string. *)
Lemma stringOf_name (name : value) (key s : string) :
  stringOf name = Some key -> isStr name s = true -> key = s.
Proof.
  intros Hk Hs. apply isStr_eq in Hs. subst name.
  apply stringOf_Some in Hk. exact Hk.
Qed.

Lemma addFile_NoDup (h : Host) (c : bool) (fp : value) (s s' : list string) :
  List.NoDup s ->
  (if c then sp ← ExportContinue.shortPath h fp; Some (ExportContinue.setAdd sp s)
   else Some s) = Some s' ->
  List.NoDup s'.
Proof.
  intros Hs. destruct c.
  - destruct (ExportContinue.shortPath h fp) as [sp|]; simpl; [|discriminate].
    intros [= <-]. apply NoDup_setAdd, Hs.
  - intros [= <-]. exact Hs.
Qed.

Lemma statBlock_keeps (h : Host) (trm : gmap string ExportContinue.ToolResult)
    (st st1 : ExportChat.Stats) (block : value) :
  consistent st ->
  ExportChat.statBlock h trm st block = Some st1 ->
  consistent st1 /\ ExportChat.userTurns st1 = ExportChat.userTurns st.
Proof.
  intros (Hsum & Hpos & Hnd & Herr & Hbash & Hsearch & Hr & Hw & He).
  unfold ExportChat.statBlock.
  destruct (prop block "type") as [ty|]; simpl; [|discriminate].
  destruct (isStr ty "tool_use").
  2:{ intros [= <-]. split; [|reflexivity]. unfold consistent. simpl. auto 10. }
  set (name := JS.or (optProp block "name") (VStr "Unknown")).
  destruct (stringOf name) as [key|] eqn:Ekey; simpl; [|discriminate].
  destruct (ExportContinue.answersInherited key _); [discriminate|].
  destruct (stringOf (optProp block "id")) as [id|]; simpl; [|discriminate].
  set (input := JS.or (optProp block "input") (VObj [])).
  destruct (if isStr name "Read" && truthy (optProp input "file_path") then _ else _)
    as [read|] eqn:Eread; simpl; [|discriminate].
  destruct (if isStr name "Write" && truthy (optProp input "file_path") then _ else _)
    as [written|] eqn:Ewritten; simpl; [|discriminate].
  destruct (if isStr name "Edit" && truthy (optProp input "file_path") then _ else _)
    as [edited|] eqn:Eedited; simpl; [|discriminate].
  intros [= <-]. split; [|reflexivity]. unfold consistent. simpl.
  pose proof (countOf_nonneg key _ Hpos) as Hkey.
  split; [rewrite sumCounts_setKey; fold (countOf key (ExportChat.toolBreakdown st)); lia|].
  split; [apply Forall_setKey; [exact Hpos | simpl;
          fold (countOf key (ExportChat.toolBreakdown st)); lia]|].
  split; [apply setKey_NoDup, Hnd|].
  split; [unfold ExportChat.bump; destruct (ExportChat.isErrorOf _); lia|].
  fold (countOf key (ExportChat.toolBreakdown st)).
  rewrite !countOf_setKey.
  split.
  { unfold ExportChat.bump. destruct (isStr name "Bash") eqn:Eb.
    - rewrite (stringOf_name name key "Bash" Ekey Eb), String.eqb_refl. lia.
    - destruct (String.eqb key "Bash") eqn:Ek; [|lia].
      apply String.eqb_eq in Ek. subst key. lia. }
  split.
  { unfold ExportChat.bump.
    pose proof (countOf_nonneg "Grep" _ Hpos) as Hgrep.
    pose proof (countOf_nonneg "Glob" _ Hpos) as Hglob.
    destruct (isStr name "Grep") eqn:Eg; simpl.
    - rewrite (stringOf_name name key "Grep" Ekey Eg). simpl. lia.
    - destruct (isStr name "Glob") eqn:Eo.
      + rewrite (stringOf_name name key "Glob" Ekey Eo). simpl. lia.
      + destruct (String.eqb key "Grep") eqn:Ek1.
        * apply String.eqb_eq in Ek1. subst key. simpl. lia.
        * destruct (String.eqb key "Glob") eqn:Ek2; [|lia].
          apply String.eqb_eq in Ek2. subst key. lia. }
  split; [eapply addFile_NoDup; [exact Hr | exact Eread]|].
  split; [eapply addFile_NoDup; [exact Hw | exact Ewritten]|].
  eapply addFile_NoDup; [exact He | exact Eedited].
Qed.

Lemma statBlocks_keep (h : Host) (trm : gmap string ExportContinue.ToolResult)
    (blocks : list value) (st st1 : ExportChat.Stats) :
  consistent st ->
  forEach (ExportChat.statBlock h trm) blocks st = Some st1 ->
  consistent st1 /\ ExportChat.userTurns st1 = ExportChat.userTurns st.
Proof.
  intros Hst H.
  apply (forEach_keeps
           (fun s => consistent s /\ ExportChat.userTurns s = ExportChat.userTurns st)
           (ExportChat.statBlock h trm) blocks) with (s := st) (s' := st1);
    [|auto|exact H].
  intros s x s1 [Hs Hu] Hx. apply statBlock_keeps in Hx as [H1 H2]; [|exact Hs].
  split; [exact H1 | congruence].
Qed.

Lemma statEntry_keeps (h : Host) (trm : gmap string ExportContinue.ToolResult)
    (st st1 : ExportChat.Stats) (e : value) :
  consistent st ->
  ExportChat.statEntry h trm st e = Some st1 ->
  consistent st1
  /\ ExportChat.userTurns st1
     = ExportChat.bump (opensTurnStats e) (ExportChat.userTurns st).
Proof.
  intros Hst. unfold ExportChat.statEntry, opensTurnStats, ExportChat.someToolResult.
  destruct (prop e "timestamp") as [ts|]; simpl; [|discriminate].
  destruct (prop e "type") as [ty|] eqn:Ety; simpl; [|discriminate].
  apply prop_Some in Ety. subst ty.
  destruct (prop e "message") as [msg|] eqn:Emsg; simpl; [|discriminate].
  apply prop_Some in Emsg. subst msg.
  set (st0 := if truthy ts then _ else st).
  assert (H0 : consistent st0 /\ ExportChat.userTurns st0 = ExportChat.userTurns st)
    by (unfold st0; destruct (truthy ts); [unfold consistent in *; simpl|]; auto).
  destruct H0 as [H0 Hu0]. clearbody st0.
  assert (Hsame : forall s, Some st0 = Some s ->
            consistent s
            /\ ExportChat.userTurns s = ExportChat.bump false (ExportChat.userTurns st)).
  { intros s E. assert (s = st0) by congruence. subst s. simpl. auto. }
  destruct (isStr (optProp e "type") "user") eqn:Eu; simpl.
  - destruct (asArray _) as [blocks|]; [|apply Hsame].
    destruct (ExportContinue.someToolResult blocks) as [b|] eqn:Eb; simpl; [|discriminate].
    apply someToolResult_spec in Eb. subst b.
    intros E. assert (Hst1 : st1 = _) by (symmetry; injection E; intros Hx; exact Hx).
    subst st1. simpl. rewrite Hu0. split; [|reflexivity].
    unfold consistent in *. simpl. exact H0.
  - destruct (isStr (optProp e "type") "assistant"); [|apply Hsame].
    destruct (asArray _) as [blocks|]; [|apply Hsame].
    destruct (ExportChat.someText blocks) as [t|]; simpl; [|discriminate].
    intros H. apply statBlocks_keep in H as [H1 H2].
    + split; [exact H1|]. rewrite H2. simpl. exact Hu0.
    + unfold consistent in *. simpl. exact H0.
Qed.

Lemma collectStats_from (h : Host) (trm : gmap string ExportContinue.ToolResult)
    (entries : list value) :
  forall st st1,
    consistent st ->
    forEach (ExportChat.statEntry h trm) entries st = Some st1 ->
    consistent st1
    /\ ExportChat.userTurns st1
       = ExportChat.userTurns st + Z.of_nat (length (List.filter opensTurnStats entries)).
Proof.
  induction entries as [|e entries IH]; intros st st1 Hst; cbn [forEach].
  - intros [= <-]. simpl. split; [exact Hst | lia].
  - destruct (ExportChat.statEntry h trm st e) as [s1|] eqn:E; simpl; [|discriminate].
    apply statEntry_keeps in E as [H1 H2]; [|exact Hst].
    intros H. apply IH in H as [H3 H4]; [|exact H1]. split; [exact H3|].
    rewrite H4, H2. unfold ExportChat.bump. destruct (opensTurnStats e); simpl length; lia.
Qed.

Lemma consistent_empty : consistent ExportChat.emptyStats.
Proof.
  unfold consistent. simpl.
  split; [reflexivity|]. split; [apply List.Forall_nil|]. split; [apply List.NoDup_nil|].
  split; [lia|]. split; [vm_compute; split; discriminate|].
  split; [vm_compute; split; discriminate|].
  split; [apply List.NoDup_nil|]. split; apply List.NoDup_nil.
Qed.

(** X15: for a log in which no tool call is named after a member of
    [Object.prototype], the counters [collectStats] returns agree:
    [toolCalls] is the sum of the counts of [toolBreakdown], whose names
    are distinct and whose counts are at least 1; [toolErrors] lies
    between 0 and [toolCalls]; [bashCommands] is at most the count of
    [Bash], and [searches] at most the counts of [Grep] and [Glob]
    together; and no file is twice in [filesRead], [filesWritten] or
    [filesEdited]. *)
Theorem collectStats_consistent (h : Host) (entries : list value)
    (trm : gmap string ExportContinue.ToolResult) (st : ExportChat.Stats) :
  plainNames entries = true ->
  ExportChat.collectStats h entries trm = Some st -> consistent st.
Proof.
  intros _ H. eapply collectStats_from; [apply consistent_empty | exact H].
Qed.

(** A run of X15 on [sampleLog]. *)
Lemma collectStats_consistent_witness :
  exists st,
    ExportChat.collectStats sampleHost sampleLog ∅ = Some st
    /\ ExportChat.toolCalls st = 3 /\ consistent st.
Proof.
  destruct (ExportChat.collectStats sampleHost sampleLog ∅) as [st|] eqn:E;
    [|vm_compute in E; discriminate].
  exists st. split; [reflexivity|]. split.
  - vm_compute in E. injection E as <-. reflexivity.
  - exact (collectStats_consistent sampleHost sampleLog ∅ st eq_refl E).
Defined.

Lemma opensTurn_agree (e : value) :
  rolesAgree e = true -> opensTurnStats e = opensTurnChat e.
Proof.
  unfold rolesAgree, opensTurnStats, opensTurnChat. intros H.
  apply Bool.eqb_prop in H. rewrite <- H.
  destruct (isStr (optProp e "type") "user") eqn:Eu; simpl.
  - destruct (optProp e "message") as [| |b|n| |s|l|fields]; simpl;
      rewrite ?andb_false_r; try reflexivity.
    destruct (lookupField "content" fields); simpl; rewrite ?andb_false_r; reflexivity.
  - destruct (asArray _); rewrite andb_false_r; reflexivity.
Qed.

(** X16: [userTurns] of the statistics is the number of records typed
    [user] whose content is an array without a [tool_result] block.
    When every record is typed [user] exactly when its message has the
    role [user], it is the number of turns the transcript opens: the
    summary and the headings agree. *)
Theorem collectStats_userTurns (h : Host) (entries : list value)
    (trm : gmap string ExportContinue.ToolResult) (st : ExportChat.Stats) :
  ExportChat.collectStats h entries trm = Some st ->
  ExportChat.userTurns st = Z.of_nat (length (List.filter opensTurnStats entries))
  /\ (Forall (fun e => rolesAgree e = true) entries ->
      ExportChat.userTurns st = countTurnsChat entries).
Proof.
  intros H. apply collectStats_from in H as [_ H]; [|apply consistent_empty].
  change (ExportChat.userTurns ExportChat.emptyStats) with 0 in H.
  rewrite Z.add_0_l in H. split; [exact H|].
  intros Hagree. rewrite H. unfold countTurnsChat.
  assert (Hf : List.filter opensTurnStats entries = List.filter opensTurnChat entries).
  { clear H. induction Hagree as [|e entries He _ IH]; [reflexivity|]. simpl.
    rewrite (opensTurn_agree e He), IH. reflexivity. }
  rewrite Hf. reflexivity.
Qed.

(** A run of X16: [sampleLog] opens two turns. *)
Lemma collectStats_userTurns_witness :
  exists st,
    ExportChat.collectStats sampleHost sampleLog ∅ = Some st
    /\ ExportChat.userTurns st = 2.
Proof.
  destruct (ExportChat.collectStats sampleHost sampleLog ∅) as [st|] eqn:E;
    [|vm_compute in E; discriminate].
  exists st. split; [reflexivity|].
  exact (proj1 (collectStats_userTurns sampleHost sampleLog ∅ st E)).
Defined.

(** ** Finding the sessions of a project *)

Lemma backslashesToSlashes_id (s : string) :
  Str.contains "\" s = false -> Str.backslashesToSlashes s = s.
Proof.
  induction s as [|c s IH]; [reflexivity|]. simpl. intros H.
  apply orb_false_elim in H as [Hc Hs]. rewrite Hc, (IH Hs). reflexivity.
Qed.

Lemma dropTrailingSlash_plain (s : string) :
  Str.contains "/" s = false -> ExportChat.dropTrailingSlash s = s.
Proof.
  intros H. unfold ExportChat.dropTrailingSlash.
  destruct (Str.endsWith s "/") eqn:E; [|reflexivity].
  apply (endsWith_contains "/") in E; [congruence | reflexivity].
Qed.

Lemma contains_dropTrailingSlash (c : ascii) (s : string) :
  Str.contains c s = false -> Str.contains c (ExportChat.dropTrailingSlash s) = false.
Proof.
  intros H. unfold ExportChat.dropTrailingSlash.
  destruct (Str.endsWith s "/"); [apply contains_take, H | exact H].
Qed.

(** X17: the name [encodeProjectPath] gives a directory holds no
    colon, no slash and no backslash, and encoding it again changes
    nothing. *)
Theorem encodeProjectPath_clean (absPath : string) :
  let encoded := ExportChat.encodeProjectPath absPath in
  Str.contains ":" encoded = false
  /\ Str.contains "/" encoded = false
  /\ Str.contains "\" encoded = false
  /\ ExportChat.encodeProjectPath encoded = encoded.
Proof.
  cbn zeta.
  assert (Hcolon : Str.contains ":" (ExportChat.encodeProjectPath absPath) = false).
  { apply contains_mapChars. intros d _.
    destruct (Ascii.eqb d ":") eqn:E1; [discriminate|].
    destruct (Ascii.eqb d "/") eqn:E2; [discriminate|]. simpl.
    intros ->. rewrite Ascii.eqb_refl in E1. discriminate. }
  assert (Hslash : Str.contains "/" (ExportChat.encodeProjectPath absPath) = false).
  { apply contains_mapChars. intros d _.
    destruct (Ascii.eqb d ":") eqn:E1; [discriminate|].
    destruct (Ascii.eqb d "/") eqn:E2; [discriminate|]. simpl.
    intros ->. rewrite Ascii.eqb_refl in E2. discriminate. }
  assert (Hback : Str.contains "\" (ExportChat.encodeProjectPath absPath) = false).
  { apply contains_mapChars. intros d Hd.
    destruct (Ascii.eqb d ":" || Ascii.eqb d "/"); [discriminate|].
    intros ->.
    rewrite contains_dropTrailingSlash in Hd; [discriminate|].
    apply backslashesToSlashes_none. }
  split; [exact Hcolon|]. split; [exact Hslash|]. split; [exact Hback|].
  unfold ExportChat.encodeProjectPath at 1.
  rewrite (backslashesToSlashes_id _ Hback), (dropTrailingSlash_plain _ Hslash).
  apply mapChars_id. intros c Hc.
  destruct (Ascii.eqb c ":") eqn:E1.
  { apply Ascii.eqb_eq in E1. subst c. congruence. }
  destruct (Ascii.eqb c "/") eqn:E2; [|reflexivity].
  apply Ascii.eqb_eq in E2. subst c. congruence.
Qed.

Lemma find_first {A} (p : A -> bool) (l : list A) (x : A) :
  List.find p l = Some x ->
  exists pre post,
    l = pre ++ x :: post /\ p x = true /\ Forall (fun y => p y = false) pre.
Proof.
  induction l as [|a l IH]; [discriminate|]. cbn [List.find].
  destruct (p a) eqn:Ea.
  - intros [= <-]. exists [], l. split; [reflexivity|]. split; [exact Ea | constructor].
  - intros H. apply IH in H as (pre & post & -> & Hx & Hpre).
    exists (a :: pre), post. split; [reflexivity|]. split; [exact Hx|].
    constructor; assumption.
Qed.

Lemma filter_split {A} (P : A -> Prop) `{forall x, Decision (P x)} (l : list A)
    (x : A) (cpre cpost : list A) :
  filter P l = cpre ++ x :: cpost ->
  exists pre post,
    l = pre ++ x :: post /\ filter P pre = cpre /\ filter P post = cpost.
Proof.
  revert cpre; induction l as [|a l IH]; intros cpre.
  - destruct cpre; discriminate.
  - rewrite filter_cons. destruct (decide (P a)) as [Ha|Ha].
    + destruct cpre as [|c cpre]; cbn [app].
      * intros [= -> Hl]. exists [], l. split; [reflexivity|]. split; [reflexivity | exact Hl].
      * intros [= -> Hl]. apply IH in Hl as (pre & post & -> & Hpre & Hpost).
        exists (c :: pre), post. split; [reflexivity|].
        split; [|exact Hpost]. rewrite filter_cons_True by exact Ha. f_equal. exact Hpre.
    + intros Hl. apply IH in Hl as (pre & post & -> & Hpre & Hpost).
      exists (a :: pre), post. split; [reflexivity|].
      split; [|exact Hpost]. rewrite filter_cons_False by exact Ha. exact Hpre.
Qed.

(** The directory the third attempt of [findClaudeProjectDir] takes:
    the first of the longest candidates. *)
Lemma longest_candidate (P : string -> Prop) `{forall d, Decision (P d)}
    (dirs : list string) (d : string) (rest : list string) :
  ExportContinue.sortBy
    (fun a b : string => Some (Z.of_nat (Str.length b) - Z.of_nat (Str.length a)))
    (filter P dirs) = d :: rest ->
  exists pre post,
    dirs = pre ++ d :: post
    /\ P d
    /\ Forall (fun d' => P d' -> (Str.length d' < Str.length d)%nat) pre
    /\ Forall (fun d' => P d' -> (Str.length d' <= Str.length d)%nat) post.
Proof.
  intros Hsort.
  pose proof (sortBy_first
                (fun a b : string => Some (Z.of_nat (Str.length b)
                                           - Z.of_nat (Str.length a)))
                (fun d => Z.of_nat (Str.length d)) (filter P dirs)
                (fun a b _ _ => eq_refl)) as Hfirst.
  rewrite Hsort in Hfirst. destruct Hfirst as (cpre & cpost & Hc & Hlt & Hle).
  assert (Hd : d ∈ filter P dirs) by (rewrite Hc; set_solver).
  apply list_elem_of_filter in Hd as [Hd _].
  apply filter_split in Hc as (pre & post & -> & <- & <-).
  exists pre, post. split; [reflexivity|]. split; [exact Hd|].
  split; apply Forall_forall; intros d' Hin HP.
  - assert (Hin' : In d' (filter P pre))
      by (apply list_elem_of_In, list_elem_of_filter; auto).
    specialize (Hlt d' Hin'). lia.
  - assert (Hin' : In d' (filter P post))
      by (apply list_elem_of_In, list_elem_of_filter; auto).
    specialize (Hle d' Hin'). lia.
Qed.

(** X18: the directory [findClaudeProjectDir] returns is the one named
    by the encoded path when that exists.  Otherwise it is the first
    directory of the projects root whose name is the encoded path case
    apart, as [toLowerCase] tells; or else a directory whose name, case
    apart, begins the encoded path: the first of those with the most
    code units. *)
Theorem findClaudeProjectDir_found (sys : Sys) (cwd dir : string) :
  ExportChat.findClaudeProjectDir sys cwd = Some (ExportChat.Found dir) ->
  let root := ExportChat.claudeProjectsRoot sys in
  let encoded := ExportChat.encodeProjectPath cwd in
  let same := fun d => toLowerCase sys d = toLowerCase sys encoded in
  let begins := fun d =>
    Str.startsWith (toLowerCase sys encoded) (toLowerCase sys d) = true in
  existsSync sys root = true
  /\ (dir = path_join sys root encoded /\ existsSync sys dir = true
      \/ exists pre d post,
           readdirSync sys root = Some (pre ++ d :: post)
           /\ dir = path_join sys root d
           /\ d <> ""
           /\ (same d /\ Forall (fun d' => ~ same d') pre
               \/ begins d
                  /\ Forall (fun d' => begins d' ->
                                       (Str.length d' < Str.length d)%nat) pre
                  /\ Forall (fun d' => begins d' ->
                                       (Str.length d' <= Str.length d)%nat) post)).
Proof.
  cbn zeta. unfold ExportChat.findClaudeProjectDir. intros H.
  destruct (existsSync sys (ExportChat.claudeProjectsRoot sys)); simpl in H;
    [|discriminate].
  split; [reflexivity|]. revert H.
  set (root := ExportChat.claudeProjectsRoot sys).
  set (encoded := ExportChat.encodeProjectPath cwd).
  destruct (existsSync sys (path_join sys root encoded)) eqn:Eexact.
  { intros [= <-]. left. split; [reflexivity | exact Eexact]. }
  destruct (readdirSync sys root) as [dirs|]; simpl; [|discriminate].
  assert (Hthird :
            forall p rest,
              ExportContinue.sortBy
                (fun a b : string => Some (Z.of_nat (Str.length b)
                                           - Z.of_nat (Str.length a)))
                (filter (fun d => Str.startsWith (toLowerCase sys encoded)
                                    (toLowerCase sys d) = true) dirs) = p :: rest ->
              Str.nonEmpty p = true ->
              exists pre d post,
                Some dirs = Some (pre ++ d :: post)
                /\ path_join sys root p = path_join sys root d
                /\ d <> ""
                /\ (toLowerCase sys d = toLowerCase sys encoded
                    /\ Forall (fun d' => toLowerCase sys d' <> toLowerCase sys encoded) pre
                    \/ Str.startsWith (toLowerCase sys encoded) (toLowerCase sys d) = true
                       /\ Forall (fun d' =>
                                    Str.startsWith (toLowerCase sys encoded)
                                      (toLowerCase sys d') = true ->
                                    (Str.length d' < Str.length d)%nat) pre
                       /\ Forall (fun d' =>
                                    Str.startsWith (toLowerCase sys encoded)
                                      (toLowerCase sys d') = true ->
                                    (Str.length d' <= Str.length d)%nat) post)).
  { intros p rest Hsort Hne.
    apply longest_candidate in Hsort as (pre & post & -> & Hp & Hpre & Hpost).
    exists pre, p, post. split; [reflexivity|]. split; [reflexivity|].
    split; [intros ->; discriminate|]. right. auto. }
  destruct (List.find _ dirs) as [m|] eqn:Efind; simpl.
  - destruct (Str.nonEmpty m) eqn:Ene.
    + intros [= <-]. right.
      apply find_first in Efind as (pre & post & -> & Heq & Hpre).
      apply String.eqb_eq in Heq.
      exists pre, m, post. split; [reflexivity|]. split; [reflexivity|].
      split; [intros ->; discriminate|]. left. split; [exact Heq|].
      eapply Forall_impl; [exact Hpre|]. intros d' Hd' Hsame. cbv beta in Hd'.
      rewrite Hsame, String.eqb_refl in Hd'. discriminate.
    + destruct (ExportContinue.sortBy _ _) as [|p rest] eqn:Es; simpl; [discriminate|].
      destruct (Str.nonEmpty p) eqn:Ep; [|discriminate].
      intros [= <-]. right. exact (Hthird p rest eq_refl Ep).
  - destruct (ExportContinue.sortBy _ _) as [|p rest] eqn:Es; simpl; [discriminate|].
    destruct (Str.nonEmpty p) eqn:Ep; [|discriminate].
    intros [= <-]. right. exact (Hthird p rest eq_refl Ep).
Qed.

(** Runs of X18: from [/home/dev/tool/src] the sessions of
    [/home/dev/Tool] are found, not those of [/home/dev]; so are, from
    [/home/dev/été/src], those of [/home/dev/Été], whose name has 13
    code units. *)
Lemma findClaudeProjectDir_found_witness :
  (exists pre post,
     readdirSync sampleSys "/home/dev/.claude/projects"
     = Some (pre ++ "-home-dev-Tool" :: post)
     /\ Forall (fun d' =>
                  Str.startsWith "-home-dev-tool-src" (Str.lowerLatin d') = true ->
                  (Str.length d' < 14)%nat) pre)
  /\ (exists pre post,
        readdirSync sampleSys "/home/dev/.claude/projects"
        = Some (pre ++ "-home-dev-Été" :: post)
        /\ Forall (fun d' =>
                     Str.startsWith "-home-dev-été-src" (Str.lowerLatin d') = true ->
                     (Str.length d' < 13)%nat) pre).
Proof.
  split.
  - destruct (findClaudeProjectDir_found sampleSys "/home/dev/tool/src"
                "/home/dev/.claude/projects/-home-dev-Tool")
      as [_ [[_ H]|(pre & d & post & Hdirs & Hdir & _ & [[Hsame _]|(_ & Hpre & _)])]].
    + vm_compute. reflexivity.
    + vm_compute in H. discriminate.
    + assert (d = "-home-dev-Tool") as -> by (vm_compute in Hdir; congruence).
      vm_compute in Hsame. discriminate.
    + assert (d = "-home-dev-Tool") as -> by (vm_compute in Hdir; congruence).
      exists pre, post. split; [exact Hdirs | exact Hpre].
  - destruct (findClaudeProjectDir_found sampleSys "/home/dev/été/src"
                "/home/dev/.claude/projects/-home-dev-Été")
      as [_ [[_ H]|(pre & d & post & Hdirs & Hdir & _ & [[Hsame _]|(_ & Hpre & _)])]].
    + vm_compute. reflexivity.
    + vm_compute in H. discriminate.
    + assert (d = "-home-dev-Été") as -> by (vm_compute in Hdir; congruence).
      vm_compute in Hsame. discriminate.
    + assert (d = "-home-dev-Été") as -> by (vm_compute in Hdir; congruence).
      exists pre, post. split; [exact Hdirs | exact Hpre].
Defined.

(** ** The name of the project *)

Lemma drop_past_one (a : string) (c : ascii) (b : string) :
  Str.drop (S (String.length a)) (a +:+ String c b) = b.
Proof.
  induction a as [|d a IH]; [destruct b; reflexivity|]. exact IH.
Qed.

Lemma lastIndexOf_none (c : ascii) (s : string) :
  Str.contains c s = false -> Str.lastIndexOf (String c "") s = None.
Proof.
  induction s as [|d s IH]; intros H; [reflexivity|].
  simpl in H. apply orb_false_elim in H as [Hd Hs].
  cbn [Str.lastIndexOf]. rewrite (IH Hs).
  rewrite (prefix_head c d); [reflexivity|].
  intros <-. rewrite Ascii.eqb_refl in Hd. discriminate.
Qed.

(** The last occurrence of a character that is not in what follows. *)
Lemma lastIndexOf_last (c : ascii) (pre seg : string) :
  Str.contains c seg = false ->
  Str.lastIndexOf (String c "") (pre +:+ String c seg) = Some (String.length pre).
Proof.
  intros Hseg. induction pre as [|d pre IH].
  - change ("" +:+ String c seg) with (String c seg).
    cbn [Str.lastIndexOf]. rewrite (lastIndexOf_none c seg Hseg).
    change (String c seg) with (String c "" +:+ seg). rewrite prefix_append. reflexivity.
  - change (String d pre +:+ String c seg) with (String d (pre +:+ String c seg)).
    cbn [Str.lastIndexOf]. rewrite IH. reflexivity.
Qed.

Lemma take_length (a b : string) : Str.take (String.length a) (a +:+ b) = a.
Proof. rewrite take_append by lia. apply take_all. lia. Qed.

Lemma nonEmpty_spec (s : string) : Str.nonEmpty s = true <-> s <> "".
Proof.
  destruct s; cbn; split; intros H; try discriminate; try reflexivity.
  contradiction.
Qed.

(** The repository of a remote that ends with [/repo.git]. *)
Lemma repoOfRemote_git (pre repo : string) :
  Str.contains "/" repo = false -> repo <> "" ->
  ExportChat.repoOfRemote (pre +:+ "/" +:+ repo +:+ ".git") = Some repo.
Proof.
  intros Hrepo Hne. unfold ExportChat.repoOfRemote.
  change (pre +:+ "/" +:+ repo +:+ ".git") with (pre +:+ String "/" (repo +:+ ".git")).
  rewrite (lastIndexOf_last "/" pre (repo +:+ ".git"))
    by (rewrite contains_append, Hrepo; reflexivity).
  rewrite drop_past_one, endsWith_append.
  assert (Hlen : String.length (repo +:+ ".git") = (String.length repo + 4)%nat)
    by (rewrite length_append; reflexivity).
  assert (Hpos : (0 < String.length repo)%nat) by (destruct repo; [congruence | simpl; lia]).
  replace (Str.nonEmpty (repo +:+ ".git")) with true
    by (symmetry; apply nonEmpty_spec; destruct repo; discriminate).
  rewrite Hlen. replace (4 <? String.length repo + 4)%nat with true
    by (symmetry; apply Nat.ltb_lt; lia).
  cbn [andb]. replace (String.length repo + 4 - 4)%nat with (String.length repo) by lia.
  rewrite take_length. reflexivity.
Qed.

(** The scope of a package name goes. *)
Lemma stripScope_scoped (scope name : string) :
  Str.contains "/" scope = false -> scope <> "" ->
  ExportChat.stripScope ("@" +:+ scope +:+ "/" +:+ name) = name.
Proof.
  intros Hscope Hne.
  change ("@" +:+ scope +:+ "/" +:+ name) with (String "@" (scope +:+ String "/" "" +:+ name)).
  cbn [ExportChat.stripScope]. rewrite (indexOf_after "/" "" scope name Hscope).
  destruct scope as [|c scope]; [congruence|]. cbn [String.length].
  change (String c scope +:+ String "/" "" +:+ name)
    with (String c scope +:+ String "/" name).
  apply (drop_past_one (String c scope) "/" name).
Qed.

(** X19: [detectProjectName] takes the name of [package.json] when it
    has one, without its scope; without a readable [package.json] it
    takes the repository of the remote [origin], what follows the last
    slash of the address without a final [.git]; and it takes the name
    of the folder when [git] fails as well. *)
Theorem detectProjectName_priority (h : Host) (sys : Sys) (projectRoot : string) :
  let pkgFile := path_join sys projectRoot "package.json" in
  (forall text pkg n,
     readFileSync sys pkgFile = Some text -> JSON_parse h text = Some pkg ->
     optProp pkg "name" = VStr n -> n <> "" ->
     ExportChat.detectProjectName h sys projectRoot = ExportChat.stripScope n)
  /\ (forall scope name,
        Str.contains "/" scope = false -> scope <> "" ->
        ExportChat.stripScope ("@" +:+ scope +:+ "/" +:+ name) = name)
  /\ (forall url pre repo,
        readFileSync sys pkgFile = None ->
        execSync h "git remote get-url origin" projectRoot = Some url ->
        Str.trim url = pre +:+ "/" +:+ repo +:+ ".git" ->
        Str.contains "/" repo = false -> repo <> "" ->
        ExportChat.detectProjectName h sys projectRoot = repo)
  /\ (readFileSync sys pkgFile = None ->
      execSync h "git remote get-url origin" projectRoot = None ->
      ExportChat.detectProjectName h sys projectRoot = path_basename sys projectRoot).
Proof.
  cbn zeta. unfold ExportChat.detectProjectName. repeat split.
  - intros text pkg n -> Hpkg Hname Hne. simpl. rewrite Hpkg. simpl.
    assert (Hprop : prop pkg "name" = Some (VStr n)).
    { rewrite <- Hname. apply prop_defined.
      destruct pkg; try reflexivity; discriminate. }
    rewrite Hprop. simpl.
    destruct n; [congruence | reflexivity].
  - apply stripScope_scoped.
  - intros url pre repo -> -> Htrim Hrepo Hne. simpl.
    rewrite Htrim, repoOfRemote_git by assumption. reflexivity.
  - intros -> ->. reflexivity.
Qed.

(** ** The arguments *)

Lemma hd_nonEmpty (rest : list string) :
  Str.nonEmpty (hd "" rest) = true -> In (hd "" rest) rest /\ hd "" rest <> "".
Proof.
  destruct rest as [|x rest]; [discriminate|]. simpl. intros H.
  split; [left; reflexivity | apply nonEmpty_spec, H].
Qed.

Lemma parseArgsFrom_keeps (sys : Sys) (argv args : list string) :
  (forall a, In a args -> In a argv) ->
  forall skip opts,
    fromArgs sys argv opts ->
    fromArgs sys argv (ExportChat.parseArgsFrom sys args skip opts).
Proof.
  induction args as [|arg rest IH]; intros Hargs skip opts Hopts; [exact Hopts|].
  assert (Hrest : forall a, In a rest -> In a argv)
    by (intros a Ha; apply Hargs; right; exact Ha).
  assert (Harg : In arg argv) by (apply Hargs; left; reflexivity).
  specialize (IH Hrest). cbn [ExportChat.parseArgsFrom].
  destruct skip; [apply IH, Hopts|].
  destruct Hopts as (Hmax & Hlist & Hthink & Hres & Hsess & Hout).
  destruct (String.eqb arg "--list" || String.eqb arg "-l") eqn:El.
  { apply IH. unfold fromArgs. simpl. repeat (split; [assumption|]).
    split; [|split; [|split; [|auto]]]; try assumption.
    intros _. apply orb_true_iff in El as [E|E]; apply String.eqb_eq in E; subst arg; auto. }
  destruct (String.eqb arg "--no-thinking") eqn:Et.
  { apply String.eqb_eq in Et. subst arg.
    apply IH. unfold fromArgs. simpl. auto 10. }
  destruct (String.eqb arg "--no-results") eqn:Er.
  { apply String.eqb_eq in Er. subst arg.
    apply IH. unfold fromArgs. simpl. auto 10. }
  destruct (String.eqb arg "--max-result-lines" && Str.nonEmpty (hd "" rest)) eqn:Em.
  { apply IH. unfold fromArgs. simpl. split; [|auto 10].
    destruct (parseInt10 (hd "" rest)) as [n|]; [|discriminate].
    destruct (Z.eqb_spec n 0); [discriminate | assumption]. }
  destruct ((String.eqb arg "--output" || String.eqb arg "-o")
            && Str.nonEmpty (hd "" rest)) eqn:Eo.
  { apply andb_prop in Eo as [_ Hnext]. apply hd_nonEmpty in Hnext as [Hin Hne].
    apply IH. unfold fromArgs. simpl. repeat (split; [assumption|]).
    right. exists (hd "" rest). auto. }
  destruct (Str.startsWith arg "-") eqn:Ed.
  { apply IH. unfold fromArgs. auto 10. }
  apply IH. unfold fromArgs. simpl. repeat (split; [assumption|]).
  split; [|assumption]. intros s [= <-]. auto.
Qed.

(** X20: what [parseArgs] of [export-chat.js] returns comes from the
    arguments: the line budget is never 0; listing, leaving out the
    thinking or the results is set only by its flag; the session id is
    an argument that does not begin with a dash; and the output
    directory is the downloads folder or an argument that is not
    empty, resolved. *)
Theorem parseArgs_from_arguments (sys : Sys) (argv : list string) :
  let opts := ExportChat.parseArgs sys argv in
  ExportChat.maxResultLines (ExportChat.options opts) <> 0
  /\ (ExportChat.listFlag opts = true -> In "--list" argv \/ In "-l" argv)
  /\ (ExportChat.includeThinking (ExportChat.options opts) = false
      -> In "--no-thinking" argv)
  /\ (ExportChat.includeResults (ExportChat.options opts) = false
      -> In "--no-results" argv)
  /\ (forall s, ExportChat.sessionArg opts = Some s ->
                In s argv /\ Str.startsWith s "-" = false)
  /\ (ExportChat.outputDir opts = ExportChat.DOWNLOADS_DIR sys
      \/ exists d, In d argv /\ d <> ""
                   /\ ExportChat.outputDir opts = path_resolve sys d).
Proof.
  cbn zeta. apply (parseArgsFrom_keeps sys argv argv (fun a Ha => Ha)).
  unfold fromArgs. simpl. split; [discriminate|].
  split; [discriminate|]. split; [discriminate|]. split; [discriminate|].
  split; [discriminate | left; reflexivity].
Qed.

Lemma parseArgsFrom_keeps_continue (sys : Sys) (argv args : list string) :
  (forall a, In a args -> In a argv) ->
  forall skip opts,
    fromArgsContinue sys argv opts ->
    fromArgsContinue sys argv (ExportContinueCli.parseArgsFrom sys args skip opts).
Proof.
  induction args as [|arg rest IH]; intros Hargs skip opts Hopts; [exact Hopts|].
  assert (Hrest : forall a, In a rest -> In a argv)
    by (intros a Ha; apply Hargs; right; exact Ha).
  assert (Harg : In arg argv) by (apply Hargs; left; reflexivity).
  specialize (IH Hrest). cbn [ExportContinueCli.parseArgsFrom].
  destruct skip; [apply IH, Hopts|].
  destruct Hopts as (Hlist & Hsess & Hout).
  destruct (String.eqb arg "--list" || String.eqb arg "-l") eqn:El.
  { apply IH. unfold fromArgsContinue. simpl. split; [|auto].
    intros _. apply orb_true_iff in El as [E|E]; apply String.eqb_eq in E; subst arg; auto. }
  destruct ((String.eqb arg "--output" || String.eqb arg "-o")
            && Str.nonEmpty (hd "" rest)) eqn:Eo.
  { apply andb_prop in Eo as [_ Hnext]. apply hd_nonEmpty in Hnext as [Hin Hne].
    apply IH. unfold fromArgsContinue. simpl. repeat (split; [assumption|]).
    right. exists (hd "" rest). auto. }
  destruct (Str.startsWith arg "-") eqn:Ed; simpl.
  { apply IH. unfold fromArgsContinue. auto. }
  apply IH. unfold fromArgsContinue. simpl. split; [assumption|].
  split; [|assumption]. intros s [= <-]. auto.
Qed.

(** X21: what [parseArgs] of [export-continue.js] returns comes from
    the arguments: listing is set only by its flag; the session id is
    an argument that does not begin with a dash; and the output
    directory is the downloads folder or an argument that is not
    empty, resolved. *)
Theorem parseArgs_continue_from_arguments (sys : Sys) (argv : list string) :
  let opts := ExportContinueCli.parseArgs sys argv in
  (ExportContinueCli.listFlag opts = true -> In "--list" argv \/ In "-l" argv)
  /\ (forall s, ExportContinueCli.sessionArg opts = Some s ->
                In s argv /\ Str.startsWith s "-" = false)
  /\ (ExportContinueCli.outputDir opts = ExportChat.DOWNLOADS_DIR sys
      \/ exists d, In d argv /\ d <> ""
                   /\ ExportContinueCli.outputDir opts = path_resolve sys d).
Proof.
  cbn zeta. apply (parseArgsFrom_keeps_continue sys argv argv (fun a Ha => Ha)).
  unfold fromArgsContinue. simpl.
  split; [discriminate|]. split; [discriminate | left; reflexivity].
Qed.

(** ** The listing of the sessions *)

Lemma length_newlinesToSpaces (s : string) :
  Str.length (Str.newlinesToSpaces s) = Str.length s.
Proof.
  induction s as [|c s IH]; [reflexivity|].
  cbn [Str.newlinesToSpaces Str.length]. rewrite IH. f_equal.
  destruct (Ascii.eqb_spec c Str.newline) as [->|_]; reflexivity.
Qed.

Lemma newlinesToSpaces_one_line (s : string) :
  Str.contains Str.newline (Str.newlinesToSpaces s) = false.
Proof.
  induction s as [|c s IH]; [reflexivity|]. cbn [Str.newlinesToSpaces Str.contains].
  rewrite IH, orb_false_r. destruct (Ascii.eqb c Str.newline) eqn:E; [reflexivity | exact E].
Qed.

Lemma highHalf_start (c b1 b2 : ascii) :
  String.prefix "<" (Str.newlinesToSpaces (Str.highHalf c b1 b2)) = false.
Proof.
  destruct c as [c0 c1 c2 c3 c4 c5 c6 c7], b1 as [p0 p1 p2 p3 p4 p5 p6 p7],
    b2 as [q0 q1 q2 q3 q4 q5 q6 q7].
  unfold Str.highHalf. destruct (ascii_of_N _). reflexivity.
Qed.

Lemma preview_keeps_start (n : nat) (t : string) :
  Str.startsWith t "<" = false ->
  Str.startsWith (Str.newlinesToSpaces (Str.takeUnits n t)) "<" = false.
Proof.
  unfold Str.startsWith. destruct n as [|n], t as [|a t]; try reflexivity.
  intros H.
  assert (Hkeep : forall rest,
            String.prefix "<" (Str.newlinesToSpaces (String a rest)) = false).
  { intros rest. cbn [Str.newlinesToSpaces String.prefix].
    destruct (Ascii.eqb a Str.newline) eqn:Ea; [reflexivity|].
    cbn [String.prefix] in H.
    destruct (ascii_dec "<" a); [|reflexivity]. destruct t; discriminate. }
  cbn [Str.takeUnits]. destruct (Str.isCont a); [apply Hkeep|].
  destruct (Str.units a <=? S n)%nat; [apply Hkeep | apply highHalf_start].
Qed.

(** The text block of a preview does not begin with [<]. *)
Lemma findTextBlock_spec (content : list value) (c : value) :
  ExportChat.findTextBlock content = Some (Some c) ->
  forall t, optProp c "text" = VStr t -> Str.startsWith t "<" = false.
Proof.
  induction content as [|b content IH]; [discriminate|]. cbn [ExportChat.findTextBlock].
  destruct (prop b "type") as [ty|]; simpl; [|discriminate].
  destruct (isStr ty "text"); [|exact IH].
  destruct (optProp b "text") as [| | | | |s| |] eqn:Eb; try discriminate.
  - intros [= <-] t. rewrite Eb. discriminate.
  - intros [= <-] t. rewrite Eb. discriminate.
  - destruct (Str.startsWith s "<") eqn:Es; [exact IH|].
    intros [= <-] t. rewrite Eb. intros [= <-]. exact Es.
Qed.

Lemma previewOfLine_spec (h : Host) (line p : string) :
  ExportChat.previewOfLine h line = Some p ->
  (Str.length p <= 80)%nat
  /\ Str.contains Str.newline p = false
  /\ Str.startsWith p "<" = false.
Proof.
  unfold ExportChat.previewOfLine.
  destruct (JSON_parse h line) as [obj|]; simpl; [|discriminate].
  destruct (prop obj "type") as [ty|]; simpl; [|discriminate].
  destruct (isStr ty "user" && _); [|discriminate].
  destruct (asArray _) as [content|]; simpl; [|discriminate].
  destruct (ExportChat.findTextBlock content) as [[c|]|] eqn:Ef; simpl; try discriminate.
  destruct (optProp c "text") as [| | | | |t| |] eqn:Et; try discriminate. simpl.
  intros [= <-]. rewrite substring_start.
  split; [rewrite length_newlinesToSpaces, length_takeUnits; lia|].
  split; [apply newlinesToSpaces_one_line|].
  apply preview_keeps_start, (findTextBlock_spec content c Ef t Et).
Qed.

Lemma firstPreview_spec (h : Host) (lines : list string) :
  (Str.length (ExportChat.firstPreview h lines) <= 80)%nat
  /\ Str.contains Str.newline (ExportChat.firstPreview h lines) = false
  /\ Str.startsWith (ExportChat.firstPreview h lines) "<" = false.
Proof.
  induction lines as [|line lines IH]; cbn [ExportChat.firstPreview].
  - simpl. split; [lia | split; reflexivity].
  - destruct (negb _); [exact IH|].
    destruct (ExportChat.previewOfLine h line) as [p|] eqn:E; [|exact IH].
    eapply previewOfLine_spec, E.
Qed.

Lemma Forall2_In_r {A B} (R : A -> B -> Prop) (l : list A) (k : list B) (y : B) :
  Forall2 R l k -> In y k -> exists x, In x l /\ R x y.
Proof.
  induction 1 as [|x y' l k Hxy _ IH]; intros Hy; [destruct Hy|].
  destruct Hy as [<-|Hy]; [exists x; split; [left; reflexivity | exact Hxy]|].
  destruct (IH Hy) as (x' & Hx' & Hr). exists x'. split; [right; exact Hx' | exact Hr].
Qed.

Lemma descending_firstn (n : nat) (l : list Z) :
  descending l -> descending (firstn n l).
Proof.
  revert l; induction n as [|n IH]; intros [|x l]; simpl; auto.
  intros [Hx Hl]. split; [apply Forall_firstn, Hx | apply IH, Hl].
Qed.

(** X22: the sessions [listSessions] shows are at most [count], the
    most recently modified first; each is a [.jsonl] file of the
    directory under its name without [.jsonl], with a preview of at
    most 80 characters on one line that does not begin with [<]; and
    the listing has two lines of heading and three lines for each
    session. *)
Theorem listSessions_recent (h : Host) (d : ExportContinue.Dir) (dir : string)
    (count : Z) (files : list ExportChat.Session) :
  0 <= count ->
  ExportChat.recentSessions h d count = Some files ->
  Z.of_nat (length files) <= count
  /\ descending (map ExportChat.sessionMtime files)
  /\ Forall (fun s =>
               (exists f, In f (ExportContinue.candidates d)
                          /\ ExportChat.sessionId s
                             = ExportContinue.removeFirst ".jsonl" f)
               /\ (Str.length (ExportChat.preview s) <= 80)%nat
               /\ Str.contains Str.newline (ExportChat.preview s) = false
               /\ Str.startsWith (ExportChat.preview s) "<" = false) files
  /\ exists out,
       ExportChat.listSessions h d dir count = Some out
       /\ length out = (2 + 3 * length files)%nat.
Proof.
  intros Hcount. unfold ExportChat.listSessions, ExportChat.recentSessions.
  destruct (mapM _ _) as [all|] eqn:Eall; simpl; [|discriminate].
  unfold ExportChat.sliceTo. destruct (Z.ltb_spec count 0) as [|_]; [lia|].
  intros [= <-]. split; [rewrite List.length_firstn; lia|]. split.
  { rewrite <- firstn_map. apply descending_firstn.
    apply sortBy_descending. reflexivity. }
  split.
  { apply Forall_firstn, Forall_forall. intros s Hs.
    apply list_elem_of_In, In_sortBy in Hs.
    apply mapM_Some in Eall.
    destruct (Forall2_In_r _ _ _ _ Eall Hs) as (f & Hf & Hsf).
    unfold ExportChat.sessionOf in Hsf.
    destruct (ExportContinue.file d f) as [st|]; simpl in Hsf; [|discriminate].
    injection Hsf as <-. simpl.
    split; [exists f; split; [exact Hf | reflexivity]|].
    apply firstPreview_spec. }
  eexists. split; [reflexivity|].
  cbn [app length Nat.add]. do 2 f_equal.
  generalize (firstn (Z.to_nat count)
                (ExportContinue.sortBy
                   (fun a b => Some (ExportChat.sessionMtime b - ExportChat.sessionMtime a))
                   all)).
  intros l. induction l as [|x l IH]; simpl; [reflexivity|]. rewrite IH. lia.
Qed.

(** A run of X22: the two logs of [twoShortSessions], the one touched
    last first. *)
Lemma listSessions_recent_witness :
  exists files,
    ExportChat.recentSessions sampleHost twoShortSessions 15 = Some files
    /\ map ExportChat.sessionId files = ["older"; "newer"]
    /\ descending (map ExportChat.sessionMtime files).
Proof.
  destruct (ExportChat.recentSessions sampleHost twoShortSessions 15) as [files|] eqn:E;
    [|vm_compute in E; discriminate].
  exists files. split; [reflexivity|]. split.
  - vm_compute in E. injection E as <-. reflexivity.
  - apply (listSessions_recent sampleHost twoShortSessions "" 15 files); [lia | exact E].
Defined.

(** ** The session a command names *)

Lemma drop_all (n : nat) (s : string) :
  (String.length s <= n)%nat -> Str.drop n s = "".
Proof.
  revert s; induction n as [|n IH]; intros [|c s]; simpl; intros H;
    try reflexivity; try lia.
  apply IH. lia.
Qed.

(** [.jsonl] at the end of a name without a dot goes. *)
Lemma removeFirst_jsonl (s : string) :
  Str.contains "." s = false ->
  ExportContinue.removeFirst ".jsonl" (s +:+ ".jsonl") = s.
Proof.
  intros Hs. unfold ExportContinue.removeFirst.
  change (s +:+ ".jsonl") with (s +:+ String "." "jsonl" +:+ "").
  rewrite (indexOf_after "." "jsonl" s "" Hs).
  change (s +:+ String "." "jsonl" +:+ "") with (s +:+ ".jsonl").
  rewrite take_length, drop_all by (rewrite length_append; simpl; lia).
  apply append_empty.
Qed.

Lemma chooseSession_plain (h : Host) (d : ExportContinue.Dir) (sid : string) :
  sid <> "" -> Str.contains "." sid = false ->
  ExportChat.chooseSession h d (Some sid) = Some (sid +:+ ".jsonl", sid).
Proof.
  intros Hne Hdot. unfold ExportChat.chooseSession.
  change (default "" (Some sid)) with sid.
  replace (Str.nonEmpty sid) with true by (symmetry; apply nonEmpty_spec, Hne).
  destruct (Str.endsWith sid ".jsonl") eqn:E; [|reflexivity].
  apply (endsWith_contains ".") in E; [congruence | reflexivity].
Qed.

(** X23: a session id without a dot and the name of its file name the
    same session: with either, [main] reads the file [id.jsonl] and
    exports under the id, whatever the directory holds. *)
Theorem chooseSession_by_id (h : Host) (d : ExportContinue.Dir) (sid : string) :
  sid <> "" -> Str.contains "." sid = false ->
  ExportChat.chooseSession h d (Some sid) = Some (sid +:+ ".jsonl", sid)
  /\ ExportChat.chooseSession h d (Some (sid +:+ ".jsonl"))
     = Some (sid +:+ ".jsonl", sid).
Proof.
  intros Hne Hdot. split; [apply chooseSession_plain; assumption|].
  unfold ExportChat.chooseSession.
  change (default "" (Some (sid +:+ ".jsonl"))) with (sid +:+ ".jsonl").
  replace (Str.nonEmpty (sid +:+ ".jsonl")) with true
    by (symmetry; apply nonEmpty_spec; destruct sid; discriminate).
  rewrite endsWith_append. cbn [negb]. rewrite (removeFirst_jsonl sid Hdot).
  reflexivity.
Qed.

(** A run of X23. *)
Lemma chooseSession_by_id_witness :
  ExportChat.chooseSession sampleHost twoShortSessions (Some "0a1b2c3d")
    = Some ("0a1b2c3d.jsonl", "0a1b2c3d")
  /\ ExportChat.chooseSession sampleHost twoShortSessions (Some "0a1b2c3d.jsonl")
     = Some ("0a1b2c3d.jsonl", "0a1b2c3d").
Proof.
  apply (chooseSession_by_id sampleHost twoShortSessions "0a1b2c3d");
    [discriminate | reflexivity].
Defined.

(** ** The state of the repository *)

Lemma nonEmptyLines_spec (s : string) :
  Forall (fun l => l <> "" /\ Str.contains Str.newline l = false)
    (ExportContinue.nonEmptyLines s).
Proof.
  unfold ExportContinue.nonEmptyLines, Str.lines. apply Forall_forall. intros l Hl.
  apply list_elem_of_filter in Hl as [Hne Hl]. split; [apply nonEmpty_spec, Hne|].
  pose proof (split_pieces Str.newline s) as Hp. rewrite Forall_forall in Hp.
  apply Hp, Hl.
Qed.

(** X24: the git context of the handoff is all or nothing: when one
    of the three [git] commands fails, the branch is [unknown] and the
    two lists are empty, whatever the other commands answered.
    Otherwise no commit line is empty or holds a newline, and no file
    path holds a backslash. *)
Theorem getGitContext_all_or_nothing (h : Host) :
  ((exists cmd, In cmd gitCommands /\ execSync h cmd (PROJECT_ROOT h) = None) ->
   ExportContinue.getGitContext h
   = {| ExportContinue.branch := "unknown"; ExportContinue.recent_commits := [];
        ExportContinue.uncommitted_files := [] |})
  /\ Forall (fun l => l <> "" /\ Str.contains Str.newline l = false)
       (ExportContinue.recent_commits (ExportContinue.getGitContext h))
  /\ Forall (fun f => Str.contains "\" f = false)
       (ExportContinue.uncommitted_files (ExportContinue.getGitContext h)).
Proof.
  unfold ExportContinue.getGitContext, gitCommands.
  destruct (execSync h "git rev-parse --abbrev-ref HEAD" (PROJECT_ROOT h))
    as [branch|] eqn:E1; simpl.
  2:{ split; [reflexivity|]. split; constructor. }
  destruct (execSync h ("git log --oneline -5 --format=" +:+ _) (PROJECT_ROOT h))
    as [log|] eqn:E2; simpl.
  2:{ split; [reflexivity|]. split; constructor. }
  destruct (execSync h "git diff --name-only HEAD" (PROJECT_ROOT h))
    as [status|] eqn:E3; simpl.
  2:{ split; [reflexivity|]. split; constructor. }
  destruct (mapM _ _) as [files|] eqn:Ef; simpl.
  2:{ split; [reflexivity|]. split; constructor. }
  split.
  { intros (cmd & [<-|[<-|[<-|[]]]] & Hcmd); congruence. }
  split; [apply nonEmptyLines_spec|].
  apply mapM_Some in Ef. apply Forall_forall. intros f Hf.
  apply list_elem_of_In in Hf.
  destruct (Forall2_In_r _ _ _ _ Ef Hf) as (x & _ & Hx).
  apply (shortPath_no_backslash h (VStr x) f Hx).
Qed.

(** ** The two commands, end to end *)

(** An argument that does not begin with a dash is no flag. *)
Lemma not_a_flag (arg flag : string) :
  Str.startsWith arg "-" = false -> Str.startsWith flag "-" = true ->
  String.eqb arg flag = false.
Proof.
  intros Harg Hflag. destruct (String.eqb arg flag) eqn:E; [|reflexivity].
  apply String.eqb_eq in E. congruence.
Qed.

Lemma parseArgs_session (sys : Sys) (sid : string) :
  Str.startsWith sid "-" = false ->
  ExportContinueCli.parseArgs sys [sid]
  = {| ExportContinueCli.listFlag := false;
       ExportContinueCli.sessionArg := Some sid;
       ExportContinueCli.outputDir := ExportChat.DOWNLOADS_DIR sys |}.
Proof.
  intros Hsid. unfold ExportContinueCli.parseArgs. cbn [ExportContinueCli.parseArgsFrom].
  rewrite !(not_a_flag sid _ Hsid) by reflexivity. rewrite Hsid. reflexivity.
Qed.

Lemma JSON_pretty_object (fields : list (string * value)) :
  is_Some (ExportChat.JSON_pretty "" (VObj fields)).
Proof. cbn [ExportChat.JSON_pretty]. destruct (omap _ fields); eauto. Qed.

(** X25: [main] of [export-continue.js], called with a session id
    that has no dot and does not begin with a dash, exports: when the
    log of that session exists and is well-formed, it writes the
    printed handoff of the parsed log to the downloads folder, in a
    file named after the clock and the first eight characters of the
    id. *)
Theorem main_exports_handoff (h : Host) (sys : Sys) (d : ExportContinue.Dir)
    (dir sid : string) (f : ExportContinue.File) (writtenAt : Z) :
  sid <> "" -> Str.contains "." sid = false -> Str.startsWith sid "-" = false ->
  existsSync sys (path_join sys dir (sid +:+ ".jsonl")) = true ->
  ExportContinue.file d (sid +:+ ".jsonl") = Some f ->
  wellFormed h (ExportContinue.parseJsonl h (ExportContinue.data f)) = true ->
  exists handoff json console,
    ExportContinue.extractHandoff h
      (ExportContinue.parseJsonl h (ExportContinue.data f)) sid = Some handoff
    /\ ExportChat.JSON_pretty "" handoff = Some json
    /\ ExportContinueCli.main h sys d dir [sid] writtenAt
       = Some (ExportChat.Exported console
                 (negb (existsSync sys (ExportChat.DOWNLOADS_DIR sys)))
                 (path_join sys (ExportChat.DOWNLOADS_DIR sys)
                    ("claude-handoff_"
                       +:+ ExportChat.dateStrOf (Date_toISOString h writtenAt)
                       +:+ "_" +:+ Str.substring sid 0 8 +:+ ".json"))
                 json).
Proof.
  intros Hne Hdot Hdash Hexists Hfile Hwf.
  destruct (extractHandoff_defined h _ sid Hwf) as [handoff Hh].
  assert (Hjson : is_Some (ExportChat.JSON_pretty "" handoff)).
  { pose proof Hh as Hinv. apply extractHandoff_inv in Hinv
      as (trm & startTs & endTs & acc & dg & k & pr & dur & us & _ & _ & _ & _ & _ & _ & _
          & ->).
    apply JSON_pretty_object. }
  destruct Hjson as [json Hjson].
  exists handoff, json. eexists. split; [exact Hh|]. split; [exact Hjson|].
  unfold ExportContinueCli.main. rewrite (parseArgs_session sys sid Hdash).
  cbn [ExportContinueCli.listFlag ExportContinueCli.sessionArg
       ExportContinueCli.outputDir].
  rewrite (chooseSession_plain h d sid Hne Hdot), Hexists. cbn [negb].
  rewrite Hfile. cbn [mbind option_bind]. rewrite Hh. cbn [mbind option_bind].
  rewrite Hjson. cbn [mbind option_bind]. reflexivity.
Qed.

(** A run of X25: the session [older] of [twoShortSessions]. *)
Lemma main_exports_handoff_witness :
  exists json console,
    ExportContinueCli.main sampleHost sampleSys twoShortSessions
      "/home/dev/.claude/projects/-home-dev-app" ["older"] 1767268800000
    = Some (ExportChat.Exported console false
              "/home/dev/Downloads/claude-handoff_2026-01-01T12-00-00_older.json" json).
Proof.
  destruct (main_exports_handoff sampleHost sampleSys twoShortSessions
              "/home/dev/.claude/projects/-home-dev-app" "older"
              {| ExportContinue.mtime := 1767312000000;
                 ExportContinue.data :=
                   logLine "2025-12-31T23:00:00.000Z" "done" +:+ String Str.newline "" |}
              1767268800000)
    as (handoff & json & console & _ & _ & Hmain);
    [discriminate | reflexivity | reflexivity | reflexivity | reflexivity
     | vm_compute; reflexivity |].
  exists json, console. exact Hmain.
Defined.

Lemma parseArgs_flags_only (sys : Sys) (argv : list string) :
  Forall (fun a => Str.startsWith a "-" = true) argv ->
  ~ In "--list" argv -> ~ In "-l" argv ->
  ExportChat.listFlag (ExportChat.parseArgs sys argv) = false
  /\ ExportChat.sessionArg (ExportChat.parseArgs sys argv) = None.
Proof.
  intros Hdash Hlist Hl.
  assert (Hfrom : fromArgs sys argv (ExportChat.parseArgs sys argv)).
  { apply (parseArgsFrom_keeps sys argv argv (fun a Ha => Ha)).
    unfold fromArgs. simpl. split; [discriminate|].
    split; [discriminate|]. split; [discriminate|]. split; [discriminate|].
    split; [discriminate | left; reflexivity]. }
  destruct Hfrom as (_ & Hflag & _ & _ & Hsess & _). split.
  - destruct (ExportChat.listFlag _); [|reflexivity].
    destruct (Hflag eq_refl); contradiction.
  - destruct (ExportChat.sessionArg _) as [s|]; [|reflexivity].
    destruct (Hsess s eq_refl) as [Hin Hs].
    rewrite Forall_forall in Hdash. apply list_elem_of_In, Hdash in Hin. congruence.
Qed.

(** X26: [main] of [export-chat.js], called with flags only and not
    asked to list, leaves with [No session files found.] when the
    sessions directory holds no [.jsonl] file: it writes nothing. *)
Theorem main_no_sessions (h : Host) (sys : Sys) (d : ExportContinue.Dir)
    (dir : string) (argv : list string) (writtenAt : Z) :
  ExportContinue.candidates d = [] ->
  Forall (fun a => Str.startsWith a "-" = true) argv ->
  ~ In "--list" argv -> ~ In "-l" argv ->
  ExportChat.main h sys d dir argv writtenAt
  = Some (ExportChat.Exited "No session files found.").
Proof.
  intros Hnone Hdash Hlist Hl.
  destruct (parseArgs_flags_only sys argv Hdash Hlist Hl) as [Hflag Hsess].
  unfold ExportChat.main. rewrite Hflag, Hsess.
  unfold ExportChat.chooseSession, ExportContinue.activeSession. rewrite Hnone.
  reflexivity.
Qed.

(** A run of X26: a directory with notes only. *)
Lemma main_no_sessions_witness :
  ExportChat.main sampleHost sampleSys
    {| ExportContinue.readdirSync := ["notes.txt"];
       ExportContinue.file := fun _ => None |}
    "/home/dev/.claude/projects/-home-dev-app" ["--no-thinking"; "-o"; "-out"]
    1767268800000
  = Some (ExportChat.Exited "No session files found.").
Proof.
  apply main_no_sessions.
  - reflexivity.
  - repeat constructor.
  - intros [H|[H|[H|[]]]]; discriminate.
  - intros [H|[H|[H|[]]]]; discriminate.
Defined.

(** ** The times of the session *)

Lemma last_cons_default {A} (x : A) (l : list A) (d d' : A) :
  List.last (x :: l) d = List.last (x :: l) d'.
Proof.
  revert x; induction l as [|y l IH]; intros x; [reflexivity|].
  change (List.last (y :: l) d = List.last (y :: l) d'). apply IH.
Qed.

Lemma timestamps_from (entries : list value) :
  forall s0 e0 s e,
    forEach
      (fun (st : value * value) e =>
         ts ← prop e "timestamp";
         if truthy ts
         then Some (if truthy (fst st) then fst st else ts, ts)
         else Some st)
      entries (s0, e0) = Some (s, e) ->
    s = (if truthy s0 then s0 else hd s0 (stamps entries))
    /\ e = List.last (stamps entries) e0.
Proof.
  induction entries as [|x entries IH]; intros s0 e0 s e; cbn [forEach].
  - intros [= <- <-]. simpl. destruct (truthy s0); auto.
  - destruct (prop x "timestamp") as [ts|] eqn:Ets; simpl; [|discriminate].
    apply prop_Some in Ets. subst ts.
    unfold stamps. cbn [map List.filter]. fold (stamps entries).
    destruct (truthy (optProp x "timestamp")) eqn:Et.
    + intros H. apply IH in H as [-> ->]. split.
      * destruct (truthy s0) eqn:Es0; [rewrite Es0; reflexivity|]. rewrite Et. reflexivity.
      * destruct (stamps entries) as [|y l]; [reflexivity|].
        change (List.last (y :: l) (optProp x "timestamp") = List.last (y :: l) e0).
        apply last_cons_default.
    + apply IH.
Qed.

(** X27: in the handoff [session.started] is the timestamp of the first
    record that has one and [session.ended] that of the last, [null]
    when no record has one, and then [duration_minutes] is 0.  When
    both are strings the host reads as dates, [duration_minutes] is
    their distance in minutes, rounded. *)
Theorem handoff_times (h : Host) (entries : list value) (sessionId : string)
    (v : value) :
  ExportContinue.extractHandoff h entries sessionId = Some v ->
  let session := optProp v "session" in
  optProp session "started" = JSON_clone (hd VNull (stamps entries))
  /\ optProp session "ended" = JSON_clone (List.last (stamps entries) VNull)
  /\ (stamps entries = [] -> optProp session "duration_minutes" = VNum 0)
  /\ forall s e ts te,
       hd VNull (stamps entries) = VStr s ->
       List.last (stamps entries) VNull = VStr e ->
       Date_parse h s = Some ts -> Date_parse h e = Some te ->
       optProp session "duration_minutes"
       = VNum (ExportContinue.roundMinutes (te - ts)).
Proof.
  intros H. apply extractHandoff_inv in H
    as (trm & startTs & endTs & acc & dg & k & pr & dur & us
        & _ & Hts & _ & _ & _ & Hdur & _ & ->).
  apply timestamps_from in Hts as [-> ->]. cbn [truthy] in Hdur |- *.
  cbn zeta. unfold ExportContinue.assemble. rewrite !optProp_clone.
  cbn [firstDefined fst snd String.eqb Ascii.eqb Bool.eqb andb isUndef negb].
  rewrite !optProp_clone.
  cbn [firstDefined fst snd String.eqb Ascii.eqb Bool.eqb andb isUndef negb].
  assert (Hdef : forall x l, isUndef (hd VNull (List.filter truthy l)) = false
                             /\ isUndef (List.last (List.filter truthy l) VNull) = false
                             /\ (isUndef x = true -> truthy x = false)).
  { intros x l. split; [|split; [|destruct x; simpl; congruence]].
    - destruct (List.filter truthy l) as [|y l'] eqn:E; [reflexivity|]. simpl.
      assert (Hy : In y (List.filter truthy l)) by (rewrite E; left; reflexivity).
      apply filter_In in Hy as [_ Hy]. destruct y; simpl in *; congruence.
    - destruct (List.filter truthy l) as [|y l'] eqn:E using rev_ind; [reflexivity|].
      rewrite last_last.
      assert (Hy : In y (List.filter truthy l))
        by (rewrite E; apply in_or_app; right; left; reflexivity).
      apply filter_In in Hy as [_ Hy]. destruct y; simpl in *; congruence. }
  destruct (Hdef VNull (map (fun e => optProp e "timestamp") entries)) as (Hs & He & _).
  fold (stamps entries) in Hs, He. rewrite Hs, He. cbn [negb].
  split; [reflexivity|]. split; [reflexivity|].
  unfold ExportContinue.durationMin in Hdur. split.
  - intros Hnone. rewrite Hnone in Hdur. simpl in Hdur. injection Hdur as <-.
    reflexivity.
  - intros s e ts te Hhd Hlast Hps Hpe. rewrite Hhd, Hlast in Hdur.
    assert (Hts : truthy (VStr s) = true).
    { destruct (stamps entries) as [|y l] eqn:E; [discriminate|]. simpl in Hhd. subst y.
      assert (Hy : In (VStr s) (stamps entries)) by (rewrite E; left; reflexivity).
      apply filter_In in Hy as [_ Hy]. exact Hy. }
    assert (Hte : truthy (VStr e) = true).
    { destruct (stamps entries) as [|y l] eqn:E using rev_ind; [discriminate|].
      rewrite last_last in Hlast. subst y.
      assert (Hy : In (VStr e) (stamps entries))
        by (rewrite E; apply in_or_app; right; left; reflexivity).
      apply filter_In in Hy as [_ Hy]. exact Hy. }
    rewrite Hts, Hte in Hdur. simpl in Hdur. rewrite Hps, Hpe in Hdur.
    injection Hdur as <-. reflexivity.
Qed.

(** A run of X27: [sampleLog] begins at 10:00:00 and ends at 10:01:04. *)
Lemma handoff_times_witness :
  optProp (optProp sampleHandoff "session") "started" = VStr "2026-01-01T10:00:00.000Z"
  /\ optProp (optProp sampleHandoff "session") "ended" = VStr "2026-01-01T10:01:04.000Z"
  /\ optProp (optProp sampleHandoff "session") "duration_minutes" = VNum 1.
Proof.
  destruct (handoff_times sampleHost sampleLog "0a1b2c3d" sampleHandoff sampleHandoff_run)
    as (Hs & He & _ & Hd).
  split; [exact Hs|]. split; [exact He|].
  apply (Hd "2026-01-01T10:00:00.000Z" "2026-01-01T10:01:04.000Z"
            1767261600000 1767261664000); vm_compute; reflexivity.
Defined.
